(** * The optimizer catalog of pkg/sql/opt_catalog.go

    A shallow embedding of the catalog adaptation layer: the Go values the
    file manipulates (descriptors, zone configurations, statistics, the
    [cat] column wrapper), the wrappers it builds ([optSchema], [optTable],
    [optIndex], [optTableStat], [optForeignKeyConstraint],
    [optVirtualTable]) and the resolution by ID of [optCatalog] with the
    cache of data sources behind it; followed by the properties of the
    specification, stated over these definitions.

    Go integers are [Z] with the conversions' wrap-around written out;
    pointers to immutable objects are located values (an address and the
    object found there); functions that can return an [error] or panic
    return a [result]. *)

From stdpp Require Import base numbers list strings gmap.
From Stdlib Require Import ZArith.

(** ** Go runtime values *)

(** Integer conversions.  [uint32 x] is Go's [uint32(x)], and so on. *)
Definition uint32 (x : Z) : Z := (x mod 2 ^ 32)%Z.
Definition uint64 (x : Z) : Z := (x mod 2 ^ 64)%Z.
Definition int64 (x : Z) : Z := ((x + 2 ^ 63) mod 2 ^ 64 - 2 ^ 63)%Z.

(** [math.MaxUint32] and [math.MaxInt64]. *)
Definition MaxUint32 : Z := (2 ^ 32 - 1)%Z.
Definition MaxInt64 : Z := (2 ^ 63 - 1)%Z.

(** The errors and panic values the file produces or inspects. *)
Inductive error : Type :=
  | ErrDescriptorNotFound            (* catalog.ErrDescriptorNotFound *)
  | ErrAddingTable                   (* the "table is being added" error *)
  | UndefinedRelationError (tableID : Z)
  | UndefinedColumn (colID : Z)
  | UndefinedColumnName (name : string)
  | AssertionFailed (msg : string)
  | OtherError (msg : string).

Inductive panicValue : Type :=
  | PanicError (e : error)           (* panic(errors.AssertionFailedf(...)) *)
  | PanicString (msg : string)       (* panic("...") *)
  | PanicRuntime (msg : string).     (* index out of range, nil dereference,
                                        failed type assertion *)

Inductive result (A : Type) : Type :=
  | Ok (a : A)
  | Err (e : error)
  | Panic (p : panicValue).
Arguments Ok {A} a.
Arguments Err {A} e.
Arguments Panic {A} p.

#[global] Instance result_ret : MRet result := fun _ a => Ok a.
#[global] Instance result_bind : MBind result := fun _ _ f m =>
  match m with
  | Ok a => f a
  | Err e => Err e
  | Panic p => Panic p
  end.

Definition isOk {A} (r : result A) : bool :=
  match r with Ok _ => true | _ => false end.

(** A pointer to an immutable object: its address and the object there.
    [p == q] in Go compares the addresses. *)
Record ptr (A : Type) : Type := Ptr { loc : nat; obj : A }.
Arguments Ptr {A} loc obj.
Arguments loc {A} p.
Arguments obj {A} p.

Definition ptr_eqb {A} (p q : ptr A) : bool := Nat.eqb (loc p) (loc q).

(** Pointer comparison where either side may be nil. *)
Definition optptr_eqb {A} (p q : option (ptr A)) : bool :=
  match p, q with
  | None, None => true
  | Some p, Some q => ptr_eqb p q
  | _, _ => false
  end.

(** A non-nil slice: the address of its backing array and its elements.
    The nil slice is [None]. *)
Record slice (A : Type) : Type := Slice { base : nat; elems : list A }.
Arguments Slice {A} base elems.
Arguments base {A} s.
Arguments elems {A} s.

Definition slice_len {A} (s : option (slice A)) : nat :=
  match s with
  | None => O
  | Some s => length (elems s)
  end.

(** [&s[0]] for a slice known to be non-empty. *)
Definition slice_addr0 {A} (s : option (slice A)) : option nat :=
  match s with
  | None => None
  | Some s => Some (base s)
  end.

(** [l[i]] with Go's bounds check. *)
Definition index {A} (l : list A) (i : nat) : result A :=
  match l !! i with
  | Some x => Ok x
  | None => Panic (PanicRuntime "index out of range")
  end.

(** The allocator: the next free address. *)
Definition alloc (next : nat) : nat * nat := (next, S next).

(** ** Package types *)

Module types.

Inductive Family : Type :=
  | BoolFamily | IntFamily | DecimalFamily | StringFamily
  | JsonFamily | GeometryFamily | EnumFamily | TupleFamily.

(** Modelled from the spec: [types.T] is declared outside this file.  The
    file asks a type whether it is user defined, for its family, for the
    version of its user-defined metadata and for the members of an
    enumeration. *)
Record T : Type := mkT {
  Family_ : Family;
  UserDefined : bool;
  TypeMetaVersion : Z;
  EnumMembers : list string
  }.

Definition Int : T := mkT IntFamily false 0%Z [].
Definition Decimal : T := mkT DecimalFamily false 0%Z [].

#[global] Instance Family_eq_dec : EqDecision Family.
Proof. solve_decision. Defined.
#[global] Instance T_eq_dec : EqDecision T.
Proof. solve_decision. Defined.

End types.

Module descpb.

Inductive ConstraintValidity : Type :=
  | ConstraintValidity_Validated
  | ConstraintValidity_Unvalidated
  | ConstraintValidity_Validating
  | ConstraintValidity_Dropping.

Inductive IndexDescriptor_Type : Type :=
  | IndexDescriptor_FORWARD
  | IndexDescriptor_INVERTED.

Inductive IndexDescriptor_Direction : Type :=
  | IndexDescriptor_ASC
  | IndexDescriptor_DESC.

Inductive ForeignKeyReference_Match : Type :=
  | ForeignKeyReference_SIMPLE
  | ForeignKeyReference_FULL
  | ForeignKeyReference_PARTIAL.

Inductive ForeignKeyReference_Action : Type :=
  | ForeignKeyReference_NO_ACTION
  | ForeignKeyReference_RESTRICT
  | ForeignKeyReference_SET_NULL
  | ForeignKeyReference_SET_DEFAULT
  | ForeignKeyReference_CASCADE.

#[global] Instance ConstraintValidity_eq_dec : EqDecision ConstraintValidity.
Proof. solve_decision. Defined.
#[global] Instance IndexDescriptor_Type_eq_dec : EqDecision IndexDescriptor_Type.
Proof. solve_decision. Defined.
#[global] Instance IndexDescriptor_Direction_eq_dec :
  EqDecision IndexDescriptor_Direction.
Proof. solve_decision. Defined.

Module ColumnDescriptor.
Record t : Type := mk {
  ID : Z;
  Name : string;
  Type_ : types.T;
  Nullable : bool;
  Hidden : bool;
  DefaultExpr : option string;
  ComputeExpr : option string
  }.
End ColumnDescriptor.

Module IndexDescriptor.
Record t : Type := mk {
  ID : Z;
  Name : string;
  Unique : bool;
  Type_ : IndexDescriptor_Type;
  ColumnIDs : list Z;
  ColumnDirections : list IndexDescriptor_Direction;
  ExtraColumnIDs : list Z;
  StoreColumnIDs : list Z;
  Predicate : string
  }.
End IndexDescriptor.

Module ColumnFamilyDescriptor.
Record t : Type := mk {
  ID : Z;
  Name : string;
  ColumnIDs : list Z
  }.
End ColumnFamilyDescriptor.

Module ForeignKeyConstraint.
Record t : Type := mk {
  Name : string;
  OriginTableID : Z;
  OriginColumnIDs : list Z;
  ReferencedTableID : Z;
  ReferencedColumnIDs : list Z;
  Validity : ConstraintValidity;
  Match : ForeignKeyReference_Match;
  OnDelete : ForeignKeyReference_Action;
  OnUpdate : ForeignKeyReference_Action
  }.
End ForeignKeyConstraint.

Module CheckConstraint.
Record t : Type := mk {
  Expr : string;
  Validity : ConstraintValidity
  }.
End CheckConstraint.

End descpb.

Module tabledesc.

Inductive Kind : Type := IsTable | IsView | IsMaterializedView | IsSequence.

(** The immutable table descriptor.  [WritableColumns], [DeletableColumns]
    and [DeletableIndexes] are the views the descriptor caches: the public
    columns followed by the write-only mutation columns, then by the
    delete-only ones (and likewise for indexes); [ActiveChecks] is its list
    of check constraints in use.  They are fields here since the methods
    that return them are declared outside this file. *)
Record Immutable : Type := mkImmutable {
  ID : Z;
  Version : Z;
  Name : string;
  ParentID : Z;
  ParentSchemaID : Z;
  kind : Kind;
  IsVirtualTable : bool;
  ViewQuery : string;
  Columns : list descpb.ColumnDescriptor.t;
  WritableColumns : list descpb.ColumnDescriptor.t;
  DeletableColumns : list descpb.ColumnDescriptor.t;
  PrimaryIndex : descpb.IndexDescriptor.t;
  Indexes : list descpb.IndexDescriptor.t;
  WritableIndexes : list descpb.IndexDescriptor.t;
  DeletableIndexes : list descpb.IndexDescriptor.t;
  Families : list descpb.ColumnFamilyDescriptor.t;
  OutboundFKs : list descpb.ForeignKeyConstraint.t;
  InboundFKs : list descpb.ForeignKeyConstraint.t;
  ActiveChecks : list descpb.CheckConstraint.t
}.

(** Modelled from the spec: [FindColumnByName] is declared outside this
    file.  The spec's words for the call are "a column of the same reserved
    name already exists on the table"; the search goes through every column
    of the descriptor, public or in a mutation, and fails with an
    undefined-column error when there is none. *)
Definition FindColumnByName (desc : Immutable) (name : string)
  : result descpb.ColumnDescriptor.t :=
  match List.find (fun c => String.eqb (descpb.ColumnDescriptor.Name c) name)
                  (DeletableColumns desc) with
  | Some c => Ok c
  | None => Err (UndefinedColumnName name)
  end.

(** The columns whose type carries user-defined metadata. *)
Definition UserDefinedTypeColumns (desc : Immutable)
  : list descpb.ColumnDescriptor.t :=
  List.filter (fun c => types.UserDefined (descpb.ColumnDescriptor.Type_ c))
              (DeletableColumns desc).

Fixpoint sameVersions (this other : list descpb.ColumnDescriptor.t) : bool :=
  match this, other with
  | c :: this', c' :: other' =>
      if Z.eqb (types.TypeMetaVersion (descpb.ColumnDescriptor.Type_ c))
               (types.TypeMetaVersion (descpb.ColumnDescriptor.Type_ c'))
      then sameVersions this' other'
      else false
  | _, _ => true
  end.

(** Modelled from the spec: [UserDefinedTypeColsHaveSameVersion] is declared
    outside this file.  The spec's words are "any column's user-defined-type
    version differs between the candidate and cached descriptor": the
    columns with user-defined types of the two descriptors are compared
    position by position.  It is meant for two descriptors of the same
    table, which have the same such columns. *)
Definition UserDefinedTypeColsHaveSameVersion (desc otherDesc : Immutable)
  : bool :=
  sameVersions (UserDefinedTypeColumns desc) (UserDefinedTypeColumns otherDesc).

End tabledesc.

Module zonepb.

(** Modelled from the spec: the zone configuration ("placement snapshot")
    is declared outside this file.  It holds the replication policy of a
    table, each field possibly unset, and the overrides ("subzones") for
    its indexes and their partitions, each an index ID, a partition name
    (empty when the override is for the whole index) and a configuration of
    its own. *)
Inductive ZoneConfig : Type :=
  mkZoneConfig (NumReplicas RangeMinBytes RangeMaxBytes GC : option Z)
               (InheritedConstraints : bool) (Constraints : list string)
               (Subzones : list Subzone)
with Subzone : Type :=
  mkSubzone (IndexID : Z) (PartitionName : string) (Config : ZoneConfig).

Definition NumReplicas (z : ZoneConfig) : option Z :=
  match z with mkZoneConfig n _ _ _ _ _ _ => n end.
Definition RangeMinBytes (z : ZoneConfig) : option Z :=
  match z with mkZoneConfig _ n _ _ _ _ _ => n end.
Definition RangeMaxBytes (z : ZoneConfig) : option Z :=
  match z with mkZoneConfig _ _ n _ _ _ _ => n end.
Definition GC (z : ZoneConfig) : option Z :=
  match z with mkZoneConfig _ _ _ n _ _ _ => n end.
Definition InheritedConstraints (z : ZoneConfig) : bool :=
  match z with mkZoneConfig _ _ _ _ b _ _ => b end.
Definition Constraints (z : ZoneConfig) : list string :=
  match z with mkZoneConfig _ _ _ _ _ c _ => c end.
Definition Subzones (z : ZoneConfig) : list Subzone :=
  match z with mkZoneConfig _ _ _ _ _ _ s => s end.
Definition IndexID (s : Subzone) : Z :=
  match s with mkSubzone i _ _ => i end.
Definition PartitionName (s : Subzone) : string :=
  match s with mkSubzone _ n _ => n end.
Definition Config (s : Subzone) : ZoneConfig :=
  match s with mkSubzone _ _ c => c end.

Fixpoint ZoneConfig_eq_dec (a b : ZoneConfig) {struct a} : {a = b} + {a <> b}
with Subzone_eq_dec (a b : Subzone) {struct a} : {a = b} + {a <> b}.
Proof.
  - decide equality;
      try (apply (List.list_eq_dec Subzone_eq_dec));
      try (apply (List.list_eq_dec String.string_dec));
      try (apply Bool.bool_dec);
      decide equality; apply Z.eq_dec.
  - decide equality; [apply String.string_dec | apply Z.eq_dec].
Defined.

(** Modelled from the spec: the generated [Equal] is declared outside this
    file; the spec calls it deep equality.  Two nil pointers are equal, a
    nil and a non-nil one are not, and two non-nil pointers are equal when
    the configurations they point to are, field by field. *)
Definition Equal (this that : option (ptr ZoneConfig)) : bool :=
  match this, that with
  | None, None => true
  | Some p, Some q =>
      if ZoneConfig_eq_dec (obj p) (obj q) then true else false
  | _, _ => false
  end.

Definition orElse {A} (own parent : option A) : option A :=
  match own with
  | Some _ => own
  | None => parent
  end.

(** Modelled from the spec: [InheritFromParent] is declared outside this
    file.  In the spec's words the override "is inherited from and overrides
    the table's placement": every field the override leaves unset takes the
    parent's value, the constraints when they are marked inherited. *)
Definition InheritFromParent (z parent : ZoneConfig) : ZoneConfig :=
  mkZoneConfig
    (orElse (NumReplicas z) (NumReplicas parent))
    (orElse (RangeMinBytes z) (RangeMinBytes parent))
    (orElse (RangeMaxBytes z) (RangeMaxBytes parent))
    (orElse (GC z) (GC parent))
    (InheritedConstraints z && InheritedConstraints parent)
    (if InheritedConstraints z && negb (InheritedConstraints parent)
     then Constraints parent else Constraints z)
    (Subzones z).

End zonepb.

Module stats.

(** A [time.Time]; Go's [!=] compares it field by field. *)
Record Time : Type := mkTime { wall : Z; ext : Z; location : nat }.

#[global] Instance Time_eq_dec : EqDecision Time.
Proof. solve_decision. Defined.

Record TableStatistic : Type := mkTableStatistic {
  CreatedAt : Time;
  ColumnIDs : list Z;
  RowCount : Z;
  DistinctCount : Z;
  NullCount : Z
}.

End stats.

Module colinfo.

(** The reserved name, ID and type of the MVCC timestamp system column. *)
Definition MVCCTimestampColumnName : string := "crdb_internal_mvcc_timestamp".
Definition MVCCTimestampColumnID : Z := MaxUint32.
Definition MVCCTimestampColumnType : types.T := types.Decimal.

End colinfo.

Module catalog.

Inductive ResolvedSchemaKind : Type :=
  | SchemaPublic
  | SchemaVirtual
  | SchemaTemporary
  | SchemaUserDefined.

Record ResolvedSchema : Type := mkResolvedSchema {
  Kind : ResolvedSchemaKind;
  ID : Z;
  Name : string
}.

(** A database descriptor, as far as the file reads it. *)
Record Database : Type := mkDatabase { GetID : Z; GetName : string }.

Record ResolvedObjectPrefix : Type := mkResolvedObjectPrefix {
  Database_ : Database;
  Schema : ResolvedSchema
}.

(** Modelled from the spec: the two tests on a lookup error are declared
    outside this file; they recognise the "exists but is mid-creation" and
    the "does not exist" indications of the descriptor provider. *)
Definition HasAddingTableError (err : error) : bool :=
  match err with
  | ErrAddingTable => true
  | _ => false
  end.

Definition IsDescriptorNotFound (err : error) : bool :=
  match err with
  | ErrDescriptorNotFound => true
  | _ => false
  end.

End catalog.

Module cat.

(** A [cat.StableID] is a [uint64]. *)
Definition StableID (x : Z) : Z := uint64 x.

Inductive ColumnKind : Type :=
  | Ordinary | WriteOnly | DeleteOnly | System | Virtual.

#[global] Instance ColumnKind_eq_dec : EqDecision ColumnKind.
Proof. solve_decision. Defined.

(** Modelled from the spec: [cat.Column] and its two initialisers are
    declared outside this file.  A column has an "ordinal position within
    its table, stable column ID, name, kind, declared type, nullability,
    hidden flag, default/compute expression, and -- for synthesized virtual
    columns -- a back-reference to the source column it is derived from". *)
Record Column : Type := mkColumn {
  Ordinal : nat;
  ColID : Z;
  ColName : string;
  Kind : ColumnKind;
  DatumType : option types.T;
  IsNullable : bool;
  IsHidden : bool;
  DefaultExprStr : option string;
  ComputedExprStr : option string;
  InvertedSourceColumnOrdinal : nat
}.

(** The zero value of the struct, as [make] leaves it. *)
Definition zeroColumn : Column :=
  mkColumn 0 0%Z "" Ordinary None false false None None 0.

Definition InitNonVirtual (ordinal : nat) (stableID : Z) (name : string)
    (kind : ColumnKind) (datumType : option types.T) (nullable hidden : bool)
    (defaultExpr computedExpr : option string) : Column :=
  mkColumn ordinal stableID name kind datumType nullable hidden
           defaultExpr computedExpr 0.

Definition InitVirtual (ordinal : nat) (name : string)
    (datumType : option types.T) (nullable : bool)
    (invertedSourceColumnOrdinal : nat) : Column :=
  mkColumn ordinal 0%Z name Virtual datumType nullable true None None
           invertedSourceColumnOrdinal.

Definition IsMutation (c : Column) : bool :=
  match Kind c with
  | WriteOnly | DeleteOnly => true
  | _ => false
  end.

(** A check constraint of the catalog.  The constraint is kept as the
    expression it was made from: a declared expression, or the membership
    test synthesized for a column of an enumeration type. *)
Inductive CheckExpr : Type :=
  | DeclaredExpr (expr : string)
  | EnumIn (column : string) (members : list string).

Record CheckConstraint : Type := mkCheckConstraint {
  Constraint : CheckExpr;
  Validated : bool
}.

End cat.

Module tree.

(** A table name: [cat.SchemaName] and [cat.DataSourceName] are both made
    of these parts. *)
Record TableName : Type := mkTableName {
  CatalogName : string;
  SchemaName : string;
  ObjectName : string;
  ExplicitCatalog : bool;
  ExplicitSchema : bool
}.

Definition Catalog (n : TableName) : string := CatalogName n.
Definition Schema (n : TableName) : string := SchemaName n.

Definition emptyTableName : TableName := mkTableName "" "" "" false false.

End tree.

(** [keys.SQLCodec] is opaque to the file: a tenant identifier. *)
Definition SQLCodec : Type := Z.

(** ** The wrappers *)

(** The address of an index descriptor inside the table descriptor at
    address [d]: [&desc.PrimaryIndex], or [&desc.DeletableIndexes()[i]]. *)
Inductive IndexAddr : Type :=
  | PrimaryIndexOf (d : nat)
  | SecondaryIndexOf (d : nat) (i : nat).

#[global] Instance IndexAddr_eq_dec : EqDecision IndexAddr.
Proof. solve_decision. Defined.

Record idxptr : Type := IdxPtr {
  iaddr : IndexAddr;
  iobj : descpb.IndexDescriptor.t
}.

Module optSchema.
Record t : Type := mk {
  database : catalog.Database;
  schema : catalog.ResolvedSchema;
  name : tree.TableName
}.
End optSchema.

Module optView.
Record t : Type := mk { desc : ptr tabledesc.Immutable }.
End optView.

Module optSequence.
Record t : Type := mk { desc : ptr tabledesc.Immutable }.
End optSequence.

Module optIndex.
Record t : Type := mk {
  tab : nat;                         (* the address of the owning table *)
  desc : idxptr;
  zone : option (ptr zonepb.ZoneConfig);
  storedCols : list Z;
  indexOrdinal : nat;
  numCols : nat;
  numKeyCols : nat;
  numLaxKeyCols : nat;
  invertedVirtualColOrd : Z
}.
End optIndex.

Module optTableStat.
Record t : Type := mk {
  stat : stats.TableStatistic;
  columnOrdinals : list nat
}.
End optTableStat.

Module optFamily.
Record t : Type := mk {
  tab : nat;
  desc : descpb.ColumnFamilyDescriptor.t
}.
End optFamily.

Module optForeignKeyConstraint.
Record t : Type := mk {
  name : string;
  originTable : Z;
  originColumns : list Z;
  referencedTable : Z;
  referencedColumns : list Z;
  validity : descpb.ConstraintValidity;
  match_ : descpb.ForeignKeyReference_Match;
  deleteAction : descpb.ForeignKeyReference_Action;
  updateAction : descpb.ForeignKeyReference_Action
}.
End optForeignKeyConstraint.

Module optTable.
(** [columnsCap] is the capacity [columns] was made with; [primaryFamily]
    is [None] until it is initialised. *)
Record t : Type := mk {
  desc : ptr tabledesc.Immutable;
  columns : list cat.Column;
  columnsCap : nat;
  indexes : list optIndex.t;
  codec : SQLCodec;
  rawStats : option (slice stats.TableStatistic);
  stats : list optTableStat.t;
  zone : option (ptr zonepb.ZoneConfig);
  primaryFamily : option optFamily.t;
  families : list optFamily.t;
  outboundFKs : list optForeignKeyConstraint.t;
  inboundFKs : list optForeignKeyConstraint.t;
  checkConstraints : list cat.CheckConstraint;
  colMap : gmap Z nat
}.

Definition withColumns (ot : t) (cols : list cat.Column) : t :=
  mk (desc ot) cols (columnsCap ot) (indexes ot) (codec ot) (rawStats ot)
     (stats ot) (zone ot) (primaryFamily ot) (families ot) (outboundFKs ot)
     (inboundFKs ot) (checkConstraints ot) (colMap ot).

Definition withColMap (ot : t) (m : gmap Z nat) : t :=
  mk (desc ot) (columns ot) (columnsCap ot) (indexes ot) (codec ot)
     (rawStats ot) (stats ot) (zone ot) (primaryFamily ot) (families ot)
     (outboundFKs ot) (inboundFKs ot) (checkConstraints ot) m.

Definition withIndexes (ot : t) (l : list optIndex.t) : t :=
  mk (desc ot) (columns ot) (columnsCap ot) l (codec ot) (rawStats ot)
     (stats ot) (zone ot) (primaryFamily ot) (families ot) (outboundFKs ot)
     (inboundFKs ot) (checkConstraints ot) (colMap ot).

Definition withForeignKeys (ot : t)
    (out inb : list optForeignKeyConstraint.t) : t :=
  mk (desc ot) (columns ot) (columnsCap ot) (indexes ot) (codec ot)
     (rawStats ot) (stats ot) (zone ot) (primaryFamily ot) (families ot)
     out inb (checkConstraints ot) (colMap ot).

Definition withFamilies (ot : t) (p : optFamily.t) (l : list optFamily.t) : t :=
  mk (desc ot) (columns ot) (columnsCap ot) (indexes ot) (codec ot)
     (rawStats ot) (stats ot) (zone ot) (Some p) l (outboundFKs ot)
     (inboundFKs ot) (checkConstraints ot) (colMap ot).

Definition withCheckConstraints (ot : t) (l : list cat.CheckConstraint) : t :=
  mk (desc ot) (columns ot) (columnsCap ot) (indexes ot) (codec ot)
     (rawStats ot) (stats ot) (zone ot) (primaryFamily ot) (families ot)
     (outboundFKs ot) (inboundFKs ot) l (colMap ot).

Definition withStats (ot : t) (l : list optTableStat.t) : t :=
  mk (desc ot) (columns ot) (columnsCap ot) (indexes ot) (codec ot)
     (rawStats ot) l (zone ot) (primaryFamily ot) (families ot)
     (outboundFKs ot) (inboundFKs ot) (checkConstraints ot) (colMap ot).
End optTable.

Module optVirtualIndex.
Record t : Type := mk {
  tab : nat;
  isPrimary : bool;
  desc : descpb.IndexDescriptor.t;
  numCols : nat;
  indexOrdinal : nat
}.
End optVirtualIndex.

Module optVirtualTable.
Record t : Type := mk {
  desc : ptr tabledesc.Immutable;
  columns : list cat.Column;
  id : Z;
  name : tree.TableName;
  indexes : list optVirtualIndex.t;
  colMap : gmap Z nat
}.
End optVirtualTable.

(** The interface values of the [cat] package, by the wrapper behind them:
    a [cat.Table] is one of the two table wrappers, a [cat.DataSource] is a
    table, a view or a sequence, and a [cat.Object] is a data source or a
    schema. *)
Inductive Table : Type :=
  | OptTable (t : ptr optTable.t)
  | OptVirtualTable (t : ptr optVirtualTable.t).

Inductive DataSource : Type :=
  | DSTable (t : Table)
  | DSView (v : optView.t)
  | DSSequence (s : optSequence.t).

Inductive Object : Type :=
  | ObjSchema (s : optSchema.t)
  | ObjDataSource (ds : DataSource).

(** ** optSchema *)

Definition optSchema_ID (os : optSchema.t) : Z :=
  match catalog.Kind (optSchema.schema os) with
  | catalog.SchemaUserDefined | catalog.SchemaTemporary =>
      cat.StableID (catalog.ID (optSchema.schema os))
  | _ =>
      cat.StableID (catalog.GetID (optSchema.database os))
  end.

Definition optSchema_PostgresDescriptorID (os : optSchema.t) : Z :=
  optSchema_ID os.

Definition optSchema_Equals (os : optSchema.t) (other : Object) : bool :=
  match other with
  | ObjSchema otherSchema => Z.eqb (optSchema_ID os) (optSchema_ID otherSchema)
  | _ => false
  end.

(** ** optView and optSequence *)

Definition newOptView (desc : ptr tabledesc.Immutable) : optView.t :=
  optView.mk desc.

Definition newOptSequence (desc : ptr tabledesc.Immutable) : optSequence.t :=
  optSequence.mk desc.

Definition optView_ID (ov : optView.t) : Z :=
  cat.StableID (tabledesc.ID (obj (optView.desc ov))).

Definition optSequence_ID (os : optSequence.t) : Z :=
  cat.StableID (tabledesc.ID (obj (optSequence.desc os))).

Definition optView_Equals (ov : optView.t) (other : Object) : bool :=
  match other with
  | ObjDataSource (DSView otherView) =>
      Z.eqb (tabledesc.ID (obj (optView.desc ov)))
            (tabledesc.ID (obj (optView.desc otherView)))
      && Z.eqb (tabledesc.Version (obj (optView.desc ov)))
               (tabledesc.Version (obj (optView.desc otherView)))
  | _ => false
  end.

Definition optSequence_Equals (os : optSequence.t) (other : Object) : bool :=
  match other with
  | ObjDataSource (DSSequence otherSeq) =>
      Z.eqb (tabledesc.ID (obj (optSequence.desc os)))
            (tabledesc.ID (obj (optSequence.desc otherSeq)))
      && Z.eqb (tabledesc.Version (obj (optSequence.desc os)))
               (tabledesc.Version (obj (optSequence.desc otherSeq)))
  | _ => false
  end.

(** ** optTable: accessors *)

Definition optTable_ID (ot : optTable.t) : Z :=
  cat.StableID (tabledesc.ID (obj (optTable.desc ot))).

Definition optTable_ColumnCount (ot : optTable.t) : nat :=
  length (optTable.columns ot).

Definition optTable_Column (ot : optTable.t) (i : nat) : result cat.Column :=
  index (optTable.columns ot) i.

(** [lookupColumnOrdinal] returns the ordinal and an error; a missing
    column gives the zero ordinal with the error. *)
Definition optTable_lookupColumnOrdinal (ot : optTable.t) (colID : Z)
  : nat * option error :=
  match optTable.colMap ot !! colID with
  | Some col => (col, None)
  | None => (O, Some (UndefinedColumn colID))
  end.

(** ** optIndex *)

(** The loop of [init] over the table's columns that collects the stored
    columns of the primary index. *)
Definition primaryStoredCols (pkCols : gset Z) (columns : list cat.Column)
  : list Z :=
  foldl (fun storedCols c =>
           let id := cat.ColID c in
           if decide (int64 id ∈ pkCols) then storedCols
           else storedCols ++ [uint32 id])
        [] columns.

(** The loop of [init] that looks for a nullable declared key column; it
    stops at the first one. *)
Fixpoint keyColumnsNotNull (tab : optTable.t) (ids : list Z) : result bool :=
  match ids with
  | [] => Ok true
  | id :: ids' =>
      let ord := fst (optTable_lookupColumnOrdinal tab id) in
      c ← optTable_Column tab ord;
      if cat.IsNullable c then Ok false else keyColumnsNotNull tab ids'
  end.

Definition optIndex_init (tab : optTable.t) (tabAddr : nat)
    (indexOrdinal : nat) (desc : idxptr)
    (zone : option (ptr zonepb.ZoneConfig)) (invertedVirtualColOrd : Z)
  : result optIndex.t :=
  let d := iobj desc in
  let ColumnIDs := descpb.IndexDescriptor.ColumnIDs d in
  let ExtraColumnIDs := descpb.IndexDescriptor.ExtraColumnIDs d in
  let StoreColumnIDs := descpb.IndexDescriptor.StoreColumnIDs d in
  '(storedCols, numCols) ←
    (if decide (iaddr desc = PrimaryIndexOf (loc (optTable.desc tab))) then
       (* [storedCols] is made with the capacity
          [tab.ColumnCount() - len(desc.ColumnIDs)], which must not be
          negative. *)
       if decide (length ColumnIDs <= optTable_ColumnCount tab) then
         let pkCols : gset Z := list_to_set (int64 <$> ColumnIDs) in
         Ok (primaryStoredCols pkCols (optTable.columns tab),
             optTable_ColumnCount tab)
       else Panic (PanicRuntime "makeslice: cap out of range")
     else
       Ok (StoreColumnIDs,
           length ColumnIDs + length ExtraColumnIDs + length StoreColumnIDs));
  '(numLaxKeyCols, numKeyCols) ←
    (if descpb.IndexDescriptor.Unique d then
       notNull ← keyColumnsNotNull tab ColumnIDs;
       if notNull : bool then
         let numLaxKeyCols := length ColumnIDs in
         Ok (numLaxKeyCols, numLaxKeyCols)
       else
         let numLaxKeyCols := length ColumnIDs in
         Ok (numLaxKeyCols, numLaxKeyCols + length ExtraColumnIDs)
     else
       let numLaxKeyCols := length ColumnIDs + length ExtraColumnIDs in
       Ok (numLaxKeyCols, numLaxKeyCols));
  Ok (optIndex.mk tabAddr desc zone storedCols indexOrdinal numCols
                  numKeyCols numLaxKeyCols invertedVirtualColOrd).

Definition optIndex_IsUnique (oi : optIndex.t) : bool :=
  descpb.IndexDescriptor.Unique (iobj (optIndex.desc oi)).

Definition optIndex_IsInverted (oi : optIndex.t) : bool :=
  bool_decide (descpb.IndexDescriptor.Type_ (iobj (optIndex.desc oi))
               = descpb.IndexDescriptor_INVERTED).

Definition optIndex_ColumnCount (oi : optIndex.t) : nat := optIndex.numCols oi.
Definition optIndex_KeyColumnCount (oi : optIndex.t) : nat :=
  optIndex.numKeyCols oi.
Definition optIndex_LaxKeyColumnCount (oi : optIndex.t) : nat :=
  optIndex.numLaxKeyCols oi.
Definition optIndex_Zone (oi : optIndex.t) : option (ptr zonepb.ZoneConfig) :=
  optIndex.zone oi.
Definition optIndex_Ordinal (oi : optIndex.t) : nat := optIndex.indexOrdinal oi.

(** ** optTableStat *)

(** The loop of [init]: the ordinals found so far, and whether every column
    was found.  A column that is missing gets the zero ordinal and ends the
    loop. *)
Fixpoint fillColumnOrdinals (colMap : gmap Z nat) (ids : list Z) (i : nat)
    (ords : list nat) : list nat * bool :=
  match ids with
  | [] => (ords, true)
  | c :: ids' =>
      match colMap !! c with
      | Some o => fillColumnOrdinals colMap ids' (S i) (<[i := o]> ords)
      | None => (<[i := O]> ords, false)
      end
  end.

Definition optTableStat_init (tab : optTable.t) (stat : stats.TableStatistic)
  : optTableStat.t * bool * option error :=
  let ids := stats.ColumnIDs stat in
  let '(ords, ok) :=
    fillColumnOrdinals (optTable.colMap tab) ids O (replicate (length ids) O) in
  (optTableStat.mk stat ords, ok, None).

Definition optTableStat_CreatedAt (os : optTableStat.t) : stats.Time :=
  stats.CreatedAt (optTableStat.stat os).

(** The loop of [equals] over the ordinals of [os]; the lengths have been
    compared before. *)
Fixpoint ordinalsEqualFrom (i : nat) (mine other : list nat) : result bool :=
  match mine with
  | [] => Ok true
  | c :: mine' =>
      c' ← index other i;
      if Nat.eqb c c' then ordinalsEqualFrom (S i) mine' other else Ok false
  end.

Definition optTableStat_equals (os other : optTableStat.t) : result bool :=
  if negb (bool_decide (optTableStat_CreatedAt os = optTableStat_CreatedAt other))
     || negb (Nat.eqb (length (optTableStat.columnOrdinals os))
                      (length (optTableStat.columnOrdinals other)))
  then Ok false
  else ordinalsEqualFrom O (optTableStat.columnOrdinals os)
                         (optTableStat.columnOrdinals other).

(** ** newOptTable *)

(** The closure [newColumn]: [columns] grows by one slot inside its
    capacity; the slot holds the zero column [make] put there. *)
Definition newColumn (ot : optTable.t) : result (optTable.t * nat) :=
  let ordinal := length (optTable.columns ot) in
  if decide (ordinal + 1 ≤ optTable.columnsCap ot) then
    Ok (optTable.withColumns ot (optTable.columns ot ++ [cat.zeroColumn]),
        ordinal)
  else Panic (PanicRuntime "slice bounds out of range").

Definition setColumn (ot : optTable.t) (ord : nat) (c : cat.Column)
  : optTable.t :=
  optTable.withColumns ot (<[ord := c]> (optTable.columns ot)).

Definition columnKind (numOrdinary numWritable i : nat) : cat.ColumnKind :=
  if decide (i < numOrdinary) then cat.Ordinary
  else if decide (i < numWritable) then cat.WriteOnly
  else cat.DeleteOnly.

Definition initColumnFromDesc (numOrdinary numWritable i : nat)
    (desc : descpb.ColumnDescriptor.t) : cat.Column :=
  cat.InitNonVirtual
    i
    (cat.StableID (descpb.ColumnDescriptor.ID desc))
    (descpb.ColumnDescriptor.Name desc)
    (columnKind numOrdinary numWritable i)
    (Some (descpb.ColumnDescriptor.Type_ desc))
    (descpb.ColumnDescriptor.Nullable desc)
    (descpb.ColumnDescriptor.Hidden desc)
    (descpb.ColumnDescriptor.DefaultExpr desc)
    (descpb.ColumnDescriptor.ComputeExpr desc).

Definition mvccTimestampColumn (ord : nat) : cat.Column :=
  cat.InitNonVirtual
    ord
    (cat.StableID colinfo.MVCCTimestampColumnID)
    colinfo.MVCCTimestampColumnName
    cat.System
    (Some colinfo.MVCCTimestampColumnType)
    true  (* nullable *)
    true  (* hidden *)
    None  (* defaultExpr *)
    None  (* computedExpr *).

(** The loop that fills [colMap]: a later column with the same ID
    overwrites the earlier entry. *)
Definition buildColMap (columns : list cat.Column) : gmap Z nat :=
  foldl (fun m ic => <[uint32 (cat.ColID ic.2) := ic.1]> m)
        ∅ (imap (fun i c => (i, c)) columns).

(** The body of the inner loop over [tblZone.Subzones]: a subzone that
    applies to the whole index replaces the zone of the index by a copy of
    its configuration that inherits from the zone of the table.  The state
    is the zone of the index so far and the allocator. *)
Definition subzoneStep (tblZone : ptr zonepb.ZoneConfig)
    (idxDesc : descpb.IndexDescriptor.t)
    (st : option (ptr zonepb.ZoneConfig) * nat) (subzone : zonepb.Subzone)
  : option (ptr zonepb.ZoneConfig) * nat :=
  if Z.eqb (zonepb.IndexID subzone)
           (uint32 (descpb.IndexDescriptor.ID idxDesc))
     && String.eqb (zonepb.PartitionName subzone) ""
  then
    let '(a, next') := alloc st.2 in
    let copyZone :=
      zonepb.InheritFromParent (zonepb.Config subzone) (obj tblZone) in
    (Some (Ptr a copyZone), next')
  else st.

(** The inner loop for one index: the zone of the index and the allocator
    after the copies made. *)
Definition indexZone (tblZone : ptr zonepb.ZoneConfig)
    (idxDesc : descpb.IndexDescriptor.t) (next : nat)
  : option (ptr zonepb.ZoneConfig) * nat :=
  foldl (subzoneStep tblZone idxDesc) (Some tblZone, next)
        (zonepb.Subzones (obj tblZone)).

(** One iteration of the loop that builds the indexes. *)
Definition buildIndex (self : nat) (tblZone : option (ptr zonepb.ZoneConfig))
    (ot : optTable.t) (next : nat) (i : nat) (idxDesc : idxptr)
  : result (optTable.t * nat) :=
  match tblZone with
  | None => Panic (PanicRuntime "nil pointer dereference")
  | Some tz =>
      let '(idxZone, next) := indexZone tz (iobj idxDesc) next in
      if decide (descpb.IndexDescriptor.Type_ (iobj idxDesc)
                 = descpb.IndexDescriptor_INVERTED) then
        colID ← index (descpb.IndexDescriptor.ColumnIDs (iobj idxDesc)) O;
        let invertedSourceColOrdinal :=
          fst (optTable_lookupColumnOrdinal ot colID) in
        '(ot, virtualColOrd) ← newColumn ot;
        src ← optTable_Column ot invertedSourceColOrdinal;
        let typ := cat.DatumType src in
        let ot :=
          setColumn ot virtualColOrd
            (cat.InitVirtual virtualColOrd
               (cat.ColName src +:+ "_inverted_key") typ false
               invertedSourceColOrdinal) in
        oi ← optIndex_init ot self i idxDesc idxZone (Z.of_nat virtualColOrd);
        Ok (optTable.withIndexes ot (optTable.indexes ot ++ [oi]), next)
      else
        oi ← optIndex_init ot self i idxDesc idxZone (-1)%Z;
        Ok (optTable.withIndexes ot (optTable.indexes ot ++ [oi]), next)
  end.

Fixpoint buildIndexes (self : nat) (tblZone : option (ptr zonepb.ZoneConfig))
    (ot : optTable.t) (next : nat) (i : nat) (idxDescs : list idxptr)
  : result (optTable.t * nat) :=
  match idxDescs with
  | [] => Ok (ot, next)
  | idxDesc :: rest =>
      '(ot, next) ← buildIndex self tblZone ot next i idxDesc;
      buildIndexes self tblZone ot next (S i) rest
  end.

(** The index descriptors the loop visits: the primary index, then the
    deletable indexes. *)
Definition indexDescs (desc : ptr tabledesc.Immutable) : list idxptr :=
  IdxPtr (PrimaryIndexOf (loc desc)) (tabledesc.PrimaryIndex (obj desc))
  :: imap (fun i d => IdxPtr (SecondaryIndexOf (loc desc) i) d)
          (tabledesc.DeletableIndexes (obj desc)).

Definition outboundFK (ot : optTable.t) (fk : descpb.ForeignKeyConstraint.t)
  : optForeignKeyConstraint.t :=
  optForeignKeyConstraint.mk
    (descpb.ForeignKeyConstraint.Name fk)
    (optTable_ID ot)
    (descpb.ForeignKeyConstraint.OriginColumnIDs fk)
    (cat.StableID (descpb.ForeignKeyConstraint.ReferencedTableID fk))
    (descpb.ForeignKeyConstraint.ReferencedColumnIDs fk)
    (descpb.ForeignKeyConstraint.Validity fk)
    (descpb.ForeignKeyConstraint.Match fk)
    (descpb.ForeignKeyConstraint.OnDelete fk)
    (descpb.ForeignKeyConstraint.OnUpdate fk).

Definition inboundFK (ot : optTable.t) (fk : descpb.ForeignKeyConstraint.t)
  : optForeignKeyConstraint.t :=
  optForeignKeyConstraint.mk
    (descpb.ForeignKeyConstraint.Name fk)
    (cat.StableID (descpb.ForeignKeyConstraint.OriginTableID fk))
    (descpb.ForeignKeyConstraint.OriginColumnIDs fk)
    (optTable_ID ot)
    (descpb.ForeignKeyConstraint.ReferencedColumnIDs fk)
    (descpb.ForeignKeyConstraint.Validity fk)
    (descpb.ForeignKeyConstraint.Match fk)
    (descpb.ForeignKeyConstraint.OnDelete fk)
    (descpb.ForeignKeyConstraint.OnUpdate fk).

(** The loop that synthesizes the checks of the columns of an enumeration
    type.  A column without a type makes [UserDefined] dereference nil. *)
Fixpoint synthesizeChecks (columns : list cat.Column)
  : result (list cat.CheckConstraint) :=
  match columns with
  | [] => Ok []
  | col :: rest =>
      if cat.IsMutation col then synthesizeChecks rest
      else
        match cat.DatumType col with
        | None => Panic (PanicRuntime "nil pointer dereference")
        | Some colType =>
            if types.UserDefined colType
               && bool_decide (types.Family_ colType = types.EnumFamily)
            then
              checks ← synthesizeChecks rest;
              Ok (cat.mkCheckConstraint
                    (cat.EnumIn (cat.ColName col) (types.EnumMembers colType))
                    true :: checks)
            else synthesizeChecks rest
        end
  end.

Definition declaredCheck (c : descpb.CheckConstraint.t) : cat.CheckConstraint :=
  cat.mkCheckConstraint
    (cat.DeclaredExpr (descpb.CheckConstraint.Expr c))
    (bool_decide (descpb.CheckConstraint.Validity c
                  = descpb.ConstraintValidity_Validated)).

(** The zero statistic wrapper of a slot of [ot.stats] not written yet. *)
Definition zeroTableStat : optTableStat.t :=
  optTableStat.mk
    (stats.mkTableStatistic (stats.mkTime 0 0 0) [] 0 0 0) [].

(** The loop that adds the statistics: slot [n] is initialised for each
    statistic, and [n] advances when the statistic is kept. *)
Fixpoint addStats (ot : optTable.t) (slots : list optTableStat.t) (n : nat)
    (stats : list stats.TableStatistic)
  : result (list optTableStat.t * nat) :=
  match stats with
  | [] => Ok (slots, n)
  | stat :: rest =>
      let '(s, ok, err) := optTableStat_init ot stat in
      let slots := <[n := s]> slots in
      match err with
      | Some e => Err e
      | None => addStats ot slots (if ok : bool then S n else n) rest
      end
  end.

(** The first part of [newOptTable]: the columns of the descriptor, the
    system column and the column map. *)
Definition initColumns (desc : ptr tabledesc.Immutable) (codec : SQLCodec)
    (stats : option (slice stats.TableStatistic))
    (tblZone : option (ptr zonepb.ZoneConfig)) : result optTable.t :=
  let d := obj desc in
  (* First, determine how many columns we will potentially need. *)
  let colDescs := tabledesc.DeletableColumns d in
  let secondaryIndexes := tabledesc.DeletableIndexes d in
  let numCols :=
    length colDescs + 1
    + length (filter (fun idx => descpb.IndexDescriptor.Type_ idx
                                 = descpb.IndexDescriptor_INVERTED)
                     secondaryIndexes) in
  let numOrdinary := length (tabledesc.Columns d) in
  let numWritable := length (tabledesc.WritableColumns d) in
  let ot :=
    optTable.mk desc (imap (initColumnFromDesc numOrdinary numWritable) colDescs)
                numCols [] codec stats [] tblZone None [] [] [] [] ∅ in
  (* Set up the MVCC timestamp system column. *)
  ot ← match tabledesc.FindColumnByName d colinfo.MVCCTimestampColumnName with
       | Ok _ => Ok ot
       | _ =>
           '(ot, ord) ← newColumn ot;
           Ok (setColumn ot ord (mvccTimestampColumn ord))
       end;
  (* Create the table's column mapping. *)
  Ok (optTable.withColMap ot (buildColMap (optTable.columns ot))).

(** The last part of [newOptTable], after the indexes: the foreign keys,
    the families, the check constraints and the statistics. *)
Definition finishTable (self : nat) (ot : optTable.t)
    (stats : option (slice stats.TableStatistic)) : result optTable.t :=
  let d := obj (optTable.desc ot) in
  let ot :=
    optTable.withForeignKeys ot
      (outboundFK ot <$> tabledesc.OutboundFKs d)
      (inboundFK ot <$> tabledesc.InboundFKs d) in
  family0 ← index (tabledesc.Families d) O;
  let ot :=
    optTable.withFamilies ot (optFamily.mk self family0)
      (optFamily.mk self <$> drop 1 (tabledesc.Families d)) in
  (* Synthesize any check constraints for user defined types. *)
  synthesizedChecks ← synthesizeChecks (optTable.columns ot);
  let ot :=
    optTable.withCheckConstraints ot
      ((declaredCheck <$> tabledesc.ActiveChecks d) ++ synthesizedChecks) in
  (* Add stats last, now that other metadata is initialized. *)
  match stats with
  | None => Ok ot
  | Some s =>
      '(slots, n) ←
        addStats ot (replicate (length (elems s)) zeroTableStat) O (elems s);
      Ok (optTable.withStats ot (take n slots))
  end.

Definition newOptTable (desc : ptr tabledesc.Immutable) (codec : SQLCodec)
    (stats : option (slice stats.TableStatistic))
    (tblZone : option (ptr zonepb.ZoneConfig)) (next : nat)
  : result (ptr optTable.t * nat) :=
  let '(self, next) := alloc next in
  ot ← initColumns desc codec stats tblZone;
  (* Build the indexes. *)
  '(ot, next) ← buildIndexes self tblZone ot next O (indexDescs desc);
  ot ← finishTable self ot stats;
  Ok (Ptr self ot, next).

(** ** Staleness and equality *)

(** [isStale] checks whether the table wrapper needs to be refreshed
    because the statistics, the zone configuration or the user-defined
    types have changed. *)
Definition optTable_isStale (ot : optTable.t) (rawDesc : ptr tabledesc.Immutable)
    (tableStats : option (slice stats.TableStatistic))
    (zone : option (ptr zonepb.ZoneConfig)) : bool :=
  if negb (Nat.eqb (slice_len tableStats) (slice_len (optTable.rawStats ot)))
  then true
  else if Nat.ltb 0 (slice_len tableStats)
          && negb (bool_decide (slice_addr0 tableStats
                                = slice_addr0 (optTable.rawStats ot)))
  then true
  else if negb (zonepb.Equal zone (optTable.zone ot)) then true
  else if negb (tabledesc.UserDefinedTypeColsHaveSameVersion
                  (obj (optTable.desc ot)) (obj rawDesc))
  then true
  else false.

(** The loop of [Equals] over the statistics of [ot]. *)
Fixpoint statsEqualFrom (i : nat) (mine other : list optTableStat.t)
  : result bool :=
  match mine with
  | [] => Ok true
  | s :: mine' =>
      s' ← index other i;
      eq ← optTableStat_equals s s';
      if eq : bool then statsEqualFrom (S i) mine' other else Ok false
  end.

(** The loop of [Equals] over the indexes of [ot]: the deep comparison is
    skipped when both zones are the ones of the previous comparison. *)
Fixpoint zonesEqualFrom (i : nat) (mine other : list optIndex.t)
    (prevLeftZone prevRightZone : option (ptr zonepb.ZoneConfig))
  : result bool :=
  match mine with
  | [] => Ok true
  | oi :: mine' =>
      let leftZone := optIndex.zone oi in
      oi' ← index other i;
      let rightZone := optIndex.zone oi' in
      if optptr_eqb leftZone prevLeftZone && optptr_eqb rightZone prevRightZone
      then zonesEqualFrom (S i) mine' other prevLeftZone prevRightZone
      else if negb (zonepb.Equal leftZone rightZone) then Ok false
      else zonesEqualFrom (S i) mine' other leftZone rightZone
  end.

Definition optTable_Equals (ot : ptr optTable.t) (other : Object)
  : result bool :=
  match other with
  | ObjDataSource (DSTable (OptTable otherTable)) =>
      if ptr_eqb ot otherTable then
        (* Fast path when it is the same object. *)
        Ok true
      else
        let d := obj (optTable.desc (obj ot)) in
        let d' := obj (optTable.desc (obj otherTable)) in
        if negb (Z.eqb (tabledesc.ID d) (tabledesc.ID d'))
           || negb (Z.eqb (tabledesc.Version d) (tabledesc.Version d'))
        then Ok false
        else if negb (Nat.eqb (length (optTable.stats (obj ot)))
                              (length (optTable.stats (obj otherTable))))
        then Ok false
        else
          statsEq ← statsEqualFrom O (optTable.stats (obj ot))
                                   (optTable.stats (obj otherTable));
          if negb statsEq then Ok false
          else if negb (tabledesc.UserDefinedTypeColsHaveSameVersion d d')
          then Ok false
          else zonesEqualFrom O (optTable.indexes (obj ot))
                              (optTable.indexes (obj otherTable)) None None
  | _ => Ok false
  end.

(** ** optForeignKeyConstraint *)

(** The [ID] of a [cat.Table]. *)
Definition Table_ID (tab : Table) : Z :=
  match tab with
  | OptTable t => optTable_ID (obj t)
  | OptVirtualTable t => optVirtualTable.id (obj t)
  end.

(** The type assertion [tab.( *optTable)]. *)
Definition asOptTable (tab : Table) : result (ptr optTable.t) :=
  match tab with
  | OptTable t => Ok t
  | OptVirtualTable _ => Panic (PanicRuntime "interface conversion")
  end.

Definition optForeignKeyConstraint_OriginColumnOrdinal
    (fk : optForeignKeyConstraint.t) (originTable : Table) (i : nat)
  : result nat :=
  if negb (Z.eqb (Table_ID originTable) (optForeignKeyConstraint.originTable fk))
  then
    Panic (PanicError
             (AssertionFailed "invalid table passed to OriginColumnOrdinal"))
  else
    tab ← asOptTable originTable;
    colID ← index (optForeignKeyConstraint.originColumns fk) i;
    Ok (fst (optTable_lookupColumnOrdinal (obj tab) colID)).

Definition optForeignKeyConstraint_ReferencedColumnOrdinal
    (fk : optForeignKeyConstraint.t) (referencedTable : Table) (i : nat)
  : result nat :=
  if negb (Z.eqb (Table_ID referencedTable)
                 (optForeignKeyConstraint.referencedTable fk))
  then
    Panic (PanicError
             (AssertionFailed "invalid table passed to ReferencedColumnOrdinal"))
  else
    tab ← asOptTable referencedTable;
    colID ← index (optForeignKeyConstraint.referencedColumns fk) i;
    Ok (fst (optTable_lookupColumnOrdinal (obj tab) colID)).

(** ** optVirtualTable *)

(** The collaborators of the planner the file calls.  The descriptor lookup
    sees whether descriptor caches are to be avoided. *)
(** The planner with its collaborators as they answer at the time of a
    call.  The statistics cache behind [GetTableStats] is stateful in Go:
    it can answer two successive calls with different snapshots.  A value
    of this record fixes its answers, so a change of the cache between two
    calls is a change of the planner value between them. *)
Module planner.
Record t : Type := mk {
  avoidCachedDescriptors : bool;
  LookupTableByID : bool -> Z -> result (ptr tabledesc.Immutable);
  LookupSchema : string -> string -> result (option catalog.ResolvedObjectPrefix);
  GetTableStats : Z -> result (option (slice stats.TableStatistic));
  Codec : SQLCodec
}.

Definition withAvoidCachedDescriptors (p : t) (b : bool) : t :=
  mk b (LookupTableByID p) (LookupSchema p) (GetTableStats p) (Codec p).
End planner.

(** The stable ID of a virtual table: the descriptor ID, with the ID of the
    database in the high 32 bits. *)
Definition virtualTableID (LookupSchema :
      string -> string -> result (option catalog.ResolvedObjectPrefix))
    (desc : tabledesc.Immutable) (name : tree.TableName) : result Z :=
  let id := cat.StableID (tabledesc.ID desc) in
  if negb (String.eqb (tree.Catalog name) "") then
    prefixI ← LookupSchema (tree.Catalog name) (tree.Schema name);
    match prefixI with
    | None =>
        (* The database was not found: an invalid database ID is used. *)
        Ok (Z.lor id (uint64 (Z.shiftl (cat.StableID MaxUint32) 32)))
    | Some prefix =>
        Ok (Z.lor id
              (uint64 (Z.shiftl
                         (cat.StableID
                            (catalog.GetID (catalog.Database_ prefix))) 32)))
    end
  else Ok id.

Definition vtablePKColumn : cat.Column :=
  cat.InitNonVirtual
    0
    MaxInt64 (* stableID *)
    "crdb_internal_vtable_pk"
    cat.Ordinary
    (Some types.Int)
    false (* nullable *)
    true  (* hidden *)
    None  (* defaultExpr *)
    None  (* computedExpr *).

Definition vtableColumn (i : nat) (d : descpb.ColumnDescriptor.t) : cat.Column :=
  cat.InitNonVirtual
    (i + 1)
    (cat.StableID (descpb.ColumnDescriptor.ID d))
    (descpb.ColumnDescriptor.Name d)
    cat.Ordinary
    (Some (descpb.ColumnDescriptor.Type_ d))
    (descpb.ColumnDescriptor.Nullable d)
    (descpb.ColumnDescriptor.Hidden d)
    (descpb.ColumnDescriptor.DefaultExpr d)
    (descpb.ColumnDescriptor.ComputeExpr d).

(** The loop over the descriptor's indexes: slot [i + 1] is filled for the
    index at [i], unless it has more than one column. *)
Fixpoint buildVirtualIndexes (self : nat) (columnCount : nat) (i : nat)
    (idxDescs : list descpb.IndexDescriptor.t)
  : result (list optVirtualIndex.t) :=
  match idxDescs with
  | [] => Ok []
  | idxDesc :: rest =>
      if decide (1 < length (descpb.IndexDescriptor.ColumnIDs idxDesc)) then
        Panic (PanicString "virtual indexes with more than 1 col not supported")
      else
        indexes ← buildVirtualIndexes self columnCount (S i) rest;
        Ok (optVirtualIndex.mk self false idxDesc columnCount (i + 1) :: indexes)
  end.

Definition newOptVirtualTable (oc : planner.t) (desc : ptr tabledesc.Immutable)
    (name : tree.TableName) (next : nat)
  : result (ptr optVirtualTable.t * nat) :=
  (* Calculate the stable ID. *)
  id ← virtualTableID (planner.LookupSchema oc) (obj desc) name;
  let '(self, next) := alloc next in
  let columns :=
    vtablePKColumn :: imap vtableColumn (tabledesc.Columns (obj desc)) in
  let colMap := buildColMap columns in
  let name :=
    tree.mkTableName (tree.CatalogName name) (tree.SchemaName name)
                     (tree.ObjectName name) true true in
  let primary :=
    optVirtualIndex.mk self true
      (descpb.IndexDescriptor.mk 0 "primary" false descpb.IndexDescriptor_FORWARD
                                 [] [] [] [] "")
      (length columns) 0 in
  indexes ← buildVirtualIndexes self (length columns) O
                                (tabledesc.Indexes (obj desc));
  Ok (Ptr self (optVirtualTable.mk desc columns id name (primary :: indexes)
                                   colMap),
      next).

Definition optVirtualTable_ID (ot : optVirtualTable.t) : Z :=
  optVirtualTable.id ot.

Definition optVirtualTable_PostgresDescriptorID (ot : optVirtualTable.t) : Z :=
  cat.StableID (tabledesc.ID (obj (optVirtualTable.desc ot))).

Definition optVirtualTable_Equals (ot : ptr optVirtualTable.t) (other : Object)
  : bool :=
  match other with
  | ObjDataSource (DSTable (OptVirtualTable otherTable)) =>
      if ptr_eqb ot otherTable then true
      else if negb (Z.eqb (optVirtualTable.id (obj ot))
                          (optVirtualTable.id (obj otherTable)))
              || negb (Z.eqb
                         (tabledesc.Version (obj (optVirtualTable.desc (obj ot))))
                         (tabledesc.Version
                            (obj (optVirtualTable.desc (obj otherTable)))))
      then false
      else true
  | _ => false
  end.

Definition optVirtualIndex_KeyColumnCount (oi : optVirtualIndex.t) : nat := 2.
Definition optVirtualIndex_LaxKeyColumnCount (oi : optVirtualIndex.t) : nat := 2.
Definition optVirtualIndex_ColumnCount (oi : optVirtualIndex.t) : nat :=
  optVirtualIndex.numCols oi.

(** ** optCatalog *)

Module cat_Flags.
Record t : Type := mk {
  AvoidDescriptorCaches : bool;
  NoTableStats : bool
}.
Definition zero : t := mk false false.
End cat_Flags.

(** The gossiped system configuration, as far as the file reads it: the
    zone configuration of an object, possibly nil, or an error. *)
Module config.
Record SystemConfig : Type := mkSystemConfig {
  GetZoneConfigForObject :
    SQLCodec -> Z -> result (option (ptr zonepb.ZoneConfig))
}.
End config.

Module optCatalog.
(** [dataSources] is keyed by the address of the descriptor. *)
Record t : Type := mk {
  planner_ : planner.t;
  cfg : option config.SystemConfig;
  dataSources : gmap nat DataSource
}.

Definition withPlanner (oc : t) (p : planner.t) : t :=
  mk p (cfg oc) (dataSources oc).

Definition withDataSources (oc : t) (m : gmap nat DataSource) : t :=
  mk (planner_ oc) (cfg oc) m.
End optCatalog.

(** The package variable [emptyZoneConfig]; it lives at address 0, which
    the allocator never hands out. *)
Definition emptyZoneConfig : ptr zonepb.ZoneConfig :=
  Ptr 0 (zonepb.mkZoneConfig None None None None false [] []).

Definition optCatalog_codec (oc : optCatalog.t) : SQLCodec :=
  planner.Codec (optCatalog.planner_ oc).

Definition optCatalog_getZoneConfig (oc : optCatalog.t)
    (desc : ptr tabledesc.Immutable) : result (ptr zonepb.ZoneConfig) :=
  match optCatalog.cfg oc with
  | None => Ok emptyZoneConfig
  | Some cfg =>
      if tabledesc.IsVirtualTable (obj desc) then Ok emptyZoneConfig
      else
        zone ← config.GetZoneConfigForObject cfg (optCatalog_codec oc)
                 (uint32 (tabledesc.ID (obj desc)));
        match zone with
        | None => Ok emptyZoneConfig
        | Some zone => Ok zone
        end
  end.

Definition desc_IsTable (d : tabledesc.Immutable) : bool :=
  match tabledesc.kind d with
  | tabledesc.IsTable => true
  | _ => false
  end.

Definition desc_MaterializedView (d : tabledesc.Immutable) : bool :=
  match tabledesc.kind d with
  | tabledesc.IsMaterializedView => true
  | _ => false
  end.

Definition desc_IsView (d : tabledesc.Immutable) : bool :=
  match tabledesc.kind d with
  | tabledesc.IsView | tabledesc.IsMaterializedView => true
  | _ => false
  end.

Definition desc_IsSequence (d : tabledesc.Immutable) : bool :=
  match tabledesc.kind d with
  | tabledesc.IsSequence => true
  | _ => false
  end.

(** The functions of the catalog return their result together with the
    catalog and the allocator as they leave them.  With a panic the
    allocator is the one the call started with: [newOptTable] and
    [newOptVirtualTable] do not say how far they got, so what the Go code
    has allocated before it panics (the wrapper, the copies of zone
    configurations) is not accounted for, and the allocator that comes with
    a panic says nothing about allocation.  An error is returned before
    anything is allocated. *)
Definition dataSourceForTable (oc : optCatalog.t) (flags : cat_Flags.t)
    (desc : ptr tabledesc.Immutable) (name : tree.TableName) (next : nat)
  : result DataSource * optCatalog.t * nat :=
  if tabledesc.IsVirtualTable (obj desc) then
    (* Virtual tables are not cached. *)
    match newOptVirtualTable (optCatalog.planner_ oc) desc name next with
    | Ok (vt, next') => (Ok (DSTable (OptVirtualTable vt)), oc, next')
    | Err e => (Err e, oc, next)
    | Panic p => (Panic p, oc, next)
    end
  else
    let tableStats :=
      if negb (cat_Flags.NoTableStats flags) then
        match planner.GetTableStats (optCatalog.planner_ oc)
                                    (tabledesc.ID (obj desc)) with
        | Ok tableStats => Ok tableStats
        | Err _ => Ok None       (* Ignore any error. *)
        | Panic p => Panic p
        end
      else Ok None in
    match tableStats ≫= (fun tableStats =>
            zoneConfig ← optCatalog_getZoneConfig oc desc;
            Ok (tableStats, zoneConfig)) with
    | Err e => (Err e, oc, next)
    | Panic p => (Panic p, oc, next)
    | Ok (tableStats, zoneConfig) =>
        let cached :=
          match optCatalog.dataSources oc !! loc desc with
          | Some ds =>
              match ds with
              | DSTable (OptTable t) =>
                  if negb (optTable_isStale (obj t) desc tableStats
                                            (Some zoneConfig))
                  then Ok (Some ds) else Ok None
              | _ => Panic (PanicRuntime "interface conversion")
              end
          | None => Ok None
          end in
        match cached with
        | Panic p => (Panic p, oc, next)
        | Err e => (Err e, oc, next)
        | Ok (Some ds) => (Ok ds, oc, next)
        | Ok None =>
            match newOptTable desc (optCatalog_codec oc) tableStats
                              (Some zoneConfig) next with
            | Ok (t, next') =>
                let ds := DSTable (OptTable t) in
                (Ok ds,
                 optCatalog.withDataSources oc
                   (<[loc desc := ds]> (optCatalog.dataSources oc)),
                 next')
            | Err e => (Err e, oc, next)
            | Panic p => (Panic p, oc, next)
            end
        end
    end.

Definition dataSourceForDesc (oc : optCatalog.t) (flags : cat_Flags.t)
    (desc : ptr tabledesc.Immutable) (name : tree.TableName) (next : nat)
  : result DataSource * optCatalog.t * nat :=
  if desc_IsTable (obj desc) || desc_MaterializedView (obj desc) then
    (* Tables require invalidation logic for cached wrappers. *)
    dataSourceForTable oc flags desc name next
  else
    match optCatalog.dataSources oc !! loc desc with
    | Some ds => (Ok ds, oc, next)
    | None =>
        let built :=
          if desc_IsView (obj desc) then Ok (DSView (newOptView desc))
          else if desc_IsSequence (obj desc) then
            Ok (DSSequence (newOptSequence desc))
          else Err (AssertionFailed "unexpected table descriptor") in
        match built with
        | Ok ds =>
            (Ok ds,
             optCatalog.withDataSources oc
               (<[loc desc := ds]> (optCatalog.dataSources oc)),
             next)
        | r => (r, oc, next)
        end
    end.

(** What [ResolveDataSourceByID] returns: the data source (or nil), the
    [isAdding] flag and the error (or nil); or the panic that ended it. *)
Inductive resolved : Type :=
  | Returned (ds : option DataSource) (isAdding : bool) (err : option error)
  | Panicked (p : panicValue).

(** The body of [ResolveDataSourceByID] after the descriptor caches have
    been switched off, if they are to be. *)
Definition resolveDataSourceByID (oc : optCatalog.t) (dataSourceID : Z)
    (next : nat) : resolved * optCatalog.t * nat :=
  let p := optCatalog.planner_ oc in
  match planner.LookupTableByID p (planner.avoidCachedDescriptors p)
                                (uint32 dataSourceID) with
  | Panic v => (Panicked v, oc, next)
  | Err err =>
      let isAdding := catalog.HasAddingTableError err in
      if catalog.IsDescriptorNotFound err || isAdding then
        (Returned None isAdding
                  (Some (UndefinedRelationError (int64 dataSourceID))),
         oc, next)
      else (Returned None false (Some err), oc, next)
  | Ok tableLookup =>
      (* The name is only used for virtual tables, which can't be looked up
         by ID. *)
      match dataSourceForDesc oc cat_Flags.zero tableLookup
                              tree.emptyTableName next with
      | (Ok ds, oc, next) => (Returned (Some ds) false None, oc, next)
      | (Err e, oc, next) => (Returned None false (Some e), oc, next)
      | (Panic v, oc, next) => (Panicked v, oc, next)
      end
  end.

Definition optCatalog_ResolveDataSourceByID (oc : optCatalog.t)
    (flags : cat_Flags.t) (dataSourceID : Z) (next : nat)
  : resolved * optCatalog.t * nat :=
  if cat_Flags.AvoidDescriptorCaches flags then
    let prev := planner.avoidCachedDescriptors (optCatalog.planner_ oc) in
    let oc :=
      optCatalog.withPlanner oc
        (planner.withAvoidCachedDescriptors (optCatalog.planner_ oc) true) in
    let '(r, oc, next) := resolveDataSourceByID oc dataSourceID next in
    (* The deferred function restores the flag. *)
    (r,
     optCatalog.withPlanner oc
       (planner.withAvoidCachedDescriptors (optCatalog.planner_ oc) prev),
     next)
  else resolveDataSourceByID oc dataSourceID next.

(** The error a call ended with is of the UndefinedRelation class. *)
Definition isUndefinedRelation (r : resolved) : bool :=
  match r with
  | Returned _ _ (Some (UndefinedRelationError _)) => true
  | _ => false
  end.

(** ** The accessors of the table wrapper *)

Module cat_IndexColumn.
(** [cat.IndexColumn]: the column is a pointer into the columns of the
    table; it is kept as the column found there. *)
Record t : Type := mk {
  Column : cat.Column;
  Descending : bool
}.
End cat_IndexColumn.

Module cat_FamilyColumn.
Record t : Type := mk {
  Column : cat.Column;
  Ordinal : nat
}.
End cat_FamilyColumn.

(** What [getColDesc] points to: a column of the table descriptor, or the
    package variable [colinfo.MVCCTimestampColumnDesc]. *)
Inductive colDescRef : Type :=
  | ColumnOfDescriptor (c : descpb.ColumnDescriptor.t)
  | MVCCTimestampColumnDesc.

Definition optTable_PostgresDescriptorID (ot : optTable.t) : Z :=
  cat.StableID (tabledesc.ID (obj (optTable.desc ot))).

Definition optTable_Name (ot : optTable.t) : string :=
  tabledesc.Name (obj (optTable.desc ot)).

Definition optTable_IsVirtualTable (ot : optTable.t) : bool := false.

Definition optTable_IsMaterializedView (ot : optTable.t) : bool :=
  desc_MaterializedView (obj (optTable.desc ot)).

Definition optTable_getColDesc (ot : optTable.t) (i : nat)
  : result (option colDescRef) :=
  let DeletableColumns := tabledesc.DeletableColumns (obj (optTable.desc ot)) in
  if decide (i < length DeletableColumns) then
    c ← index DeletableColumns i;
    Ok (Some (ColumnOfDescriptor c))
  else
    c ← index (optTable.columns ot) i;
    if Z.eqb (cat.ColID c) (cat.StableID colinfo.MVCCTimestampColumnID)
    then Ok (Some MVCCTimestampColumnDesc)
    else Ok None.

Definition optTable_IndexCount (ot : optTable.t) : nat :=
  1 + length (tabledesc.Indexes (obj (optTable.desc ot))).

Definition optTable_WritableIndexCount (ot : optTable.t) : nat :=
  1 + length (tabledesc.WritableIndexes (obj (optTable.desc ot))).

Definition optTable_DeletableIndexCount (ot : optTable.t) : nat :=
  1 + length (tabledesc.DeletableIndexes (obj (optTable.desc ot))).

Definition optTable_Index (ot : optTable.t) (i : nat) : result optIndex.t :=
  index (optTable.indexes ot) i.

Definition optTable_StatisticCount (ot : optTable.t) : nat :=
  length (optTable.stats ot).

Definition optTable_Statistic (ot : optTable.t) (i : nat)
  : result optTableStat.t :=
  index (optTable.stats ot) i.

Definition optTable_CheckCount (ot : optTable.t) : nat :=
  length (optTable.checkConstraints ot).

Definition optTable_Check (ot : optTable.t) (i : nat)
  : result cat.CheckConstraint :=
  index (optTable.checkConstraints ot) i.

Definition optTable_FamilyCount (ot : optTable.t) : nat :=
  1 + length (optTable.families ot).

(** [Family] returns the address of a wrapper; the wrapper found there is
    [None] while the primary family is not initialised. *)
Definition optTable_Family (ot : optTable.t) (i : nat)
  : result (option optFamily.t) :=
  if Nat.eqb i 0 then Ok (optTable.primaryFamily ot)
  else
    f ← index (optTable.families ot) (i - 1);
    Ok (Some f).

Definition optTable_OutboundForeignKeyCount (ot : optTable.t) : nat :=
  length (optTable.outboundFKs ot).

Definition optTable_OutboundForeignKey (ot : optTable.t) (i : nat)
  : result optForeignKeyConstraint.t :=
  index (optTable.outboundFKs ot) i.

Definition optTable_InboundForeignKeyCount (ot : optTable.t) : nat :=
  length (optTable.inboundFKs ot).

Definition optTable_InboundForeignKey (ot : optTable.t) (i : nat)
  : result optForeignKeyConstraint.t :=
  index (optTable.inboundFKs ot) i.

(** ** The accessors of the index wrapper *)

Definition optIndex_ID (oi : optIndex.t) : Z :=
  cat.StableID (descpb.IndexDescriptor.ID (iobj (optIndex.desc oi))).

Definition optIndex_Name (oi : optIndex.t) : string :=
  descpb.IndexDescriptor.Name (iobj (optIndex.desc oi)).

Definition optIndex_Predicate (oi : optIndex.t) : string * bool :=
  let Predicate := descpb.IndexDescriptor.Predicate (iobj (optIndex.desc oi)) in
  (Predicate, negb (String.eqb Predicate "")).

Definition optIndex_Table (oi : optIndex.t) : nat := optIndex.tab oi.

(** [Column] reads the table [oi.tab] points to; [tab] is the table found
    at that address. *)
Definition optIndex_Column (tab : optTable.t) (oi : optIndex.t) (i : nat)
  : result cat_IndexColumn.t :=
  let d := iobj (optIndex.desc oi) in
  let length_ := length (descpb.IndexDescriptor.ColumnIDs d) in
  if decide (i < length_) then
    ord ← (if Nat.eqb i 0
              && negb (Z.eqb (optIndex.invertedVirtualColOrd oi) (-1))
           then
             if decide (optIndex.invertedVirtualColOrd oi < 0)%Z
             then Panic (PanicRuntime "index out of range")
             else Ok (Z.to_nat (optIndex.invertedVirtualColOrd oi))
           else
             colID ← index (descpb.IndexDescriptor.ColumnIDs d) i;
             Ok (fst (optTable_lookupColumnOrdinal tab colID)));
    col ← optTable_Column tab ord;
    dir ← index (descpb.IndexDescriptor.ColumnDirections d) i;
    Ok (cat_IndexColumn.mk col
          (bool_decide (dir = descpb.IndexDescriptor_DESC)))
  else
    let i := i - length_ in
    let length_ := length (descpb.IndexDescriptor.ExtraColumnIDs d) in
    if decide (i < length_) then
      colID ← index (descpb.IndexDescriptor.ExtraColumnIDs d) i;
      col ← optTable_Column tab (fst (optTable_lookupColumnOrdinal tab colID));
      Ok (cat_IndexColumn.mk col false)
    else
      let i := i - length_ in
      colID ← index (optIndex.storedCols oi) i;
      col ← optTable_Column tab (fst (optTable_lookupColumnOrdinal tab colID));
      Ok (cat_IndexColumn.mk col false).

(** ** The accessors of the statistic, family and foreign key wrappers *)

Definition optTableStat_ColumnCount (os : optTableStat.t) : nat :=
  length (optTableStat.columnOrdinals os).

Definition optTableStat_ColumnOrdinal (os : optTableStat.t) (i : nat)
  : result nat :=
  index (optTableStat.columnOrdinals os) i.

Definition optTableStat_RowCount (os : optTableStat.t) : Z :=
  stats.RowCount (optTableStat.stat os).

Definition optTableStat_DistinctCount (os : optTableStat.t) : Z :=
  stats.DistinctCount (optTableStat.stat os).

Definition optTableStat_NullCount (os : optTableStat.t) : Z :=
  stats.NullCount (optTableStat.stat os).

Definition optFamily_ID (oi : optFamily.t) : Z :=
  cat.StableID (descpb.ColumnFamilyDescriptor.ID (optFamily.desc oi)).

Definition optFamily_Name (oi : optFamily.t) : string :=
  descpb.ColumnFamilyDescriptor.Name (optFamily.desc oi).

Definition optFamily_ColumnCount (oi : optFamily.t) : nat :=
  length (descpb.ColumnFamilyDescriptor.ColumnIDs (optFamily.desc oi)).

(** [Column] reads the table [oi.tab] points to; [tab] is the table found
    at that address. *)
Definition optFamily_Column (tab : optTable.t) (oi : optFamily.t) (i : nat)
  : result cat_FamilyColumn.t :=
  colID ← index (descpb.ColumnFamilyDescriptor.ColumnIDs (optFamily.desc oi)) i;
  let ord := fst (optTable_lookupColumnOrdinal tab colID) in
  col ← optTable_Column tab ord;
  Ok (cat_FamilyColumn.mk col ord).

Definition optFamily_Table (oi : optFamily.t) : nat := optFamily.tab oi.

Definition optForeignKeyConstraint_Name (fk : optForeignKeyConstraint.t)
  : string :=
  optForeignKeyConstraint.name fk.

Definition optForeignKeyConstraint_OriginTableID
    (fk : optForeignKeyConstraint.t) : Z :=
  optForeignKeyConstraint.originTable fk.

Definition optForeignKeyConstraint_ReferencedTableID
    (fk : optForeignKeyConstraint.t) : Z :=
  optForeignKeyConstraint.referencedTable fk.

Definition optForeignKeyConstraint_ColumnCount
    (fk : optForeignKeyConstraint.t) : nat :=
  length (optForeignKeyConstraint.originColumns fk).

Definition optForeignKeyConstraint_Validated
    (fk : optForeignKeyConstraint.t) : bool :=
  bool_decide (optForeignKeyConstraint.validity fk
               = descpb.ConstraintValidity_Validated).

(** ** The accessors of the virtual table wrappers *)

Definition optVirtualTable_Name (ot : optVirtualTable.t) : string :=
  tree.ObjectName (optVirtualTable.name ot).

Definition optVirtualTable_IsVirtualTable (ot : optVirtualTable.t) : bool :=
  true.

Definition optVirtualTable_IsMaterializedView (ot : optVirtualTable.t) : bool :=
  false.

Definition optVirtualTable_ColumnCount (ot : optVirtualTable.t) : nat :=
  length (optVirtualTable.columns ot).

Definition optVirtualTable_Column (ot : optVirtualTable.t) (i : nat)
  : result cat.Column :=
  index (optVirtualTable.columns ot) i.

Definition optVirtualTable_getColDesc (ot : optVirtualTable.t) (i : nat)
  : result (option colDescRef) :=
  let Columns := tabledesc.Columns (obj (optVirtualTable.desc ot)) in
  if Nat.ltb 0 i && Nat.leb i (length Columns) then
    c ← index Columns (i - 1);
    Ok (Some (ColumnOfDescriptor c))
  else Ok None.

Definition optVirtualTable_IndexCount (ot : optVirtualTable.t) : nat :=
  1 + length (tabledesc.Indexes (obj (optVirtualTable.desc ot))).

Definition optVirtualTable_WritableIndexCount (ot : optVirtualTable.t) : nat :=
  1 + length (tabledesc.WritableIndexes (obj (optVirtualTable.desc ot))).

Definition optVirtualTable_DeletableIndexCount (ot : optVirtualTable.t) : nat :=
  1 + length (tabledesc.DeletableIndexes (obj (optVirtualTable.desc ot))).

Definition optVirtualTable_Index (ot : optVirtualTable.t) (i : nat)
  : result optVirtualIndex.t :=
  index (optVirtualTable.indexes ot) i.

Definition optVirtualTable_StatisticCount (ot : optVirtualTable.t) : nat := 0.

Definition optVirtualTable_Statistic (ot : optVirtualTable.t) (i : nat)
  : result optTableStat.t :=
  Panic (PanicString "no stats").

Definition optVirtualTable_CheckCount (ot : optVirtualTable.t) : nat :=
  length (tabledesc.ActiveChecks (obj (optVirtualTable.desc ot))).

Definition optVirtualTable_Check (ot : optVirtualTable.t) (i : nat)
  : result cat.CheckConstraint :=
  check ← index (tabledesc.ActiveChecks (obj (optVirtualTable.desc ot))) i;
  Ok (cat.mkCheckConstraint
        (cat.DeclaredExpr (descpb.CheckConstraint.Expr check))
        (bool_decide (descpb.CheckConstraint.Validity check
                      = descpb.ConstraintValidity_Validated))).

Definition optVirtualTable_FamilyCount (ot : optVirtualTable.t) : nat := 1.

Definition optVirtualTable_OutboundForeignKeyCount (ot : optVirtualTable.t)
  : nat := 0.

Definition optVirtualTable_OutboundForeignKey (ot : optVirtualTable.t)
    (i : nat) : result optForeignKeyConstraint.t :=
  Panic (PanicString "no FKs").

Definition optVirtualTable_InboundForeignKeyCount (ot : optVirtualTable.t)
  : nat := 0.

Definition optVirtualTable_InboundForeignKey (ot : optVirtualTable.t)
    (i : nat) : result optForeignKeyConstraint.t :=
  Panic (PanicString "no FKs").

Definition optVirtualTable_lookupColumnOrdinal (ot : optVirtualTable.t)
    (colID : Z) : nat * option error :=
  match optVirtualTable.colMap ot !! colID with
  | Some col => (col, None)
  | None => (O, Some (UndefinedColumn colID))
  end.

Definition optVirtualIndex_ID (oi : optVirtualIndex.t) : Z :=
  cat.StableID (descpb.IndexDescriptor.ID (optVirtualIndex.desc oi)).

Definition optVirtualIndex_Name (oi : optVirtualIndex.t) : string :=
  descpb.IndexDescriptor.Name (optVirtualIndex.desc oi).

Definition optVirtualIndex_IsUnique (oi : optVirtualIndex.t) : bool :=
  descpb.IndexDescriptor.Unique (optVirtualIndex.desc oi).

Definition optVirtualIndex_IsInverted (oi : optVirtualIndex.t) : bool := false.

Definition optVirtualIndex_Predicate (oi : optVirtualIndex.t) : string * bool :=
  ("", false).

(** [Column] reads the table [oi.tab] points to; [tab] is the table found
    at that address. *)
Definition optVirtualIndex_Column (tab : optVirtualTable.t)
    (oi : optVirtualIndex.t) (i : nat) : result cat_IndexColumn.t :=
  if optVirtualIndex.isPrimary oi then
    col ← optVirtualTable_Column tab i;
    Ok (cat_IndexColumn.mk col false)
  else
    let d := optVirtualIndex.desc oi in
    let length_ := length (descpb.IndexDescriptor.ColumnIDs d) in
    if decide (i < length_) then
      colID ← index (descpb.IndexDescriptor.ColumnIDs d) i;
      col ← optVirtualTable_Column tab
              (fst (optVirtualTable_lookupColumnOrdinal tab colID));
      Ok (cat_IndexColumn.mk col false)
    else if Nat.eqb i length_ then
      (* The special bogus PK column goes at the end of the index columns. *)
      col ← optVirtualTable_Column tab 0;
      Ok (cat_IndexColumn.mk col false)
    else
      let i := i - (length_ + 1) in
      colID ← index (descpb.IndexDescriptor.StoreColumnIDs d) i;
      col ← optVirtualTable_Column tab
              (fst (optVirtualTable_lookupColumnOrdinal tab colID));
      Ok (cat_IndexColumn.mk col false).

Definition optVirtualIndex_Zone (oi : optVirtualIndex.t)
  : result (option (ptr zonepb.ZoneConfig)) :=
  Panic (PanicString "no zone").

Definition optVirtualIndex_Table (oi : optVirtualIndex.t) : nat :=
  optVirtualIndex.tab oi.

Definition optVirtualIndex_Ordinal (oi : optVirtualIndex.t) : nat :=
  optVirtualIndex.indexOrdinal oi.

(** The only family of a virtual table; the wrapper holds nothing but the
    table, which is passed to its accessors. *)
Definition optVirtualFamily_ID : Z := 0%Z.

Definition optVirtualFamily_Name : string := "primary".

Definition optVirtualFamily_ColumnCount (tab : optVirtualTable.t) : nat :=
  optVirtualTable_ColumnCount tab.

Definition optVirtualFamily_Column (tab : optVirtualTable.t) (i : nat)
  : result cat_FamilyColumn.t :=
  col ← optVirtualTable_Column tab i;
  Ok (cat_FamilyColumn.mk col i).

(** ** The remaining functions of the catalog *)

(** [init]: the catalog is given its planner and an empty cache. *)
Definition optCatalog_init (oc : optCatalog.t) (p : planner.t) : optCatalog.t :=
  optCatalog.mk p (optCatalog.cfg oc) ∅.

(** [reset]: the cache is thrown away when it has grown past 100 entries,
    and the system configuration is read again.  [GetSystemConfig] is what
    [oc.planner.execCfg.SystemConfig.GetSystemConfig()] returns at the time
    of the call. *)
Definition optCatalog_reset (oc : optCatalog.t)
    (GetSystemConfig : option config.SystemConfig) : optCatalog.t :=
  let dataSources :=
    if decide (100 < size (optCatalog.dataSources oc)) then ∅
    else optCatalog.dataSources oc in
  optCatalog.mk (optCatalog.planner_ oc) GetSystemConfig dataSources.

Definition getDescForDataSource (o : DataSource)
  : result (ptr tabledesc.Immutable) :=
  match o with
  | DSTable (OptTable t) => Ok (optTable.desc (obj t))
  | DSTable (OptVirtualTable t) => Ok (optVirtualTable.desc (obj t))
  | DSView t => Ok (optView.desc t)
  | DSSequence t => Ok (optSequence.desc t)
  end.

(** The [Equals] method of a [cat.Object], by the wrapper behind the
    interface value.  The wrappers of tables are compared by address, which
    the interface value carries; views, sequences and schemas are compared
    by content. *)
Definition Object_Equals (o other : Object) : result bool :=
  match o with
  | ObjSchema os => Ok (optSchema_Equals os other)
  | ObjDataSource (DSView ov) => Ok (optView_Equals ov other)
  | ObjDataSource (DSSequence os) => Ok (optSequence_Equals os other)
  | ObjDataSource (DSTable (OptTable ot)) => optTable_Equals ot other
  | ObjDataSource (DSTable (OptVirtualTable ot)) =>
      Ok (optVirtualTable_Equals ot other)
  end.

(** The [ID] method of a [cat.Object]. *)
Definition Object_ID (o : Object) : Z :=
  match o with
  | ObjSchema os => optSchema_ID os
  | ObjDataSource (DSView ov) => optView_ID ov
  | ObjDataSource (DSSequence os) => optSequence_ID os
  | ObjDataSource (DSTable tab) => Table_ID tab
  end.

(** ** Sample values *)

Module Sample.

Definition db52 : catalog.Database := catalog.mkDatabase 52 "db1".
Definition db53 : catalog.Database := catalog.mkDatabase 53 "db2".

Definition publicOf52 : optSchema.t :=
  optSchema.mk db52 (catalog.mkResolvedSchema catalog.SchemaPublic 29 "public")
               (tree.mkTableName "db1" "public" "" true true).

Definition pgCatalogOf52 : optSchema.t :=
  optSchema.mk db52
               (catalog.mkResolvedSchema catalog.SchemaVirtual 4294967183 "pg_catalog")
               (tree.mkTableName "db1" "pg_catalog" "" true true).

Definition intType : types.T := types.Int.

Definition colA : descpb.ColumnDescriptor.t :=
  descpb.ColumnDescriptor.mk 1 "a" intType false false None None.
Definition colB : descpb.ColumnDescriptor.t :=
  descpb.ColumnDescriptor.mk 2 "b" intType true false None None.
Definition colC : descpb.ColumnDescriptor.t :=
  descpb.ColumnDescriptor.mk 3 "c" intType false false None None.

Definition primaryIdx : descpb.IndexDescriptor.t :=
  descpb.IndexDescriptor.mk 1 "primary" true descpb.IndexDescriptor_FORWARD
    [1%Z] [descpb.IndexDescriptor_ASC] [] [] "".
Definition uniqueOnB : descpb.IndexDescriptor.t :=
  descpb.IndexDescriptor.mk 2 "b_key" true descpb.IndexDescriptor_FORWARD
    [2%Z] [descpb.IndexDescriptor_ASC] [1%Z] [] "".
Definition nonUniqueOnC : descpb.IndexDescriptor.t :=
  descpb.IndexDescriptor.mk 3 "c_idx" false descpb.IndexDescriptor_FORWARD
    [3%Z] [descpb.IndexDescriptor_ASC] [1%Z] [] "".

Definition family0 : descpb.ColumnFamilyDescriptor.t :=
  descpb.ColumnFamilyDescriptor.mk 0 "primary" [1%Z; 2%Z; 3%Z].

(** The table [(a int, b int nullable, c int)] with primary key [(a)], a
    unique index on [(b)] and a non-unique index on [(c)]. *)
Definition abcDesc : tabledesc.Immutable :=
  tabledesc.mkImmutable 60 1 "abc" 52 29 tabledesc.IsTable false ""
    [colA; colB; colC] [colA; colB; colC] [colA; colB; colC]
    primaryIdx [uniqueOnB; nonUniqueOnC] [uniqueOnB; nonUniqueOnC]
    [uniqueOnB; nonUniqueOnC]
    [family0] [] [] [].

Definition abc : ptr tabledesc.Immutable := Ptr 1 abcDesc.

Definition noZone : zonepb.ZoneConfig :=
  zonepb.mkZoneConfig None None None None false [] [].

(** A virtual table with one single-column index. *)
Definition vtableIdx : descpb.IndexDescriptor.t :=
  descpb.IndexDescriptor.mk 1 "a_idx" false descpb.IndexDescriptor_FORWARD
    [1%Z] [descpb.IndexDescriptor_ASC] [] [] "".

Definition vtableDesc : tabledesc.Immutable :=
  tabledesc.mkImmutable 4294967000 1 "pg_sequence" 0 0 tabledesc.IsTable true ""
    [colA; colB] [colA; colB] [colA; colB]
    primaryIdx [vtableIdx] [vtableIdx] [vtableIdx]
    [] [] [] [].

Definition vtable : ptr tabledesc.Immutable := Ptr 2 vtableDesc.

Definition twoColumnIdx : descpb.IndexDescriptor.t :=
  descpb.IndexDescriptor.mk 2 "ab_idx" false descpb.IndexDescriptor_FORWARD
    [1%Z; 2%Z] [descpb.IndexDescriptor_ASC; descpb.IndexDescriptor_ASC] [] [] "".

Definition badVtableDesc : tabledesc.Immutable :=
  tabledesc.mkImmutable 4294967001 1 "bad" 0 0 tabledesc.IsTable true ""
    [colA; colB] [colA; colB] [colA; colB]
    primaryIdx [vtableIdx; twoColumnIdx] [vtableIdx; twoColumnIdx]
    [vtableIdx; twoColumnIdx]
    [] [] [] [].

Definition badVtable : ptr tabledesc.Immutable := Ptr 3 badVtableDesc.

(** A planner that knows the databases [db1] and [db2] and nothing else. *)
Definition lookupSchema (catalogName schemaName : string)
  : result (option catalog.ResolvedObjectPrefix) :=
  if String.eqb catalogName "db1" then
    Ok (Some (catalog.mkResolvedObjectPrefix db52
                (catalog.mkResolvedSchema catalog.SchemaVirtual 0 schemaName)))
  else if String.eqb catalogName "db2" then
    Ok (Some (catalog.mkResolvedObjectPrefix db53
                (catalog.mkResolvedSchema catalog.SchemaVirtual 0 schemaName)))
  else Ok None.

Definition thePlanner : planner.t :=
  planner.mk false (fun _ _ => Err ErrDescriptorNotFound) lookupSchema
             (fun _ => Ok None) 0%Z.

Definition inNoDb : tree.TableName :=
  tree.mkTableName "" "pg_catalog" "pg_sequence" false true.
Definition inDb1 : tree.TableName :=
  tree.mkTableName "db1" "pg_catalog" "pg_sequence" true true.
Definition inDb2 : tree.TableName :=
  tree.mkTableName "db2" "pg_catalog" "pg_sequence" true true.

(** The wrapper of [abc], built without statistics under the empty zone
    configuration. *)
Definition abcBuilt : result (ptr optTable.t * nat) :=
  newOptTable abc 0%Z None (Some emptyZoneConfig) 10.

Definition tableOf (r : result (ptr optTable.t * nat)) : ptr optTable.t :=
  match r with
  | Ok (t, _) => t
  | _ => Ptr 0 (optTable.mk abc [] 0 [] 0%Z None [] None None [] [] [] [] ∅)
  end.

Definition abcTable : ptr optTable.t := tableOf abcBuilt.

(** A foreign key from table 61 to table 62. *)
Definition fk61to62 : optForeignKeyConstraint.t :=
  optForeignKeyConstraint.mk "fk" 61 [1%Z] 62 [1%Z]
    descpb.ConstraintValidity_Validated descpb.ForeignKeyReference_SIMPLE
    descpb.ForeignKeyReference_NO_ACTION descpb.ForeignKeyReference_NO_ACTION.

Definition vtableOf (r : result (ptr optVirtualTable.t * nat))
  : ptr optVirtualTable.t :=
  match r with
  | Ok (t, _) => t
  | _ => Ptr 0 (optVirtualTable.mk vtable [] 0 inNoDb [] ∅)
  end.

(** The virtual table resolved with no database, in [db1] and in [db2]. *)
Definition pgSequenceInNoDb : ptr optVirtualTable.t :=
  vtableOf (newOptVirtualTable thePlanner vtable inNoDb 10).
Definition pgSequenceInDb1 : ptr optVirtualTable.t :=
  vtableOf (newOptVirtualTable thePlanner vtable inDb1 10).
Definition pgSequenceInDb2 : ptr optVirtualTable.t :=
  vtableOf (newOptVirtualTable thePlanner vtable inDb2 11).

(** Two statistics snapshots with the same content at different addresses,
    and the wrapper of [abc] built with the first. *)
Definition statOnB : stats.TableStatistic :=
  stats.mkTableStatistic (stats.mkTime 1000 0 0) [2%Z] 100 10 5.
Definition statOnAB : stats.TableStatistic :=
  stats.mkTableStatistic (stats.mkTime 1000 0 0) [1%Z; 2%Z] 100 100 0.

Definition snapshot1 : option (slice stats.TableStatistic) :=
  Some (Slice 100 [statOnB; statOnAB]).
Definition snapshot2 : option (slice stats.TableStatistic) :=
  Some (Slice 200 [statOnB; statOnAB]).

Definition abcWithStats : ptr optTable.t :=
  tableOf (newOptTable abc 0%Z snapshot1 (Some emptyZoneConfig) 10).

(** A table that already has a column with the reserved name of the system
    column. *)
Definition colMVCC : descpb.ColumnDescriptor.t :=
  descpb.ColumnDescriptor.mk 2 "crdb_internal_mvcc_timestamp" types.Decimal
                             true false None None.

Definition legacyDesc : tabledesc.Immutable :=
  tabledesc.mkImmutable 61 1 "legacy" 52 29 tabledesc.IsTable false ""
    [colA; colMVCC] [colA; colMVCC] [colA; colMVCC]
    primaryIdx [] [] []
    [family0] [] [] [].

Definition legacy : ptr tabledesc.Immutable := Ptr 4 legacyDesc.

Definition legacyTable : ptr optTable.t :=
  tableOf (newOptTable legacy 0%Z None (Some emptyZoneConfig) 10).

(** The index wrappers of a built table, by ordinal. *)
Definition indexAt (t : ptr optTable.t) (i : nat) : optIndex.t :=
  match optTable.indexes (obj t) !! i with
  | Some oi => oi
  | None =>
      optIndex.mk 0 (IdxPtr (PrimaryIndexOf 0) primaryIdx) None [] 0 0 0 0 0%Z
  end.

(** A zone configuration with an override for the whole of index 2 and one
    for a partition of index 3, and the wrapper of [abc] built twice under
    it with the same statistics. *)
Definition zonedConfig : zonepb.ZoneConfig :=
  zonepb.mkZoneConfig (Some 3%Z) None None (Some 90000%Z) false ["+region=us"]
    [zonepb.mkSubzone 2 ""
       (zonepb.mkZoneConfig (Some 5%Z) None None None true [] []);
     zonepb.mkSubzone 3 "p1"
       (zonepb.mkZoneConfig (Some 7%Z) None None None true [] [])].

Definition zoned : ptr zonepb.ZoneConfig := Ptr 5 zonedConfig.

Definition abcZoned1 : ptr optTable.t :=
  tableOf (newOptTable abc 0%Z snapshot1 (Some zoned) 10).
Definition abcZoned2 : ptr optTable.t :=
  tableOf (newOptTable abc 0%Z snapshot1 (Some zoned) 20).

(** The descriptor of [abc] once more, at another address. *)
Definition abcAgain : ptr tabledesc.Immutable := Ptr 7 abcDesc.

(** Two snapshots of the descriptor of one table at one version, read
    before and after a value was added to the enumeration type of its
    column [e]: the version of the type differs. *)
Definition moodV1 : types.T := types.mkT types.EnumFamily true 1 ["x"; "y"].
Definition moodV2 : types.T :=
  types.mkT types.EnumFamily true 2 ["x"; "y"; "z"].

Definition colE (t : types.T) : descpb.ColumnDescriptor.t :=
  descpb.ColumnDescriptor.mk 2 "e" t false false None None.

Definition moodDesc (t : types.T) : tabledesc.Immutable :=
  tabledesc.mkImmutable 62 3 "moods" 52 29 tabledesc.IsTable false ""
    [colA; colE t] [colA; colE t] [colA; colE t]
    primaryIdx [] [] []
    [family0] [] [] [].

Definition moodsBefore : ptr tabledesc.Immutable := Ptr 8 (moodDesc moodV1).
Definition moodsAfter : ptr tabledesc.Immutable := Ptr 9 (moodDesc moodV2).

Definition moodsBeforeTable : ptr optTable.t :=
  tableOf (newOptTable moodsBefore 0%Z snapshot1 (Some zoned) 10).
Definition moodsAfterTable : ptr optTable.t :=
  tableOf (newOptTable moodsAfter 0%Z snapshot1 (Some zoned) 20).

(** A sequence, and a planner whose descriptor lookup finds the sequence
    under the ID 70, reports the table 71 as being added, fails on the
    table 73 for a reason of its own, and finds nothing else. *)
Definition seqDesc : tabledesc.Immutable :=
  tabledesc.mkImmutable 70 1 "seq" 52 29 tabledesc.IsSequence false ""
    [] [] [] primaryIdx [] [] [] [] [] [] [].

Definition seq : ptr tabledesc.Immutable := Ptr 6 seqDesc.

Definition lookupTableByID (avoidCache : bool) (id : Z)
  : result (ptr tabledesc.Immutable) :=
  if Z.eqb id 70 then Ok seq
  else if Z.eqb id 71 then Err ErrAddingTable
  else if Z.eqb id 73 then Err (OtherError "context canceled")
  else Err ErrDescriptorNotFound.

Definition theCatalog : optCatalog.t :=
  optCatalog.mk
    (planner.mk false lookupTableByID lookupSchema (fun _ => Ok None) 0%Z)
    None ∅.

Definition avoidCaches : cat_Flags.t := cat_Flags.mk true false.

(** *** A table with an inverted index, mutations and constraints *)

Definition jsonType : types.T := types.mkT types.JsonFamily false 0%Z [].

Definition colDoc : descpb.ColumnDescriptor.t :=
  descpb.ColumnDescriptor.mk 2 "doc" jsonType true false None None.
Definition colMood : descpb.ColumnDescriptor.t :=
  descpb.ColumnDescriptor.mk 3 "mood" moodV1 false false None None.
Definition colNew : descpb.ColumnDescriptor.t :=
  descpb.ColumnDescriptor.mk 4 "new" moodV1 true false None None.

Definition docInverted : descpb.IndexDescriptor.t :=
  descpb.IndexDescriptor.mk 2 "doc_idx" false descpb.IndexDescriptor_INVERTED
    [2%Z] [descpb.IndexDescriptor_ASC] [1%Z] [] "".
Definition moodIdx : descpb.IndexDescriptor.t :=
  descpb.IndexDescriptor.mk 3 "mood_idx" false descpb.IndexDescriptor_FORWARD
    [3%Z] [descpb.IndexDescriptor_DESC] [1%Z] [2%Z] "mood IS NOT NULL".

Definition familyDoc : descpb.ColumnFamilyDescriptor.t :=
  descpb.ColumnFamilyDescriptor.mk 0 "primary" [1%Z; 2%Z].
Definition familyMood : descpb.ColumnFamilyDescriptor.t :=
  descpb.ColumnFamilyDescriptor.mk 1 "fam_mood" [3%Z; 4%Z].

Definition fkToAbc : descpb.ForeignKeyConstraint.t :=
  descpb.ForeignKeyConstraint.mk "fk_abc" 63 [3%Z] 60 [1%Z]
    descpb.ConstraintValidity_Validated descpb.ForeignKeyReference_SIMPLE
    descpb.ForeignKeyReference_NO_ACTION descpb.ForeignKeyReference_CASCADE.
Definition fkFromAbc : descpb.ForeignKeyConstraint.t :=
  descpb.ForeignKeyConstraint.mk "fk_docs" 60 [2%Z] 63 [1%Z]
    descpb.ConstraintValidity_Unvalidated descpb.ForeignKeyReference_SIMPLE
    descpb.ForeignKeyReference_NO_ACTION descpb.ForeignKeyReference_NO_ACTION.

Definition checkPositive : descpb.CheckConstraint.t :=
  descpb.CheckConstraint.mk "a > 0" descpb.ConstraintValidity_Validated.
Definition checkPending : descpb.CheckConstraint.t :=
  descpb.CheckConstraint.mk "doc IS NOT NULL"
    descpb.ConstraintValidity_Validating.

(** The table [docs (a int, doc json, mood enum)] with a column [new] being
    added, an inverted index on [doc], an index on [mood], two families,
    foreign keys to and from [abc] and two check constraints. *)
Definition docsDesc : tabledesc.Immutable :=
  tabledesc.mkImmutable 63 2 "docs" 52 29 tabledesc.IsTable false ""
    [colA; colDoc; colMood] [colA; colDoc; colMood; colNew]
    [colA; colDoc; colMood; colNew]
    primaryIdx [docInverted; moodIdx] [docInverted; moodIdx]
    [docInverted; moodIdx]
    [familyDoc; familyMood] [fkToAbc] [fkFromAbc] [checkPositive; checkPending].

Definition docs : ptr tabledesc.Immutable := Ptr 11 docsDesc.

(** A statistics snapshot whose second statistic is on a column that the
    table no longer has. *)
Definition statOnDropped : stats.TableStatistic :=
  stats.mkTableStatistic (stats.mkTime 900 0 0) [1%Z; 9%Z] 100 50 0.

Definition docsSnapshot : option (slice stats.TableStatistic) :=
  Some (Slice 300 [statOnB; statOnDropped; statOnAB]).

Definition docsTable : ptr optTable.t :=
  tableOf (newOptTable docs 0%Z docsSnapshot (Some zoned) 30).

(** A catalog whose statistics cache has the snapshot of [docs], and the
    catalog some time after it has resolved [docs]: the wrapper is in its
    cache, the planner avoids the descriptor caches, and the statistics
    cache has got a snapshot for [abc] but still answers with the same
    snapshot for [docs]. *)
Definition docsStats (id : Z) : result (option (slice stats.TableStatistic)) :=
  if Z.eqb id 63 then Ok docsSnapshot else Ok None.

Definition docsCatalog : optCatalog.t :=
  optCatalog.mk (planner.mk false lookupTableByID lookupSchema docsStats 0%Z)
                None ∅.

Definition docsCatalogLater : optCatalog.t :=
  optCatalog.mk
    (planner.mk true lookupTableByID lookupSchema
       (fun id => if Z.eqb id 60 then Ok snapshot1 else docsStats id) 0%Z)
    None
    (optCatalog.dataSources
       (dataSourceForDesc docsCatalog cat_Flags.zero docs
                          tree.emptyTableName 30).1.2).

End Sample.

(** ** Notions of the specification *)

(** A virtual or public schema: its stable ID is the one of its database. *)
Definition fallsBackToDatabase (os : optSchema.t) : Prop :=
  catalog.Kind (optSchema.schema os) = catalog.SchemaVirtual
  \/ catalog.Kind (optSchema.schema os) = catalog.SchemaPublic.

(** A descriptor or database ID is a [uint32]. *)
Definition isUint32 (x : Z) : Prop := (0 <= x < 2 ^ 32)%Z.

(** The two halves of a stable ID. *)
Definition high32 (id : Z) : Z := Z.shiftr id 32.
Definition low32 (id : Z) : Z := Z.land id (2 ^ 32 - 1).

(** Some column with a user-defined type has a different version of the type
    in the two descriptors. *)
Definition typeVersionDiffers (d d' : tabledesc.Immutable) : Prop :=
  exists i c c',
    tabledesc.UserDefinedTypeColumns d !! i = Some c
    /\ tabledesc.UserDefinedTypeColumns d' !! i = Some c'
    /\ types.TypeMetaVersion (descpb.ColumnDescriptor.Type_ c)
       <> types.TypeMetaVersion (descpb.ColumnDescriptor.Type_ c').

(** Two statistics snapshots are different instances: their backing arrays
    are at different addresses. *)
Definition differentInstance (s s' : option (slice stats.TableStatistic))
  : Prop :=
  slice_addr0 s <> slice_addr0 s'.

(** The columns of a table wrapper before its indexes are built: one per
    column of the descriptor, then the system column unless its name is
    taken. *)
Definition descColumns (d : tabledesc.Immutable) : list cat.Column :=
  imap (initColumnFromDesc (length (tabledesc.Columns d))
                           (length (tabledesc.WritableColumns d)))
       (tabledesc.DeletableColumns d).

Definition baseColumns (d : tabledesc.Immutable) : list cat.Column :=
  match tabledesc.FindColumnByName d colinfo.MVCCTimestampColumnName with
  | Ok _ => descColumns d
  | _ => descColumns d ++ [mvccTimestampColumn (length (descColumns d))]
  end.

(** The zones the loop over the indexes gives them, from the allocator
    [next] on. *)
Fixpoint indexZones (tz : ptr zonepb.ZoneConfig) (idxDescs : list idxptr)
    (next : nat) : list (option (ptr zonepb.ZoneConfig)) :=
  match idxDescs with
  | [] => []
  | d :: rest =>
      (indexZone tz (iobj d) next).1
      :: indexZones tz rest (indexZone tz (iobj d) next).2
  end.

(** The statistics wrappers the builder keeps for a table whose column map
    is the one of [ot]. *)
Definition builtStats (ot : optTable.t)
    (stats : option (slice stats.TableStatistic)) : list optTableStat.t :=
  match stats with
  | None => []
  | Some s =>
      match addStats ot (replicate (length (elems s)) zeroTableStat) O (elems s)
      with
      | Ok (slots, n) => take n slots
      | _ => []
      end
  end.

(** The descriptor has a column, public or in a mutation, with this name. *)
Definition hasColumnNamed (d : tabledesc.Immutable) (name : string) : Prop :=
  exists c, c ∈ tabledesc.DeletableColumns d
            /\ descpb.ColumnDescriptor.Name c = name.

(** The columns [cols] of a table are the columns of the descriptor, then
    exactly one system column, hidden and with the given nullability, under
    the reserved name, then columns that are not system columns. *)
Definition systemColumnAppended (d : tabledesc.Immutable)
    (cols : list cat.Column) (nullable : bool) : Prop :=
  exists sys extra,
    cols = descColumns d ++ [sys] ++ extra
    /\ cat.Kind sys = cat.System
    /\ cat.ColName sys = colinfo.MVCCTimestampColumnName
    /\ cat.Ordinal sys = length (tabledesc.DeletableColumns d)
    /\ cat.IsHidden sys = true
    /\ cat.IsNullable sys = nullable
    /\ Forall (fun c => cat.Kind c <> cat.System) (descColumns d ++ extra).

(** The columns [cols] of a table are the columns of the descriptor and
    columns that are not system columns: no system column was appended. *)
Definition noSystemColumnAppended (d : tabledesc.Immutable)
    (cols : list cat.Column) : Prop :=
  exists extra,
    cols = descColumns d ++ extra
    /\ Forall (fun c => cat.Kind c <> cat.System) (descColumns d ++ extra).

(** The column IDs of a valid descriptor are pairwise different [uint32]s
    below the reserved ID of the system column. *)
Definition validColumns (d : tabledesc.Immutable) : Prop :=
  NoDup (descpb.ColumnDescriptor.ID <$> tabledesc.DeletableColumns d)
  /\ Forall (fun c => (0 <= descpb.ColumnDescriptor.ID c < MaxUint32)%Z)
            (tabledesc.DeletableColumns d).

(** [cd] is a declared key column of the index: a column of the table
    whose ID is among the index's [ColumnIDs]. *)
Definition declaredKeyColumn (d : tabledesc.Immutable)
    (idx : descpb.IndexDescriptor.t) (cd : descpb.ColumnDescriptor.t) : Prop :=
  cd ∈ tabledesc.DeletableColumns d
  /\ descpb.ColumnDescriptor.ID cd ∈ descpb.IndexDescriptor.ColumnIDs idx.

(** Every key column ID of the index is the ID of a column of the table. *)
Definition keyColumnsDeclared (d : tabledesc.Immutable)
    (idx : descpb.IndexDescriptor.t) : Prop :=
  forall id, id ∈ descpb.IndexDescriptor.ColumnIDs idx ->
             exists cd, cd ∈ tabledesc.DeletableColumns d
                        /\ descpb.ColumnDescriptor.ID cd = id.

(** The key of a column in the column map. *)
Definition colKey (c : cat.Column) : Z := uint32 (cat.ColID c).

(** Two statistics are equal: the statistics they wrap were created at the
    same time, and they have the same sequence of column ordinals. *)
Definition statEqual (s s' : optTableStat.t) : Prop :=
  stats.CreatedAt (optTableStat.stat s) = stats.CreatedAt (optTableStat.stat s')
  /\ optTableStat.columnOrdinals s = optTableStat.columnOrdinals s'.

(** The conditions under which two different table wrappers are equal. *)
Definition equalTables (a b : optTable.t) : Prop :=
  tabledesc.ID (obj (optTable.desc a)) = tabledesc.ID (obj (optTable.desc b))
  /\ tabledesc.Version (obj (optTable.desc a))
     = tabledesc.Version (obj (optTable.desc b))
  /\ length (optTable.stats a) = length (optTable.stats b)
  /\ (forall i s s',
        optTable.stats a !! i = Some s -> optTable.stats b !! i = Some s' ->
        statEqual s s')
  /\ ~ typeVersionDiffers (obj (optTable.desc a)) (obj (optTable.desc b))
  /\ (forall i oi,
        optTable.indexes a !! i = Some oi ->
        exists oi',
          optTable.indexes b !! i = Some oi'
          /\ zonepb.Equal (optIndex.zone oi) (optIndex.zone oi') = true).

(** A table wrapper built by [newOptTable], by an allocator that is past
    the zone configuration it was given. *)
Definition built (t : ptr optTable.t) : Prop :=
  exists desc codec stats tz next next',
    loc tz < next
    /\ newOptTable desc codec stats (Some tz) next = Ok (t, next').

(** Pointers at the same address point to the same object. *)
Definition coherent (zs : list (option (ptr zonepb.ZoneConfig))) : Prop :=
  forall p q, Some p ∈ zs -> Some q ∈ zs -> loc p = loc q -> obj p = obj q.

(** Two table wrappers under construction that differ in addresses only:
    in where their descriptor is, and in what their indexes point to. *)
Definition sameShape (ot1 ot2 : optTable.t) : Prop :=
  optTable.columns ot1 = optTable.columns ot2
  /\ optTable.columnsCap ot1 = optTable.columnsCap ot2
  /\ optTable.colMap ot1 = optTable.colMap ot2
  /\ obj (optTable.desc ot1) = obj (optTable.desc ot2).

(** The catalog during a call of [ResolveDataSourceByID]: descriptor caches
    are avoided when the flags ask for it. *)
Definition duringCall (oc : optCatalog.t) (flags : cat_Flags.t) : optCatalog.t :=
  if cat_Flags.AvoidDescriptorCaches flags then
    optCatalog.withPlanner oc
      (planner.withAvoidCachedDescriptors (optCatalog.planner_ oc) true)
  else oc.

(** What the descriptor provider answers during the call. *)
Definition lookupDuringCall (oc : optCatalog.t) (flags : cat_Flags.t)
    (dataSourceID : Z) : result (ptr tabledesc.Immutable) :=
  let p := optCatalog.planner_ (duringCall oc flags) in
  planner.LookupTableByID p (planner.avoidCachedDescriptors p)
                          (uint32 dataSourceID).

(** The two states of the specification: the object does not exist; it
    exists but is mid-creation. *)
Definition doesNotExist (lookup : result (ptr tabledesc.Immutable)) : Prop :=
  exists e, lookup = Err e /\ catalog.IsDescriptorNotFound e = true.

Definition midCreation (lookup : result (ptr tabledesc.Immutable)) : Prop :=
  exists e, lookup = Err e /\ catalog.HasAddingTableError e = true.

(** What [ResolveDataSourceByID] returns for the outcome of
    [dataSourceForDesc]. *)
Definition resolvedOf (r : result DataSource) : resolved :=
  match r with
  | Ok ds => Returned (Some ds) false None
  | Err e => Returned None false (Some e)
  | Panic v => Panicked v
  end.

(** Two index descriptors with the same content that are both, or are
    both not, the primary index of their table descriptor. *)
Definition sameIndexDesc (desc1 desc2 : ptr tabledesc.Immutable)
    (d1 d2 : idxptr) : Prop :=
  iobj d1 = iobj d2
  /\ (iaddr d1 = PrimaryIndexOf (loc desc1)
      <-> iaddr d2 = PrimaryIndexOf (loc desc2)).

(** *** Notions of the table builder *)

(** The number of inverted indexes among index descriptors. *)
Definition countInverted (descs : list idxptr) : nat :=
  length (filter (fun d => descpb.IndexDescriptor.Type_ (iobj d)
                           = descpb.IndexDescriptor_INVERTED) descs).

(** The column synthesized for the key of an inverted index: the virtual
    column at [ord] made from the source column [src] at [srcOrd]. *)
Definition invertedKeyColumn (ord : nat) (src : cat.Column) (srcOrd : nat)
  : cat.Column :=
  cat.InitVirtual ord (cat.ColName src +:+ "_inverted_key") (cat.DatumType src)
                  false srcOrd.

(** Every column holds its own position. *)
Definition ordinalsMatch (cols : list cat.Column) : Prop :=
  forall i c, cols !! i = Some c -> cat.Ordinal c = i.

(** What the loop over the indexes has made of one index: the wrapper was
    initialised when the table had its first [m] columns; for an inverted
    index the last of these is the column of its key. *)
Definition indexBuilt (self : nat) (desc : ptr tabledesc.Immutable)
    (base cols : list cat.Column) (m j : nat) (oi : optIndex.t) : Prop :=
  length base <= m <= length cols
  /\ (exists tab,
        optTable.columns tab = take m cols
        /\ optTable.colMap tab = buildColMap base
        /\ optTable.desc tab = desc
        /\ optIndex_init tab self j (optIndex.desc oi) (optIndex.zone oi)
                         (optIndex.invertedVirtualColOrd oi) = Ok oi)
  /\ (descpb.IndexDescriptor.Type_ (iobj (optIndex.desc oi))
      <> descpb.IndexDescriptor_INVERTED ->
      optIndex.invertedVirtualColOrd oi = (-1)%Z)
  /\ (descpb.IndexDescriptor.Type_ (iobj (optIndex.desc oi))
      = descpb.IndexDescriptor_INVERTED ->
      exists n colID src,
        m = S n /\ length base <= n
        /\ optIndex.invertedVirtualColOrd oi = Z.of_nat n
        /\ descpb.IndexDescriptor.ColumnIDs (iobj (optIndex.desc oi)) !! 0
           = Some colID
        /\ base !! (match buildColMap base !! colID with
                    | Some o => o | None => O end) = Some src
        /\ cols !! n
           = Some (invertedKeyColumn n src
                     (match buildColMap base !! colID with
                      | Some o => o | None => O end))).

(** The table under construction after the loop has gone through the
    index descriptors [done]. *)
Definition indexesBuilt (self : nat) (desc : ptr tabledesc.Immutable)
    (base : list cat.Column) (done : list idxptr) (ot : optTable.t) : Prop :=
  optTable.colMap ot = buildColMap base
  /\ optTable.desc ot = desc
  /\ (exists extra,
        optTable.columns ot = base ++ extra
        /\ Forall (fun c => cat.Kind c = cat.Virtual /\ cat.ColID c = 0%Z) extra
        /\ length extra = countInverted done)
  /\ ordinalsMatch (optTable.columns ot)
  /\ Forall (fun c => is_Some (cat.DatumType c)) (optTable.columns ot)
  /\ optIndex.desc <$> optTable.indexes ot = done
  /\ forall j oi,
       optTable.indexes ot !! j = Some oi ->
       indexBuilt self desc base (optTable.columns ot)
                  (length base + countInverted (take (S j) done)) j oi.

(** The subzones of a zone configuration that apply to the whole of an
    index: they name the index and no partition. *)
Definition wholeIndexSubzones (tz : zonepb.ZoneConfig)
    (idx : descpb.IndexDescriptor.t) : list zonepb.Subzone :=
  filter (fun s => zonepb.IndexID s = uint32 (descpb.IndexDescriptor.ID idx)
                   /\ zonepb.PartitionName s = "")
         (zonepb.Subzones tz).

(** The wrapper of a statistic for a table with this column map: the
    statistic with the ordinals of its columns, when the table has them
    all. *)
Definition statWrapper (colMap : gmap Z nat) (stat : stats.TableStatistic)
  : option optTableStat.t :=
  ords ← mapM (fun c => colMap !! c) (stats.ColumnIDs stat);
  Some (optTableStat.mk stat ords).

(** The statistics of a snapshot; the nil slice has none. *)
Definition snapshotElems (s : option (slice stats.TableStatistic))
  : list stats.TableStatistic :=
  match s with
  | None => []
  | Some s => elems s
  end.

(** The check synthesized for a column: the membership test of a column
    that is not in a mutation and whose type is a user-defined
    enumeration. *)
Definition enumCheck (c : cat.Column) : option cat.CheckConstraint :=
  if cat.IsMutation c then None
  else
    match cat.DatumType c with
    | Some colType =>
        if types.UserDefined colType
           && bool_decide (types.Family_ colType = types.EnumFamily)
        then Some (cat.mkCheckConstraint
                     (cat.EnumIn (cat.ColName c) (types.EnumMembers colType))
                     true)
        else None
    | None => None
    end.

(** The wrapper behind a [cat.Object]. *)
Inductive ObjectKind : Type :=
  | KindSchema | KindTable | KindVirtualTable | KindView | KindSequence.

Definition objectKind (o : Object) : ObjectKind :=
  match o with
  | ObjSchema _ => KindSchema
  | ObjDataSource (DSTable (OptTable _)) => KindTable
  | ObjDataSource (DSTable (OptVirtualTable _)) => KindVirtualTable
  | ObjDataSource (DSView _) => KindView
  | ObjDataSource (DSSequence _) => KindSequence
  end.

(** Two objects do not contradict each other on what is at an address:
    when they are table wrappers at the same address, they are the same
    wrapper. *)
Definition sameHeap (o other : Object) : Prop :=
  match o, other with
  | ObjDataSource (DSTable (OptTable a)), ObjDataSource (DSTable (OptTable b))
    => loc a = loc b -> obj a = obj b
  | ObjDataSource (DSTable (OptVirtualTable a)),
    ObjDataSource (DSTable (OptVirtualTable b)) =>
      loc a = loc b -> obj a = obj b
  | _, _ => True
  end.

(** * Properties *)

(** ** Schemas *)

(** C10.  Equality of schema objects looks at the stable ID alone: [Equals]
    is true exactly when the other object is a schema with the same stable
    ID; and two virtual or public schemas of the same database are equal,
    whatever their names and kinds, since their stable ID is the ID of the
    database. *)
Theorem optSchema_Equals_stable_ID :
  forall (os : optSchema.t) (other : Object),
    (optSchema_Equals os other = true
     <-> exists os', other = ObjSchema os' /\ optSchema_ID os = optSchema_ID os')
    /\ (forall os',
          other = ObjSchema os' ->
          fallsBackToDatabase os -> fallsBackToDatabase os' ->
          catalog.GetID (optSchema.database os)
          = catalog.GetID (optSchema.database os') ->
          optSchema_ID os = cat.StableID (catalog.GetID (optSchema.database os))
          /\ optSchema_Equals os other = true).
Proof.
  intros os other. split.
  - destruct other as [os'|ds]; simpl.
    + rewrite Z.eqb_eq. split.
      * intros H. exists os'. by split.
      * intros (os'' & Heq & H). by inversion Heq; subst.
    + split; [discriminate|]. intros (os' & Heq & _). discriminate.
  - intros os' -> Hk Hk' Hdb.
    assert (Hid : forall s, fallsBackToDatabase s ->
              optSchema_ID s = cat.StableID (catalog.GetID (optSchema.database s))).
    { intros s [Hs|Hs]; unfold optSchema_ID; by rewrite Hs. }
    split; [by apply Hid|].
    simpl. apply Z.eqb_eq. rewrite (Hid os Hk), (Hid os' Hk'). by rewrite Hdb.
Qed.

Lemma optSchema_Equals_stable_ID_witness :
  optSchema_ID Sample.publicOf52 = cat.StableID 52
  /\ optSchema_Equals Sample.publicOf52 (ObjSchema Sample.pgCatalogOf52) = true.
Proof.
  apply (proj2 (optSchema_Equals_stable_ID Sample.publicOf52
                  (ObjSchema Sample.pgCatalogOf52)) Sample.pgCatalogOf52).
  - reflexivity.
  - right. reflexivity.
  - left. reflexivity.
  - reflexivity.
Defined.

(** ** Foreign keys *)

(** C8.  For every foreign-key constraint and every column position, the
    origin-column accessor called with a table whose stable ID is not the
    constraint's origin table panics with an assertion failure, and so does
    the referenced-column accessor called with a table that is not the
    referenced table; neither returns an ordinal. *)
Theorem foreign_key_ordinal_wrong_table :
  forall (fk : optForeignKeyConstraint.t) (tab : Table) (i : nat),
    (Table_ID tab <> optForeignKeyConstraint.originTable fk ->
     (exists msg,
        optForeignKeyConstraint_OriginColumnOrdinal fk tab i
        = Panic (PanicError (AssertionFailed msg)))
     /\ forall ord, optForeignKeyConstraint_OriginColumnOrdinal fk tab i <> Ok ord)
    /\ (Table_ID tab <> optForeignKeyConstraint.referencedTable fk ->
        (exists msg,
           optForeignKeyConstraint_ReferencedColumnOrdinal fk tab i
           = Panic (PanicError (AssertionFailed msg)))
        /\ forall ord,
             optForeignKeyConstraint_ReferencedColumnOrdinal fk tab i <> Ok ord).
Proof.
  intros fk tab i. split; intros Hne.
  - unfold optForeignKeyConstraint_OriginColumnOrdinal.
    apply Z.eqb_neq in Hne. rewrite Hne. simpl. split; [eauto|discriminate].
  - unfold optForeignKeyConstraint_ReferencedColumnOrdinal.
    apply Z.eqb_neq in Hne. rewrite Hne. simpl. split; [eauto|discriminate].
Qed.

Lemma foreign_key_ordinal_wrong_table_witness :
  ((exists msg,
      optForeignKeyConstraint_OriginColumnOrdinal
        Sample.fk61to62 (OptTable Sample.abcTable) 0
      = Panic (PanicError (AssertionFailed msg)))
   /\ forall ord,
        optForeignKeyConstraint_OriginColumnOrdinal
          Sample.fk61to62 (OptTable Sample.abcTable) 0 <> Ok ord)
  /\ ((exists msg,
         optForeignKeyConstraint_ReferencedColumnOrdinal
           Sample.fk61to62 (OptTable Sample.abcTable) 0
         = Panic (PanicError (AssertionFailed msg)))
      /\ forall ord,
           optForeignKeyConstraint_ReferencedColumnOrdinal
             Sample.fk61to62 (OptTable Sample.abcTable) 0 <> Ok ord).
Proof.
  split.
  - apply (proj1 (foreign_key_ordinal_wrong_table
                    Sample.fk61to62 (OptTable Sample.abcTable) 0)).
    vm_compute. discriminate.
  - apply (proj2 (foreign_key_ordinal_wrong_table
                    Sample.fk61to62 (OptTable Sample.abcTable) 0)).
    vm_compute. discriminate.
Defined.

(** ** Virtual tables *)

Lemma buildVirtualIndexes_length self n i idxDescs indexes :
  buildVirtualIndexes self n i idxDescs = Ok indexes ->
  length indexes = length idxDescs.
Proof.
  revert i indexes. induction idxDescs as [|d rest IH]; intros i indexes; simpl.
  - intros [= <-]. done.
  - case_decide; [discriminate|].
    destruct (buildVirtualIndexes self n (S i) rest) as [l| |] eqn:E;
      simpl; try discriminate.
    intros [= <-]. simpl. f_equal. by eapply IH.
Qed.

Lemma buildVirtualIndexes_rejects self n i idxDescs :
  (exists idx, idx ∈ idxDescs
               /\ 1 < length (descpb.IndexDescriptor.ColumnIDs idx)) ->
  buildVirtualIndexes self n i idxDescs
  = Panic (PanicString "virtual indexes with more than 1 col not supported").
Proof.
  revert i. induction idxDescs as [|d rest IH]; intros i (idx & Hin & Hlen).
  - by apply elem_of_nil in Hin.
  - simpl. case_decide; [done|].
    apply elem_of_cons in Hin as [->|Hin]; [lia|].
    rewrite IH; [done|eauto].
Qed.

Lemma newOptVirtualTable_Ok oc desc name next vt next' :
  newOptVirtualTable oc desc name next = Ok (vt, next') ->
  exists indexes,
    virtualTableID (planner.LookupSchema oc) (obj desc) name
    = Ok (optVirtualTable.id (obj vt))
    /\ buildVirtualIndexes next
         (S (length (tabledesc.Columns (obj desc)))) 0
         (tabledesc.Indexes (obj desc)) = Ok indexes
    /\ optVirtualTable.indexes (obj vt)
       = optVirtualIndex.mk next true
           (descpb.IndexDescriptor.mk 0 "primary" false
              descpb.IndexDescriptor_FORWARD [] [] [] [] "")
           (S (length (tabledesc.Columns (obj desc)))) 0
         :: indexes.
Proof.
  unfold newOptVirtualTable.
  destruct (virtualTableID _ _ _) as [id| |]; simpl; try discriminate.
  rewrite length_imap.
  destruct (buildVirtualIndexes _ _ _ _) as [l| |]; simpl; try discriminate.
  intros [= <- <-]. simpl. eauto.
Qed.

(** C7.  Every index of a built virtual table (the synthesized primary
    index and one index per index of the descriptor) reports 2 key columns
    and 2 lax-key columns; and when the descriptor declares an index with
    more than one key column the construction yields no table: it panics,
    unless the lookup of the database has already failed. *)
Theorem virtual_index_key_columns :
  forall (oc : planner.t) (desc : ptr tabledesc.Immutable)
         (name : tree.TableName) (next : nat),
    (forall vt next',
       newOptVirtualTable oc desc name next = Ok (vt, next') ->
       length (optVirtualTable.indexes (obj vt))
       = S (length (tabledesc.Indexes (obj desc)))
       /\ forall oi, oi ∈ optVirtualTable.indexes (obj vt) ->
            optVirtualIndex_KeyColumnCount oi = 2
            /\ optVirtualIndex_LaxKeyColumnCount oi = 2)
    /\ ((exists idx, idx ∈ tabledesc.Indexes (obj desc)
                     /\ 1 < length (descpb.IndexDescriptor.ColumnIDs idx)) ->
        isOk (newOptVirtualTable oc desc name next) = false
        /\ (isOk (virtualTableID (planner.LookupSchema oc) (obj desc) name)
            = true ->
            newOptVirtualTable oc desc name next
            = Panic (PanicString
                       "virtual indexes with more than 1 col not supported"))).
Proof.
  intros oc desc name next. split.
  - intros vt next' Hb.
    destruct (newOptVirtualTable_Ok _ _ _ _ _ _ Hb) as (l & _ & Hl & ->).
    split; [|done]. simpl. f_equal. by eapply buildVirtualIndexes_length.
  - intros Hbad. unfold newOptVirtualTable.
    destruct (virtualTableID _ _ _) as [id| |]; simpl; [|done..].
    rewrite length_imap.
    rewrite (buildVirtualIndexes_rejects _ _ _ _ Hbad). done.
Qed.

Lemma virtual_index_key_columns_witness :
  (length (optVirtualTable.indexes (obj Sample.pgSequenceInDb1)) = 2
   /\ forall oi, oi ∈ optVirtualTable.indexes (obj Sample.pgSequenceInDb1) ->
        optVirtualIndex_KeyColumnCount oi = 2
        /\ optVirtualIndex_LaxKeyColumnCount oi = 2)
  /\ isOk (newOptVirtualTable Sample.thePlanner Sample.badVtable
                              Sample.inDb1 10) = false.
Proof.
  split.
  - apply (proj1 (virtual_index_key_columns Sample.thePlanner Sample.vtable
                    Sample.inDb1 10) Sample.pgSequenceInDb1 11).
    vm_compute. reflexivity.
  - apply (proj2 (virtual_index_key_columns Sample.thePlanner Sample.badVtable
                    Sample.inDb1 10)).
    exists Sample.twoColumnIdx. split.
    + vm_compute. apply list_elem_of_In. simpl. right. left. reflexivity.
    + vm_compute. lia.
Defined.

Lemma pack_high_low (d db : Z) :
  isUint32 d -> isUint32 db ->
  let id := Z.lor (cat.StableID d)
                  (uint64 (Z.shiftl (cat.StableID db) 32)) in
  high32 id = db /\ low32 id = d.
Proof.
  unfold isUint32, cat.StableID, uint64, high32, low32. intros Hd Hdb.
  rewrite (Z.mod_small d), (Z.mod_small db) by lia.
  rewrite Z.shiftl_mul_pow2 by lia.
  rewrite (Z.mod_small (db * 2 ^ 32)) by lia.
  cbv zeta. split.
  - rewrite Z.shiftr_lor, !Z.shiftr_div_pow2 by lia.
    rewrite (Z.div_small d) by lia. rewrite Z.div_mul by lia. done.
  - change (2 ^ 32 - 1)%Z with (Z.ones 32).
    rewrite Z.land_lor_distr_l, !Z.land_ones by lia.
    rewrite Z.mod_mul by lia. rewrite Z.lor_0_r. apply Z.mod_small. lia.
Qed.

Lemma low_only (d : Z) :
  isUint32 d -> high32 (cat.StableID d) = 0%Z /\ low32 (cat.StableID d) = d.
Proof.
  unfold isUint32, cat.StableID, uint64, high32, low32. intros Hd.
  rewrite (Z.mod_small d) by lia. split.
  - rewrite Z.shiftr_div_pow2 by lia. apply Z.div_small. lia.
  - change (2 ^ 32 - 1)%Z with (Z.ones 32).
    rewrite Z.land_ones by lia. apply Z.mod_small. lia.
Qed.

Lemma MaxUint32_isUint32 : isUint32 MaxUint32.
Proof. unfold isUint32, MaxUint32. lia. Qed.

Lemma virtualTableID_halves L desc name id :
  virtualTableID L desc name = Ok id ->
  isUint32 (tabledesc.ID desc) ->
  low32 id = tabledesc.ID desc
  /\ (tree.Catalog name = "" -> high32 id = 0%Z)
  /\ (tree.Catalog name <> "" ->
      forall prefix,
        L (tree.Catalog name) (tree.Schema name) = Ok (Some prefix) ->
        isUint32 (catalog.GetID (catalog.Database_ prefix)) ->
        high32 id = catalog.GetID (catalog.Database_ prefix))
  /\ (tree.Catalog name <> "" ->
      L (tree.Catalog name) (tree.Schema name) = Ok None ->
      high32 id = MaxUint32).
Proof.
  unfold virtualTableID. intros Hid Hd.
  destruct (String.eqb_spec (tree.Catalog name) "") as [He|Hne]; simpl in Hid.
  - injection Hid as <-. destruct (low_only _ Hd) as [Hh Hl].
    repeat split; try done.
  - destruct (L _ _) as [[prefix|]| |]; simpl in Hid; try discriminate;
      injection Hid as <-.
    + split; [|repeat split; try done].
      * (* the low half does not depend on the database, in range or not *)
        unfold low32, cat.StableID, uint64.
        change (2 ^ 32 - 1)%Z with (Z.ones 32).
        rewrite Z.land_lor_distr_l, !Z.land_ones by lia.
        rewrite Z.shiftl_mul_pow2 by lia.
        rewrite !Z.mod_mod_divide by (exists (2 ^ 32)%Z; lia).
        rewrite Z.mod_mul by lia. rewrite Z.lor_0_r.
        unfold isUint32 in Hd. apply Z.mod_small. lia.
      * intros _ prefix' [= <-] Hdb. by apply pack_high_low.
    + destruct (pack_high_low _ _ Hd MaxUint32_isUint32) as [Hh Hl].
      repeat split; try done.
Qed.

(** C6.  The stable ID of a built virtual table has the descriptor ID in
    its low 32 bits; its high 32 bits are zero when the name has no
    database, the ID of the database when the name's database is found and
    all ones when it is not.  So the same descriptor resolved with no
    database and under two different databases (whose IDs are not zero, as
    no database has the ID 0) gets three different stable IDs. *)
Theorem virtual_table_stable_ID :
  (forall (oc : planner.t) (desc : ptr tabledesc.Immutable)
          (name : tree.TableName) (next : nat) vt next',
     newOptVirtualTable oc desc name next = Ok (vt, next') ->
     isUint32 (tabledesc.ID (obj desc)) ->
     low32 (optVirtualTable_ID (obj vt)) = tabledesc.ID (obj desc)
     /\ (tree.Catalog name = "" -> high32 (optVirtualTable_ID (obj vt)) = 0%Z)
     /\ (tree.Catalog name <> "" ->
         forall prefix,
           planner.LookupSchema oc (tree.Catalog name) (tree.Schema name)
           = Ok (Some prefix) ->
           isUint32 (catalog.GetID (catalog.Database_ prefix)) ->
           high32 (optVirtualTable_ID (obj vt))
           = catalog.GetID (catalog.Database_ prefix))
     /\ (tree.Catalog name <> "" ->
         planner.LookupSchema oc (tree.Catalog name) (tree.Schema name)
         = Ok None ->
         high32 (optVirtualTable_ID (obj vt)) = MaxUint32))
  /\ (forall (oc : planner.t) (desc : ptr tabledesc.Immutable)
             (name0 name1 name2 : tree.TableName) (next0 next1 next2 : nat)
             vt0 vt1 vt2 next0' next1' next2' prefix1 prefix2,
        isUint32 (tabledesc.ID (obj desc)) ->
        tree.Catalog name0 = "" ->
        tree.Catalog name1 <> "" ->
        tree.Catalog name2 <> "" ->
        planner.LookupSchema oc (tree.Catalog name1) (tree.Schema name1)
        = Ok (Some prefix1) ->
        planner.LookupSchema oc (tree.Catalog name2) (tree.Schema name2)
        = Ok (Some prefix2) ->
        isUint32 (catalog.GetID (catalog.Database_ prefix1)) ->
        isUint32 (catalog.GetID (catalog.Database_ prefix2)) ->
        catalog.GetID (catalog.Database_ prefix1) <> 0%Z ->
        catalog.GetID (catalog.Database_ prefix2) <> 0%Z ->
        catalog.GetID (catalog.Database_ prefix1)
        <> catalog.GetID (catalog.Database_ prefix2) ->
        newOptVirtualTable oc desc name0 next0 = Ok (vt0, next0') ->
        newOptVirtualTable oc desc name1 next1 = Ok (vt1, next1') ->
        newOptVirtualTable oc desc name2 next2 = Ok (vt2, next2') ->
        optVirtualTable_ID (obj vt0) <> optVirtualTable_ID (obj vt1)
        /\ optVirtualTable_ID (obj vt0) <> optVirtualTable_ID (obj vt2)
        /\ optVirtualTable_ID (obj vt1) <> optVirtualTable_ID (obj vt2)).
Proof.
  assert (Hhalves : forall oc desc name next vt next',
            newOptVirtualTable oc desc name next = Ok (vt, next') ->
            virtualTableID (planner.LookupSchema oc) (obj desc) name
            = Ok (optVirtualTable_ID (obj vt))).
  { intros oc desc name next vt next' Hb.
    by destruct (newOptVirtualTable_Ok _ _ _ _ _ _ Hb) as (l & Hid & _). }
  split.
  - intros oc desc name next vt next' Hb Hd.
    eapply virtualTableID_halves; eauto.
  - intros oc desc name0 name1 name2 next0 next1 next2 vt0 vt1 vt2
           next0' next1' next2' prefix1 prefix2
           Hd Hc0 Hc1 Hc2 HL1 HL2 Hr1 Hr2 Hz1 Hz2 Hne Hb0 Hb1 Hb2.
    destruct (virtualTableID_halves _ _ _ _ (Hhalves _ _ _ _ _ _ Hb0) Hd)
      as (_ & Hh0 & _).
    destruct (virtualTableID_halves _ _ _ _ (Hhalves _ _ _ _ _ _ Hb1) Hd)
      as (_ & _ & Hh1 & _).
    destruct (virtualTableID_halves _ _ _ _ (Hhalves _ _ _ _ _ _ Hb2) Hd)
      as (_ & _ & Hh2 & _).
    specialize (Hh0 Hc0). specialize (Hh1 Hc1 _ HL1 Hr1).
    specialize (Hh2 Hc2 _ HL2 Hr2).
    repeat split; intros Heq; rewrite Heq in *; congruence.
Qed.

Lemma virtual_table_stable_ID_witness :
  (low32 (optVirtualTable_ID (obj Sample.pgSequenceInDb1)) = 4294967000%Z
   /\ high32 (optVirtualTable_ID (obj Sample.pgSequenceInDb1)) = 52%Z)
  /\ (optVirtualTable_ID (obj Sample.pgSequenceInNoDb)
      <> optVirtualTable_ID (obj Sample.pgSequenceInDb1)
      /\ optVirtualTable_ID (obj Sample.pgSequenceInNoDb)
         <> optVirtualTable_ID (obj Sample.pgSequenceInDb2)
      /\ optVirtualTable_ID (obj Sample.pgSequenceInDb1)
         <> optVirtualTable_ID (obj Sample.pgSequenceInDb2)).
Proof.
  assert (Hd : isUint32 (tabledesc.ID (obj Sample.vtable))).
  { unfold isUint32. simpl. lia. }
  split.
  - destruct (proj1 virtual_table_stable_ID Sample.thePlanner Sample.vtable
                Sample.inDb1 10 Sample.pgSequenceInDb1 11)
      as (Hl & _ & Hh & _).
    + vm_compute. reflexivity.
    + exact Hd.
    + split; [exact Hl|].
      apply (Hh ltac:(discriminate)
                (catalog.mkResolvedObjectPrefix Sample.db52
                   (catalog.mkResolvedSchema catalog.SchemaVirtual 0
                      "pg_catalog"))).
      * reflexivity.
      * unfold isUint32. simpl. lia.
  - apply (proj2 virtual_table_stable_ID Sample.thePlanner Sample.vtable
             Sample.inNoDb Sample.inDb1 Sample.inDb2 10 10 11
             Sample.pgSequenceInNoDb Sample.pgSequenceInDb1
             Sample.pgSequenceInDb2 11 11 12
             (catalog.mkResolvedObjectPrefix Sample.db52
                (catalog.mkResolvedSchema catalog.SchemaVirtual 0 "pg_catalog"))
             (catalog.mkResolvedObjectPrefix Sample.db53
                (catalog.mkResolvedSchema catalog.SchemaVirtual 0 "pg_catalog"))).
    + exact Hd.
    + reflexivity.
    + discriminate.
    + discriminate.
    + reflexivity.
    + reflexivity.
    + unfold isUint32. simpl. lia.
    + unfold isUint32. simpl. lia.
    + simpl. lia.
    + simpl. lia.
    + simpl. lia.
    + vm_compute. reflexivity.
    + vm_compute. reflexivity.
    + vm_compute. reflexivity.
Defined.

(** ** Staleness *)

Lemma sameVersions_false l l' :
  tabledesc.sameVersions l l' = false
  <-> exists i c c',
        l !! i = Some c /\ l' !! i = Some c'
        /\ types.TypeMetaVersion (descpb.ColumnDescriptor.Type_ c)
           <> types.TypeMetaVersion (descpb.ColumnDescriptor.Type_ c').
Proof.
  revert l'. induction l as [|c l IH]; intros [|c' l']; simpl.
  - split; [discriminate|]. intros (i & x & y & H & _). by destruct i.
  - split; [discriminate|]. intros (i & x & y & H & _). by destruct i.
  - split; [discriminate|]. intros (i & x & y & _ & H & _). by destruct i.
  - destruct (Z.eqb_spec
                (types.TypeMetaVersion (descpb.ColumnDescriptor.Type_ c))
                (types.TypeMetaVersion (descpb.ColumnDescriptor.Type_ c')))
      as [He|Hne].
    + rewrite IH. split.
      * intros (i & x & y & H1 & H2 & H3). exists (S i), x, y. done.
      * intros ([|i] & x & y & H1 & H2 & H3); simpl in *.
        -- congruence.
        -- exists i, x, y. done.
    + split; [|done]. intros _. exists 0, c, c'. done.
Qed.

Lemma UserDefinedTypeColsHaveSameVersion_false d d' :
  tabledesc.UserDefinedTypeColsHaveSameVersion d d' = false
  <-> typeVersionDiffers d d'.
Proof. apply sameVersions_false. Qed.

Lemma UserDefinedTypeColsHaveSameVersion_true d d' :
  tabledesc.UserDefinedTypeColsHaveSameVersion d d' = true
  <-> ~ typeVersionDiffers d d'.
Proof.
  rewrite <- UserDefinedTypeColsHaveSameVersion_false.
  destruct (tabledesc.UserDefinedTypeColsHaveSameVersion d d'); split; congruence.
Qed.

(** C3.  [isStale] is true exactly when the lengths of the two statistics
    snapshots differ, or both are non-empty and the new one is a different
    instance, or the new zone configuration is not deeply equal to the
    cached one, or the version of the user-defined type of some column
    differs between the two descriptors.  In particular it is false for the
    very same statistics instance with an equal zone configuration and
    unchanged type versions, and true for a different non-empty instance of
    the same length. *)
Theorem isStale_iff :
  forall (ot : optTable.t) (rawDesc : ptr tabledesc.Immutable)
         (tableStats : option (slice stats.TableStatistic))
         (zone : option (ptr zonepb.ZoneConfig)),
    (optTable_isStale ot rawDesc tableStats zone = true
     <-> slice_len tableStats <> slice_len (optTable.rawStats ot)
         \/ (0 < slice_len tableStats /\ 0 < slice_len (optTable.rawStats ot)
             /\ differentInstance tableStats (optTable.rawStats ot))
         \/ zonepb.Equal zone (optTable.zone ot) = false
         \/ typeVersionDiffers (obj (optTable.desc ot)) (obj rawDesc))
    /\ (tableStats = optTable.rawStats ot ->
        zonepb.Equal zone (optTable.zone ot) = true ->
        ~ typeVersionDiffers (obj (optTable.desc ot)) (obj rawDesc) ->
        optTable_isStale ot rawDesc tableStats zone = false)
    /\ (slice_len tableStats = slice_len (optTable.rawStats ot) ->
        0 < slice_len tableStats ->
        differentInstance tableStats (optTable.rawStats ot) ->
        optTable_isStale ot rawDesc tableStats zone = true).
Proof.
  intros ot rawDesc tableStats zone.
  assert (Hiff :
    optTable_isStale ot rawDesc tableStats zone = true
    <-> slice_len tableStats <> slice_len (optTable.rawStats ot)
        \/ (0 < slice_len tableStats /\ 0 < slice_len (optTable.rawStats ot)
            /\ differentInstance tableStats (optTable.rawStats ot))
        \/ zonepb.Equal zone (optTable.zone ot) = false
        \/ typeVersionDiffers (obj (optTable.desc ot)) (obj rawDesc)).
  { unfold optTable_isStale, differentInstance.
    destruct (Nat.eqb_spec (slice_len tableStats)
                           (slice_len (optTable.rawStats ot))) as [Hlen|Hlen];
      simpl; [|tauto].
    destruct (Nat.ltb_spec 0 (slice_len tableStats)) as [Hpos|Hpos]; simpl.
    - case_bool_decide as Haddr; simpl.
      + destruct (zonepb.Equal zone (optTable.zone ot)) eqn:Hz; simpl; [|tauto].
        destruct (tabledesc.UserDefinedTypeColsHaveSameVersion _ _) eqn:Hv;
          simpl.
        * apply UserDefinedTypeColsHaveSameVersion_true in Hv.
          split; [discriminate|]. intros [?|[(_ & _ & ?)|[?|?]]]; done.
        * apply UserDefinedTypeColsHaveSameVersion_false in Hv. tauto.
      + split; [|done]. intros _. right. left. repeat split; [done|lia|done].
    - destruct (zonepb.Equal zone (optTable.zone ot)) eqn:Hz; simpl; [|tauto].
      destruct (tabledesc.UserDefinedTypeColsHaveSameVersion _ _) eqn:Hv; simpl.
      + apply UserDefinedTypeColsHaveSameVersion_true in Hv.
        split; [discriminate|]. intros [?|[(? & _ & _)|[?|?]]]; try done. lia.
      + apply UserDefinedTypeColsHaveSameVersion_false in Hv. tauto. }
  split; [exact Hiff|]. split.
  - intros -> Hz Hv.
    apply not_true_is_false. intros E.
    apply Hiff in E as [?|[(_ & _ & ?)|[?|?]]]; try done. congruence.
  - intros Hlen Hpos Hdiff. apply Hiff. right. left.
    repeat split; [done|lia|done].
Qed.

Lemma isStale_iff_witness :
  optTable_isStale (obj Sample.abcWithStats) Sample.abc Sample.snapshot1
                   (Some emptyZoneConfig) = false
  /\ optTable_isStale (obj Sample.abcWithStats) Sample.abc Sample.snapshot2
                      (Some emptyZoneConfig) = true.
Proof.
  split.
  - apply (proj1 (proj2 (isStale_iff (obj Sample.abcWithStats) Sample.abc
                           Sample.snapshot1 (Some emptyZoneConfig)))).
    + vm_compute. reflexivity.
    + vm_compute. reflexivity.
    + intros (i & c & c' & H & _). vm_compute in H. destruct i; discriminate.
  - apply (proj2 (proj2 (isStale_iff (obj Sample.abcWithStats) Sample.abc
                           Sample.snapshot2 (Some emptyZoneConfig)))).
    + vm_compute. reflexivity.
    + vm_compute. lia.
    + vm_compute. discriminate.
Defined.

(** ** The table builder *)

Lemma insert_last {A} (l : list A) (x y : A) :
  <[length l := x]> (l ++ [y]) = l ++ [x].
Proof.
  rewrite insert_app_r_alt by lia. by rewrite Nat.sub_diag.
Qed.

Lemma newColumn_Ok ot ot' ord :
  newColumn ot = Ok (ot', ord) ->
  ord = length (optTable.columns ot)
  /\ ot' = optTable.withColumns ot (optTable.columns ot ++ [cat.zeroColumn]).
Proof.
  unfold newColumn. case_decide; [|discriminate]. by intros [= <- <-].
Qed.

Lemma optIndex_init_Ok tab self i d z v oi :
  optIndex_init tab self i d z v = Ok oi ->
  optIndex.desc oi = d /\ optIndex.zone oi = z
  /\ optIndex.indexOrdinal oi = i /\ optIndex.tab oi = self
  /\ (descpb.IndexDescriptor.Unique (iobj d) = true ->
      exists notNull,
        keyColumnsNotNull tab (descpb.IndexDescriptor.ColumnIDs (iobj d))
        = Ok notNull
        /\ optIndex.numLaxKeyCols oi
           = length (descpb.IndexDescriptor.ColumnIDs (iobj d))
        /\ optIndex.numKeyCols oi
           = if notNull
             then length (descpb.IndexDescriptor.ColumnIDs (iobj d))
             else length (descpb.IndexDescriptor.ColumnIDs (iobj d))
                  + length (descpb.IndexDescriptor.ExtraColumnIDs (iobj d)))
  /\ (descpb.IndexDescriptor.Unique (iobj d) = false ->
      optIndex.numLaxKeyCols oi
      = length (descpb.IndexDescriptor.ColumnIDs (iobj d))
        + length (descpb.IndexDescriptor.ExtraColumnIDs (iobj d))
      /\ optIndex.numKeyCols oi
         = length (descpb.IndexDescriptor.ColumnIDs (iobj d))
           + length (descpb.IndexDescriptor.ExtraColumnIDs (iobj d))).
Proof.
  unfold optIndex_init.
  destruct (decide (iaddr d = PrimaryIndexOf (loc (optTable.desc tab))));
    [case_decide; [|discriminate]|];
    destruct (descpb.IndexDescriptor.Unique (iobj d)); simpl;
    try (destruct (keyColumnsNotNull tab _) as [[|]| |]; simpl;
         try discriminate);
    intros [= <-]; simpl; repeat split; try done; eauto.
Qed.

(** What one iteration of the loop over the indexes does: it may append one
    virtual column, and it appends the index initialised against the table
    as it stands then. *)
Lemma buildIndex_Ok self tz ot next i d ot' next' :
  buildIndex self (Some tz) ot next i d = Ok (ot', next') ->
  exists tab v oi,
    next' = (indexZone tz (iobj d) next).2
    /\ optIndex_init tab self i d (indexZone tz (iobj d) next).1 v = Ok oi
    /\ optTable.desc tab = optTable.desc ot
    /\ optTable.colMap tab = optTable.colMap ot
    /\ (exists extra, optTable.columns tab = optTable.columns ot ++ extra
                      /\ Forall (fun c => cat.Kind c = cat.Virtual) extra)
    /\ optTable.desc ot' = optTable.desc ot
    /\ optTable.colMap ot' = optTable.colMap ot
    /\ optTable.columns ot' = optTable.columns tab
    /\ optTable.indexes ot' = optTable.indexes ot ++ [oi]
    /\ optTable.rawStats ot' = optTable.rawStats ot
    /\ optTable.zone ot' = optTable.zone ot
    /\ optTable.stats ot' = optTable.stats ot.
Proof.
  unfold buildIndex.
  destruct (indexZone tz (iobj d) next) as [idxZone n] eqn:Hz.
  case_decide as Hinv.
  - destruct (index _ 0) as [colID| |]; simpl; try discriminate.
    destruct (newColumn ot) as [[ot1 ord]| |] eqn:Hnew; simpl; try discriminate.
    apply newColumn_Ok in Hnew as [-> ->].
    destruct (optTable_Column _ _) as [src| |]; simpl; try discriminate.
    destruct (optIndex_init _ _ _ _ _ _) as [oi| |] eqn:Hinit; simpl;
      try discriminate.
    intros [= <- <-].
    eexists _, _, oi. split; [done|]. split; [exact Hinit|].
    simpl. rewrite insert_last. repeat split; try done.
    eexists. split; [done|]. by repeat constructor.
  - destruct (optIndex_init _ _ _ _ _ _) as [oi| |] eqn:Hinit; simpl;
      try discriminate.
    intros [= <- <-].
    exists ot, (-1)%Z, oi. split; [done|]. split; [exact Hinit|].
    simpl. repeat split; try done.
    exists []. by rewrite app_nil_r.
Qed.

#[local] Arguments buildIndex : simpl never.

Lemma buildIndexes_Ok self tz descs :
  forall ot next i ot' next',
    buildIndexes self (Some tz) ot next i descs = Ok (ot', next') ->
    optTable.desc ot' = optTable.desc ot
    /\ optTable.colMap ot' = optTable.colMap ot
    /\ optTable.rawStats ot' = optTable.rawStats ot
    /\ optTable.zone ot' = optTable.zone ot
    /\ optTable.stats ot' = optTable.stats ot
    /\ (exists extra, optTable.columns ot' = optTable.columns ot ++ extra
                      /\ Forall (fun c => cat.Kind c = cat.Virtual) extra)
    /\ exists ois,
         optTable.indexes ot' = optTable.indexes ot ++ ois
         /\ optIndex.zone <$> ois = indexZones tz descs next
         /\ optIndex.desc <$> ois = descs
         /\ Forall (fun oi =>
                      exists tab v k,
                        optIndex_init tab self k (optIndex.desc oi)
                                      (optIndex.zone oi) v = Ok oi
                        /\ optTable.desc tab = optTable.desc ot
                        /\ optTable.colMap tab = optTable.colMap ot
                        /\ exists extra,
                             optTable.columns tab = optTable.columns ot ++ extra)
                   ois.
Proof.
  induction descs as [|d rest IH]; intros ot next i ot' next'; simpl.
  - intros [= <- <-]. repeat split; try done.
    + exists []. by rewrite app_nil_r.
    + exists []. by rewrite app_nil_r.
  - destruct (buildIndex self (Some tz) ot next i d) as [[ot1 n1]| |] eqn:Hb;
      simpl; try discriminate.
    intros Hrest.
    apply buildIndex_Ok in Hb
      as (tab & v & oi & -> & Hinit & Hd & Hm & (ex & Hc & Hv)
          & Hd1 & Hm1 & Hc1 & Hi1 & Hr1 & Hzn1 & Hst1).
    apply IH in Hrest
      as (Hd' & Hm' & Hr' & Hzn' & Hst' & (ex' & Hc' & Hv') & ois & Hi' & Hz'
          & Hds' & Hall).
    destruct (optIndex_init_Ok _ _ _ _ _ _ _ Hinit) as (Hoid & Hoiz & _).
    split; [congruence|]. split; [congruence|].
    split; [congruence|]. split; [congruence|]. split; [congruence|]. split.
    { exists (ex ++ ex'). split.
      - rewrite Hc', Hc1, Hc. by rewrite app_assoc.
      - by apply Forall_app. }
    exists (oi :: ois). split; [|split; [|split]].
    + rewrite Hi', Hi1. by rewrite <- app_assoc.
    + by rewrite fmap_cons, Hoiz, Hz'.
    + by rewrite fmap_cons, Hoid, Hds'.
    + constructor.
      * exists tab, v, i. rewrite Hoid, Hoiz. repeat split; try done.
        by exists ex.
      * eapply Forall_impl; [exact Hall|].
        intros oi' (tab' & v' & k' & Hinit' & Hd'' & Hm'' & ex'' & Hc'').
        exists tab', v', k'. repeat split; try congruence.
        exists (ex ++ ex''). rewrite Hc'', Hc1, Hc. by rewrite app_assoc.
Qed.

Lemma addStats_colMap ot ot' stats :
  optTable.colMap ot = optTable.colMap ot' ->
  forall slots n, addStats ot slots n stats = addStats ot' slots n stats.
Proof.
  intros Hm. induction stats as [|s rest IH]; intros slots n; simpl; [done|].
  unfold optTableStat_init. rewrite Hm.
  destruct (fillColumnOrdinals _ _ _ _) as [ords ok]. simpl. apply IH.
Qed.

Lemma builtStats_colMap ot ot' stats :
  optTable.colMap ot = optTable.colMap ot' ->
  builtStats ot stats = builtStats ot' stats.
Proof.
  intros Hm. unfold builtStats. destruct stats as [s|]; [|done].
  by rewrite (addStats_colMap ot ot' _ Hm).
Qed.

Lemma initColumns_Ok desc codec stats tblZone :
  exists ot,
    initColumns desc codec stats tblZone = Ok ot
    /\ optTable.desc ot = desc
    /\ optTable.columns ot = baseColumns (obj desc)
    /\ optTable.columnsCap ot
       = length (tabledesc.DeletableColumns (obj desc)) + 1
         + length (filter (fun idx => descpb.IndexDescriptor.Type_ idx
                                      = descpb.IndexDescriptor_INVERTED)
                          (tabledesc.DeletableIndexes (obj desc)))
    /\ optTable.colMap ot = buildColMap (baseColumns (obj desc))
    /\ optTable.indexes ot = []
    /\ optTable.rawStats ot = stats
    /\ optTable.zone ot = tblZone
    /\ optTable.stats ot = [].
Proof.
  unfold initColumns, baseColumns, descColumns. simpl.
  set (cols := imap _ (tabledesc.DeletableColumns (obj desc))).
  set (cap := length (tabledesc.DeletableColumns (obj desc)) + 1 + _).
  set (ot0 := optTable.mk desc cols cap [] codec stats [] tblZone None [] [] []
                          [] ∅).
  assert (Hnew : newColumn ot0
                 = Ok (optTable.withColumns ot0 (cols ++ [cat.zeroColumn]),
                       length cols)).
  { unfold newColumn. simpl. rewrite decide_True; [done|].
    unfold cols, cap. rewrite length_imap. lia. }
  destruct (tabledesc.FindColumnByName _ _) as [c|e|p]; try rewrite Hnew;
    simpl; eexists; (split; [reflexivity|]); simpl; rewrite ?insert_last;
    done.
Qed.

Lemma finishTable_Ok self ot stats ot' :
  finishTable self ot stats = Ok ot' ->
  optTable.desc ot' = optTable.desc ot
  /\ optTable.columns ot' = optTable.columns ot
  /\ optTable.colMap ot' = optTable.colMap ot
  /\ optTable.indexes ot' = optTable.indexes ot
  /\ optTable.rawStats ot' = optTable.rawStats ot
  /\ optTable.zone ot' = optTable.zone ot
  /\ (optTable.stats ot = [] -> optTable.rawStats ot = stats ->
      optTable.stats ot' = builtStats ot' stats).
Proof.
  unfold finishTable.
  destruct (index _ 0) as [f0| |]; simpl; try discriminate.
  destruct (synthesizeChecks _) as [checks| |]; simpl; try discriminate.
  destruct stats as [s|]; simpl.
  - destruct (addStats _ _ _ _) as [[slots n]| |] eqn:Hs; simpl;
      try discriminate.
    intros [= <-]. simpl. repeat split; try done.
    intros _ _. unfold builtStats.
    erewrite addStats_colMap in Hs; [rewrite Hs; reflexivity|reflexivity].
  - intros [= <-]. simpl. repeat split; try done.
Qed.

(** What a successful [newOptTable] has built. *)
Lemma newOptTable_Ok desc codec stats tblZone next t next' :
  newOptTable desc codec stats tblZone next = Ok (t, next') ->
  exists tz,
    tblZone = Some tz
    /\ loc t = next
    /\ optTable.desc (obj t) = desc
    /\ optTable.colMap (obj t) = buildColMap (baseColumns (obj desc))
    /\ (exists extra,
          optTable.columns (obj t) = baseColumns (obj desc) ++ extra
          /\ Forall (fun c => cat.Kind c = cat.Virtual) extra)
    /\ optTable.rawStats (obj t) = stats
    /\ optTable.zone (obj t) = tblZone
    /\ optIndex.zone <$> optTable.indexes (obj t)
       = indexZones tz (indexDescs desc) (S next)
    /\ optIndex.desc <$> optTable.indexes (obj t) = indexDescs desc
    /\ Forall (fun oi =>
                 exists tab v k,
                   optIndex_init tab next k (optIndex.desc oi)
                                 (optIndex.zone oi) v = Ok oi
                   /\ optTable.desc tab = desc
                   /\ optTable.colMap tab = buildColMap (baseColumns (obj desc))
                   /\ exists extra,
                        optTable.columns tab = baseColumns (obj desc) ++ extra)
              (optTable.indexes (obj t))
    /\ optTable.stats (obj t) = builtStats (obj t) stats.
Proof.
  unfold newOptTable. cbn [alloc].
  destruct (initColumns_Ok desc codec stats tblZone)
    as (ot1 & -> & Hd1 & Hc1 & _ & Hm1 & Hi1 & Hr1 & Hz1 & Hs1).
  cbn [mbind result_bind].
  destruct tblZone as [tz|]; [|discriminate].
  destruct (buildIndexes _ _ _ _ _ _) as [[ot2 n2]| |] eqn:Hb;
    cbn [mbind result_bind]; try discriminate.
  apply buildIndexes_Ok in Hb
    as (Hd2 & Hm2 & Hr2 & Hzn2 & Hst2 & (ex & Hc2 & Hv) & ois & Hi2 & Hz2
        & Hds2 & Hall).
  destruct (finishTable next ot2 stats) as [ot3| |] eqn:Hf;
    cbn [mbind result_bind]; try discriminate.
  apply finishTable_Ok in Hf as (Hd3 & Hc3 & Hm3 & Hi3 & Hr3 & Hz3 & Hs3).
  intros [= <- <-]. simpl. exists tz.
  rewrite Hd3, Hc3, Hm3, Hi3, Hr3, Hz3, Hd2, Hc2, Hm2, Hi2, Hr2, Hzn2, Hd1,
    Hc1, Hm1, Hi1, Hr1, Hz1.
  simpl. repeat split; try done.
  - by exists ex.
  - eapply Forall_impl; [exact Hall|].
    intros oi (tab & v & k & Hinit & Hdt & Hmt & ext & Hct).
    exists tab, v, k. rewrite Hdt, Hmt, Hct, Hd1, Hc1, Hm1.
    repeat split; try done. by exists ext.
  - apply Hs3; congruence.
Qed.

(** ** The system column *)

Lemma FindColumnByName_isOk d name :
  isOk (tabledesc.FindColumnByName d name) = true <-> hasColumnNamed d name.
Proof.
  unfold tabledesc.FindColumnByName, hasColumnNamed.
  destruct (find _ _) as [c|] eqn:Hf; simpl.
  - split; [|done]. intros _. apply find_some in Hf as [Hin Hn].
    exists c. split; [by apply list_elem_of_In|]. by apply String.eqb_eq.
  - split; [discriminate|]. intros (c & Hin & Hn).
    apply list_elem_of_In in Hin.
    pose proof (find_none _ _ Hf c Hin) as Hc. simpl in Hc.
    apply String.eqb_neq in Hc. done.
Qed.

Lemma descColumns_not_system d :
  Forall (fun c => cat.Kind c <> cat.System) (descColumns d).
Proof.
  apply Forall_lookup. intros i c Hc. unfold descColumns in Hc.
  rewrite list_lookup_imap in Hc.
  destruct (tabledesc.DeletableColumns d !! i) as [cd|]; simpl in Hc;
    [|discriminate].
  injection Hc as <-. simpl. unfold columnKind.
  repeat case_decide; discriminate.
Qed.

Lemma virtual_not_system (extra : list cat.Column) :
  Forall (fun c => cat.Kind c = cat.Virtual) extra ->
  Forall (fun c => cat.Kind c <> cat.System) extra.
Proof. intros H. eapply Forall_impl; [exact H|]. intros c ->. discriminate. Qed.

(** C2, as amended.  When the descriptor has no column with the reserved
    name, the columns of the built table are the columns of the descriptor
    followed by exactly one system column, which is hidden and nullable;
    when it has one, no system column is appended at all. *)
Theorem system_column_appended :
  forall (desc : ptr tabledesc.Immutable) (codec : SQLCodec)
         (stats : option (slice stats.TableStatistic))
         (tblZone : option (ptr zonepb.ZoneConfig)) (next : nat) t next',
    newOptTable desc codec stats tblZone next = Ok (t, next') ->
    (~ hasColumnNamed (obj desc) colinfo.MVCCTimestampColumnName ->
     systemColumnAppended (obj desc) (optTable.columns (obj t)) true)
    /\ (hasColumnNamed (obj desc) colinfo.MVCCTimestampColumnName ->
        noSystemColumnAppended (obj desc) (optTable.columns (obj t))).
Proof.
  intros desc codec stats tblZone next t next' Hb.
  apply newOptTable_Ok in Hb
    as (tz & _ & _ & _ & _ & (extra & Hcols & Hv) & _).
  unfold baseColumns in Hcols.
  pose proof (FindColumnByName_isOk (obj desc) colinfo.MVCCTimestampColumnName)
    as Hfind.
  split; intros Hname.
  - assert (Hno : isOk (tabledesc.FindColumnByName (obj desc)
                          colinfo.MVCCTimestampColumnName) = false).
    { apply not_true_is_false. by rewrite Hfind. }
    exists (mvccTimestampColumn (length (descColumns (obj desc)))), extra.
    split.
    { rewrite Hcols.
      destruct (tabledesc.FindColumnByName _ _); [discriminate| |];
        by rewrite <- app_assoc. }
    simpl. unfold descColumns at 1. rewrite length_imap.
    repeat split; try done.
    apply Forall_app. split; [apply descColumns_not_system|].
    by apply virtual_not_system.
  - apply Hfind in Hname. exists extra. split.
    { rewrite Hcols. by destruct (tabledesc.FindColumnByName _ _). }
    apply Forall_app. split; [apply descColumns_not_system|].
    by apply virtual_not_system.
Qed.

Lemma abc_has_no_reserved_name :
  ~ hasColumnNamed Sample.abcDesc colinfo.MVCCTimestampColumnName.
Proof.
  intros (c & Hin & Hn). apply list_elem_of_In in Hin. simpl in Hin.
  destruct Hin as [<-|[<-|[<-|[]]]]; discriminate.
Qed.

Lemma system_column_appended_witness :
  systemColumnAppended Sample.abcDesc
                       (optTable.columns (obj Sample.abcTable)) true
  /\ noSystemColumnAppended Sample.legacyDesc
                            (optTable.columns (obj Sample.legacyTable)).
Proof.
  split.
  - apply (proj1 (system_column_appended Sample.abc 0%Z None
                    (Some emptyZoneConfig) 10 Sample.abcTable 11
                    ltac:(vm_compute; reflexivity))).
    exact abc_has_no_reserved_name.
  - apply (proj2 (system_column_appended Sample.legacy 0%Z None
                    (Some emptyZoneConfig) 10 Sample.legacyTable 11
                    ltac:(vm_compute; reflexivity))).
    exists Sample.colMVCC. split; [|reflexivity].
    apply list_elem_of_In. simpl. right. left. reflexivity.
Defined.

(** C2, as stated, fails: the system column appended to the table
    [(a, b, c)], which has no column with the reserved name, is nullable. *)
Lemma system_column_not_non_nullable :
  newOptTable Sample.abc 0%Z None (Some emptyZoneConfig) 10
  = Ok (Sample.abcTable, 11)
  /\ ~ hasColumnNamed Sample.abcDesc colinfo.MVCCTimestampColumnName
  /\ ~ systemColumnAppended Sample.abcDesc
                            (optTable.columns (obj Sample.abcTable)) false.
Proof.
  split; [vm_compute; reflexivity|]. split; [exact abc_has_no_reserved_name|].
  intros (sys & extra & Hcols & _ & _ & _ & _ & Hnull & _).
  vm_compute in Hcols. injection Hcols as Hsys _. subst sys.
  discriminate Hnull.
Qed.

(** ** The column map *)

Lemma foldl_insert_notin (l : list (nat * cat.Column)) (m : gmap Z nat) k :
  k ∉ (fun ic => colKey ic.2) <$> l ->
  foldl (fun m ic => <[uint32 (cat.ColID ic.2) := ic.1]> m) m l !! k = m !! k.
Proof.
  revert m. induction l as [|[j c] l IH]; intros m Hk; simpl; [done|].
  rewrite fmap_cons in Hk. apply not_elem_of_cons in Hk as [Hne Hk].
  rewrite IH by done. simpl. apply lookup_insert_ne.
  intros Heq. apply Hne. by rewrite <- Heq.
Qed.

Lemma foldl_insert_lookup (l : list (nat * cat.Column)) (m : gmap Z nat) i c :
  NoDup ((fun ic => colKey ic.2) <$> l) ->
  (i, c) ∈ l ->
  foldl (fun m ic => <[uint32 (cat.ColID ic.2) := ic.1]> m) m l !! colKey c
  = Some i.
Proof.
  revert m. induction l as [|[j c'] l IH]; intros m Hnd Hin.
  - by apply elem_of_nil in Hin.
  - rewrite fmap_cons in Hnd. apply NoDup_cons in Hnd as [Hnotin Hnd].
    simpl. apply elem_of_cons in Hin as [[= -> ->]|Hin].
    + rewrite foldl_insert_notin by done. unfold colKey. simpl.
      apply lookup_insert_eq.
    + by apply IH.
Qed.

Lemma buildColMap_lookup cols i c :
  NoDup (colKey <$> cols) ->
  cols !! i = Some c ->
  buildColMap cols !! colKey c = Some i.
Proof.
  intros Hnd Hc. unfold buildColMap.
  apply (foldl_insert_lookup (imap (fun i c => (i, c)) cols)).
  - rewrite fmap_imap. simpl.
    replace (imap _ cols) with (colKey <$> cols); [done|].
    symmetry. apply (imap_const colKey).
  - by apply (elem_of_lookup_imap_2 (fun i c => (i, c))).
Qed.

Lemma descColumns_lookup d i cd :
  tabledesc.DeletableColumns d !! i = Some cd ->
  exists c, descColumns d !! i = Some c
            /\ cat.ColID c = cat.StableID (descpb.ColumnDescriptor.ID cd)
            /\ cat.IsNullable c = descpb.ColumnDescriptor.Nullable cd.
Proof.
  intros Hcd. unfold descColumns. rewrite list_lookup_imap, Hcd. simpl.
  eexists. split; [done|]. done.
Qed.

Lemma colKey_of_ID (id : Z) :
  (0 <= id <= MaxUint32)%Z -> uint32 (cat.StableID id) = id.
Proof.
  unfold MaxUint32, cat.StableID, uint64, uint32. intros H.
  rewrite (Z.mod_small id (2 ^ 64)) by lia. apply Z.mod_small. lia.
Qed.

Lemma descColumns_keys d :
  validColumns d ->
  colKey <$> descColumns d
  = descpb.ColumnDescriptor.ID <$> tabledesc.DeletableColumns d.
Proof.
  intros [_ Hr]. apply list_eq. intros i. rewrite !list_lookup_fmap.
  unfold descColumns. rewrite list_lookup_imap.
  destruct (tabledesc.DeletableColumns d !! i) as [cd|] eqn:Hcd; simpl; [|done].
  f_equal. unfold colKey. simpl. apply colKey_of_ID.
  rewrite Forall_lookup in Hr. specialize (Hr i cd Hcd). simpl in Hr. lia.
Qed.

Lemma baseColumns_keys_NoDup d :
  validColumns d -> NoDup (colKey <$> baseColumns d).
Proof.
  intros Hv. pose proof (descColumns_keys d Hv) as Hk. destruct Hv as [Hnd Hr].
  unfold baseColumns.
  destruct (tabledesc.FindColumnByName _ _); [by rewrite Hk| |].
  all: rewrite fmap_app, Hk; apply NoDup_app; split; [done|]; split;
    [|apply NoDup_singleton].
  all: intros k Hin Hin'; apply list_elem_of_singleton in Hin'; subst k.
  all: apply list_elem_of_fmap in Hin as (cd & Heq & Hin).
  all: rewrite Forall_forall in Hr; specialize (Hr cd Hin); simpl in Hr.
  all: unfold colKey in Heq; simpl in Heq.
  all: rewrite colKey_of_ID in Heq
         by (unfold colinfo.MVCCTimestampColumnID, MaxUint32; lia).
  all: unfold colinfo.MVCCTimestampColumnID in Heq; lia.
Qed.

Lemma baseColumns_lookup d i cd :
  tabledesc.DeletableColumns d !! i = Some cd ->
  exists c, baseColumns d !! i = Some c
            /\ cat.ColID c = cat.StableID (descpb.ColumnDescriptor.ID cd)
            /\ cat.IsNullable c = descpb.ColumnDescriptor.Nullable cd.
Proof.
  intros Hcd. destruct (descColumns_lookup d i cd Hcd) as (c & Hc & Hid & Hn).
  exists c. split; [|done]. unfold baseColumns.
  destruct (tabledesc.FindColumnByName _ _); [done| |];
    by apply lookup_app_l_Some.
Qed.

(** ** Key columns of an index *)

Lemma same_ID_same_column d cd cd' :
  validColumns d ->
  cd ∈ tabledesc.DeletableColumns d ->
  cd' ∈ tabledesc.DeletableColumns d ->
  descpb.ColumnDescriptor.ID cd = descpb.ColumnDescriptor.ID cd' ->
  cd = cd'.
Proof.
  intros [Hnd _] Hin Hin' Hid.
  apply list_elem_of_lookup in Hin as [i Hi].
  apply list_elem_of_lookup in Hin' as [j Hj].
  assert (i = j) as ->; [|congruence].
  eapply (NoDup_lookup _ i j); [exact Hnd| |];
    rewrite list_lookup_fmap.
  - by rewrite Hi.
  - rewrite Hj. simpl. by rewrite Hid.
Qed.

(** The table [tab] resolves the ID of a column of the descriptor to a
    column with the nullability of that column. *)
Lemma resolve_declared_column d tab extra cd :
  validColumns d ->
  optTable.colMap tab = buildColMap (baseColumns d) ->
  optTable.columns tab = baseColumns d ++ extra ->
  cd ∈ tabledesc.DeletableColumns d ->
  exists c,
    optTable_Column tab
      (optTable_lookupColumnOrdinal tab (descpb.ColumnDescriptor.ID cd)).1
    = Ok c
    /\ cat.IsNullable c = descpb.ColumnDescriptor.Nullable cd.
Proof.
  intros Hv Hm Hc Hin.
  pose proof (baseColumns_keys_NoDup d Hv) as Hnd.
  apply list_elem_of_lookup in Hin as [i Hi].
  destruct (baseColumns_lookup d i cd Hi) as (c & Hci & Hid & Hn).
  pose proof (buildColMap_lookup _ _ _ Hnd Hci) as Hl.
  unfold colKey in Hl. rewrite Hid in Hl.
  destruct Hv as [_ Hr]. rewrite Forall_lookup in Hr.
  specialize (Hr i cd Hi). simpl in Hr.
  rewrite colKey_of_ID in Hl by lia.
  exists c. split; [|done].
  unfold optTable_lookupColumnOrdinal, optTable_Column, index.
  rewrite Hm, Hl. simpl. rewrite Hc.
  by rewrite (lookup_app_l_Some _ _ _ _ Hci).
Qed.

Lemma keyColumnsNotNull_valid d tab extra ids :
  validColumns d ->
  optTable.colMap tab = buildColMap (baseColumns d) ->
  optTable.columns tab = baseColumns d ++ extra ->
  (forall id, id ∈ ids ->
              exists cd, cd ∈ tabledesc.DeletableColumns d
                         /\ descpb.ColumnDescriptor.ID cd = id) ->
  exists notNull,
    keyColumnsNotNull tab ids = Ok notNull
    /\ (notNull = true
        <-> forall cd, cd ∈ tabledesc.DeletableColumns d ->
                       descpb.ColumnDescriptor.ID cd ∈ ids ->
                       descpb.ColumnDescriptor.Nullable cd = false).
Proof.
  intros Hv Hm Hc. induction ids as [|id ids IH]; intros Hex.
  - exists true. split; [done|]. split; [|done].
    intros _ cd _ Hin. by apply elem_of_nil in Hin.
  - destruct (Hex id) as (cd0 & Hin0 & Hid0); [by left|].
    destruct (resolve_declared_column d tab extra cd0 Hv Hm Hc Hin0)
      as (c & Hcol & Hn).
    simpl. rewrite <- Hid0, Hcol. simpl. rewrite Hn.
    destruct (descpb.ColumnDescriptor.Nullable cd0) eqn:Hnull.
    + exists false. split; [done|]. split; [discriminate|].
      intros Hall. rewrite (Hall cd0 Hin0) in Hnull; [done|by left].
    + destruct IH as (b & Hb & Hiff).
      { intros id' Hin'. apply Hex. by right. }
      exists b. split; [done|]. rewrite Hiff. split.
      * intros Hall cd Hin Hid. apply elem_of_cons in Hid as [Hid|Hid].
        -- by rewrite (same_ID_same_column d cd cd0 Hv Hin Hin0 Hid).
        -- by apply Hall.
      * intros Hall cd Hin Hid. apply Hall; [done|by right].
Qed.

(** C1.  The built table has one index wrapper per index of the descriptor
    (the primary index first).  For each of them, on a descriptor whose
    column IDs are valid and which declares the key columns of the index:
    a unique index none of whose declared key columns is nullable has as
    many key columns and lax-key columns as declared key columns; a unique
    index with a nullable declared key column has as many lax-key columns
    as declared key columns, and the extra columns in addition as key
    columns; an index that is not unique has the declared and the extra
    columns both as key columns and as lax-key columns. *)
Theorem index_key_column_counts :
  forall (desc : ptr tabledesc.Immutable) (codec : SQLCodec)
         (stats : option (slice stats.TableStatistic))
         (tblZone : option (ptr zonepb.ZoneConfig)) (next : nat) t next',
    newOptTable desc codec stats tblZone next = Ok (t, next') ->
    validColumns (obj desc) ->
    (fun oi => iobj (optIndex.desc oi)) <$> optTable.indexes (obj t)
    = tabledesc.PrimaryIndex (obj desc)
      :: tabledesc.DeletableIndexes (obj desc)
    /\ forall oi,
         oi ∈ optTable.indexes (obj t) ->
         let idx := iobj (optIndex.desc oi) in
         let declared := length (descpb.IndexDescriptor.ColumnIDs idx) in
         let extra := length (descpb.IndexDescriptor.ExtraColumnIDs idx) in
         keyColumnsDeclared (obj desc) idx ->
         (optIndex_IsUnique oi = true ->
          (forall cd, declaredKeyColumn (obj desc) idx cd ->
                      descpb.ColumnDescriptor.Nullable cd = false) ->
          optIndex_LaxKeyColumnCount oi = declared
          /\ optIndex_KeyColumnCount oi = declared)
         /\ (optIndex_IsUnique oi = true ->
             (exists cd, declaredKeyColumn (obj desc) idx cd
                         /\ descpb.ColumnDescriptor.Nullable cd = true) ->
             optIndex_LaxKeyColumnCount oi = declared
             /\ optIndex_KeyColumnCount oi
                = optIndex_LaxKeyColumnCount oi + extra)
         /\ (optIndex_IsUnique oi = false ->
             optIndex_LaxKeyColumnCount oi = declared + extra
             /\ optIndex_KeyColumnCount oi = declared + extra).
Proof.
  intros desc codec stats tblZone next t next' Hb Hv.
  apply newOptTable_Ok in Hb
    as (tz & _ & _ & _ & _ & _ & _ & _ & _ & Hdescs & Hall & _).
  split.
  - rewrite (list_fmap_compose optIndex.desc iobj), Hdescs.
    unfold indexDescs. rewrite fmap_cons. simpl. f_equal.
    rewrite fmap_imap. simpl. rewrite (imap_const id). apply list_fmap_id.
  - intros oi Hin idx declared extra Hdecl.
    rewrite Forall_forall in Hall.
    destruct (Hall oi Hin) as (tab & v & k & Hinit & Hd & Hm & ex & Hc).
    destruct (optIndex_init_Ok _ _ _ _ _ _ _ Hinit)
      as (_ & _ & _ & _ & Huniq & Hnon).
    unfold optIndex_IsUnique, optIndex_LaxKeyColumnCount,
      optIndex_KeyColumnCount.
    fold idx in Huniq, Hnon.
    destruct (keyColumnsNotNull_valid (obj desc) tab ex
                (descpb.IndexDescriptor.ColumnIDs idx) Hv Hm Hc Hdecl)
      as (b & Hb & Hiff).
    split; [|split].
    + intros Hu Hnn. destruct (Huniq Hu) as (b' & Hb' & Hlax & Hkey).
      rewrite Hb in Hb'. injection Hb' as <-.
      assert (b = true) as ->.
      { apply Hiff. intros cd Hcd Hid. by apply Hnn. }
      done.
    + intros Hu (cd & [Hcd Hid] & Hnull).
      destruct (Huniq Hu) as (b' & Hb' & Hlax & Hkey).
      rewrite Hb in Hb'. injection Hb' as <-.
      assert (b = false) as ->.
      { apply not_true_is_false. intros Hbt.
        rewrite (proj1 Hiff Hbt cd Hcd Hid) in Hnull. done. }
      by rewrite Hlax, Hkey.
    + intros Hu. by apply Hnon.
Qed.

Lemma abc_validColumns : validColumns Sample.abcDesc.
Proof.
  split.
  - apply (bool_decide_unpack _). vm_compute. reflexivity.
  - repeat constructor; simpl; unfold MaxUint32; lia.
Qed.

Lemma abc_keyColumnsDeclared i :
  i < 3 ->
  keyColumnsDeclared Sample.abcDesc
                     (iobj (optIndex.desc (Sample.indexAt Sample.abcTable i))).
Proof.
  intros Hi id Hin.
  destruct i as [|[|[|i]]]; [| | |lia]; vm_compute in Hin;
    apply list_elem_of_In in Hin; destruct Hin as [<-|[]].
  - exists Sample.colA. split; [|reflexivity].
    apply list_elem_of_In. simpl. tauto.
  - exists Sample.colB. split; [|reflexivity].
    apply list_elem_of_In. simpl. tauto.
  - exists Sample.colC. split; [|reflexivity].
    apply list_elem_of_In. simpl. tauto.
Qed.

Lemma index_key_column_counts_witness :
  (optIndex_LaxKeyColumnCount (Sample.indexAt Sample.abcTable 0) = 1
   /\ optIndex_KeyColumnCount (Sample.indexAt Sample.abcTable 0) = 1)
  /\ (optIndex_LaxKeyColumnCount (Sample.indexAt Sample.abcTable 1) = 1
      /\ optIndex_KeyColumnCount (Sample.indexAt Sample.abcTable 1)
         = optIndex_LaxKeyColumnCount (Sample.indexAt Sample.abcTable 1) + 1)
  /\ (optIndex_LaxKeyColumnCount (Sample.indexAt Sample.abcTable 2) = 1 + 1
      /\ optIndex_KeyColumnCount (Sample.indexAt Sample.abcTable 2) = 1 + 1).
Proof.
  pose proof (proj2 (index_key_column_counts Sample.abc 0%Z None
                       (Some emptyZoneConfig) 10 Sample.abcTable 11
                       ltac:(vm_compute; reflexivity) abc_validColumns))
    as H.
  assert (Hin : forall i, i < 3 ->
            Sample.indexAt Sample.abcTable i
            ∈ optTable.indexes (obj Sample.abcTable)).
  { intros i Hi. apply list_elem_of_lookup. exists i.
    destruct i as [|[|[|i]]]; [| | |lia]; vm_compute; reflexivity. }
  split; [|split].
  - apply (proj1 (H _ (Hin 0 ltac:(lia))
                    (abc_keyColumnsDeclared 0 ltac:(lia)))).
    + reflexivity.
    + intros cd [Hcd Hid]. vm_compute in Hid.
      apply list_elem_of_In in Hcd, Hid. simpl in Hcd.
      destruct Hid as [Hid|[]].
      destruct Hcd as [<-|[<-|[<-|[]]]]; try reflexivity; discriminate.
  - apply (proj1 (proj2 (H _ (Hin 1 ltac:(lia))
                           (abc_keyColumnsDeclared 1 ltac:(lia))))).
    + reflexivity.
    + exists Sample.colB. split; [|reflexivity]. split.
      * apply list_elem_of_In. simpl. tauto.
      * vm_compute. apply list_elem_of_In. simpl. tauto.
  - apply (proj2 (proj2 (H _ (Hin 2 ltac:(lia))
                           (abc_keyColumnsDeclared 2 ltac:(lia))))).
    reflexivity.
Defined.

(** ** Equality of statistics *)

Lemma index_Ok {A} (l : list A) i x : l !! i = Some x -> index l i = Ok x.
Proof. unfold index. by intros ->. Qed.

Lemma ordinalsEqualFrom_spec mine other :
  forall i,
    i + length mine <= length other ->
    exists b,
      ordinalsEqualFrom i mine other = Ok b
      /\ (b = true <-> forall k c, mine !! k = Some c ->
                                   other !! (i + k) = Some c).
Proof.
  induction mine as [|c mine IH]; intros i Hlen; simpl in *.
  - exists true. split; [done|]. split; [|done]. intros _ k c Hk. done.
  - destruct (lookup_lt_is_Some_2 other i ltac:(lia)) as [c' Hc'].
    rewrite (index_Ok _ _ _ Hc'). simpl.
    destruct (Nat.eqb_spec c c') as [->|Hne].
    + destruct (IH (S i) ltac:(lia)) as (b & Hb & Hiff).
      exists b. split; [done|]. rewrite Hiff. split.
      * intros H [|k] x Hk; simpl in Hk.
        -- injection Hk as <-. by rewrite Nat.add_0_r.
        -- rewrite <- Nat.add_succ_comm. by apply H.
      * intros H k x Hk. rewrite Nat.add_succ_comm. by apply (H (S k)).
    + exists false. split; [done|]. split; [discriminate|].
      intros H. specialize (H 0 c eq_refl). rewrite Nat.add_0_r in H.
      congruence.
Qed.

Lemma optTableStat_equals_spec s s' :
  exists b, optTableStat_equals s s' = Ok b /\ (b = true <-> statEqual s s').
Proof.
  unfold optTableStat_equals, statEqual.
  case_bool_decide as Ht; simpl.
  - destruct (Nat.eqb_spec (length (optTableStat.columnOrdinals s))
                           (length (optTableStat.columnOrdinals s')))
      as [Hlen|Hlen]; simpl.
    + destruct (ordinalsEqualFrom_spec (optTableStat.columnOrdinals s)
                  (optTableStat.columnOrdinals s') 0 ltac:(simpl; lia))
        as (b & Hb & Hiff).
      exists b. split; [done|]. rewrite Hiff. split.
      * intros H. split; [done|]. apply list_eq_same_length with
          (n := length (optTableStat.columnOrdinals s)); [done|done|].
        intros k x y Hk Hx Hy. specialize (H k x Hx). simpl in H. congruence.
      * intros [_ Heq] k c Hk. simpl. by rewrite <- Heq.
    + exists false. split; [done|]. split; [discriminate|].
      intros [_ Heq]. by rewrite Heq in Hlen.
  - exists false. split; [done|]. split; [discriminate|]. by intros [? _].
Qed.

Lemma statsEqualFrom_spec mine other :
  forall i,
    i + length mine <= length other ->
    exists b,
      statsEqualFrom i mine other = Ok b
      /\ (b = true <-> forall k s s', mine !! k = Some s ->
                                      other !! (i + k) = Some s' ->
                                      statEqual s s').
Proof.
  induction mine as [|s mine IH]; intros i Hlen; simpl in *.
  - exists true. split; [done|]. split; [|done]. intros _ k ? ? Hk. done.
  - destruct (lookup_lt_is_Some_2 other i ltac:(lia)) as [s' Hs'].
    rewrite (index_Ok _ _ _ Hs'). simpl.
    destruct (optTableStat_equals_spec s s') as (e & -> & He). simpl.
    destruct e.
    + destruct (IH (S i) ltac:(lia)) as (b & Hb & Hiff).
      exists b. split; [done|]. rewrite Hiff. split.
      * intros H [|k] x y Hk Hy; simpl in Hk.
        -- injection Hk as <-. rewrite Nat.add_0_r in Hy.
           assert (y = s') as -> by congruence. by apply He.
        -- rewrite <- Nat.add_succ_comm in Hy. by eapply H.
      * intros H k x y Hk Hy. rewrite Nat.add_succ_comm in Hy.
        by apply (H (S k) x y).
    + exists false. split; [done|]. split; [discriminate|].
      intros H. assert (statEqual s s') as Hss.
      { apply (H 0 s s'); [done|]. by rewrite Nat.add_0_r. }
      apply He in Hss. discriminate.
Qed.

(** ** Equality of zones *)

Lemma Equal_Some p q :
  zonepb.Equal (Some p) (Some q) = true <-> obj p = obj q.
Proof.
  simpl. destruct (zonepb.ZoneConfig_eq_dec (obj p) (obj q)); split; done.
Qed.

Lemma Equal_refl z : zonepb.Equal z z = true.
Proof. destruct z as [p|]; [by apply Equal_Some|done]. Qed.

(** When every index of [mine] has a counterpart with an equal zone, the
    loop returns true, whatever it skips. *)
Lemma zonesEqualFrom_complete mine other :
  forall i prevLeftZone prevRightZone,
    (forall k oi, mine !! k = Some oi ->
                  exists oi', other !! (i + k) = Some oi'
                              /\ zonepb.Equal (optIndex.zone oi)
                                              (optIndex.zone oi') = true) ->
    zonesEqualFrom i mine other prevLeftZone prevRightZone = Ok true.
Proof.
  induction mine as [|oi mine IH]; intros i pl pr H; simpl; [done|].
  destruct (H 0 oi eq_refl) as (oi' & Hoi' & Heq).
  rewrite Nat.add_0_r in Hoi'. rewrite (index_Ok _ _ _ Hoi'). simpl.
  assert (Hrest : forall k x, mine !! k = Some x ->
            exists x', other !! (S i + k) = Some x'
                       /\ zonepb.Equal (optIndex.zone x) (optIndex.zone x')
                          = true).
  { intros k x Hk. replace (S i + k) with (i + S k) by lia.
    by apply (H (S k)). }
  destruct (_ && _); [by apply IH|].
  rewrite Heq. simpl. by apply IH.
Qed.

(** The loop returns a boolean when the other table has enough indexes. *)
Lemma zonesEqualFrom_returns mine other :
  forall i prevLeftZone prevRightZone,
    i + length mine <= length other ->
    exists b, zonesEqualFrom i mine other prevLeftZone prevRightZone = Ok b.
Proof.
  induction mine as [|oi mine IH]; intros i pl pr Hlen; simpl in *; [eauto|].
  destruct (lookup_lt_is_Some_2 other i ltac:(lia)) as [oi' Hoi'].
  rewrite (index_Ok _ _ _ Hoi'). simpl.
  destruct (_ && _); [apply IH; lia|].
  destruct (zonepb.Equal _ _); simpl; [apply IH; lia|eauto].
Qed.

Lemma optptr_eqb_Some {A} (p : ptr A) z :
  optptr_eqb (Some p) z = true -> exists q, z = Some q /\ loc p = loc q.
Proof.
  destruct z as [q|]; simpl; [|discriminate].
  unfold ptr_eqb. intros H%Nat.eqb_eq. eauto.
Qed.

(** When the loop returns true, every index of [mine] has a counterpart
    with an equal zone: a comparison that was skipped would have succeeded,
    as the zones of each table are coherent. *)
Lemma zonesEqualFrom_sound (Pa Pb : ptr zonepb.ZoneConfig -> Prop) mine other :
  (forall p q, Pa p -> Pa q -> loc p = loc q -> obj p = obj q) ->
  (forall p q, Pb p -> Pb q -> loc p = loc q -> obj p = obj q) ->
  (forall oi, oi ∈ mine -> exists p, optIndex.zone oi = Some p /\ Pa p) ->
  (forall oi, oi ∈ other -> exists q, optIndex.zone oi = Some q /\ Pb q) ->
  forall i prevLeftZone prevRightZone,
    (prevLeftZone = None
     \/ exists p q, prevLeftZone = Some p /\ prevRightZone = Some q
                    /\ Pa p /\ Pb q /\ obj p = obj q) ->
    zonesEqualFrom i mine other prevLeftZone prevRightZone = Ok true ->
    forall k oi, mine !! k = Some oi ->
                 exists oi', other !! (i + k) = Some oi'
                             /\ zonepb.Equal (optIndex.zone oi)
                                             (optIndex.zone oi') = true.
Proof.
  intros Hca Hcb. induction mine as [|oi mine IH];
    intros Hmine Hother i pl pr Hprev Hloop k x Hk; [done|].
  simpl in Hloop.
  destruct (other !! i) as [oi'|] eqn:Hoi'; unfold index in Hloop;
    rewrite Hoi' in Hloop; simpl in Hloop; [|discriminate].
  destruct (Hmine oi) as (p & Hp & HPa); [by left|].
  destruct (Hother oi') as (q & Hq & HPb).
  { apply list_elem_of_lookup. eauto. }
  assert (Hmine' : forall oi, oi ∈ mine ->
            exists p, optIndex.zone oi = Some p /\ Pa p).
  { intros y Hy. apply Hmine. by right. }
  rewrite Hp, Hq in Hloop.
  destruct (optptr_eqb (Some p) pl && optptr_eqb (Some q) pr) eqn:Hskip.
  - apply andb_prop in Hskip as [Hl Hr].
    apply optptr_eqb_Some in Hl as (p0 & -> & Hlp).
    apply optptr_eqb_Some in Hr as (q0 & -> & Hlq).
    destruct Hprev as [?|(p1 & q1 & [= <-] & [= <-] & HPa0 & HPb0 & Hobj)];
      [done|].
    assert (Heq : zonepb.Equal (Some p) (Some q) = true).
    { apply Equal_Some. rewrite (Hca p p0), (Hcb q q0); done. }
    destruct k as [|k]; simpl in Hk.
    + injection Hk as <-. exists oi'. rewrite Nat.add_0_r, Hp, Hq. done.
    + rewrite <- Nat.add_succ_comm.
      eapply (IH Hmine' Hother (S i) (Some p0) (Some q0)); [|done|done].
      right. exists p0, q0. done.
  - destruct (zonepb.Equal (Some p) (Some q)) eqn:Heq; simpl in Hloop;
      [|discriminate].
    destruct k as [|k]; simpl in Hk.
    + injection Hk as <-. exists oi'. rewrite Nat.add_0_r, Hp, Hq. done.
    + rewrite <- Nat.add_succ_comm.
      eapply (IH Hmine' Hother (S i) (Some p) (Some q)); [|done|done].
      right. exists p, q. repeat split; try done. by apply Equal_Some.
Qed.

(** ** The zones of a built table *)

Lemma subzone_loop_spec tz idx l :
  forall p0 n0,
    exists p,
      (foldl (subzoneStep tz idx) (Some p0, n0) l).1 = Some p
      /\ n0 <= (foldl (subzoneStep tz idx) (Some p0, n0) l).2
      /\ (p = p0 \/ n0 <= loc p < (foldl (subzoneStep tz idx) (Some p0, n0) l).2).
Proof.
  induction l as [|sz l IH]; intros p0 n0; simpl.
  - exists p0. split; [done|]. split; [lia|]. by left.
  - unfold subzoneStep at 2 4 6. simpl.
    destruct (_ && _).
    + destruct (IH (Ptr n0 (zonepb.InheritFromParent (zonepb.Config sz) (obj tz)))
                   (S n0)) as (p & Hp & Hle & Hor).
      exists p. split; [done|]. split; [lia|]. right.
      destruct Hor as [->|?]; simpl; lia.
    + apply IH.
Qed.

Lemma indexZone_spec tz idx n :
  exists p,
    (indexZone tz idx n).1 = Some p
    /\ n <= (indexZone tz idx n).2
    /\ (p = tz \/ n <= loc p < (indexZone tz idx n).2).
Proof. apply subzone_loop_spec. Qed.

Lemma indexZones_spec tz descs :
  forall n,
    loc tz < n ->
    (forall z, z ∈ indexZones tz descs n ->
               exists p, z = Some p /\ (p = tz \/ n <= loc p))
    /\ coherent (indexZones tz descs n).
Proof.
  induction descs as [|d rest IH]; intros n Hn; simpl.
  - split.
    + intros z Hz. by apply elem_of_nil in Hz.
    + intros p q Hp. by apply elem_of_nil in Hp.
  - destruct (indexZone_spec tz (iobj d) n) as (p1 & Hp1 & Hle & Hor).
    destruct (IH (indexZone tz (iobj d) n).2 ltac:(lia)) as [Hrest Hcoh].
    rewrite Hp1.
    assert (Htail : forall q, Some q ∈ indexZones tz rest
                                         (indexZone tz (iobj d) n).2 ->
                              q = tz \/ (indexZone tz (iobj d) n).2 <= loc q).
    { intros q Hq. destruct (Hrest _ Hq) as (q' & [= <-] & Hq'). done. }
    split.
    + intros z Hz. apply elem_of_cons in Hz as [->|Hz].
      * exists p1. split; [done|]. destruct Hor as [->|?]; [by left|right; lia].
      * destruct (Hrest z Hz) as (p & -> & Hp). exists p. split; [done|].
        destruct Hp as [->|?]; [by left|right; lia].
    + intros p q Hp Hq Hloc.
      apply elem_of_cons in Hp as [[= ->]|Hp];
        apply elem_of_cons in Hq as [[= ->]|Hq].
      * done.
      * destruct (Htail q Hq) as [->|Hq'];
          destruct Hor as [->|Hp']; try done; lia.
      * destruct (Htail p Hp) as [->|Hp'];
          destruct Hor as [->|Hq']; try done; lia.
      * by apply Hcoh.
Qed.

(** The zones of the indexes of a built table are not nil, and coherent. *)
Lemma built_zones t :
  built t ->
  coherent (optIndex.zone <$> optTable.indexes (obj t))
  /\ forall oi, oi ∈ optTable.indexes (obj t) ->
                exists p, optIndex.zone oi = Some p
                          /\ Some p ∈ optIndex.zone <$> optTable.indexes (obj t).
Proof.
  intros (desc & codec & stats & tz & next & next' & Hfresh & Hb).
  apply newOptTable_Ok in Hb
    as (tz' & [= <-] & _ & _ & _ & _ & _ & _ & Hzones & _).
  destruct (indexZones_spec tz (indexDescs desc) (S next) ltac:(lia))
    as [Hsome Hcoh].
  rewrite Hzones. split; [done|].
  intros oi Hin.
  assert (Hz : optIndex.zone oi ∈ optIndex.zone <$> optTable.indexes (obj t)).
  { by apply list_elem_of_fmap_2. }
  rewrite Hzones in Hz. destruct (Hsome _ Hz) as (p & Hp & _).
  exists p. split; [done|]. by rewrite <- Hp.
Qed.

(** ** Equality of tables *)

Lemma Equals_of_equalTables (a b : ptr optTable.t) :
  equalTables (obj a) (obj b) ->
  optTable_Equals a (ObjDataSource (DSTable (OptTable b))) = Ok true.
Proof.
  intros (Hid & Hver & Hlen & Hstats & Hudt & Hzones).
  unfold optTable_Equals. destruct (ptr_eqb a b); [done|].
  rewrite Hid, Hver, !Z.eqb_refl, Hlen, Nat.eqb_refl. simpl.
  destruct (statsEqualFrom_spec (optTable.stats (obj a))
              (optTable.stats (obj b)) 0 ltac:(simpl; lia))
    as (e & -> & He).
  simpl. rewrite (proj2 He) by (intros k s s'; apply Hstats). simpl.
  apply UserDefinedTypeColsHaveSameVersion_true in Hudt.
  rewrite Hudt. simpl.
  apply zonesEqualFrom_complete. intros k oi Hk. simpl. by apply Hzones.
Qed.

(** C4.  For two built tables, [Equals] returns true exactly when they are
    the same object or: the IDs and versions of their descriptors are
    equal, they have the same number of statistics and these are pairwise
    equal, no column has a different version of its user-defined type, and
    the zone of each index is deeply equal to the zone of its counterpart
    (skipping the comparison of a pair of zones that was just compared
    changes nothing).  And it does return, true or false, when the other
    table has at least as many indexes. *)
Theorem optTable_Equals_iff :
  forall a b : ptr optTable.t,
    built a -> built b ->
    (optTable_Equals a (ObjDataSource (DSTable (OptTable b))) = Ok true
     <-> loc a = loc b \/ equalTables (obj a) (obj b))
    /\ (length (optTable.indexes (obj a)) <= length (optTable.indexes (obj b)) ->
        exists r,
          optTable_Equals a (ObjDataSource (DSTable (OptTable b))) = Ok r).
Proof.
  intros a b Ha Hb. split; [split|].
  - intros Heq. unfold optTable_Equals in Heq.
    destruct (ptr_eqb a b) eqn:Hptr.
    { left. by apply Nat.eqb_eq. }
    right.
    destruct (Z.eqb_spec (tabledesc.ID (obj (optTable.desc (obj a))))
                         (tabledesc.ID (obj (optTable.desc (obj b)))))
      as [Hid|]; simpl in Heq; [|discriminate].
    destruct (Z.eqb_spec (tabledesc.Version (obj (optTable.desc (obj a))))
                         (tabledesc.Version (obj (optTable.desc (obj b)))))
      as [Hver|]; simpl in Heq; [|discriminate].
    destruct (Nat.eqb_spec (length (optTable.stats (obj a)))
                           (length (optTable.stats (obj b))))
      as [Hlen|]; simpl in Heq; [|discriminate].
    destruct (statsEqualFrom_spec (optTable.stats (obj a))
                (optTable.stats (obj b)) 0 ltac:(simpl; lia))
      as (e & He & Hiff).
    rewrite He in Heq. simpl in Heq.
    destruct e; simpl in Heq; [|discriminate].
    destruct (tabledesc.UserDefinedTypeColsHaveSameVersion _ _) eqn:Hudt;
      simpl in Heq; [|discriminate].
    destruct (built_zones a Ha) as [Hca Hsa].
    destruct (built_zones b Hb) as [Hcb Hsb].
    split; [done|]. split; [done|]. split; [done|]. split; [|split].
    + intros k x x'. by apply (proj1 Hiff eq_refl).
    + by apply UserDefinedTypeColsHaveSameVersion_true.
    + intros k oi Hk.
      eapply (zonesEqualFrom_sound
                (fun p => Some p ∈ optIndex.zone <$> optTable.indexes (obj a))
                (fun q => Some q ∈ optIndex.zone <$> optTable.indexes (obj b))
                _ _ Hca Hcb Hsa Hsb 0 None None) in Heq; [|by left|exact Hk].
      done.
  - intros [Hloc|Heq].
    + unfold optTable_Equals, ptr_eqb. by rewrite Hloc, Nat.eqb_refl.
    + by apply Equals_of_equalTables.
  - intros Hlen. unfold optTable_Equals.
    destruct (ptr_eqb a b); [eauto|].
    destruct (negb _ || negb _); [eauto|].
    destruct (Nat.eqb_spec (length (optTable.stats (obj a)))
                           (length (optTable.stats (obj b))))
      as [Hl|]; simpl; [|eauto].
    destruct (statsEqualFrom_spec (optTable.stats (obj a))
                (optTable.stats (obj b)) 0 ltac:(simpl; lia))
      as (e & -> & _).
    simpl. destruct e; simpl; [|eauto].
    destruct (tabledesc.UserDefinedTypeColsHaveSameVersion _ _); simpl;
      [|eauto].
    apply zonesEqualFrom_returns. simpl. lia.
Qed.

Lemma abcZoned1_built : built Sample.abcZoned1.
Proof.
  exists Sample.abc, 0%Z, Sample.snapshot1, Sample.zoned, 10, 12.
  split; [simpl; lia|]. vm_compute. reflexivity.
Qed.

Lemma abcZoned2_built : built Sample.abcZoned2.
Proof.
  exists Sample.abc, 0%Z, Sample.snapshot1, Sample.zoned, 20, 22.
  split; [simpl; lia|]. vm_compute. reflexivity.
Qed.

Lemma optTable_Equals_iff_witness :
  (optTable_Equals Sample.abcZoned1
     (ObjDataSource (DSTable (OptTable Sample.abcZoned2))) = Ok true
   <-> loc Sample.abcZoned1 = loc Sample.abcZoned2
       \/ equalTables (obj Sample.abcZoned1) (obj Sample.abcZoned2))
  /\ exists r,
       optTable_Equals Sample.abcZoned1
         (ObjDataSource (DSTable (OptTable Sample.abcZoned2))) = Ok r.
Proof.
  destruct (optTable_Equals_iff Sample.abcZoned1 Sample.abcZoned2
              abcZoned1_built abcZoned2_built) as [Hiff Hret].
  split; [exact Hiff|]. apply Hret. vm_compute. lia.
Defined.

(** ** Building a table again *)

Lemma keyColumnsNotNull_sameShape ot1 ot2 ids :
  sameShape ot1 ot2 -> keyColumnsNotNull ot1 ids = keyColumnsNotNull ot2 ids.
Proof.
  intros (Hc & _ & Hm & _). induction ids as [|id ids IH]; simpl; [done|].
  unfold optTable_lookupColumnOrdinal, optTable_Column. rewrite Hm, Hc.
  destruct (index _ _) as [c| |]; simpl; try done.
  by rewrite IH.
Qed.

Lemma optIndex_init_sameShape ot1 ot2 self1 self2 i d1 d2 z1 z2 v oi1 :
  sameShape ot1 ot2 ->
  sameIndexDesc (optTable.desc ot1) (optTable.desc ot2) d1 d2 ->
  optIndex_init ot1 self1 i d1 z1 v = Ok oi1 ->
  exists oi2, optIndex_init ot2 self2 i d2 z2 v = Ok oi2.
Proof.
  intros Hs [Hd Hprim]. unfold optIndex_init, optTable_ColumnCount.
  rewrite <- Hd.
  rewrite <- (keyColumnsNotNull_sameShape ot1 ot2 _ Hs).
  destruct Hs as (<- & _).
  destruct (decide (iaddr d1 = _)) as [H1|H1].
  - rewrite (decide_True (P := iaddr d2 = _)) by (by apply Hprim).
    case_decide; [|discriminate].
    destruct (descpb.IndexDescriptor.Unique (iobj d1)); simpl;
      try (destruct (keyColumnsNotNull ot1 _) as [[|]| |]; simpl;
           try discriminate);
      intros _; eauto.
  - rewrite (decide_False (P := iaddr d2 = _)) by (by rewrite <- Hprim).
    destruct (descpb.IndexDescriptor.Unique (iobj d1)); simpl;
      try (destruct (keyColumnsNotNull ot1 _) as [[|]| |]; simpl;
           try discriminate);
      intros _; eauto.
Qed.

Lemma withIndexes_sameShape ot1 ot2 l1 l2 :
  sameShape ot1 ot2 ->
  sameShape (optTable.withIndexes ot1 l1) (optTable.withIndexes ot2 l2).
Proof. intros (Hc & Hcap & Hm & Hdesc). by repeat split. Qed.

Lemma buildIndex_sameShape self1 self2 tz ot1 ot2 n1 n2 i d1 d2 ot1' n1' :
  sameShape ot1 ot2 ->
  sameIndexDesc (optTable.desc ot1) (optTable.desc ot2) d1 d2 ->
  buildIndex self1 (Some tz) ot1 n1 i d1 = Ok (ot1', n1') ->
  exists ot2' n2',
    buildIndex self2 (Some tz) ot2 n2 i d2 = Ok (ot2', n2')
    /\ sameShape ot1' ot2'
    /\ optTable.desc ot1' = optTable.desc ot1
    /\ optTable.desc ot2' = optTable.desc ot2.
Proof.
  intros Hs Hsd Hrun. pose proof Hs as (Hc & Hcap & Hm & Hdesc).
  pose proof Hsd as [Hd _].
  unfold buildIndex in Hrun |- *. rewrite <- Hd.
  destruct (indexZone tz (iobj d1) n1) as [z1 m1].
  destruct (indexZone tz (iobj d1) n2) as [z2 m2].
  case_decide as Hinv.
  - destruct (index _ 0) as [colID| |]; simpl in Hrun |- *; try discriminate.
    unfold newColumn in Hrun |- *. rewrite <- Hcap, <- Hc.
    case_decide; simpl in Hrun |- *; [|discriminate].
    unfold optTable_Column, optTable_lookupColumnOrdinal in Hrun |- *.
    simpl in Hrun |- *. rewrite <- Hm.
    destruct (index _ _) as [src| |]; simpl in Hrun |- *; try discriminate.
    match type of Hrun with
    | context [optIndex_init ?t1 self1 i d1 z1 ?v] =>
        destruct (optIndex_init t1 self1 i d1 z1 v) as [oi1| |] eqn:Hinit;
          simpl in Hrun; try discriminate
    end.
    injection Hrun as <- <-.
    match type of Hinit with
    | optIndex_init ?t1 _ _ _ _ _ = _ =>
        match goal with
        | |- context [optIndex_init ?t2 self2 i d2 z2 _] =>
            assert (Hsh : sameShape t1 t2)
              by (unfold sameShape; simpl; repeat split; congruence);
            destruct (optIndex_init_sameShape t1 t2 self1 self2 _ _ d2 _ z2
                        _ _ Hsh Hsd Hinit) as [oi2 Hinit2]
        end
    end.
    rewrite Hinit2. simpl. eexists _, _. split; [reflexivity|].
    unfold sameShape. simpl. repeat split; congruence.
  - destruct (optIndex_init ot1 self1 i d1 z1 (-1)) as [oi1| |] eqn:Hinit;
      simpl in Hrun; try discriminate.
    injection Hrun as <- <-.
    eapply (optIndex_init_sameShape _ _ self1 self2 _ _ d2 _ z2) in Hinit
      as [oi2 Hinit2]; [|exact Hs|exact Hsd].
    rewrite Hinit2. simpl. eexists _, _. split; [reflexivity|].
    split; [by apply withIndexes_sameShape|done].
Qed.

Lemma buildIndexes_sameShape self1 self2 tz descs1 :
  forall descs2 ot1 ot2 n1 n2 i ot1' n1',
    sameShape ot1 ot2 ->
    Forall2 (sameIndexDesc (optTable.desc ot1) (optTable.desc ot2))
            descs1 descs2 ->
    buildIndexes self1 (Some tz) ot1 n1 i descs1 = Ok (ot1', n1') ->
    exists ot2' n2',
      buildIndexes self2 (Some tz) ot2 n2 i descs2 = Ok (ot2', n2')
      /\ sameShape ot1' ot2'.
Proof.
  induction descs1 as [|d1 rest1 IH];
    intros descs2 ot1 ot2 n1 n2 i ot1' n1' Hs Hd; inversion Hd as [|? d2 ? rest2 Hd1 Hrest]; subst;
    simpl.
  - intros [= <- <-]. eauto.
  - destruct (buildIndex self1 (Some tz) ot1 n1 i d1) as [[ot1m m1]| |] eqn:Hb;
      simpl; try discriminate.
    intros Hrest1.
    destruct (buildIndex_sameShape self1 self2 tz ot1 ot2 n1 n2 i d1 d2 _ _
                Hs Hd1 Hb) as (ot2m & m2 & -> & Hsm & Hdm1 & Hdm2).
    simpl. eapply IH; [exact Hsm| |exact Hrest1].
    by rewrite Hdm1, Hdm2.
Qed.

Lemma indexDescs_same desc1 desc2 :
  obj desc1 = obj desc2 ->
  Forall2 (sameIndexDesc desc1 desc2) (indexDescs desc1) (indexDescs desc2).
Proof.
  intros Hobj. unfold indexDescs. rewrite <- Hobj. constructor.
  - by split.
  - apply Forall2_lookup. intros i. rewrite !list_lookup_imap.
    destruct (tabledesc.DeletableIndexes (obj desc1) !! i); constructor.
    split; [done|]. simpl. split; discriminate.
Qed.

Lemma addStats_returns ot stats :
  forall slots n, exists r, addStats ot slots n stats = Ok r.
Proof.
  induction stats as [|s rest IH]; intros slots n; simpl; [eauto|].
  unfold optTableStat_init.
  destruct (fillColumnOrdinals _ _ _ _) as [ords ok]. apply IH.
Qed.

Lemma indexDescs_iobj desc :
  iobj <$> indexDescs desc
  = tabledesc.PrimaryIndex (obj desc) :: tabledesc.DeletableIndexes (obj desc).
Proof.
  unfold indexDescs. rewrite fmap_cons. simpl. f_equal.
  rewrite fmap_imap. simpl. rewrite (imap_const id). apply list_fmap_id.
Qed.

Lemma finishTable_sameShape self1 self2 ot1 ot2 stats ot1' :
  sameShape ot1 ot2 ->
  finishTable self1 ot1 stats = Ok ot1' ->
  exists ot2', finishTable self2 ot2 stats = Ok ot2'.
Proof.
  intros (Hc & _ & _ & Hd). unfold finishTable. rewrite <- Hd.
  destruct (index _ 0) as [f0| |]; simpl; try discriminate.
  rewrite <- Hc.
  destruct (synthesizeChecks _) as [checks| |]; simpl; try discriminate.
  intros _. destruct stats as [s|]; [|eauto].
  match goal with
  | |- context [addStats ?t ?sl ?n ?l] =>
      destruct (addStats_returns t l sl n) as [[slots k] ->]
  end.
  simpl. eauto.
Qed.

(** A descriptor with the same content at another address is built as
    well. *)
Lemma newOptTable_again desc1 desc2 codec stats tblZone n1 n2 a n1' :
  obj desc1 = obj desc2 ->
  newOptTable desc1 codec stats tblZone n1 = Ok (a, n1') ->
  exists b n2', newOptTable desc2 codec stats tblZone n2 = Ok (b, n2').
Proof.
  intros Hobj. unfold newOptTable. cbn [alloc].
  destruct (initColumns_Ok desc1 codec stats tblZone)
    as (ot1 & -> & Hd1 & Hc1 & Hcap1 & Hm1 & _).
  destruct (initColumns_Ok desc2 codec stats tblZone)
    as (ot2 & -> & Hd2 & Hc2 & Hcap2 & Hm2 & _).
  cbn [mbind result_bind].
  assert (Hs : sameShape ot1 ot2).
  { unfold sameShape. rewrite Hc1, Hc2, Hcap1, Hcap2, Hm1, Hm2, Hd1, Hd2.
    by rewrite Hobj. }
  destruct tblZone as [tz|]; [|discriminate].
  destruct (buildIndexes n1 _ ot1 _ _ _) as [[ot1' m1]| |] eqn:Hb;
    cbn [mbind result_bind]; try discriminate.
  destruct (buildIndexes_sameShape n1 n2 tz (indexDescs desc1)
              (indexDescs desc2) ot1 ot2 (S n1) (S n2) 0 ot1' m1 Hs
              ltac:(rewrite Hd1, Hd2; by apply indexDescs_same) Hb)
    as (ot2' & m2 & -> & Hs').
  cbn [mbind result_bind].
  destruct (finishTable n1 ot1' stats) as [ot1f| |] eqn:Hf;
    cbn [mbind result_bind]; try discriminate.
  destruct (finishTable_sameShape n1 n2 ot1' ot2' stats ot1f Hs' Hf)
    as [ot2f ->].
  cbn [mbind result_bind]. eauto.
Qed.

(** ** Building a table twice *)

Lemma typeVersionDiffers_same d d' : d = d' -> ~ typeVersionDiffers d d'.
Proof.
  intros <- (i & c & c' & Hc & Hc' & Hne). congruence.
Qed.

Lemma subzone_loop_Equal tz idx l :
  forall p1 p2 n1 n2,
    obj p1 = obj p2 ->
    zonepb.Equal (foldl (subzoneStep tz idx) (Some p1, n1) l).1
                 (foldl (subzoneStep tz idx) (Some p2, n2) l).1 = true.
Proof.
  induction l as [|sz l IH]; intros p1 p2 n1 n2 Hobj; simpl.
  - by apply Equal_Some.
  - unfold subzoneStep at 2 4. simpl. destruct (_ && _); by apply IH.
Qed.

Lemma indexZones_Equal tz descs1 :
  forall descs2 n1 n2,
    iobj <$> descs1 = iobj <$> descs2 ->
    Forall2 (fun z1 z2 => zonepb.Equal z1 z2 = true)
            (indexZones tz descs1 n1) (indexZones tz descs2 n2).
Proof.
  induction descs1 as [|d1 rest1 IH]; intros [|d2 rest2] n1 n2 Hd;
    try discriminate; simpl; [constructor|].
  rewrite !fmap_cons in Hd. injection Hd as Hd Hrest.
  constructor; [|by apply IH].
  unfold indexZone. rewrite Hd. by apply subzone_loop_Equal.
Qed.

Lemma buildIndexes_next self tz descs :
  forall ot next i ot' next',
    buildIndexes self (Some tz) ot next i descs = Ok (ot', next') ->
    next <= next'.
Proof.
  induction descs as [|d rest IH]; intros ot next i ot' next'; simpl.
  - intros [= <- <-]. lia.
  - destruct (buildIndex self (Some tz) ot next i d) as [[ot1 n1]| |] eqn:Hb;
      simpl; try discriminate.
    intros Hrest. apply IH in Hrest.
    apply buildIndex_Ok in Hb as (tab & v & oi & -> & _).
    destruct (indexZone_spec tz (iobj d) next) as (p & _ & Hle & _). lia.
Qed.

Lemma newOptTable_next desc codec stats tblZone next t next' :
  newOptTable desc codec stats tblZone next = Ok (t, next') -> next < next'.
Proof.
  unfold newOptTable. cbn [alloc].
  destruct (initColumns_Ok desc codec stats tblZone) as (ot1 & -> & _).
  cbn [mbind result_bind].
  destruct tblZone as [tz|]; [|discriminate].
  destruct (buildIndexes _ _ _ _ _ _) as [[ot2 n2]| |] eqn:Hb;
    cbn [mbind result_bind]; try discriminate.
  apply buildIndexes_next in Hb.
  destruct (finishTable _ _ _); cbn [mbind result_bind]; try discriminate.
  intros [= <- <-]. lia.
Qed.

(** Two tables built from descriptors with the same content, the same
    statistics and the same zone configuration satisfy the conditions of
    equality. *)
Lemma rebuilt_equalTables desc1 desc2 codec stats tblZone n1 n2 a b n1' n2' :
  obj desc1 = obj desc2 ->
  newOptTable desc1 codec stats tblZone n1 = Ok (a, n1') ->
  newOptTable desc2 codec stats tblZone n2 = Ok (b, n2') ->
  equalTables (obj a) (obj b).
Proof.
  intros Hobj Ha Hb.
  apply newOptTable_Ok in Ha
    as (tz & -> & _ & Hda & Hma & _ & _ & _ & Hza & _ & _ & Hsa).
  apply newOptTable_Ok in Hb
    as (tz' & [= <-] & _ & Hdb & Hmb & _ & _ & _ & Hzb & _ & _ & Hsb).
  assert (Hstats : optTable.stats (obj a) = optTable.stats (obj b)).
  { rewrite Hsa, Hsb. apply builtStats_colMap. by rewrite Hma, Hmb, Hobj. }
  unfold equalTables. rewrite Hda, Hdb, Hobj, Hstats.
  split; [done|]. split; [done|]. split; [done|]. split; [|split].
  - intros i s s' Hs Hs'. assert (s = s') as -> by congruence. by split.
  - by apply typeVersionDiffers_same.
  - intros i oi Hoi.
    pose proof (indexZones_Equal tz (indexDescs desc1) (indexDescs desc2)
                  (S n1) (S n2)
                  ltac:(rewrite !indexDescs_iobj; by rewrite Hobj)) as Hall.
    rewrite <- Hza, <- Hzb in Hall.
    assert (Hz : (optIndex.zone <$> optTable.indexes (obj a)) !! i
                 = Some (optIndex.zone oi)).
    { by rewrite list_lookup_fmap, Hoi. }
    destruct (Forall2_lookup_l _ _ _ _ _ Hall Hz) as (z' & Hz' & Heq).
    rewrite list_lookup_fmap in Hz'.
    destruct (optTable.indexes (obj b) !! i) as [oi'|]; [|discriminate].
    injection Hz' as <-. by exists oi'.
Qed.

(** C5, as amended.  When a table has been built from a descriptor,
    building it again, independently, from a descriptor with the same
    content (hence the same ID, version and versions of user-defined
    types), the same statistics snapshot and the same zone configuration
    yields a second table, a different object, and [Equals] returns true
    for the two. *)
Theorem rebuilt_table_Equals :
  forall (desc1 desc2 : ptr tabledesc.Immutable) (codec : SQLCodec)
         (stats : option (slice stats.TableStatistic))
         (tblZone : option (ptr zonepb.ZoneConfig)) (n1 n2 : nat) a n1',
    obj desc1 = obj desc2 ->
    newOptTable desc1 codec stats tblZone n1 = Ok (a, n1') ->
    n1' <= n2 ->
    exists b n2',
      newOptTable desc2 codec stats tblZone n2 = Ok (b, n2')
      /\ loc a <> loc b
      /\ optTable_Equals a (ObjDataSource (DSTable (OptTable b))) = Ok true.
Proof.
  intros desc1 desc2 codec stats tblZone n1 n2 a n1' Hobj Ha Hle.
  destruct (newOptTable_again desc1 desc2 codec stats tblZone n1 n2 a n1'
              Hobj Ha) as (b & n2' & Hb).
  exists b, n2'. split; [done|]. split.
  - pose proof (newOptTable_next _ _ _ _ _ _ _ Ha) as Hlt.
    apply newOptTable_Ok in Ha as (_ & _ & -> & _).
    apply newOptTable_Ok in Hb as (_ & _ & -> & _). lia.
  - apply Equals_of_equalTables. by eapply rebuilt_equalTables.
Qed.

Lemma rebuilt_table_Equals_witness :
  exists b n2',
    newOptTable Sample.abcAgain 0%Z Sample.snapshot1 (Some Sample.zoned) 20
    = Ok (b, n2')
    /\ loc Sample.abcZoned1 <> loc b
    /\ optTable_Equals Sample.abcZoned1 (ObjDataSource (DSTable (OptTable b)))
       = Ok true.
Proof.
  apply (rebuilt_table_Equals Sample.abc Sample.abcAgain 0%Z Sample.snapshot1
           (Some Sample.zoned) 10 20 Sample.abcZoned1 12).
  - reflexivity.
  - vm_compute. reflexivity.
  - lia.
Defined.

(** C5, as stated, fails: two descriptors with the same ID and version,
    built with the same statistics and zone configuration, give tables that
    are not equal when the version of a user-defined type differs. *)
Lemma same_ID_and_version_not_Equals :
  tabledesc.ID (obj Sample.moodsBefore) = tabledesc.ID (obj Sample.moodsAfter)
  /\ tabledesc.Version (obj Sample.moodsBefore)
     = tabledesc.Version (obj Sample.moodsAfter)
  /\ newOptTable Sample.moodsBefore 0%Z Sample.snapshot1 (Some Sample.zoned) 10
     = Ok (Sample.moodsBeforeTable, 11)
  /\ newOptTable Sample.moodsAfter 0%Z Sample.snapshot1 (Some Sample.zoned) 20
     = Ok (Sample.moodsAfterTable, 21)
  /\ optTable_Equals Sample.moodsBeforeTable
       (ObjDataSource (DSTable (OptTable Sample.moodsAfterTable)))
     = Ok false.
Proof.
  split; [reflexivity|]. split; [reflexivity|].
  split; [vm_compute; reflexivity|]. split; vm_compute; reflexivity.
Qed.

(** ** Resolution by ID *)

Lemma resolveDataSourceByID_outcome oc dataSourceID next :
  (resolveDataSourceByID oc dataSourceID next).1.1
  = match planner.LookupTableByID
            (optCatalog.planner_ oc)
            (planner.avoidCachedDescriptors (optCatalog.planner_ oc))
            (uint32 dataSourceID) with
    | Panic v => Panicked v
    | Err err =>
        if catalog.IsDescriptorNotFound err || catalog.HasAddingTableError err
        then Returned None (catalog.HasAddingTableError err)
                      (Some (UndefinedRelationError (int64 dataSourceID)))
        else Returned None false (Some err)
    | Ok desc =>
        resolvedOf (dataSourceForDesc oc cat_Flags.zero desc
                                      tree.emptyTableName next).1.1
    end.
Proof.
  unfold resolveDataSourceByID.
  destruct (planner.LookupTableByID _ _ _) as [desc|err|v]; [| |done].
  - destruct (dataSourceForDesc _ _ _ _ _) as [[[ds|e|v] oc'] next']; done.
  - by destruct (_ || _).
Qed.

Lemma ResolveDataSourceByID_outcome oc flags dataSourceID next :
  (optCatalog_ResolveDataSourceByID oc flags dataSourceID next).1.1
  = (resolveDataSourceByID (duringCall oc flags) dataSourceID next).1.1.
Proof.
  unfold optCatalog_ResolveDataSourceByID, duringCall.
  destruct (cat_Flags.AvoidDescriptorCaches flags); [|done].
  by destruct (resolveDataSourceByID _ _ _) as [[r oc'] next'].
Qed.

(** C9, as amended.  [ResolveDataSourceByID] tells "does not exist" from
    "exists but is mid-creation": in both states it fails with an
    UndefinedRelation error, and the flag it returns is set in the second
    state and in no other.  When neither state applies it does not fail
    with an error of its own: a lookup that failed otherwise has its error
    returned unchanged, and a lookup that succeeded is followed by the
    construction of the data source, whose outcome is returned. *)
Theorem ResolveDataSourceByID_states :
  forall (oc : optCatalog.t) (flags : cat_Flags.t) (dataSourceID : Z)
         (next : nat),
    let lookup := lookupDuringCall oc flags dataSourceID in
    let r := (optCatalog_ResolveDataSourceByID oc flags dataSourceID next).1.1 in
    (doesNotExist lookup ->
     r = Returned None false (Some (UndefinedRelationError (int64 dataSourceID))))
    /\ (midCreation lookup ->
        r = Returned None true
                     (Some (UndefinedRelationError (int64 dataSourceID))))
    /\ (forall ds err, r = Returned ds true err -> midCreation lookup)
    /\ (forall e, lookup = Err e -> ~ doesNotExist lookup ->
                  ~ midCreation lookup ->
                  r = Returned None false (Some e))
    /\ (forall desc, lookup = Ok desc ->
                     r = resolvedOf
                           (dataSourceForDesc (duringCall oc flags)
                              cat_Flags.zero desc tree.emptyTableName next).1.1).
Proof.
  intros oc flags dataSourceID next lookup r.
  assert (Hr : r = match lookup with
                   | Panic v => Panicked v
                   | Err err =>
                       if catalog.IsDescriptorNotFound err
                          || catalog.HasAddingTableError err
                       then Returned None (catalog.HasAddingTableError err)
                              (Some (UndefinedRelationError (int64 dataSourceID)))
                       else Returned None false (Some err)
                   | Ok desc =>
                       resolvedOf
                         (dataSourceForDesc (duringCall oc flags) cat_Flags.zero
                            desc tree.emptyTableName next).1.1
                   end).
  { unfold r, lookup, lookupDuringCall.
    rewrite ResolveDataSourceByID_outcome. apply resolveDataSourceByID_outcome. }
  clearbody r lookup. subst r.
  split; [|split; [|split; [|split]]].
  - intros (e & -> & He). rewrite He. simpl. by destruct e.
  - intros (e & -> & He). rewrite He, orb_true_r. done.
  - intros ds err. destruct lookup as [desc|e|v].
    + by destruct (dataSourceForDesc _ _ _ _ _) as [[[?|?|?] ?] ?].
    + destruct (catalog.IsDescriptorNotFound e) eqn:Hn;
        destruct (catalog.HasAddingTableError e) eqn:Ha; simpl;
        try discriminate; intros _; by exists e.
    + discriminate.
  - intros e -> Hn Ha.
    destruct (catalog.IsDescriptorNotFound e) eqn:Hn'.
    { exfalso. apply Hn. by exists e. }
    destruct (catalog.HasAddingTableError e) eqn:Ha'.
    { exfalso. apply Ha. by exists e. }
    done.
  - by intros desc ->.
Qed.

Lemma ResolveDataSourceByID_states_witness :
  (optCatalog_ResolveDataSourceByID Sample.theCatalog cat_Flags.zero 72 10).1.1
  = Returned None false (Some (UndefinedRelationError (int64 72)))
  /\ (optCatalog_ResolveDataSourceByID Sample.theCatalog Sample.avoidCaches
        71 10).1.1
     = Returned None true (Some (UndefinedRelationError (int64 71)))
  /\ (optCatalog_ResolveDataSourceByID Sample.theCatalog cat_Flags.zero
        73 10).1.1
     = Returned None false (Some (OtherError "context canceled"))
  /\ (optCatalog_ResolveDataSourceByID Sample.theCatalog cat_Flags.zero
        70 10).1.1
     = resolvedOf
         (dataSourceForDesc (duringCall Sample.theCatalog cat_Flags.zero)
            cat_Flags.zero Sample.seq tree.emptyTableName 10).1.1.
Proof.
  split; [|split; [|split]].
  - apply (proj1 (ResolveDataSourceByID_states Sample.theCatalog
                    cat_Flags.zero 72 10)).
    exists ErrDescriptorNotFound. split; reflexivity.
  - apply (proj1 (proj2 (ResolveDataSourceByID_states Sample.theCatalog
                           Sample.avoidCaches 71 10))).
    exists ErrAddingTable. split; reflexivity.
  - apply (proj1 (proj2 (proj2 (proj2
             (ResolveDataSourceByID_states Sample.theCatalog cat_Flags.zero
                73 10))))).
    + reflexivity.
    + intros (e & He & Hn). vm_compute in He. injection He as <-.
      discriminate Hn.
    + intros (e & He & Ha). vm_compute in He. injection He as <-.
      discriminate Ha.
  - apply (proj2 (proj2 (proj2 (proj2
             (ResolveDataSourceByID_states Sample.theCatalog cat_Flags.zero
                70 10))))).
    reflexivity.
Defined.

(** C9, as stated, fails: when neither state applies the call does not
    fail with an UndefinedRelation error.  The sequence 70 exists and is not
    being added, and the call returns it; the lookup of the table 73 fails
    for another reason, and the call returns that error. *)
Lemma neither_state_is_not_UndefinedRelation :
  (~ doesNotExist (lookupDuringCall Sample.theCatalog cat_Flags.zero 70)
   /\ ~ midCreation (lookupDuringCall Sample.theCatalog cat_Flags.zero 70)
   /\ (optCatalog_ResolveDataSourceByID Sample.theCatalog cat_Flags.zero
         70 10).1.1
      = Returned (Some (DSSequence (newOptSequence Sample.seq))) false None
   /\ isUndefinedRelation
        (optCatalog_ResolveDataSourceByID Sample.theCatalog cat_Flags.zero
           70 10).1.1 = false)
  /\ (~ doesNotExist (lookupDuringCall Sample.theCatalog cat_Flags.zero 73)
      /\ ~ midCreation (lookupDuringCall Sample.theCatalog cat_Flags.zero 73)
      /\ (optCatalog_ResolveDataSourceByID Sample.theCatalog cat_Flags.zero
            73 10).1.1
         = Returned None false (Some (OtherError "context canceled"))
      /\ isUndefinedRelation
           (optCatalog_ResolveDataSourceByID Sample.theCatalog cat_Flags.zero
              73 10).1.1 = false).
Proof.
  split.
  - split; [|split; [|split]].
    + intros (e & He & _). vm_compute in He. discriminate He.
    + intros (e & He & _). vm_compute in He. discriminate He.
    + vm_compute. reflexivity.
    + vm_compute. reflexivity.
  - split; [|split; [|split]].
    + intros (e & He & Hn). vm_compute in He. injection He as <-.
      discriminate Hn.
    + intros (e & He & Ha). vm_compute in He. injection He as <-.
      discriminate Ha.
    + vm_compute. reflexivity.
    + vm_compute. reflexivity.
Qed.

(** ** The invariant of the loop over the indexes *)

Lemma foldl_insert_sound (l : list (nat * cat.Column)) (m : gmap Z nat) k i :
  foldl (fun m ic => <[uint32 (cat.ColID ic.2) := ic.1]> m) m l !! k = Some i ->
  m !! k = Some i \/ exists c, (i, c) ∈ l /\ colKey c = k.
Proof.
  revert m. induction l as [|[j c] l IH]; intros m; simpl; [auto|].
  intros H. apply IH in H as [H|(c' & Hin & Hk)].
  - destruct (decide (uint32 (cat.ColID c) = k)) as [<-|Hne].
    + rewrite lookup_insert_eq in H. injection H as <-.
      right. exists c. split; [left|done].
    + rewrite lookup_insert_ne in H by done. auto.
  - right. exists c'. split; [by right|done].
Qed.

Lemma foldl_insert_is_Some (l : list (nat * cat.Column)) (m : gmap Z nat) k :
  is_Some (m !! k) \/ k ∈ (fun ic => colKey ic.2) <$> l ->
  is_Some (foldl (fun m ic => <[uint32 (cat.ColID ic.2) := ic.1]> m) m l !! k).
Proof.
  revert m. induction l as [|[j c] l IH]; intros m; simpl.
  - intros [H|H]; [done|]. by apply elem_of_nil in H.
  - intros H. apply IH.
    destruct (decide (uint32 (cat.ColID c) = k)) as [<-|Hne].
    + left. rewrite lookup_insert_eq. by eexists.
    + rewrite lookup_insert_ne by done.
      destruct H as [H|H]; [by left|].
      apply elem_of_cons in H as [H|H]; [|by right].
      exfalso. apply Hne. by rewrite H.
Qed.

Lemma imap_pair_keys (cols : list cat.Column) :
  (fun ic : nat * cat.Column => colKey ic.2) <$> imap (fun i c => (i, c)) cols
  = colKey <$> cols.
Proof.
  apply list_eq. intros i.
  rewrite !list_lookup_fmap, list_lookup_imap. by destruct (cols !! i).
Qed.

Lemma buildColMap_sound cols k i :
  buildColMap cols !! k = Some i ->
  exists c, cols !! i = Some c /\ colKey c = k.
Proof.
  unfold buildColMap. intros H.
  apply foldl_insert_sound in H as [H|(c & Hin & Hk)].
  - by rewrite lookup_empty in H.
  - exists c. split; [|done].
    apply elem_of_lookup_imap in Hin as (j & c' & [= -> ->] & Hl). done.
Qed.

Lemma buildColMap_None cols k :
  buildColMap cols !! k = None <-> k ∉ colKey <$> cols.
Proof.
  unfold buildColMap. split.
  - intros H Hin.
    assert (Hs : is_Some (foldl (fun m ic => <[uint32 (cat.ColID ic.2) := ic.1]> m)
                            (∅ : gmap Z nat) (imap (fun i c => (i, c)) cols) !! k)).
    { apply foldl_insert_is_Some. right. by rewrite imap_pair_keys. }
    rewrite H in Hs. by destruct Hs.
  - intros H. rewrite foldl_insert_notin; [apply lookup_empty|].
    by rewrite imap_pair_keys.
Qed.

Lemma lookupColumnOrdinal_fst ot colID :
  (optTable_lookupColumnOrdinal ot colID).1
  = match optTable.colMap ot !! colID with Some o => o | None => O end.
Proof. unfold optTable_lookupColumnOrdinal. by destruct (_ !! _). Qed.

Lemma index_Ok_inv {A} (l : list A) i x : index l i = Ok x -> l !! i = Some x.
Proof. unfold index. destruct (l !! i); [by intros [= ->]|discriminate]. Qed.

Lemma buildIndex_inv self tz ot next i d ot' next' :
  buildIndex self (Some tz) ot next i d = Ok (ot', next') ->
  next' = (indexZone tz (iobj d) next).2
  /\ exists ot1 v oi,
       optIndex_init ot1 self i d (indexZone tz (iobj d) next).1 v = Ok oi
       /\ ot' = optTable.withIndexes ot1 (optTable.indexes ot1 ++ [oi])
       /\ ((descpb.IndexDescriptor.Type_ (iobj d)
            <> descpb.IndexDescriptor_INVERTED
            /\ ot1 = ot /\ v = (-1)%Z)
           \/ (descpb.IndexDescriptor.Type_ (iobj d)
               = descpb.IndexDescriptor_INVERTED
               /\ exists colID src,
                    descpb.IndexDescriptor.ColumnIDs (iobj d) !! 0 = Some colID
                    /\ length (optTable.columns ot) + 1 <= optTable.columnsCap ot
                    /\ (optTable.columns ot ++ [cat.zeroColumn])
                         !! (optTable_lookupColumnOrdinal ot colID).1 = Some src
                    /\ v = Z.of_nat (length (optTable.columns ot))
                    /\ ot1 = optTable.withColumns ot
                               (optTable.columns ot
                                ++ [invertedKeyColumn
                                      (length (optTable.columns ot)) src
                                      (optTable_lookupColumnOrdinal ot colID).1]))).
Proof.
  unfold buildIndex.
  destruct (indexZone tz (iobj d) next) as [idxZone n] eqn:Hz.
  case_decide as Hinv.
  - destruct (index _ 0) as [colID| |] eqn:Hid; simpl; try discriminate.
    apply index_Ok_inv in Hid.
    destruct (newColumn ot) as [[ot1 ord]| |] eqn:Hnew; simpl; try discriminate.
    pose proof Hnew as Hcap. unfold newColumn in Hcap.
    case_decide as Hle; [clear Hcap|discriminate].
    apply newColumn_Ok in Hnew as [-> ->].
    destruct (optTable_Column _ _) as [src| |] eqn:Hsrc; simpl; try discriminate.
    apply index_Ok_inv in Hsrc. simpl in Hsrc.
    destruct (optIndex_init _ _ _ _ _ _) as [oi| |] eqn:Hinit; simpl;
      try discriminate.
    intros [= <- <-]. split; [done|].
    eexists _, _, oi. split; [exact Hinit|]. split; [done|].
    right. split; [done|]. exists colID, src.
    split; [done|]. split; [lia|]. split; [done|]. split; [done|].
    unfold setColumn. simpl. by rewrite insert_last.
  - destruct (optIndex_init _ _ _ _ _ _) as [oi| |] eqn:Hinit; simpl;
      try discriminate.
    intros [= <- <-]. split; [done|].
    exists ot, (-1)%Z, oi. split; [exact Hinit|]. split; [done|].
    left. done.
Qed.

Lemma optIndex_init_fields tab self i d z v oi :
  optIndex_init tab self i d z v = Ok oi ->
  optIndex.invertedVirtualColOrd oi = v
  /\ (iaddr d = PrimaryIndexOf (loc (optTable.desc tab)) ->
      optIndex.numCols oi = length (optTable.columns tab)
      /\ optIndex.storedCols oi
         = primaryStoredCols
             (list_to_set (int64 <$> descpb.IndexDescriptor.ColumnIDs (iobj d)))
             (optTable.columns tab)
      /\ length (descpb.IndexDescriptor.ColumnIDs (iobj d))
         <= length (optTable.columns tab))
  /\ (iaddr d <> PrimaryIndexOf (loc (optTable.desc tab)) ->
      optIndex.numCols oi
      = length (descpb.IndexDescriptor.ColumnIDs (iobj d))
        + length (descpb.IndexDescriptor.ExtraColumnIDs (iobj d))
        + length (descpb.IndexDescriptor.StoreColumnIDs (iobj d))
      /\ optIndex.storedCols oi = descpb.IndexDescriptor.StoreColumnIDs (iobj d)).
Proof.
  unfold optIndex_init, optTable_ColumnCount.
  destruct (decide (iaddr d = _)) as [Hp|Hp].
  - case_decide as Hle; simpl; [|discriminate].
    destruct (descpb.IndexDescriptor.Unique (iobj d)).
    + destruct (keyColumnsNotNull _ _) as [[]| |]; simpl; try discriminate;
        intros [= <-]; simpl; (split; [done|]); split; done.
    + simpl. intros [= <-]. simpl. split; [done|]. split; done.
  - simpl. destruct (descpb.IndexDescriptor.Unique (iobj d)).
    + destruct (keyColumnsNotNull _ _) as [[]| |]; simpl; try discriminate;
        intros [= <-]; simpl; (split; [done|]); split; done.
    + simpl. intros [= <-]. simpl. split; [done|]. split; done.
Qed.

Lemma countInverted_snoc done d :
  countInverted (done ++ [d])
  = countInverted done
    + (if decide (descpb.IndexDescriptor.Type_ (iobj d)
                  = descpb.IndexDescriptor_INVERTED) then 1 else 0).
Proof.
  unfold countInverted. rewrite filter_app, length_app. f_equal.
  rewrite filter_cons, filter_nil. by case_decide.
Qed.

Lemma countInverted_take_le j done :
  countInverted (take j done) <= countInverted done.
Proof.
  unfold countInverted.
  rewrite <- (take_drop j done) at 2. rewrite filter_app, length_app. lia.
Qed.

Lemma base_lookup_ordinal (base : list cat.Column) colID :
  base <> [] ->
  exists src,
    base !! (match buildColMap base !! colID with
             | Some o => o | None => O end) = Some src.
Proof.
  intros Hne. destruct (buildColMap base !! colID) as [o|] eqn:Hm.
  - apply buildColMap_sound in Hm as (c & Hc & _). by exists c.
  - destruct base as [|c ?]; [done|]. by exists c.
Qed.

Section builder.
Variables (self : nat) (desc : ptr tabledesc.Immutable)
          (base : list cat.Column).
Hypothesis base_nonempty : base <> [].
Hypothesis base_typed : Forall (fun c => is_Some (cat.DatumType c)) base.

Lemma indexBuilt_app cols more m j oi :
  indexBuilt self desc base cols m j oi ->
  indexBuilt self desc base (cols ++ more) m j oi.
Proof.
  intros (Hm & (tab & Hc & Hmap & Hd & Hinit) & Hn & Hi).
  split; [rewrite length_app; lia|]. split.
  - exists tab. split; [|done]. rewrite take_app_le by lia. done.
  - split; [done|]. intros Hinv.
    destruct (Hi Hinv) as (n & colID & src & -> & Hb & Hv & Hid & Hsrc & Hcol).
    exists n, colID, src. repeat (split; [done|]).
    apply lookup_app_l_Some. done.
Qed.

Lemma buildIndex_indexesBuilt tz done ot next d ot' next' :
  indexesBuilt self desc base done ot ->
  buildIndex self (Some tz) ot next (length done) d = Ok (ot', next') ->
  indexesBuilt self desc base (done ++ [d]) ot'.
Proof.
  intros (Hmap & Hdesc & (extra & Hcols & Hvirt & Hlen) & Hord & Htyped
          & Hdescs & Hidx) Hb.
  apply buildIndex_inv in Hb as (_ & ot1 & v & oi & Hinit & -> & Hcase).
  pose proof (optIndex_init_Ok _ _ _ _ _ _ _ Hinit)
    as (Hoid & Hoiz & _).
  pose proof (optIndex_init_fields _ _ _ _ _ _ _ Hinit) as (Hv & _).
  assert (Hlendone : length (optTable.indexes ot) = length done).
  { by rewrite <- Hdescs, length_fmap. }
  destruct Hcase as [(Hn & -> & ->)|(Hi & colID & src & Hid & Hcap & Hsrc
                                     & -> & ->)].
  - (* not an inverted index *)
    split; [done|]. split; [done|]. split.
    { exists extra. split; [done|]. split; [done|].
      rewrite countInverted_snoc. case_decide; [done|]. simpl. lia. }
    split; [done|]. split; [done|]. split.
    { cbn [optTable.indexes optTable.withIndexes optTable.withColumns].
      rewrite fmap_app, Hdescs. f_equal. cbn. by rewrite Hoid. }
    simpl. intros j oj Hj.
    apply lookup_app_Some in Hj as [Hj|[Hge Hj]].
    + assert (j < length done) by (rewrite <- Hlendone; by eapply lookup_lt_Some).
      rewrite take_app_le by lia. by apply Hidx.
    + apply list_lookup_singleton_Some in Hj as [Hj0 ->].
      assert (j = length done) as -> by lia.
      rewrite take_app_ge, take_ge by (rewrite ?length_app; simpl; lia).
      replace (S (length done) - length done) with 1 by lia. simpl.
      rewrite countInverted_snoc. case_decide; [done|].
      rewrite Nat.add_0_r, <- Hlen.
      assert (Hm : length base + length extra = length (optTable.columns ot)).
      { by rewrite Hcols, length_app. }
      split; [lia|]. split.
      { exists ot. rewrite Hm, firstn_all. repeat (split; [done|]).
        by rewrite Hoid, Hoiz, Hv. }
      split; [done|]. rewrite Hoid. done.
  - (* an inverted index *)
    rewrite lookupColumnOrdinal_fst, Hmap in *.
    destruct (base_lookup_ordinal base colID base_nonempty) as (src' & Hsrc').
    assert (src' = src) as ->.
    { rewrite Hcols, <- app_assoc in Hsrc.
      rewrite lookup_app_l in Hsrc by (by eapply lookup_lt_Some).
      congruence. }
    set (n := length (optTable.columns ot)) in *.
    set (srcOrd := match buildColMap base !! colID with
                   | Some o => o | None => O end) in *.
    split; [done|]. split; [done|]. split.
    { exists (extra ++ [invertedKeyColumn n src srcOrd]). simpl.
      split; [by rewrite Hcols, app_assoc|]. split.
      - apply Forall_app. split; [done|]. by repeat constructor.
      - rewrite length_app, countInverted_snoc. case_decide; [|done].
        simpl. lia. }
    split.
    { simpl. intros i c Hc.
      apply lookup_app_Some in Hc as [Hc|[Hge Hc]]; [by apply Hord|].
      apply list_lookup_singleton_Some in Hc as [Hc0 <-]. simpl.
      unfold n. lia. }
    split.
    { simpl. apply Forall_app. split; [done|]. repeat constructor. simpl.
      eapply Forall_lookup_1 in Hsrc'; [|exact base_typed]. done. }
    split.
    { cbn [optTable.indexes optTable.withIndexes optTable.withColumns].
      rewrite fmap_app, Hdescs. f_equal. cbn. by rewrite Hoid. }
    simpl. intros j oj Hj.
    assert (Hm : length base + length extra = n).
    { unfold n. by rewrite Hcols, length_app. }
    apply lookup_app_Some in Hj as [Hj|[Hge Hj]].
    + assert (j < length done) by (rewrite <- Hlendone; by eapply lookup_lt_Some).
      rewrite take_app_le by lia. apply indexBuilt_app. by apply Hidx.
    + apply list_lookup_singleton_Some in Hj as [Hj0 ->].
      assert (j = length done) as -> by lia.
      rewrite take_app_ge, take_ge by (rewrite ?length_app; simpl; lia).
      replace (S (length done) - length done) with 1 by lia. simpl.
      rewrite countInverted_snoc. case_decide; [|done].
      rewrite <- Hlen.
      replace (length base + (length extra + 1)) with (S n) by lia.
      split; [rewrite length_app; simpl; lia|]. split.
      { eexists. split; [|split; [|split]]; [| | |by rewrite Hoid, Hoiz, Hv].
        - simpl. rewrite take_ge; [done|]. rewrite length_app. simpl. lia.
        - done.
        - done. }
      split; [by rewrite Hoid|]. intros _.
      exists n, colID, src. rewrite Hoid. split; [done|]. split; [lia|].
      split; [done|]. split; [done|]. split; [done|].
      rewrite lookup_app_r by lia. by rewrite Nat.sub_diag.
Qed.

Lemma buildIndexes_indexesBuilt tz descs :
  forall done ot next ot' next',
    indexesBuilt self desc base done ot ->
    buildIndexes self (Some tz) ot next (length done) descs = Ok (ot', next') ->
    indexesBuilt self desc base (done ++ descs) ot'.
Proof.
  induction descs as [|d descs IH]; intros done ot next ot' next' Hinv; simpl.
  - intros [= <- <-]. by rewrite app_nil_r.
  - destruct (buildIndex self (Some tz) ot next (length done) d)
      as [[ot1 next1]| |] eqn:Hb; simpl; try discriminate.
    intros Hrest.
    eapply buildIndex_indexesBuilt in Hb; [|exact Hinv].
    rewrite (cons_middle d), app_assoc.
    eapply IH; [exact Hb|]. rewrite length_app. simpl.
    by rewrite Nat.add_1_r.
Qed.
End builder.

Lemma descColumns_lookup_inv d i c :
  descColumns d !! i = Some c ->
  exists cd,
    tabledesc.DeletableColumns d !! i = Some cd
    /\ c = initColumnFromDesc (length (tabledesc.Columns d))
                              (length (tabledesc.WritableColumns d)) i cd.
Proof.
  unfold descColumns. rewrite list_lookup_imap.
  destruct (_ !! i) as [cd|]; [|discriminate].
  intros [= <-]. by exists cd.
Qed.

Lemma length_descColumns d :
  length (descColumns d) = length (tabledesc.DeletableColumns d).
Proof. unfold descColumns. by rewrite length_imap. Qed.

Lemma baseColumns_cases d :
  (isOk (tabledesc.FindColumnByName d colinfo.MVCCTimestampColumnName) = true
   /\ baseColumns d = descColumns d)
  \/ (isOk (tabledesc.FindColumnByName d colinfo.MVCCTimestampColumnName) = false
      /\ baseColumns d
         = descColumns d ++ [mvccTimestampColumn (length (descColumns d))]).
Proof.
  unfold baseColumns.
  destruct (tabledesc.FindColumnByName _ _); [left|right|right]; done.
Qed.

Lemma baseColumns_nonempty d : baseColumns d <> [].
Proof.
  destruct (baseColumns_cases d) as [[Hf ->]|[Hf ->]].
  - unfold tabledesc.FindColumnByName in Hf.
    intros He. assert (Hl : length (descColumns d) = 0) by by rewrite He.
    rewrite length_descColumns in Hl.
    destruct (tabledesc.DeletableColumns d); [done|discriminate].
  - intros He. apply app_eq_nil in He as [_ He]. discriminate.
Qed.

Lemma baseColumns_ordinals d : ordinalsMatch (baseColumns d).
Proof.
  assert (Hd : ordinalsMatch (descColumns d)).
  { intros i c Hc. by apply descColumns_lookup_inv in Hc as (cd & _ & ->). }
  destruct (baseColumns_cases d) as [[_ ->]|[_ ->]]; [done|].
  intros i c Hc. apply lookup_app_Some in Hc as [Hc|[Hge Hc]]; [by apply Hd|].
  apply list_lookup_singleton_Some in Hc as [Hc0 <-]. simpl. lia.
Qed.

Lemma baseColumns_typed d :
  Forall (fun c => is_Some (cat.DatumType c)) (baseColumns d).
Proof.
  assert (Hd : Forall (fun c => is_Some (cat.DatumType c)) (descColumns d)).
  { apply Forall_lookup. intros i c Hc.
    apply descColumns_lookup_inv in Hc as (cd & _ & ->). simpl. by eexists. }
  destruct (baseColumns_cases d) as [[_ ->]|[_ ->]]; [done|].
  apply Forall_app. split; [done|]. repeat constructor. simpl. by eexists.
Qed.

Lemma baseColumns_not_virtual d :
  Forall (fun c => cat.Kind c <> cat.Virtual) (baseColumns d).
Proof.
  assert (Hd : Forall (fun c => cat.Kind c <> cat.Virtual) (descColumns d)).
  { apply Forall_lookup. intros i c Hc.
    apply descColumns_lookup_inv in Hc as (cd & _ & ->). simpl.
    unfold columnKind. repeat case_decide; discriminate. }
  destruct (baseColumns_cases d) as [[_ ->]|[_ ->]]; [done|].
  apply Forall_app. split; [done|]. repeat constructor. discriminate.
Qed.

Lemma length_baseColumns d :
  length (baseColumns d)
  = length (tabledesc.DeletableColumns d)
    + (if isOk (tabledesc.FindColumnByName d colinfo.MVCCTimestampColumnName)
       then 0 else 1).
Proof.
  destruct (baseColumns_cases d) as [[-> ->]|[-> ->]];
    rewrite ?length_app, length_descColumns; simpl; lia.
Qed.

Lemma finishTable_fields self ot stats ot' :
  finishTable self ot stats = Ok ot' ->
  exists family0 checks,
    tabledesc.Families (obj (optTable.desc ot)) !! 0 = Some family0
    /\ optTable.primaryFamily ot' = Some (optFamily.mk self family0)
    /\ optTable.families ot'
       = optFamily.mk self <$> drop 1 (tabledesc.Families (obj (optTable.desc ot)))
    /\ optTable.outboundFKs ot'
       = outboundFK ot <$> tabledesc.OutboundFKs (obj (optTable.desc ot))
    /\ optTable.inboundFKs ot'
       = inboundFK ot <$> tabledesc.InboundFKs (obj (optTable.desc ot))
    /\ synthesizeChecks (optTable.columns ot) = Ok checks
    /\ optTable.checkConstraints ot'
       = (declaredCheck <$> tabledesc.ActiveChecks (obj (optTable.desc ot)))
         ++ checks.
Proof.
  unfold finishTable. cbn -[synthesizeChecks addStats].
  destruct (index _ 0) as [family0| |] eqn:Hf; cbn -[synthesizeChecks addStats];
    try discriminate.
  apply index_Ok_inv in Hf.
  destruct (synthesizeChecks _) as [checks| |] eqn:Hs;
    cbn -[synthesizeChecks addStats]; try discriminate.
  destruct stats as [s|].
  - destruct (addStats _ _ _ _) as [[slots n]| |]; cbn; try discriminate.
    intros [= <-]. by exists family0, checks.
  - intros [= <-]. by exists family0, checks.
Qed.

(** Everything [newOptTable] has done when it returns a table. *)
Lemma newOptTable_inv desc codec stats tblZone next t next' :
  newOptTable desc codec stats tblZone next = Ok (t, next') ->
  exists tz family0 checks,
    tblZone = Some tz
    /\ loc t = next
    /\ indexesBuilt next desc (baseColumns (obj desc)) (indexDescs desc) (obj t)
    /\ tabledesc.Families (obj desc) !! 0 = Some family0
    /\ optTable.primaryFamily (obj t) = Some (optFamily.mk next family0)
    /\ optTable.families (obj t)
       = optFamily.mk next <$> drop 1 (tabledesc.Families (obj desc))
    /\ optTable.outboundFKs (obj t)
       = outboundFK (obj t) <$> tabledesc.OutboundFKs (obj desc)
    /\ optTable.inboundFKs (obj t)
       = inboundFK (obj t) <$> tabledesc.InboundFKs (obj desc)
    /\ synthesizeChecks (optTable.columns (obj t)) = Ok checks
    /\ optTable.checkConstraints (obj t)
       = (declaredCheck <$> tabledesc.ActiveChecks (obj desc)) ++ checks.
Proof.
  unfold newOptTable. cbn [alloc].
  destruct (initColumns_Ok desc codec stats tblZone)
    as (ot0 & -> & Hdesc0 & Hcols0 & Hcap0 & Hmap0 & Hidx0 & Hraw0 & Hzone0
        & Hstats0).
  cbn [mbind result_bind].
  destruct (buildIndexes next tblZone ot0 (S next) 0 (indexDescs desc))
    as [[ot1 next1]| |] eqn:Hb; cbn [mbind result_bind]; try discriminate.
  destruct (finishTable next ot1 stats) as [ot2| |] eqn:Hf;
    cbn [mbind result_bind]; try discriminate.
  intros [= <- <-].
  destruct tblZone as [tz|].
  2:{ unfold indexDescs in Hb. cbn in Hb. unfold buildIndex in Hb.
      discriminate. }
  assert (Hinv0 : indexesBuilt next desc (baseColumns (obj desc)) [] ot0).
  { split; [done|]. split; [done|]. split.
    { exists []. rewrite app_nil_r. by repeat split. }
    rewrite Hcols0, Hidx0.
    split; [apply baseColumns_ordinals|]. split; [apply baseColumns_typed|].
    split; [done|]. intros j oi Hj. by rewrite lookup_nil in Hj. }
  apply (buildIndexes_indexesBuilt next desc (baseColumns (obj desc))
           (baseColumns_nonempty _) (baseColumns_typed _)
           tz (indexDescs desc) [] ot0 (S next) ot1 next1) in Hinv0;
    [|exact Hb].
  rewrite app_nil_l in Hinv0.
  pose proof (finishTable_Ok _ _ _ _ Hf)
    as (Hd2 & Hc2 & Hm2 & Hi2 & _).
  pose proof (finishTable_fields _ _ _ _ Hf)
    as (family0 & checks & Hfam & Hpf & Hfs & Hout & Hin & Hsyn & Hchk).
  destruct Hinv0 as (Hmap & Hdesc & Hext & Hord & Htyped & Hdescs & Hidx).
  exists tz, family0, checks. simpl.
  rewrite Hdesc in *.
  split; [done|]. split; [done|]. split.
  { unfold indexesBuilt. rewrite Hd2, Hc2, Hm2, Hi2. done. }
  repeat (split; [done|]).
  split.
  { rewrite Hout. apply list_fmap_ext. intros i fk Hi.
    unfold outboundFK, optTable_ID. by rewrite Hd2, Hdesc. }
  split.
  { rewrite Hin. apply list_fmap_ext. intros i fk Hi.
    unfold inboundFK, optTable_ID. by rewrite Hd2, Hdesc. }
  split; [by rewrite Hc2|done].
Qed.

Lemma docsTable_built :
  newOptTable Sample.docs 0%Z Sample.docsSnapshot (Some Sample.zoned) 30
  = Ok (Sample.docsTable, 32).
Proof. vm_compute. reflexivity. Qed.

Lemma abcTable_built :
  newOptTable Sample.abc 0%Z None (Some emptyZoneConfig) 10
  = Ok (Sample.abcTable, 11).
Proof. vm_compute. reflexivity. Qed.

Lemma index_lt {A} (l : list A) i :
  i < length l -> exists x, l !! i = Some x /\ index l i = Ok x.
Proof.
  intros Hi. destruct (lookup_lt_is_Some_2 l i Hi) as [x Hx].
  exists x. split; [done|]. by apply index_Ok.
Qed.

Lemma index_ge {A} (l : list A) i :
  length l <= i -> index l i = Panic (PanicRuntime "index out of range").
Proof. intros Hi. unfold index. by rewrite lookup_ge_None_2. Qed.

(** ** The columns of a built table *)

Lemma built_columns desc codec stats tblZone next t next' :
  newOptTable desc codec stats tblZone next = Ok (t, next') ->
  optTable.colMap (obj t) = buildColMap (baseColumns (obj desc))
  /\ ordinalsMatch (optTable.columns (obj t))
  /\ exists extra,
       optTable.columns (obj t) = baseColumns (obj desc) ++ extra
       /\ Forall (fun c => cat.Kind c = cat.Virtual /\ cat.ColID c = 0%Z) extra
       /\ length extra = countInverted (indexDescs desc).
Proof.
  intros H. apply newOptTable_inv in H
    as (tz & family0 & checks & _ & _ & (Hm & _ & He & Ho & _) & _).
  done.
Qed.

(** X1.  The column map of a built table is sound: when
    [lookupColumnOrdinal] finds a column ID, the ordinal it returns is the
    position of a column of the table with this ID, and this column is not
    one of the virtual columns made for the inverted indexes; when it does
    not, it returns the ordinal 0 with an undefined-column error, and no
    column of the table other than the virtual ones has this ID. *)
Theorem lookupColumnOrdinal_sound :
  forall (desc : ptr tabledesc.Immutable) (codec : SQLCodec)
         (stats : option (slice stats.TableStatistic))
         (tblZone : option (ptr zonepb.ZoneConfig)) (next : nat) t next'
         (colID : Z),
    newOptTable desc codec stats tblZone next = Ok (t, next') ->
    (forall ord,
       optTable_lookupColumnOrdinal (obj t) colID = (ord, None) ->
       exists c, optTable_Column (obj t) ord = Ok c
                 /\ uint32 (cat.ColID c) = colID
                 /\ cat.Kind c <> cat.Virtual)
    /\ (forall ord e,
          optTable_lookupColumnOrdinal (obj t) colID = (ord, Some e) ->
          ord = 0 /\ e = UndefinedColumn colID
          /\ forall i c, optTable_Column (obj t) i = Ok c ->
                         cat.Kind c <> cat.Virtual ->
                         uint32 (cat.ColID c) <> colID).
Proof.
  intros desc codec stats tblZone next t next' colID H.
  apply built_columns in H as (Hm & _ & extra & Hc & Hv & _).
  unfold optTable_lookupColumnOrdinal, optTable_Column. rewrite Hm, Hc.
  split.
  - intros ord Hl.
    destruct (buildColMap _ !! colID) as [o|] eqn:Ho; [|discriminate].
    injection Hl as <-.
    apply buildColMap_sound in Ho as (c & Hb & Hk).
    exists c. split; [|split; [done|]].
    + apply index_Ok. by apply lookup_app_l_Some.
    + eapply Forall_lookup_1 in Hb; [|apply baseColumns_not_virtual]. done.
  - intros ord e Hl.
    destruct (buildColMap _ !! colID) as [o|] eqn:Ho; [discriminate|].
    injection Hl as <- <-. split; [done|]. split; [done|].
    intros i c Hi Hk Heq. apply index_Ok_inv in Hi.
    apply buildColMap_None in Ho. apply Ho.
    apply lookup_app_Some in Hi as [Hi|[_ Hi]].
    + apply list_elem_of_fmap. exists c. split; [done|].
      by eapply list_elem_of_lookup_2.
    + eapply Forall_lookup_1 in Hi; [|exact Hv]. by destruct Hi.
Qed.

Lemma lookupColumnOrdinal_sound_witness :
  (exists c, optTable_Column (obj Sample.docsTable) 1 = Ok c
             /\ uint32 (cat.ColID c) = 2%Z
             /\ cat.Kind c <> cat.Virtual)
  /\ (forall i c, optTable_Column (obj Sample.docsTable) i = Ok c ->
                  cat.Kind c <> cat.Virtual ->
                  uint32 (cat.ColID c) <> 9%Z).
Proof.
  pose proof (lookupColumnOrdinal_sound Sample.docs 0%Z Sample.docsSnapshot
                (Some Sample.zoned) 30 Sample.docsTable 32 2%Z
                docsTable_built) as [H1 _].
  pose proof (lookupColumnOrdinal_sound Sample.docs 0%Z Sample.docsSnapshot
                (Some Sample.zoned) 30 Sample.docsTable 32 9%Z
                docsTable_built) as [_ H2].
  split.
  - apply (H1 1). vm_compute. reflexivity.
  - apply (H2 0 (UndefinedColumn 9)). vm_compute. reflexivity.
Defined.

Lemma countInverted_indexDescs desc :
  countInverted (indexDescs desc)
  = length (filter (fun idx => descpb.IndexDescriptor.Type_ idx
                               = descpb.IndexDescriptor_INVERTED)
                   (tabledesc.PrimaryIndex (obj desc)
                    :: tabledesc.DeletableIndexes (obj desc))).
Proof.
  rewrite <- indexDescs_iobj. unfold countInverted.
  induction (indexDescs desc) as [|d l IH]; [done|].
  rewrite fmap_cons, !filter_cons. simpl.
  case_decide; simpl; by rewrite IH.
Qed.

(** X2.  The columns of a built table hold their own positions:
    [Column(i).Ordinal()] is [i] for every [i] below [ColumnCount()], also
    for the system column and for the virtual columns; past it [Column]
    panics.  The table has one column per column of the descriptor, public
    or in a mutation, one system column unless its name is taken, and one
    virtual column per inverted index. *)
Theorem column_ordinals :
  forall (desc : ptr tabledesc.Immutable) (codec : SQLCodec)
         (stats : option (slice stats.TableStatistic))
         (tblZone : option (ptr zonepb.ZoneConfig)) (next : nat) t next',
    newOptTable desc codec stats tblZone next = Ok (t, next') ->
    optTable_ColumnCount (obj t)
    = length (tabledesc.DeletableColumns (obj desc))
      + (if isOk (tabledesc.FindColumnByName (obj desc)
                    colinfo.MVCCTimestampColumnName) then 0 else 1)
      + length (filter (fun idx => descpb.IndexDescriptor.Type_ idx
                                   = descpb.IndexDescriptor_INVERTED)
                       (tabledesc.PrimaryIndex (obj desc)
                        :: tabledesc.DeletableIndexes (obj desc)))
    /\ forall i,
         (i < optTable_ColumnCount (obj t) ->
          exists c, optTable_Column (obj t) i = Ok c /\ cat.Ordinal c = i)
         /\ (optTable_ColumnCount (obj t) <= i ->
             optTable_Column (obj t) i
             = Panic (PanicRuntime "index out of range")).
Proof.
  intros desc codec stats tblZone next t next' H.
  apply built_columns in H as (_ & Ho & extra & Hc & _ & Hl).
  unfold optTable_ColumnCount, optTable_Column. split.
  - by rewrite Hc, length_app, length_baseColumns, Hl, countInverted_indexDescs.
  - intros i. split.
    + intros Hi. destruct (index_lt _ _ Hi) as (c & Hlk & ->).
      exists c. split; [done|]. by apply Ho.
    + apply index_ge.
Qed.

Lemma column_ordinals_witness :
  optTable_ColumnCount (obj Sample.docsTable) = 4 + 1 + 1
  /\ forall i,
       (i < optTable_ColumnCount (obj Sample.docsTable) ->
        exists c, optTable_Column (obj Sample.docsTable) i = Ok c
                  /\ cat.Ordinal c = i)
       /\ (optTable_ColumnCount (obj Sample.docsTable) <= i ->
           optTable_Column (obj Sample.docsTable) i
           = Panic (PanicRuntime "index out of range")).
Proof.
  exact (column_ordinals Sample.docs 0%Z Sample.docsSnapshot
           (Some Sample.zoned) 30 Sample.docsTable 32 docsTable_built).
Defined.

(** ** The indexes of a built table *)

Lemma built_index desc codec stats tblZone next t next' :
  newOptTable desc codec stats tblZone next = Ok (t, next') ->
  length (optTable.indexes (obj t))
  = S (length (tabledesc.DeletableIndexes (obj desc)))
  /\ forall j oi,
       optTable.indexes (obj t) !! j = Some oi ->
       indexDescs desc !! j = Some (optIndex.desc oi)
       /\ (tabledesc.PrimaryIndex (obj desc)
           :: tabledesc.DeletableIndexes (obj desc)) !! j
          = Some (iobj (optIndex.desc oi))
       /\ optIndex.indexOrdinal oi = j
       /\ optIndex.tab oi = loc t
       /\ indexBuilt next desc (baseColumns (obj desc))
            (optTable.columns (obj t))
            (length (baseColumns (obj desc))
             + countInverted (take (S j) (indexDescs desc))) j oi.
Proof.
  intros H. apply newOptTable_inv in H
    as (tz & family0 & checks & _ & Hloc & (_ & _ & _ & _ & _ & Hd & Hi) & _).
  split.
  - rewrite <- (length_fmap optIndex.desc), Hd.
    unfold indexDescs. simpl. by rewrite length_imap.
  - intros j oi Hj.
    assert (Hdj : indexDescs desc !! j = Some (optIndex.desc oi)).
    { by rewrite <- Hd, list_lookup_fmap, Hj. }
    split; [done|]. split.
    { by rewrite <- indexDescs_iobj, list_lookup_fmap, Hdj. }
    pose proof (Hi j oi Hj) as Hb.
    destruct Hb as (Hm & (tab & Hc & Hmap & Hdesc & Hinit) & Hrest).
    apply optIndex_init_Ok in Hinit as (_ & _ & Ho & Ht & _).
    split; [done|]. split; [congruence|]. by apply Hi.
Qed.

(** X3.  A built table has one index wrapper per index of the descriptor,
    the primary index first and then the indexes [DeletableIndexes()]
    lists, in this order: [Index(i)] returns for exactly the [i] below
    [DeletableIndexCount()], and the wrapper it returns is the one of the
    descriptor's index at this position, knows its own ordinal and points
    back to the table. *)
Theorem index_wrappers :
  forall (desc : ptr tabledesc.Immutable) (codec : SQLCodec)
         (stats : option (slice stats.TableStatistic))
         (tblZone : option (ptr zonepb.ZoneConfig)) (next : nat) t next' i,
    newOptTable desc codec stats tblZone next = Ok (t, next') ->
    (i < optTable_DeletableIndexCount (obj t) ->
     exists oi idx,
       optTable_Index (obj t) i = Ok oi
       /\ (tabledesc.PrimaryIndex (obj desc)
           :: tabledesc.DeletableIndexes (obj desc)) !! i = Some idx
       /\ iobj (optIndex.desc oi) = idx
       /\ optIndex_Ordinal oi = i
       /\ optIndex_Table oi = loc t)
    /\ (optTable_DeletableIndexCount (obj t) <= i ->
        optTable_Index (obj t) i = Panic (PanicRuntime "index out of range")).
Proof.
  intros desc codec stats tblZone next t next' i H.
  pose proof (newOptTable_Ok _ _ _ _ _ _ _ H) as (_ & _ & _ & Hdesc & _).
  apply built_index in H as (Hlen & Hidx).
  unfold optTable_DeletableIndexCount, optTable_Index. rewrite Hdesc.
  split.
  - intros Hi. destruct (index_lt (optTable.indexes (obj t)) i) as (oi & Hl & ->);
      [simpl in Hi; lia|].
    destruct (Hidx i oi Hl) as (_ & Hd & Ho & Ht & _).
    exists oi, (iobj (optIndex.desc oi)). done.
  - intros Hi. apply index_ge. simpl in Hi. lia.
Qed.

Lemma index_wrappers_witness :
  exists oi idx,
    optTable_Index (obj Sample.docsTable) 2 = Ok oi
    /\ (tabledesc.PrimaryIndex (obj Sample.docs)
        :: tabledesc.DeletableIndexes (obj Sample.docs)) !! 2 = Some idx
    /\ iobj (optIndex.desc oi) = idx
    /\ optIndex_Ordinal oi = 2
    /\ optIndex_Table oi = loc Sample.docsTable.
Proof.
  apply (index_wrappers Sample.docs 0%Z Sample.docsSnapshot
           (Some Sample.zoned) 30 Sample.docsTable 32 2 docsTable_built).
  vm_compute. lia.
Defined.

Lemma countInverted_take_lt l j j' d' :
  j < j' -> l !! j' = Some d' ->
  descpb.IndexDescriptor.Type_ (iobj d') = descpb.IndexDescriptor_INVERTED ->
  countInverted (take (S j) l) < countInverted (take (S j') l).
Proof.
  intros Hlt Hd Hinv.
  erewrite (take_S_r l j') by done.
  rewrite countInverted_snoc. rewrite decide_True by done.
  assert (take (S j) l = take (S j) (take j' l)) as ->.
  { rewrite take_take. f_equal. lia. }
  pose proof (countInverted_take_le (S j) (take j' l)). lia.
Qed.

(** X4.  For each inverted index a built table has a virtual column, its
    own, for the key of the index: [invertedVirtualColOrd] is the ordinal of
    a column of kind virtual that is not nullable, is named after the source
    column, has its type, and refers back to its ordinal; the source column
    is the one [lookupColumnOrdinal] gives for the first column ID of the
    index, and is not itself virtual.  For an index that is not inverted
    [invertedVirtualColOrd] is -1. *)
Theorem inverted_index_key_column :
  forall (desc : ptr tabledesc.Immutable) (codec : SQLCodec)
         (stats : option (slice stats.TableStatistic))
         (tblZone : option (ptr zonepb.ZoneConfig)) (next : nat) t next',
    newOptTable desc codec stats tblZone next = Ok (t, next') ->
    (forall j oi,
       optTable_Index (obj t) j = Ok oi ->
       (optIndex_IsInverted oi = false ->
        optIndex.invertedVirtualColOrd oi = (-1)%Z)
       /\ (optIndex_IsInverted oi = true ->
           exists n c colID src,
             optIndex.invertedVirtualColOrd oi = Z.of_nat n
             /\ optTable_Column (obj t) n = Ok c
             /\ descpb.IndexDescriptor.ColumnIDs (iobj (optIndex.desc oi)) !! 0
                = Some colID
             /\ optTable_Column (obj t)
                  (optTable_lookupColumnOrdinal (obj t) colID).1 = Ok src
             /\ cat.Kind src <> cat.Virtual
             /\ cat.Kind c = cat.Virtual
             /\ cat.Ordinal c = n
             /\ cat.ColName c = cat.ColName src +:+ "_inverted_key"
             /\ cat.DatumType c = cat.DatumType src
             /\ cat.IsNullable c = false
             /\ cat.InvertedSourceColumnOrdinal c
                = (optTable_lookupColumnOrdinal (obj t) colID).1))
    /\ (forall j j' oi oi',
          optTable_Index (obj t) j = Ok oi ->
          optTable_Index (obj t) j' = Ok oi' ->
          optIndex_IsInverted oi = true -> optIndex_IsInverted oi' = true ->
          j <> j' ->
          optIndex.invertedVirtualColOrd oi
          <> optIndex.invertedVirtualColOrd oi').
Proof.
  intros desc codec stats tblZone next t next' H.
  pose proof (built_columns _ _ _ _ _ _ _ H) as (Hm & _ & extra & Hc & _ & _).
  apply built_index in H as (_ & Hidx).
  unfold optTable_Index, optIndex_IsInverted. split.
  - intros j oi Hj. apply index_Ok_inv in Hj.
    destruct (Hidx j oi Hj) as (_ & _ & _ & _ & (_ & _ & Hn & Hi)).
    split.
    + intros Hb. apply bool_decide_eq_false in Hb. by apply Hn.
    + intros Hb. apply bool_decide_eq_true in Hb.
      destruct (Hi Hb) as (n & colID & src & _ & _ & Hv & Hid & Hsrc & Hcol).
      eexists n, _, colID, src. rewrite lookupColumnOrdinal_fst, Hm.
      split; [done|].
      split; [by apply index_Ok|]. split; [done|]. split.
      { apply index_Ok. rewrite Hc. by apply lookup_app_l_Some. }
      split.
      { eapply Forall_lookup_1 in Hsrc; [|apply baseColumns_not_virtual]. done. }
      done.
  - intros j j' oi oi' Hj Hj' Hb Hb' Hne.
    apply index_Ok_inv in Hj, Hj'.
    apply bool_decide_eq_true in Hb, Hb'.
    destruct (Hidx j oi Hj) as (Hd & _ & _ & _ & (_ & _ & _ & Hi)).
    destruct (Hidx j' oi' Hj') as (Hd' & _ & _ & _ & (_ & _ & _ & Hi')).
    destruct (Hi Hb) as (n & _ & _ & Hmn & _ & -> & _).
    destruct (Hi' Hb') as (n' & _ & _ & Hmn' & _ & -> & _).
    destruct (decide (j < j')).
    + pose proof (countInverted_take_lt _ j j' _ ltac:(done) Hd' Hb'). lia.
    + pose proof (countInverted_take_lt _ j' j _ ltac:(lia) Hd Hb). lia.
Qed.

Lemma inverted_index_key_column_witness :
  exists n c colID src,
    optIndex.invertedVirtualColOrd (Sample.indexAt Sample.docsTable 1)
    = Z.of_nat n
    /\ optTable_Column (obj Sample.docsTable) n = Ok c
    /\ descpb.IndexDescriptor.ColumnIDs
         (iobj (optIndex.desc (Sample.indexAt Sample.docsTable 1))) !! 0
       = Some colID
    /\ optTable_Column (obj Sample.docsTable)
         (optTable_lookupColumnOrdinal (obj Sample.docsTable) colID).1 = Ok src
    /\ cat.Kind src <> cat.Virtual
    /\ cat.Kind c = cat.Virtual
    /\ cat.Ordinal c = n
    /\ cat.ColName c = cat.ColName src +:+ "_inverted_key"
    /\ cat.DatumType c = cat.DatumType src
    /\ cat.IsNullable c = false
    /\ cat.InvertedSourceColumnOrdinal c
       = (optTable_lookupColumnOrdinal (obj Sample.docsTable) colID).1.
Proof.
  apply (proj1 (inverted_index_key_column Sample.docs 0%Z Sample.docsSnapshot
                  (Some Sample.zoned) 30 Sample.docsTable 32 docsTable_built)
           1 (Sample.indexAt Sample.docsTable 1)).
  - vm_compute. reflexivity.
  - vm_compute. reflexivity.
Defined.

(** ** The zones of the indexes *)

Lemma subzone_loop_last tz idx l :
  forall st,
    let matching :=
      filter (fun s => zonepb.IndexID s = uint32 (descpb.IndexDescriptor.ID idx)
                       /\ zonepb.PartitionName s = "") l in
    (matching = [] -> foldl (subzoneStep tz idx) st l = st)
    /\ (forall s, last matching = Some s ->
          exists a,
            st.2 <= a
            /\ (foldl (subzoneStep tz idx) st l).1
               = Some (Ptr a (zonepb.InheritFromParent (zonepb.Config s)
                                                       (obj tz)))).
Proof.
  induction l as [|s l IH]; intros st; simpl.
  - split; [done|]. intros s. discriminate.
  - rewrite filter_cons. unfold subzoneStep at 2 4.
    destruct (Z.eqb_spec (zonepb.IndexID s)
                         (uint32 (descpb.IndexDescriptor.ID idx))) as [Hi|Hi];
      [destruct (String.eqb_spec (zonepb.PartitionName s) "") as [Hp|Hp]|];
      simpl.
    + rewrite decide_True by done. split; [done|].
      intros s' Hl.
      destruct (IH (Some (Ptr st.2 (zonepb.InheritFromParent (zonepb.Config s)
                                                            (obj tz))),
                    S st.2)) as [Hnil Hlast].
      destruct (filter _ l) as [|s1 m] eqn:Hm.
      * simpl in Hl. injection Hl as <-. rewrite Hnil by done.
        exists st.2. done.
      * destruct (Hlast s') as (a & Ha & Hz); [exact Hl|].
        exists a. split; [simpl in Ha; lia|done].
    + rewrite decide_False by (intros [_ ?]; done). apply IH.
    + rewrite decide_False by (intros [? _]; done). apply IH.
Qed.

Lemma indexZones_lookup tz descs :
  forall n j z,
    indexZones tz descs n !! j = Some z ->
    exists d n', descs !! j = Some d /\ n <= n'
                 /\ z = (indexZone tz (iobj d) n').1.
Proof.
  induction descs as [|d descs IH]; intros n j z; simpl; [done|].
  destruct j as [|j]; simpl.
  - intros [= <-]. by exists d, n.
  - intros Hz. apply IH in Hz as (d' & n' & Hd & Hn & ->).
    exists d', n'. split; [done|]. split; [|done].
    destruct (indexZone_spec tz (iobj d) n) as (_ & _ & Hle & _). lia.
Qed.

(** X5.  The zone of an index of a built table: when no subzone of the
    table's zone configuration applies to the whole of the index, it is the
    table's zone configuration itself, the same object; otherwise it is a
    copy of its own, made after the table, of the configuration of the last
    such subzone, with what that leaves unset inherited from the table's. *)
Theorem index_zone_selection :
  forall (desc : ptr tabledesc.Immutable) (codec : SQLCodec)
         (stats : option (slice stats.TableStatistic))
         (tz : ptr zonepb.ZoneConfig) (next : nat) t next' j oi,
    newOptTable desc codec stats (Some tz) next = Ok (t, next') ->
    optTable_Index (obj t) j = Ok oi ->
    let matching :=
      wholeIndexSubzones (obj tz) (iobj (optIndex.desc oi)) in
    (matching = [] -> optIndex_Zone oi = Some tz)
    /\ (forall s,
          last matching = Some s ->
          exists p,
            optIndex_Zone oi = Some p
            /\ obj p = zonepb.InheritFromParent (zonepb.Config s) (obj tz)
            /\ loc t < loc p).
Proof.
  intros desc codec stats tz next t next' j oi H Hj matching.
  apply index_Ok_inv in Hj.
  pose proof (newOptTable_Ok _ _ _ _ _ _ _ H)
    as (tz' & [= <-] & Hloc & _ & _ & _ & _ & _ & Hz & Hd & _).
  assert (Hzj : indexZones tz (indexDescs desc) (S next) !! j
                = Some (optIndex.zone oi)).
  { by rewrite <- Hz, list_lookup_fmap, Hj. }
  apply indexZones_lookup in Hzj as (d & n' & Hdj & Hn & Hzone).
  assert (d = optIndex.desc oi) as ->.
  { rewrite <- Hd, list_lookup_fmap, Hj in Hdj. by injection Hdj. }
  unfold optIndex_Zone. rewrite Hzone. unfold indexZone.
  destruct (subzone_loop_last tz (iobj (optIndex.desc oi))
              (zonepb.Subzones (obj tz)) (Some tz, n')) as [Hnil Hlast].
  split.
  - intros Hm. by rewrite Hnil.
  - intros s Hs. destruct (Hlast s Hs) as (a & Ha & Hp).
    eexists. split; [exact Hp|]. split; [done|]. simpl in *. lia.
Qed.

Lemma index_zone_selection_witness :
  optIndex_Zone (Sample.indexAt Sample.docsTable 2) = Some Sample.zoned
  /\ exists p,
       optIndex_Zone (Sample.indexAt Sample.docsTable 1) = Some p
       /\ obj p
          = zonepb.InheritFromParent
              (zonepb.mkZoneConfig (Some 5%Z) None None None true [] [])
              (obj Sample.zoned)
       /\ loc Sample.docsTable < loc p.
Proof.
  split.
  - apply (index_zone_selection Sample.docs 0%Z Sample.docsSnapshot
             Sample.zoned 30 Sample.docsTable 32 2
             (Sample.indexAt Sample.docsTable 2) docsTable_built).
    + vm_compute. reflexivity.
    + vm_compute. reflexivity.
  - apply (proj2 (index_zone_selection Sample.docs 0%Z Sample.docsSnapshot
                    Sample.zoned 30 Sample.docsTable 32 1
                    (Sample.indexAt Sample.docsTable 1) docsTable_built
                    ltac:(vm_compute; reflexivity))
             (zonepb.mkSubzone 2 ""
                (zonepb.mkZoneConfig (Some 5%Z) None None None true [] []))).
    vm_compute. reflexivity.
Defined.

(** ** The columns of the indexes *)

Lemma primaryStoredCols_filter (pkCols : gset Z) cols :
  primaryStoredCols pkCols cols
  = (fun c => uint32 (cat.ColID c))
      <$> filter (fun c => int64 (cat.ColID c) ∉ pkCols) cols.
Proof.
  unfold primaryStoredCols.
  assert (H : forall acc,
            foldl (fun storedCols c =>
                     if decide (int64 (cat.ColID c) ∈ pkCols) then storedCols
                     else storedCols ++ [uint32 (cat.ColID c)]) acc cols
            = acc ++ ((fun c => uint32 (cat.ColID c))
                        <$> filter (fun c => int64 (cat.ColID c) ∉ pkCols) cols)).
  { induction cols as [|c cols IH]; intros acc; simpl.
    - by rewrite app_nil_r.
    - rewrite IH, filter_cons. case_decide as Hin.
      + by rewrite decide_False by (intros Hn; by apply Hn).
      + rewrite decide_True by done. by rewrite fmap_cons, <- app_assoc. }
  by rewrite H.
Qed.

Lemma int64_small (x : Z) : (0 <= x <= MaxUint32)%Z -> int64 x = x.
Proof.
  unfold int64, MaxUint32. intros Hx.
  rewrite Z.mod_small by lia. lia.
Qed.

Lemma uint32_small (x : Z) : (0 <= x <= MaxUint32)%Z -> uint32 x = x.
Proof. unfold uint32, MaxUint32. intros Hx. apply Z.mod_small. lia. Qed.

Lemma StableID_small (x : Z) : (0 <= x <= MaxUint32)%Z -> cat.StableID x = x.
Proof.
  unfold cat.StableID, uint64, MaxUint32. intros Hx. apply Z.mod_small. lia.
Qed.

Lemma stored_of_descriptor_columns (pk : list Z)
    (g : nat -> descpb.ColumnDescriptor.t -> cat.Column) cds :
  (forall i cd, cat.ColID (g i cd) = cat.StableID (descpb.ColumnDescriptor.ID cd)) ->
  Forall (fun id => 0 <= id <= MaxUint32)%Z pk ->
  Forall (fun cd => 0 <= descpb.ColumnDescriptor.ID cd <= MaxUint32)%Z cds ->
  (fun c => uint32 (cat.ColID c))
    <$> filter (fun c => int64 (cat.ColID c)
                         ∉ (list_to_set (int64 <$> pk) : gset Z))
               (imap g cds)
  = descpb.ColumnDescriptor.ID
      <$> filter (fun cd => descpb.ColumnDescriptor.ID cd ∉ pk) cds.
Proof.
  intros Hg Hpk. revert g Hg.
  assert (Hfm : int64 <$> pk = pk).
  { rewrite <- (list_fmap_id pk) at 2. apply Forall_fmap_ext_1.
    eapply Forall_impl; [exact Hpk|]. intros x Hx. by apply int64_small. }
  rewrite Hfm.
  induction cds as [|cd cds IH]; intros g Hg Hcds; [done|].
  apply Forall_cons in Hcds as [Hcd Hcds].
  rewrite imap_cons, !filter_cons.
  rewrite Hg, StableID_small, int64_small by done.
  destruct (decide (descpb.ColumnDescriptor.ID cd ∉ pk)) as [Hn|Hn].
  - rewrite decide_True by (by rewrite elem_of_list_to_set).
    rewrite !fmap_cons, Hg, StableID_small by done.
    rewrite uint32_small by done. f_equal. apply IH; [|done].
    intros i cd'. apply Hg.
  - rewrite decide_False by (by rewrite elem_of_list_to_set).
    apply IH; [|done]. intros i cd'. apply Hg.
Qed.

Lemma filter_complement_length {A} (P : A -> Prop) `{!forall x, Decision (P x)}
    (l : list A) :
  length (filter P l) + length (filter (fun x => ~ P x) l) = length l.
Proof.
  induction l as [|x l IH]; [done|].
  rewrite !filter_cons.
  destruct (decide (P x)).
  - rewrite decide_False by (intros Hn; by apply Hn). simpl. lia.
  - rewrite decide_True by done. simpl. lia.
Qed.

Lemma key_columns_count (pk : list Z) (cds : list descpb.ColumnDescriptor.t) :
  NoDup pk ->
  NoDup (descpb.ColumnDescriptor.ID <$> cds) ->
  (forall id, id ∈ pk ->
              exists cd, cd ∈ cds /\ descpb.ColumnDescriptor.ID cd = id) ->
  length pk
  + length (filter (fun cd => descpb.ColumnDescriptor.ID cd ∉ pk) cds)
  = length cds.
Proof.
  intros Hpk Hids Hsub.
  rewrite <- (filter_complement_length
                (fun cd => descpb.ColumnDescriptor.ID cd ∈ pk) cds).
  f_equal.
  rewrite <- (length_fmap descpb.ColumnDescriptor.ID
                (filter (fun cd => descpb.ColumnDescriptor.ID cd ∈ pk) cds)).
  apply Permutation_length, NoDup_Permutation; [done| |].
  - apply NoDup_fmap_2_strong; [|by apply NoDup_filter; eapply NoDup_fmap_1].
    intros x y Hx Hy Heq.
    apply list_elem_of_filter in Hx as [_ Hx], Hy as [_ Hy].
    apply list_elem_of_lookup in Hx as [i Hi], Hy as [k Hk].
    assert (i = k) as ->.
    { eapply NoDup_lookup; [exact Hids| |];
        rewrite list_lookup_fmap; [rewrite Hi|rewrite Hk]; simpl;
        [done|by rewrite Heq]. }
    congruence.
  - intros id. rewrite list_elem_of_fmap. split.
    + intros Hid. destruct (Hsub id Hid) as (cd & Hcd & <-).
      exists cd. split; [done|]. by apply list_elem_of_filter.
    + intros (cd & -> & Hcd). by apply list_elem_of_filter in Hcd as [? _].
Qed.

Lemma indexDescs_addr desc j d :
  indexDescs desc !! j = Some d ->
  (j = 0 -> iaddr d = PrimaryIndexOf (loc desc))
  /\ (0 < j -> iaddr d <> PrimaryIndexOf (loc desc)).
Proof.
  unfold indexDescs. destruct j as [|j]; simpl.
  - intros [= <-]. split; [done|lia].
  - rewrite list_lookup_imap.
    destruct (_ !! j); [|discriminate]. intros [= <-]. split; [lia|done].
Qed.

Lemma secondary_index_fields desc codec stats tblZone next t next' j oi :
  newOptTable desc codec stats tblZone next = Ok (t, next') ->
  optTable.indexes (obj t) !! j = Some oi ->
  0 < j ->
  optIndex.storedCols oi
  = descpb.IndexDescriptor.StoreColumnIDs (iobj (optIndex.desc oi))
  /\ optIndex.numCols oi
     = length (descpb.IndexDescriptor.ColumnIDs (iobj (optIndex.desc oi)))
       + length (descpb.IndexDescriptor.ExtraColumnIDs (iobj (optIndex.desc oi)))
       + length (descpb.IndexDescriptor.StoreColumnIDs (iobj (optIndex.desc oi))).
Proof.
  intros H Hj Hpos.
  apply built_index in H as (_ & Hidx).
  destruct (Hidx j oi Hj)
    as (Hd & _ & _ & _ & (_ & (tab & _ & _ & Hdesc & Hinit) & _)).
  apply indexDescs_addr in Hd as [_ Hd].
  apply optIndex_init_fields in Hinit as (_ & _ & Hs).
  rewrite Hdesc in Hs. destruct (Hs (Hd Hpos)) as [-> ->]. done.
Qed.

Lemma primary_index_fields desc codec stats tblZone next t next' oi :
  newOptTable desc codec stats tblZone next = Ok (t, next') ->
  optTable.indexes (obj t) !! 0 = Some oi ->
  descpb.IndexDescriptor.Type_ (tabledesc.PrimaryIndex (obj desc))
  <> descpb.IndexDescriptor_INVERTED ->
  iobj (optIndex.desc oi) = tabledesc.PrimaryIndex (obj desc)
  /\ optIndex.numCols oi = length (baseColumns (obj desc))
  /\ optIndex.storedCols oi
     = primaryStoredCols
         (list_to_set
            (int64 <$> descpb.IndexDescriptor.ColumnIDs
                         (tabledesc.PrimaryIndex (obj desc))))
         (baseColumns (obj desc)).
Proof.
  intros H Hj Hn.
  pose proof (built_columns _ _ _ _ _ _ _ H) as (_ & _ & extra & Hc & _ & _).
  apply built_index in H as (_ & Hidx).
  destruct (Hidx 0 oi Hj)
    as (Hd & Hp & _ & _ & (_ & (tab & Hcols & _ & Hdesc & Hinit) & _)).
  injection Hp as Hp.
  apply indexDescs_addr in Hd as [Hd _].
  apply optIndex_init_fields in Hinit as (_ & Hs & _).
  rewrite Hdesc in Hs. destruct (Hs (Hd eq_refl)) as (-> & -> & _).
  assert (Hm : countInverted (take 1 (indexDescs desc)) = 0).
  { assert (take 1 (indexDescs desc)
            = [IdxPtr (PrimaryIndexOf (loc desc))
                      (tabledesc.PrimaryIndex (obj desc))]) as -> by reflexivity.
    pose proof (countInverted_snoc []
                  (IdxPtr (PrimaryIndexOf (loc desc))
                          (tabledesc.PrimaryIndex (obj desc)))) as Hsn.
    rewrite app_nil_l in Hsn. rewrite Hsn.
    cbn [iobj]. by rewrite decide_False. }
  rewrite Hm, Nat.add_0_r, Hc, take_app_length in Hcols.
  by rewrite Hcols, <- Hp.
Qed.

(** X6.  The primary index of a built table spans the columns of the
    descriptor and the system column, and none of the virtual columns: its
    [ColumnCount()] is their number, and its stored columns are the IDs of
    the columns of the descriptor that are not in the primary key, in their
    order, followed by the ID of the system column when there is one.  When
    the key columns are pairwise different columns of the table, the key
    and the stored columns together are as many as [ColumnCount()]. *)
Theorem primary_index_stored_columns :
  forall (desc : ptr tabledesc.Immutable) (codec : SQLCodec)
         (stats : option (slice stats.TableStatistic))
         (tblZone : option (ptr zonepb.ZoneConfig)) (next : nat) t next',
    let d := obj desc in
    let pk := descpb.IndexDescriptor.ColumnIDs (tabledesc.PrimaryIndex d) in
    newOptTable desc codec stats tblZone next = Ok (t, next') ->
    descpb.IndexDescriptor.Type_ (tabledesc.PrimaryIndex d)
    <> descpb.IndexDescriptor_INVERTED ->
    validColumns d ->
    Forall (fun id => 0 <= id < MaxUint32)%Z pk ->
    exists primary,
      optTable_Index (obj t) 0 = Ok primary
      /\ iobj (optIndex.desc primary) = tabledesc.PrimaryIndex d
      /\ optIndex_ColumnCount primary
         = length (tabledesc.DeletableColumns d)
           + (if isOk (tabledesc.FindColumnByName d
                         colinfo.MVCCTimestampColumnName) then 0 else 1)
      /\ optIndex.storedCols primary
         = (descpb.ColumnDescriptor.ID
              <$> filter (fun cd => descpb.ColumnDescriptor.ID cd ∉ pk)
                         (tabledesc.DeletableColumns d))
           ++ (if isOk (tabledesc.FindColumnByName d
                          colinfo.MVCCTimestampColumnName)
               then [] else [colinfo.MVCCTimestampColumnID])
      /\ (NoDup pk ->
          (forall id, id ∈ pk ->
                      exists cd, cd ∈ tabledesc.DeletableColumns d
                                 /\ descpb.ColumnDescriptor.ID cd = id) ->
          length pk + length (optIndex.storedCols primary)
          = optIndex_ColumnCount primary).
Proof.
  intros desc codec stats tblZone next t next' d pk H Hn [Hnd Hr] Hpk.
  pose proof (built_index _ _ _ _ _ _ _ H) as (Hlen & _).
  destruct (index_lt (optTable.indexes (obj t)) 0) as (oi & Hl & Hi); [lia|].
  destruct (primary_index_fields _ _ _ _ _ _ _ _ H Hl Hn) as (Hd & Hc & Hs).
  exists oi. split; [done|]. split; [done|].
  unfold optIndex_ColumnCount. rewrite Hc, Hs, length_baseColumns.
  split; [done|].
  assert (Hstored :
    primaryStoredCols (list_to_set (int64 <$> pk)) (baseColumns d)
    = (descpb.ColumnDescriptor.ID
         <$> filter (fun cd => descpb.ColumnDescriptor.ID cd ∉ pk)
                    (tabledesc.DeletableColumns d))
      ++ (if isOk (tabledesc.FindColumnByName d colinfo.MVCCTimestampColumnName)
          then [] else [colinfo.MVCCTimestampColumnID])).
  { rewrite primaryStoredCols_filter.
    assert (Hdc :
      (fun c => uint32 (cat.ColID c))
        <$> filter (fun c => int64 (cat.ColID c)
                             ∉ (list_to_set (int64 <$> pk) : gset Z))
                   (descColumns d)
      = descpb.ColumnDescriptor.ID
          <$> filter (fun cd => descpb.ColumnDescriptor.ID cd ∉ pk)
                     (tabledesc.DeletableColumns d)).
    { apply stored_of_descriptor_columns; [done| |].
      - eapply Forall_impl; [exact Hpk|]. simpl. lia.
      - eapply Forall_impl; [exact Hr|]. simpl. lia. }
    destruct (baseColumns_cases d) as [[-> ->]|[-> ->]].
    - by rewrite Hdc, app_nil_r.
    - rewrite filter_app, fmap_app, Hdc. f_equal.
      rewrite filter_cons, filter_nil.
      assert (Hmv : cat.ColID (mvccTimestampColumn (length (descColumns d)))
                    = MaxUint32) by (vm_compute; reflexivity).
      rewrite Hmv. rewrite decide_True.
      + by vm_compute.
      + rewrite elem_of_list_to_set, list_elem_of_fmap.
        intros (id & Hid & Hin).
        eapply Forall_forall in Hin; [|exact Hpk].
        rewrite (int64_small id) in Hid by (simpl in Hin; lia).
        rewrite int64_small in Hid by (unfold MaxUint32; lia).
        simpl in Hin. lia. }
  split; [done|].
  intros Hpknd Hsub.
  pose proof (key_columns_count pk (tabledesc.DeletableColumns d)
                Hpknd Hnd Hsub) as Hk.
  pose proof (f_equal length Hstored) as Hl2.
  rewrite length_app, length_fmap in Hl2.
  change (length pk
          + length (primaryStoredCols (list_to_set (int64 <$> pk))
                                      (baseColumns d))
          = length (tabledesc.DeletableColumns d)
            + (if isOk (tabledesc.FindColumnByName d
                          colinfo.MVCCTimestampColumnName) then 0 else 1)).
  rewrite Hl2. destruct (isOk _); simpl; lia.
Qed.

Lemma abc_primary_key_columns :
  forall id, id ∈ descpb.IndexDescriptor.ColumnIDs
                    (tabledesc.PrimaryIndex (obj Sample.abc)) ->
             exists cd, cd ∈ tabledesc.DeletableColumns (obj Sample.abc)
                        /\ descpb.ColumnDescriptor.ID cd = id.
Proof.
  intros id Hid. apply list_elem_of_singleton in Hid as ->.
  exists Sample.colA. split; [|done]. left.
Qed.

Lemma abc_primary_key_range :
  Forall (fun id => 0 <= id < MaxUint32)%Z
         (descpb.IndexDescriptor.ColumnIDs
            (tabledesc.PrimaryIndex (obj Sample.abc))).
Proof.
  apply Forall_cons. split; [unfold MaxUint32; lia|apply Forall_nil; exact I].
Qed.

Lemma primary_index_stored_columns_witness :
  exists primary,
    optTable_Index (obj Sample.abcTable) 0 = Ok primary
    /\ iobj (optIndex.desc primary) = Sample.primaryIdx
    /\ optIndex_ColumnCount primary = 3 + 1
    /\ optIndex.storedCols primary
       = [2%Z; 3%Z] ++ [colinfo.MVCCTimestampColumnID]
    /\ 1 + length (optIndex.storedCols primary) = optIndex_ColumnCount primary.
Proof.
  destruct (primary_index_stored_columns Sample.abc 0%Z None
              (Some emptyZoneConfig) 10 Sample.abcTable 11 abcTable_built
              ltac:(discriminate) abc_validColumns abc_primary_key_range)
    as (primary & Hp & Hd & Hc & Hs & Hn).
  exists primary. split; [exact Hp|]. split; [exact Hd|].
  split; [exact Hc|]. split; [exact Hs|].
  apply Hn.
  - apply NoDup_singleton.
  - exact abc_primary_key_columns.
Defined.

Lemma built_lookup_column desc codec stats tblZone next t next' colID :
  newOptTable desc codec stats tblZone next = Ok (t, next') ->
  exists c,
    optTable_Column (obj t) (optTable_lookupColumnOrdinal (obj t) colID).1 = Ok c
    /\ cat.Kind c <> cat.Virtual.
Proof.
  intros H. apply built_columns in H as (Hm & _ & extra & Hc & _ & _).
  rewrite lookupColumnOrdinal_fst, Hm.
  destruct (base_lookup_ordinal (baseColumns (obj desc)) colID
              (baseColumns_nonempty _)) as (src & Hsrc).
  exists src. split.
  - apply index_Ok. rewrite Hc. by apply lookup_app_l_Some.
  - eapply Forall_lookup_1 in Hsrc; [|apply baseColumns_not_virtual]. done.
Qed.

(** X7.  The columns of an index of a built table, by position: first its
    key columns, then its extra columns, then its stored columns.
    [Column(i)] returns for every [i] below the number of these IDs, and
    panics past it.  What it returns is the column of the table that
    [lookupColumnOrdinal] gives for the ID at this position -- the column
    at ordinal 0 when the table has no column with this ID -- except at
    position 0 of an inverted index, where it is the virtual column of the
    key of the index; and it is descending only for a key column whose
    direction in the descriptor is descending. *)
Theorem index_columns :
  forall (desc : ptr tabledesc.Immutable) (codec : SQLCodec)
         (stats : option (slice stats.TableStatistic))
         (tblZone : option (ptr zonepb.ZoneConfig)) (next : nat) t next' j oi,
    let d := iobj (optIndex.desc oi) in
    let ids := descpb.IndexDescriptor.ColumnIDs d
               ++ descpb.IndexDescriptor.ExtraColumnIDs d
               ++ optIndex.storedCols oi in
    newOptTable desc codec stats tblZone next = Ok (t, next') ->
    optTable_Index (obj t) j = Ok oi ->
    length (descpb.IndexDescriptor.ColumnIDs d)
    <= length (descpb.IndexDescriptor.ColumnDirections d) ->
    forall i,
      (forall colID,
         ids !! i = Some colID ->
         exists ic,
           optIndex_Column (obj t) oi i = Ok ic
           /\ (cat_IndexColumn.Descending ic = true
               <-> i < length (descpb.IndexDescriptor.ColumnIDs d)
                   /\ descpb.IndexDescriptor.ColumnDirections d !! i
                      = Some descpb.IndexDescriptor_DESC)
           /\ (i = 0 -> optIndex_IsInverted oi = true ->
               cat.Kind (cat_IndexColumn.Column ic) = cat.Virtual
               /\ Z.of_nat (cat.Ordinal (cat_IndexColumn.Column ic))
                  = optIndex.invertedVirtualColOrd oi)
           /\ (i <> 0 \/ optIndex_IsInverted oi = false ->
               optTable_Column (obj t)
                 (optTable_lookupColumnOrdinal (obj t) colID).1
               = Ok (cat_IndexColumn.Column ic)))
      /\ (length ids <= i ->
          optIndex_Column (obj t) oi i
          = Panic (PanicRuntime "index out of range")).
Proof.
  intros desc codec stats tblZone next t next' j oi d ids H Hj Hdirs i.
  apply index_Ok_inv in Hj.
  pose proof (built_columns _ _ _ _ _ _ _ H) as (_ & Hord & _).
  pose proof (built_index _ _ _ _ _ _ _ H) as (_ & Hidx).
  destruct (Hidx j oi Hj) as (_ & _ & _ & _ & (Hm & _ & Hn & Hi)).
  assert (Hlk : forall colID, exists c,
             optTable_Column (obj t)
               (optTable_lookupColumnOrdinal (obj t) colID).1 = Ok c).
  { intros colID.
    destruct (built_lookup_column _ _ _ _ _ _ _ colID H) as (c & Hc & _).
    by exists c. }
  unfold optIndex_Column. fold d.
  set (nk := length (descpb.IndexDescriptor.ColumnIDs d)) in *.
  set (ne := length (descpb.IndexDescriptor.ExtraColumnIDs d)) in *.
  split.
  - intros colID Hid. unfold ids in Hid.
    destruct (decide (i < nk)) as [Hk|Hk].
    + (* a key column *)
      rewrite lookup_app_l in Hid by done.
      destruct (index_lt (descpb.IndexDescriptor.ColumnDirections d) i)
        as (dir & Hdir & Hdi); [lia|].
      destruct (decide (descpb.IndexDescriptor.Type_ d
                        = descpb.IndexDescriptor_INVERTED)) as [Hinv|Hinv].
      * destruct (Hi Hinv) as (n & colID0 & src & _ & _ & Hv & _ & _ & Hcol).
        rewrite Hv.
        destruct i as [|i]; simpl.
        -- replace (Z.of_nat n =? -1)%Z with false by (symmetry; apply Z.eqb_neq; lia).
           simpl. rewrite decide_False by lia. simpl.
           rewrite Nat2Z.id. unfold optTable_Column at 1.
           rewrite (index_Ok _ _ _ Hcol). simpl. rewrite Hdi. simpl.
           eexists. split; [done|]. simpl. split.
           { rewrite bool_decide_eq_true. split; [by intros ->|].
             intros [_ Hd']. congruence. }
           split.
           { intros _ _. split; [done|]. done. }
           intros [Hne|Hb]; [done|].
           unfold optIndex_IsInverted in Hb.
           apply bool_decide_eq_false in Hb. done.
        -- rewrite (index_Ok _ _ _ Hid). simpl.
           destruct (Hlk colID) as (c & ->). simpl. rewrite Hdi. simpl.
           eexists. split; [done|]. simpl. split.
           { rewrite bool_decide_eq_true. split; [by intros ->|].
             intros [_ Hd']. congruence. }
           split; [done|]. done.
      * rewrite (Hn Hinv). rewrite andb_false_r.
        rewrite (index_Ok _ _ _ Hid). simpl.
        destruct (Hlk colID) as (c & ->). simpl. rewrite Hdi. simpl.
        eexists. split; [done|]. simpl. split.
        { rewrite bool_decide_eq_true. split; [by intros ->|].
          intros [_ Hd']. congruence. }
        split; [|done].
        intros _ Hb. unfold optIndex_IsInverted in Hb.
        apply bool_decide_eq_true in Hb. done.
    + rewrite lookup_app_r in Hid by lia. fold nk in Hid.
      destruct (decide (i - nk < ne)) as [He|He].
      * (* an extra column *)
        rewrite lookup_app_l in Hid by done.
        rewrite (index_Ok _ _ _ Hid). simpl.
        destruct (Hlk colID) as (c & ->). simpl.
        eexists. split; [done|]. simpl. split.
        { split; [discriminate|]. intros [? _]. lia. }
        split; [|done].
        intros -> Hb. unfold optIndex_IsInverted in Hb.
        apply bool_decide_eq_true in Hb.
        destruct (Hi Hb) as (n & colID0 & src & _ & _ & _ & Hid0 & _).
        apply lookup_lt_Some in Hid0. fold d nk in Hid0. lia.
      * (* a stored column *)
        rewrite lookup_app_r in Hid by lia. fold ne in Hid.
        rewrite (index_Ok _ _ _ Hid). simpl.
        destruct (Hlk colID) as (c & ->). simpl.
        eexists. split; [done|]. simpl. split.
        { split; [discriminate|]. intros [? _]. lia. }
        split; [|done].
        intros -> Hb. unfold optIndex_IsInverted in Hb.
        apply bool_decide_eq_true in Hb.
        destruct (Hi Hb) as (n & colID0 & src & _ & _ & _ & Hid0 & _).
        apply lookup_lt_Some in Hid0. fold d nk in Hid0. lia.
  - intros Hge. unfold ids in Hge. rewrite !length_app in Hge.
    fold nk ne in Hge.
    rewrite decide_False by lia. rewrite decide_False by lia.
    rewrite index_ge by lia. done.
Qed.

Lemma index_columns_witness :
  (exists ic,
     optIndex_Column (obj Sample.docsTable)
                     (Sample.indexAt Sample.docsTable 1) 0 = Ok ic
     /\ cat.Kind (cat_IndexColumn.Column ic) = cat.Virtual
     /\ Z.of_nat (cat.Ordinal (cat_IndexColumn.Column ic))
        = optIndex.invertedVirtualColOrd (Sample.indexAt Sample.docsTable 1))
  /\ (exists ic,
        optIndex_Column (obj Sample.docsTable)
                        (Sample.indexAt Sample.docsTable 2) 0 = Ok ic
        /\ cat_IndexColumn.Descending ic = true
        /\ optTable_Column (obj Sample.docsTable)
             (optTable_lookupColumnOrdinal (obj Sample.docsTable) 3).1
           = Ok (cat_IndexColumn.Column ic))
  /\ optIndex_Column (obj Sample.docsTable)
                     (Sample.indexAt Sample.docsTable 2) 3
     = Panic (PanicRuntime "index out of range").
Proof.
  pose proof (fun j oi => index_columns Sample.docs 0%Z Sample.docsSnapshot
                (Some Sample.zoned) 30 Sample.docsTable 32 j oi
                docsTable_built) as H.
  split; [|split].
  - destruct (proj1 (H 1 (Sample.indexAt Sample.docsTable 1)
                       ltac:(vm_compute; reflexivity)
                       ltac:(vm_compute; lia) 0) 2%Z
                ltac:(vm_compute; reflexivity))
      as (ic & Hic & _ & Hv & _).
    exists ic. split; [exact Hic|].
    apply Hv; [reflexivity|vm_compute; reflexivity].
  - destruct (proj1 (H 2 (Sample.indexAt Sample.docsTable 2)
                       ltac:(vm_compute; reflexivity)
                       ltac:(vm_compute; lia) 0) 3%Z
                ltac:(vm_compute; reflexivity))
      as (ic & Hic & Hd & _ & Hc).
    exists ic. split; [exact Hic|]. split.
    + apply Hd. split; [vm_compute; lia|vm_compute; reflexivity].
    + apply Hc. right. vm_compute. reflexivity.
  - apply (proj2 (H 2 (Sample.indexAt Sample.docsTable 2)
                    ltac:(vm_compute; reflexivity)
                    ltac:(vm_compute; lia) 3)).
    vm_compute. lia.
Defined.

(** ** The statistics of a built table *)

Lemma fillColumnOrdinals_spec (m : gmap Z nat) ids :
  forall i ords,
    i + length ids <= length ords ->
    match mapM (fun c => m !! c) ids with
    | Some os =>
        fillColumnOrdinals m ids i ords
        = (take i ords ++ os ++ drop (i + length ids) ords, true)
    | None => (fillColumnOrdinals m ids i ords).2 = false
    end.
Proof.
  induction ids as [|c ids IH]; intros i ords Hlen; simpl.
  - rewrite Nat.add_0_r. by rewrite take_drop.
  - simpl in Hlen. destruct (m !! c) as [o|] eqn:Hc; simpl; [|done].
    specialize (IH (S i) (<[i := o]> ords)).
    rewrite length_insert in IH. specialize (IH ltac:(lia)).
    destruct (mapM _ ids) as [os|]; simpl; [|done].
    rewrite IH. f_equal.
    rewrite (take_S_r _ i o) by (apply list_lookup_insert_eq; lia).
    rewrite take_insert_ge by lia.
    rewrite drop_insert_lt by lia.
    rewrite <- app_assoc. simpl. do 4 f_equal. lia.
Qed.

Lemma optTableStat_init_spec tab stat :
  optTableStat_init tab stat
  = (match statWrapper (optTable.colMap tab) stat with
     | Some s => s
     | None => (optTableStat_init tab stat).1.1
     end,
     bool_decide (is_Some (statWrapper (optTable.colMap tab) stat)),
     None).
Proof.
  unfold optTableStat_init, statWrapper.
  pose proof (fillColumnOrdinals_spec (optTable.colMap tab)
                (stats.ColumnIDs stat) 0
                (replicate (length (stats.ColumnIDs stat)) 0)) as H.
  rewrite length_replicate in H. specialize (H ltac:(lia)).
  destruct (fillColumnOrdinals _ _ _ _) as [ords ok] eqn:Hf.
  destruct (mapM _ _) as [os|]; simpl in *.
  - injection H as -> ->.
    rewrite drop_ge by (rewrite length_replicate; lia).
    by rewrite app_nil_r.
  - by rewrite H.
Qed.

Lemma addStats_spec ot stats :
  forall slots n,
    n + length stats <= length slots ->
    exists slots' n',
      addStats ot slots n stats = Ok (slots', n')
      /\ take n' slots'
         = take n slots ++ omap (statWrapper (optTable.colMap ot)) stats.
Proof.
  induction stats as [|stat stats IH]; intros slots n Hlen; simpl.
  - exists slots, n. by rewrite app_nil_r.
  - simpl in Hlen. rewrite optTableStat_init_spec.
    destruct (statWrapper (optTable.colMap ot) stat) as [s|] eqn:Hs; simpl.
    + destruct (IH (<[n := s]> slots) (S n)) as (slots' & n' & -> & Ht).
      { rewrite length_insert. lia. }
      exists slots', n'. split; [done|]. rewrite Ht.
      rewrite (take_S_r _ n s) by (apply list_lookup_insert_eq; lia).
      rewrite (take_insert_ge slots n n s) by done. by rewrite <- app_assoc.
    + destruct (IH (<[n := (optTableStat_init ot stat).1.1]> slots) n)
        as (slots' & n' & -> & Ht).
      { rewrite length_insert. lia. }
      exists slots', n'. split; [done|]. rewrite Ht.
      by rewrite (take_insert_ge slots n n) by done.
Qed.

Lemma omap_length_le {A B} (f : A -> option B) (l : list A) :
  length (omap f l) <= length l.
Proof.
  induction l as [|x l IH]; [done|].
  change (omap f (x :: l))
    with (match f x with Some y => y :: omap f l | None => omap f l end).
  destruct (f x); simpl; lia.
Qed.

Lemma builtStats_spec ot stats :
  builtStats ot stats
  = omap (statWrapper (optTable.colMap ot)) (snapshotElems stats).
Proof.
  unfold builtStats, snapshotElems. destruct stats as [s|]; [|done].
  destruct (addStats_spec ot (elems s)
              (replicate (length (elems s)) zeroTableStat) 0)
    as (slots' & n' & -> & Ht).
  { rewrite length_replicate. lia. }
  by rewrite Ht.
Qed.

(** X8.  The statistics of a built table are those of the snapshot whose
    columns the table all has, in the order of the snapshot, each with the
    ordinals the column map gives for its column IDs; a statistic on a
    column the table does not have is left out, and the ones after it move
    up. *)
Theorem statistics_of_known_columns :
  forall (desc : ptr tabledesc.Immutable) (codec : SQLCodec)
         (stats : option (slice stats.TableStatistic))
         (tblZone : option (ptr zonepb.ZoneConfig)) (next : nat) t next',
    newOptTable desc codec stats tblZone next = Ok (t, next') ->
    optTable.stats (obj t)
    = omap (statWrapper (optTable.colMap (obj t))) (snapshotElems stats)
    /\ optTable_StatisticCount (obj t) <= slice_len stats
    /\ forall i os,
         optTable_Statistic (obj t) i = Ok os ->
         optTableStat_ColumnCount os
         = length (stats.ColumnIDs (optTableStat.stat os))
         /\ forall k colID,
              stats.ColumnIDs (optTableStat.stat os) !! k = Some colID ->
              exists ord,
                optTable_lookupColumnOrdinal (obj t) colID = (ord, None)
                /\ optTableStat_ColumnOrdinal os k = Ok ord.
Proof.
  intros desc codec stats tblZone next t next' H.
  apply newOptTable_Ok in H as (_ & _ & _ & _ & _ & _ & _ & _ & _ & _ & _ & Hs).
  rewrite builtStats_spec in Hs. split; [done|]. split.
  - unfold optTable_StatisticCount. rewrite Hs.
    etrans; [apply omap_length_le|]. by destruct stats.
  - intros i os Hi. apply index_Ok_inv in Hi. rewrite Hs in Hi.
    apply list_elem_of_lookup_2, list_elem_of_omap in Hi as (stat & _ & Hw).
    unfold statWrapper in Hw.
    destruct (mapM _ _) as [ords|] eqn:Hm; [|discriminate].
    injection Hw as <-. simpl. apply mapM_Some in Hm.
    unfold optTableStat_ColumnCount, optTableStat_ColumnOrdinal. simpl.
    split; [symmetry; by eapply Forall2_length|].
    intros k colID Hk.
    destruct (Forall2_lookup_l _ _ _ _ _ Hm Hk) as (ord & Ho & Hl).
    exists ord. unfold optTable_lookupColumnOrdinal. rewrite Hl.
    split; [done|]. by apply index_Ok.
Qed.

Lemma statistics_of_known_columns_witness :
  (optTableStat.stat <$> optTable.stats (obj Sample.docsTable))
  = [Sample.statOnB; Sample.statOnAB]
  /\ optTable_StatisticCount (obj Sample.docsTable) <= 3.
Proof.
  destruct (statistics_of_known_columns Sample.docs 0%Z Sample.docsSnapshot
              (Some Sample.zoned) 30 Sample.docsTable 32 docsTable_built)
    as (Hs & Hc & _).
  split; [|exact Hc].
  rewrite Hs. vm_compute. reflexivity.
Defined.

(** ** The families of a built table *)

(** X9.  A built table has one family wrapper per family of the
    descriptor, in its order, each pointing back to the table: [Family(i)]
    returns the wrapper of the descriptor's family [i] for every [i] below
    [FamilyCount()], which is at least 1, and panics past it.  [Column(k)]
    of a family returns for every [k] below its [ColumnCount()] and panics
    past it; the ordinal it returns is the one [lookupColumnOrdinal] gives
    for the column ID at [k], and the column it returns is the column of
    the table at this ordinal. *)
Theorem family_wrappers :
  forall (desc : ptr tabledesc.Immutable) (codec : SQLCodec)
         (stats : option (slice stats.TableStatistic))
         (tblZone : option (ptr zonepb.ZoneConfig)) (next : nat) t next',
    newOptTable desc codec stats tblZone next = Ok (t, next') ->
    optTable_FamilyCount (obj t) = length (tabledesc.Families (obj desc))
    /\ 0 < optTable_FamilyCount (obj t)
    /\ forall i,
         (forall fam,
            tabledesc.Families (obj desc) !! i = Some fam ->
            exists oi,
              optTable_Family (obj t) i = Ok (Some oi)
              /\ optFamily.desc oi = fam
              /\ optFamily_Table oi = loc t
              /\ forall k,
                   (forall colID,
                      descpb.ColumnFamilyDescriptor.ColumnIDs fam !! k
                      = Some colID ->
                      exists fc,
                        optFamily_Column (obj t) oi k = Ok fc
                        /\ cat_FamilyColumn.Ordinal fc
                           = (optTable_lookupColumnOrdinal (obj t) colID).1
                        /\ optTable_Column (obj t) (cat_FamilyColumn.Ordinal fc)
                           = Ok (cat_FamilyColumn.Column fc)
                        /\ cat.Ordinal (cat_FamilyColumn.Column fc)
                           = cat_FamilyColumn.Ordinal fc)
                   /\ (optFamily_ColumnCount oi <= k ->
                       optFamily_Column (obj t) oi k
                       = Panic (PanicRuntime "index out of range")))
         /\ (optTable_FamilyCount (obj t) <= i ->
             optTable_Family (obj t) i
             = Panic (PanicRuntime "index out of range")).
Proof.
  intros desc codec stats tblZone next t next' H.
  pose proof (built_columns _ _ _ _ _ _ _ H) as (_ & Hord & _).
  pose proof (fun colID => built_lookup_column _ _ _ _ _ _ _ colID H) as Hlk.
  apply newOptTable_inv in H
    as (tz & family0 & checks & _ & Hloc & _ & Hf0 & Hpf & Hfs & _).
  assert (Hcount : optTable_FamilyCount (obj t)
                   = length (tabledesc.Families (obj desc))).
  { unfold optTable_FamilyCount. rewrite Hfs, length_fmap, length_drop.
    apply lookup_lt_Some in Hf0. lia. }
  split; [done|]. split.
  { rewrite Hcount. by apply lookup_lt_Some in Hf0. }
  intros i. split.
  - intros fam Hfam.
    assert (Hfi : optTable_Family (obj t) i = Ok (Some (optFamily.mk next fam))).
    { unfold optTable_Family. destruct i as [|i]; simpl.
      - rewrite Hpf. congruence.
      - rewrite Hfs, Nat.sub_0_r.
        erewrite index_Ok; [done|].
        rewrite list_lookup_fmap, lookup_drop. simpl. by rewrite Hfam. }
    exists (optFamily.mk next fam). split; [done|]. split; [done|].
    split; [done|]. intros k. unfold optFamily_Column, optFamily_ColumnCount.
    simpl. split.
    + intros colID Hk. rewrite (index_Ok _ _ _ Hk). simpl.
      destruct (Hlk colID) as (c & Hc & _). rewrite Hc. simpl.
      eexists. split; [done|]. simpl. split; [done|]. split; [done|].
      apply index_Ok_inv in Hc. by apply Hord in Hc.
    + intros Hk. by rewrite index_ge.
  - intros Hi. unfold optTable_Family.
    rewrite Hcount in Hi. apply lookup_lt_Some in Hf0.
    destruct i as [|i]; [lia|]. simpl.
    rewrite index_ge; [done|].
    rewrite Hfs, length_fmap, length_drop. lia.
Qed.

Lemma family_wrappers_witness :
  optTable_FamilyCount (obj Sample.docsTable) = 2
  /\ exists oi fc,
       optTable_Family (obj Sample.docsTable) 1 = Ok (Some oi)
       /\ optFamily.desc oi = Sample.familyMood
       /\ optFamily_Column (obj Sample.docsTable) oi 0 = Ok fc
       /\ cat_FamilyColumn.Ordinal fc = 2
       /\ cat.Ordinal (cat_FamilyColumn.Column fc) = 2.
Proof.
  destruct (family_wrappers Sample.docs 0%Z Sample.docsSnapshot
              (Some Sample.zoned) 30 Sample.docsTable 32 docsTable_built)
    as (Hc & _ & Hf).
  split; [exact Hc|].
  destruct (proj1 (Hf 1) Sample.familyMood ltac:(reflexivity))
    as (oi & Hoi & Hd & _ & Hk).
  destruct (proj1 (Hk 0) 3%Z ltac:(reflexivity)) as (fc & Hfc & Ho & _ & Hco).
  exists oi, fc. split; [exact Hoi|]. split; [exact Hd|].
  split; [exact Hfc|].
  assert (Ho2 : cat_FamilyColumn.Ordinal fc = 2)
    by (rewrite Ho; vm_compute; reflexivity).
  split; [exact Ho2|]. by rewrite Hco.
Defined.

(** ** The check constraints of a built table *)

Lemma synthesizeChecks_typed cols :
  Forall (fun c => is_Some (cat.DatumType c)) cols ->
  synthesizeChecks cols = Ok (omap enumCheck cols).
Proof.
  induction cols as [|c cols IH]; intros Ht; [done|].
  apply Forall_cons in Ht as [[ty Hty] Ht].
  change (omap enumCheck (c :: cols))
    with (match enumCheck c with
          | Some y => y :: omap enumCheck cols
          | None => omap enumCheck cols
          end).
  simpl. unfold enumCheck. rewrite Hty.
  destruct (cat.IsMutation c); [by apply IH|].
  destruct (_ && _); [|by apply IH].
  by rewrite IH.
Qed.

Lemma built_checks desc codec stats tblZone next t next' :
  newOptTable desc codec stats tblZone next = Ok (t, next') ->
  optTable.checkConstraints (obj t)
  = (declaredCheck <$> tabledesc.ActiveChecks (obj desc))
    ++ omap enumCheck (optTable.columns (obj t)).
Proof.
  intros H. apply newOptTable_inv in H
    as (tz & family0 & checks & _ & _ & (_ & _ & _ & _ & Ht & _) & _ & _ & _
        & _ & _ & Hs & Hc).
  rewrite synthesizeChecks_typed in Hs by done. injection Hs as <-. done.
Qed.

(** X10.  The check constraints of a built table are the active checks of
    the descriptor, in their order, each validated exactly when the
    descriptor says so, followed by one synthesized check per column of a
    user-defined enumeration type that is not in a mutation, in the order
    of the columns: the test that the column is one of the members of the
    enumeration, always validated. *)
Theorem check_constraints :
  forall (desc : ptr tabledesc.Immutable) (codec : SQLCodec)
         (stats : option (slice stats.TableStatistic))
         (tblZone : option (ptr zonepb.ZoneConfig)) (next : nat) t next',
    newOptTable desc codec stats tblZone next = Ok (t, next') ->
    let declared := tabledesc.ActiveChecks (obj desc) in
    optTable_CheckCount (obj t)
    = length declared + length (omap enumCheck (optTable.columns (obj t)))
    /\ (forall i check,
          declared !! i = Some check ->
          optTable_Check (obj t) i
          = Ok (cat.mkCheckConstraint
                  (cat.DeclaredExpr (descpb.CheckConstraint.Expr check))
                  (bool_decide (descpb.CheckConstraint.Validity check
                                = descpb.ConstraintValidity_Validated))))
    /\ (forall i c,
          length declared <= i ->
          optTable_Check (obj t) i = Ok c ->
          cat.Validated c = true
          /\ exists col colType,
               col ∈ optTable.columns (obj t)
               /\ cat.IsMutation col = false
               /\ cat.DatumType col = Some colType
               /\ types.UserDefined colType = true
               /\ types.Family_ colType = types.EnumFamily
               /\ cat.Constraint c
                  = cat.EnumIn (cat.ColName col) (types.EnumMembers colType))
    /\ (forall col colType,
          col ∈ optTable.columns (obj t) ->
          cat.IsMutation col = false ->
          cat.DatumType col = Some colType ->
          types.UserDefined colType = true ->
          types.Family_ colType = types.EnumFamily ->
          exists i,
            length declared <= i
            /\ optTable_Check (obj t) i
               = Ok (cat.mkCheckConstraint
                       (cat.EnumIn (cat.ColName col) (types.EnumMembers colType))
                       true)).
Proof.
  intros desc codec stats tblZone next t next' H declared.
  apply built_checks in H. fold declared in H.
  unfold optTable_CheckCount, optTable_Check. rewrite H.
  split; [by rewrite length_app, length_fmap|]. split; [|split].
  - intros i check Hi. apply index_Ok.
    apply lookup_app_l_Some. by rewrite list_lookup_fmap, Hi.
  - intros i c Hge Hi. apply index_Ok_inv in Hi.
    rewrite lookup_app_r in Hi by (by rewrite length_fmap).
    apply list_elem_of_lookup_2, list_elem_of_omap in Hi as (col & Hcol & He).
    unfold enumCheck in He.
    destruct (cat.IsMutation col) eqn:Hmut; [discriminate|].
    destruct (cat.DatumType col) as [colType|] eqn:Hty; [|discriminate].
    destruct (types.UserDefined colType) eqn:Hud; [|discriminate].
    simpl in He. case_bool_decide as Hfam; [|discriminate].
    injection He as <-. split; [done|]. by exists col, colType.
  - intros col colType Hcol Hmut Hty Hud Hfam.
    assert (He : enumCheck col
                 = Some (cat.mkCheckConstraint
                           (cat.EnumIn (cat.ColName col)
                                       (types.EnumMembers colType)) true)).
    { unfold enumCheck. rewrite Hmut, Hty, Hud. simpl.
      by rewrite bool_decide_eq_true_2. }
    assert (Hin : cat.mkCheckConstraint
                    (cat.EnumIn (cat.ColName col) (types.EnumMembers colType))
                    true ∈ omap enumCheck (optTable.columns (obj t))).
    { apply list_elem_of_omap. by exists col. }
    apply list_elem_of_lookup in Hin as [k Hk].
    exists (length declared + k). split; [lia|].
    apply index_Ok. rewrite lookup_app_r by (rewrite length_fmap; lia).
    rewrite length_fmap. by replace (length declared + k - length declared) with k by lia.
Qed.

Lemma check_constraints_witness :
  optTable_CheckCount (obj Sample.docsTable) = 2 + 1
  /\ optTable_Check (obj Sample.docsTable) 1
     = Ok (cat.mkCheckConstraint (cat.DeclaredExpr "doc IS NOT NULL") false)
  /\ optTable_Check (obj Sample.docsTable) 2
     = Ok (cat.mkCheckConstraint (cat.EnumIn "mood" ["x"; "y"]) true).
Proof.
  destruct (check_constraints Sample.docs 0%Z Sample.docsSnapshot
              (Some Sample.zoned) 30 Sample.docsTable 32 docsTable_built)
    as (Hc & Hd & _ & _).
  split; [rewrite Hc; vm_compute; reflexivity|]. split.
  - apply (Hd 1 Sample.checkPending). reflexivity.
  - vm_compute. reflexivity.
Defined.

(** ** The foreign keys of a built table *)

(** X11.  A built table has one wrapper per outbound and per inbound
    foreign key of the descriptor, in their order.  The origin of an
    outbound one and the referenced table of an inbound one is the table
    itself, so that the ordinal accessors accept the table they were built
    for: [OriginColumnOrdinal] of an outbound foreign key, called with the
    table, returns for every position below the number of origin columns
    the ordinal [lookupColumnOrdinal] gives for the column ID there, and
    panics on an index out of range past it, never on the assertion; and
    likewise [ReferencedColumnOrdinal] of an inbound one. *)
Theorem foreign_key_wrappers :
  forall (desc : ptr tabledesc.Immutable) (codec : SQLCodec)
         (stats : option (slice stats.TableStatistic))
         (tblZone : option (ptr zonepb.ZoneConfig)) (next : nat) t next',
    newOptTable desc codec stats tblZone next = Ok (t, next') ->
    (optTable_OutboundForeignKeyCount (obj t)
     = length (tabledesc.OutboundFKs (obj desc))
     /\ forall i d,
          tabledesc.OutboundFKs (obj desc) !! i = Some d ->
          exists fk,
            optTable_OutboundForeignKey (obj t) i = Ok fk
            /\ optForeignKeyConstraint_OriginTableID fk = optTable_ID (obj t)
            /\ optForeignKeyConstraint_ReferencedTableID fk
               = cat.StableID (descpb.ForeignKeyConstraint.ReferencedTableID d)
            /\ optForeignKeyConstraint.originColumns fk
               = descpb.ForeignKeyConstraint.OriginColumnIDs d
            /\ forall k,
                 (forall colID,
                    descpb.ForeignKeyConstraint.OriginColumnIDs d !! k
                    = Some colID ->
                    optForeignKeyConstraint_OriginColumnOrdinal fk (OptTable t) k
                    = Ok (optTable_lookupColumnOrdinal (obj t) colID).1)
                 /\ (optForeignKeyConstraint_ColumnCount fk <= k ->
                     optForeignKeyConstraint_OriginColumnOrdinal
                       fk (OptTable t) k
                     = Panic (PanicRuntime "index out of range")))
    /\ (optTable_InboundForeignKeyCount (obj t)
        = length (tabledesc.InboundFKs (obj desc))
        /\ forall i d,
             tabledesc.InboundFKs (obj desc) !! i = Some d ->
             exists fk,
               optTable_InboundForeignKey (obj t) i = Ok fk
               /\ optForeignKeyConstraint_ReferencedTableID fk
                  = optTable_ID (obj t)
               /\ optForeignKeyConstraint_OriginTableID fk
                  = cat.StableID (descpb.ForeignKeyConstraint.OriginTableID d)
               /\ optForeignKeyConstraint.referencedColumns fk
                  = descpb.ForeignKeyConstraint.ReferencedColumnIDs d
               /\ forall k,
                    (forall colID,
                       descpb.ForeignKeyConstraint.ReferencedColumnIDs d !! k
                       = Some colID ->
                       optForeignKeyConstraint_ReferencedColumnOrdinal
                         fk (OptTable t) k
                       = Ok (optTable_lookupColumnOrdinal (obj t) colID).1)
                    /\ (length (optForeignKeyConstraint.referencedColumns fk)
                        <= k ->
                        optForeignKeyConstraint_ReferencedColumnOrdinal
                          fk (OptTable t) k
                        = Panic (PanicRuntime "index out of range"))).
Proof.
  intros desc codec stats tblZone next t next' H.
  apply newOptTable_inv in H
    as (tz & family0 & checks & _ & _ & _ & _ & _ & _ & Hout & Hin & _).
  split.
  - unfold optTable_OutboundForeignKeyCount, optTable_OutboundForeignKey.
    rewrite Hout. split; [by rewrite length_fmap|].
    intros i d Hd. exists (outboundFK (obj t) d). split.
    { apply index_Ok. by rewrite list_lookup_fmap, Hd. }
    split; [done|]. split; [done|]. split; [done|].
    intros k. unfold optForeignKeyConstraint_OriginColumnOrdinal,
                     optForeignKeyConstraint_ColumnCount.
    simpl. rewrite Z.eqb_refl. simpl. split.
    + intros colID Hk. by rewrite (index_Ok _ _ _ Hk).
    + intros Hk. by rewrite index_ge.
  - unfold optTable_InboundForeignKeyCount, optTable_InboundForeignKey.
    rewrite Hin. split; [by rewrite length_fmap|].
    intros i d Hd. exists (inboundFK (obj t) d). split.
    { apply index_Ok. by rewrite list_lookup_fmap, Hd. }
    split; [done|]. split; [done|]. split; [done|].
    intros k. unfold optForeignKeyConstraint_ReferencedColumnOrdinal.
    simpl. rewrite Z.eqb_refl. simpl. split.
    + intros colID Hk. by rewrite (index_Ok _ _ _ Hk).
    + intros Hk. by rewrite index_ge.
Qed.

Lemma foreign_key_wrappers_witness :
  (exists fk,
     optTable_OutboundForeignKey (obj Sample.docsTable) 0 = Ok fk
     /\ optForeignKeyConstraint_OriginTableID fk = 63%Z
     /\ optForeignKeyConstraint_OriginColumnOrdinal
          fk (OptTable Sample.docsTable) 0 = Ok 2
     /\ optForeignKeyConstraint_OriginColumnOrdinal
          fk (OptTable Sample.docsTable) 1
        = Panic (PanicRuntime "index out of range"))
  /\ (exists fk,
        optTable_InboundForeignKey (obj Sample.docsTable) 0 = Ok fk
        /\ optForeignKeyConstraint_ReferencedTableID fk = 63%Z
        /\ optForeignKeyConstraint_ReferencedColumnOrdinal
             fk (OptTable Sample.docsTable) 0 = Ok 0).
Proof.
  destruct (foreign_key_wrappers Sample.docs 0%Z Sample.docsSnapshot
              (Some Sample.zoned) 30 Sample.docsTable 32 docsTable_built)
    as [[_ Hout] [_ Hin]].
  split.
  - destruct (Hout 0 Sample.fkToAbc ltac:(reflexivity))
      as (fk & Hfk & Ho & _ & Hoc & Hk).
    exists fk. split; [exact Hfk|]. split; [exact Ho|]. split.
    + apply (proj1 (Hk 0) 3%Z). reflexivity.
    + apply (proj2 (Hk 1)). unfold optForeignKeyConstraint_ColumnCount.
      rewrite Hoc. simpl. lia.
  - destruct (Hin 0 Sample.fkFromAbc ltac:(reflexivity))
      as (fk & Hfk & Hr & _ & _ & Hk).
    exists fk. split; [exact Hfk|]. split; [exact Hr|].
    apply (proj1 (Hk 0) 1%Z). reflexivity.
Defined.

(** ** The outcome of newOptTable *)

Lemma keyColumnsNotNull_not_Err tab ids e : keyColumnsNotNull tab ids <> Err e.
Proof.
  induction ids as [|id ids IH]; simpl; [done|].
  unfold optTable_Column, index. destruct (_ !! _); simpl; [|done].
  by destruct (cat.IsNullable _).
Qed.

Lemma optIndex_init_not_Err tab self i d z v e :
  optIndex_init tab self i d z v <> Err e.
Proof.
  unfold optIndex_init.
  assert (Hk : forall e' (k : bool -> result (nat * nat)),
             (forall b, k b <> Err e') ->
             keyColumnsNotNull tab (descpb.IndexDescriptor.ColumnIDs (iobj d))
               ≫= k <> Err e').
  { intros e' k Hk.
    destruct (keyColumnsNotNull _ _) as [b| |] eqn:Hn; simpl; [apply Hk| |done].
    by apply keyColumnsNotNull_not_Err in Hn. }
  case_decide; [case_decide|]; simpl; try done;
    (destruct (descpb.IndexDescriptor.Unique (iobj d)); simpl; [|done]);
    (destruct (keyColumnsNotNull _ _) as [[]| |] eqn:Hn; simpl; try done;
     by apply keyColumnsNotNull_not_Err in Hn).
Qed.

Lemma buildIndex_not_Err self tblZone ot next i d e :
  buildIndex self tblZone ot next i d <> Err e.
Proof.
  unfold buildIndex. destruct tblZone as [tz|]; [|done].
  destruct (indexZone _ _ _) as [z n].
  case_decide.
  - unfold index at 1. destruct (_ !! 0); simpl; [|done].
    unfold newColumn. case_decide; simpl; [|done].
    unfold optTable_Column at 1, index at 1. destruct (_ !! _); simpl; [|done].
    destruct (optIndex_init _ _ _ _ _ _) eqn:Hi; simpl; try done.
    by apply optIndex_init_not_Err in Hi.
  - destruct (optIndex_init _ _ _ _ _ _) eqn:Hi; simpl; try done.
    by apply optIndex_init_not_Err in Hi.
Qed.

Lemma buildIndexes_not_Err self tblZone descs :
  forall ot next i e, buildIndexes self tblZone ot next i descs <> Err e.
Proof.
  induction descs as [|d descs IH]; intros ot next i e; simpl; [done|].
  destruct (buildIndex self tblZone ot next i d) as [[ot1 n1]| |] eqn:Hb;
    simpl; [apply IH| |done].
  by apply buildIndex_not_Err in Hb.
Qed.

Lemma synthesizeChecks_not_Err cols e : synthesizeChecks cols <> Err e.
Proof.
  induction cols as [|c cols IH]; simpl; [done|].
  destruct (cat.IsMutation c); [done|].
  destruct (cat.DatumType c); [|done].
  destruct (_ && _); [|done].
  destruct (synthesizeChecks cols); simpl; done.
Qed.

Lemma finishTable_not_Err self ot stats e : finishTable self ot stats <> Err e.
Proof.
  unfold finishTable. cbn -[synthesizeChecks addStats].
  unfold index. destruct (_ !! 0); cbn -[synthesizeChecks addStats]; [|done].
  destruct (synthesizeChecks _) eqn:Hs; cbn -[synthesizeChecks addStats];
    [| by apply synthesizeChecks_not_Err in Hs|done].
  destruct stats as [s|]; [|done].
  match goal with
  | |- context [addStats ?o ?l ?n ?s] =>
      destruct (addStats_returns o s l n) as [[slots k] ->]
  end.
  done.
Qed.

Lemma newOptTable_not_Err desc codec stats tblZone next e :
  newOptTable desc codec stats tblZone next <> Err e.
Proof.
  unfold newOptTable. cbn [alloc].
  destruct (initColumns_Ok desc codec stats tblZone) as (ot0 & -> & _).
  cbn [mbind result_bind].
  destruct (buildIndexes _ _ _ _ _ _) as [[ot1 n1]| |] eqn:Hb;
    cbn [mbind result_bind]; [| by apply buildIndexes_not_Err in Hb|done].
  destruct (finishTable _ _ _) eqn:Hf; cbn [mbind result_bind];
    [done| by apply finishTable_not_Err in Hf|done].
Qed.

Lemma newOptTable_nil_zone desc codec stats next :
  newOptTable desc codec stats None next
  = Panic (PanicRuntime "nil pointer dereference").
Proof.
  unfold newOptTable. cbn [alloc].
  destruct (initColumns_Ok desc codec stats None) as (ot0 & -> & _).
  reflexivity.
Qed.

Lemma newOptTable_no_family desc codec stats tblZone next :
  tabledesc.Families (obj desc) = [] ->
  isOk (newOptTable desc codec stats tblZone next) = false.
Proof.
  intros Hf.
  destruct (newOptTable desc codec stats tblZone next) as [[t n]| |] eqn:H;
    [|done|done].
  apply newOptTable_inv in H as (_ & family0 & _ & _ & _ & _ & Hf0 & _).
  by rewrite Hf in Hf0.
Qed.

Lemma keyColumnsNotNull_returns tab ids :
  (forall colID, exists c,
      optTable_Column tab (optTable_lookupColumnOrdinal tab colID).1 = Ok c) ->
  exists b, keyColumnsNotNull tab ids = Ok b.
Proof.
  intros Hlk. induction ids as [|id ids IH]; simpl; [by eexists|].
  destruct (Hlk id) as (c & ->). simpl.
  destruct (cat.IsNullable c); [by eexists|done].
Qed.

Lemma optIndex_init_returns tab self i d z v :
  (forall colID, exists c,
      optTable_Column tab (optTable_lookupColumnOrdinal tab colID).1 = Ok c) ->
  (iaddr d = PrimaryIndexOf (loc (optTable.desc tab)) ->
   length (descpb.IndexDescriptor.ColumnIDs (iobj d))
   <= length (optTable.columns tab)) ->
  exists oi, optIndex_init tab self i d z v = Ok oi.
Proof.
  intros Hlk Hp. unfold optIndex_init, optTable_ColumnCount.
  destruct (keyColumnsNotNull_returns tab
              (descpb.IndexDescriptor.ColumnIDs (iobj d)) Hlk) as [b Hb].
  case_decide as Ha.
  - rewrite decide_True by (by apply Hp). simpl.
    destruct (descpb.IndexDescriptor.Unique (iobj d)); simpl.
    + rewrite Hb. simpl. destruct b; simpl; by eexists.
    + by eexists.
  - simpl. destruct (descpb.IndexDescriptor.Unique (iobj d)); simpl.
    + rewrite Hb. simpl. destruct b; simpl; by eexists.
    + by eexists.
Qed.

Lemma indexesBuilt_lookup_column self desc base done ot colID :
  base <> [] ->
  indexesBuilt self desc base done ot ->
  exists c,
    optTable_Column ot (optTable_lookupColumnOrdinal ot colID).1 = Ok c.
Proof.
  intros Hne (Hm & _ & (extra & Hc & _) & _).
  rewrite lookupColumnOrdinal_fst, Hm.
  destruct (base_lookup_ordinal base colID Hne) as (src & Hsrc).
  exists src. apply index_Ok. rewrite Hc. by apply lookup_app_l_Some.
Qed.

Lemma indexesBuilt_length self desc base done ot :
  indexesBuilt self desc base done ot ->
  length (optTable.columns ot) = length base + countInverted done.
Proof.
  intros (_ & _ & (extra & -> & _ & <-) & _). by rewrite length_app.
Qed.

Lemma buildIndex_cap self tz ot next i d ot' next' :
  buildIndex self (Some tz) ot next i d = Ok (ot', next') ->
  optTable.columnsCap ot' = optTable.columnsCap ot.
Proof.
  intros H. apply buildIndex_inv in H as (_ & ot1 & v & oi & _ & -> & Hc).
  destruct Hc as [(_ & -> & _)|(_ & colID & src & _ & _ & _ & _ & ->)]; done.
Qed.

Lemma buildIndex_returns self desc base tz done ot next d :
  base <> [] ->
  indexesBuilt self desc base done ot ->
  (descpb.IndexDescriptor.Type_ (iobj d) = descpb.IndexDescriptor_INVERTED ->
   descpb.IndexDescriptor.ColumnIDs (iobj d) <> []
   /\ length (optTable.columns ot) + 1 <= optTable.columnsCap ot) ->
  (iaddr d = PrimaryIndexOf (loc desc) ->
   length (descpb.IndexDescriptor.ColumnIDs (iobj d)) <= length base) ->
  exists ot' next',
    buildIndex self (Some tz) ot next (length done) d = Ok (ot', next').
Proof.
  intros Hne Hinv Hi Hp.
  pose proof Hinv as (Hm & Hdesc & (extra & Hc & _) & _).
  unfold buildIndex.
  destruct (indexZone tz (iobj d) next) as [z n].
  case_decide as Htype.
  - destruct (Hi Htype) as [Hids Hcap].
    destruct (descpb.IndexDescriptor.ColumnIDs (iobj d)) as [|colID ids] eqn:He;
      [done|].
    unfold index at 1. simpl.
    unfold newColumn. rewrite decide_True by done. simpl.
    destruct (indexesBuilt_lookup_column self desc base done ot colID Hne Hinv)
      as (src & Hsrc).
    unfold optTable_Column at 1. simpl.
    apply index_Ok_inv in Hsrc.
    erewrite index_Ok; [|by apply lookup_app_l_Some]. simpl.
    match goal with
    | |- context [optIndex_init ?tab ?s ?i ?d ?z ?v] =>
        destruct (optIndex_init_returns tab s i d z v) as [oi ->]
    end.
    + intros colID'. unfold setColumn. simpl. rewrite insert_last.
      destruct (indexesBuilt_lookup_column self desc base done ot colID' Hne Hinv)
        as (c & Hcol).
      exists c. apply index_Ok_inv in Hcol. apply index_Ok.
      rewrite lookupColumnOrdinal_fst in *. simpl.
      by apply lookup_app_l_Some.
    + unfold setColumn. simpl. rewrite Hdesc, insert_last, length_app.
      intros Ha. specialize (Hp Ha).
      rewrite He, Hc, length_app. simpl in *. lia.
    + simpl. by eexists _, _.
  - match goal with
    | |- context [optIndex_init ?tab ?s ?i ?d ?z ?v] =>
        destruct (optIndex_init_returns tab s i d z v) as [oi ->]
    end.
    + intros colID'.
      by apply (indexesBuilt_lookup_column self desc base done ot colID' Hne).
    + rewrite Hdesc. intros Ha. specialize (Hp Ha).
      rewrite Hc, length_app. lia.
    + simpl. by eexists _, _.
Qed.

Lemma buildIndexes_returns self desc base tz descs :
  base <> [] ->
  Forall (fun c => is_Some (cat.DatumType c)) base ->
  forall done ot next,
    indexesBuilt self desc base done ot ->
    length base + countInverted (done ++ descs) <= optTable.columnsCap ot ->
    Forall (fun d => descpb.IndexDescriptor.Type_ (iobj d)
                     = descpb.IndexDescriptor_INVERTED ->
                     descpb.IndexDescriptor.ColumnIDs (iobj d) <> []) descs ->
    Forall (fun d => iaddr d = PrimaryIndexOf (loc desc) ->
                     length (descpb.IndexDescriptor.ColumnIDs (iobj d))
                     <= length base) descs ->
    exists ot' next',
      buildIndexes self (Some tz) ot next (length done) descs = Ok (ot', next').
Proof.
  intros Hne Htyped.
  induction descs as [|d descs IH]; intros done ot next Hinv Hcap Hids Hpk;
    simpl; [by eexists _, _|].
  apply Forall_cons in Hids as [Hid Hids]. apply Forall_cons in Hpk as [Hp Hpk].
  destruct (buildIndex_returns self desc base tz done ot next d Hne Hinv)
    as (ot1 & next1 & Hb); [|done|].
  { intros Hinvd. split; [by apply Hid|].
    rewrite (indexesBuilt_length _ _ _ _ _ Hinv).
    rewrite (cons_middle d), app_assoc in Hcap.
    pose proof (countInverted_take_le (length (done ++ [d]))
                  ((done ++ [d]) ++ descs)) as Hle.
    rewrite take_app_length in Hle.
    rewrite countInverted_snoc, decide_True in Hle by done. lia. }
  rewrite Hb. simpl.
  pose proof (buildIndex_cap _ _ _ _ _ _ _ _ Hb) as Hcap1.
  eapply buildIndex_indexesBuilt in Hb; [|done|done|exact Hinv].
  specialize (IH (done ++ [d]) ot1 next1 Hb).
  rewrite length_app in IH. simpl in IH. rewrite Nat.add_1_r in IH.
  apply IH; [|done|done].
  by rewrite Hcap1, <- app_assoc.
Qed.

Lemma finishTable_returns self ot stats :
  tabledesc.Families (obj (optTable.desc ot)) <> [] ->
  Forall (fun c => is_Some (cat.DatumType c)) (optTable.columns ot) ->
  exists ot', finishTable self ot stats = Ok ot'.
Proof.
  intros Hf Ht. unfold finishTable. cbn -[synthesizeChecks addStats].
  destruct (tabledesc.Families (obj (optTable.desc ot))) as [|family0 fs];
    [done|].
  unfold index. cbn -[synthesizeChecks addStats].
  rewrite synthesizeChecks_typed by done. cbn -[addStats].
  destruct stats as [s|]; [|by eexists].
  match goal with
  | |- context [addStats ?o ?l ?n ?s] =>
      destruct (addStats_returns o s l n) as [[slots k] ->]
  end.
  by eexists.
Qed.

Lemma countInverted_iobj (l : list idxptr) :
  countInverted l
  = length (filter (fun idx => descpb.IndexDescriptor.Type_ idx
                               = descpb.IndexDescriptor_INVERTED)
                   (iobj <$> l)).
Proof.
  unfold countInverted. induction l as [|d l IH]; [done|].
  rewrite fmap_cons, !filter_cons. simpl.
  case_decide; simpl; by rewrite IH.
Qed.

Lemma countInverted_secondary desc :
  countInverted (imap (fun i d => IdxPtr (SecondaryIndexOf (loc desc) i) d)
                      (tabledesc.DeletableIndexes (obj desc)))
  = length (filter (fun idx => descpb.IndexDescriptor.Type_ idx
                               = descpb.IndexDescriptor_INVERTED)
                   (tabledesc.DeletableIndexes (obj desc))).
Proof.
  rewrite countInverted_iobj. do 2 f_equal.
  apply list_eq. intros i. rewrite list_lookup_fmap, list_lookup_imap.
  by destruct (_ !! i).
Qed.

(** X12.  [newOptTable] returns a table or panics; the error it can
    return is always nil.  Without a zone configuration it panics on a nil
    pointer, and for a descriptor without a family it does not return
    either.  It does return a table, at a new address, when it is given a
    zone configuration and the descriptor has a family, a primary index
    that is not inverted and has no more key columns than the table has
    columns, and a key column in each of its inverted indexes. *)
Theorem newOptTable_outcome :
  forall (desc : ptr tabledesc.Immutable) (codec : SQLCodec)
         (stats : option (slice stats.TableStatistic))
         (tblZone : option (ptr zonepb.ZoneConfig)) (next : nat),
    (forall e, newOptTable desc codec stats tblZone next <> Err e)
    /\ (tblZone = None ->
        newOptTable desc codec stats tblZone next
        = Panic (PanicRuntime "nil pointer dereference"))
    /\ (tabledesc.Families (obj desc) = [] ->
        isOk (newOptTable desc codec stats tblZone next) = false)
    /\ (tblZone <> None ->
        tabledesc.Families (obj desc) <> [] ->
        descpb.IndexDescriptor.Type_ (tabledesc.PrimaryIndex (obj desc))
        <> descpb.IndexDescriptor_INVERTED ->
        length (descpb.IndexDescriptor.ColumnIDs
                  (tabledesc.PrimaryIndex (obj desc)))
        <= length (tabledesc.DeletableColumns (obj desc)) ->
        Forall (fun idx => descpb.IndexDescriptor.Type_ idx
                           = descpb.IndexDescriptor_INVERTED ->
                           descpb.IndexDescriptor.ColumnIDs idx <> [])
               (tabledesc.DeletableIndexes (obj desc)) ->
        exists t next',
          newOptTable desc codec stats tblZone next = Ok (t, next')
          /\ loc t = next /\ next < next').
Proof.
  intros desc codec stats tblZone next.
  split; [intros e; apply newOptTable_not_Err|].
  split; [intros ->; apply newOptTable_nil_zone|].
  split; [apply newOptTable_no_family|].
  intros Hz Hfam Hprim Hpk Hinv.
  destruct tblZone as [tz|]; [clear Hz|done].
  assert (Hret : exists r, newOptTable desc codec stats (Some tz) next = Ok r).
  { unfold newOptTable. cbn [alloc].
    destruct (initColumns_Ok desc codec stats (Some tz))
      as (ot0 & -> & Hdesc0 & Hcols0 & Hcap0 & Hmap0 & Hidx0 & _).
    cbn [mbind result_bind].
    assert (Hinv0 : indexesBuilt next desc (baseColumns (obj desc)) [] ot0).
    { split; [done|]. split; [done|]. split.
      { exists []. rewrite app_nil_r. by repeat split. }
      rewrite Hcols0, Hidx0.
      split; [apply baseColumns_ordinals|]. split; [apply baseColumns_typed|].
      split; [done|]. intros j oi Hj. by rewrite lookup_nil in Hj. }
    destruct (buildIndexes_returns next desc (baseColumns (obj desc)) tz
                (indexDescs desc) (baseColumns_nonempty _) (baseColumns_typed _)
                [] ot0 (S next) Hinv0) as (ot1 & next1 & Hb).
    - rewrite app_nil_l, Hcap0, length_baseColumns.
      rewrite countInverted_indexDescs, filter_cons.
      rewrite decide_False by done.
      destruct (isOk _); lia.
    - unfold indexDescs. apply Forall_cons. split; [done|].
      apply Forall_lookup. intros j d Hj Hty.
      rewrite list_lookup_imap in Hj.
      destruct (_ !! j) as [idx|] eqn:Hidx; [|discriminate].
      injection Hj as <-. simpl in *.
      eapply Forall_lookup_1 in Hinv; [|exact Hidx]. by apply Hinv.
    - unfold indexDescs. apply Forall_cons. split.
      + intros _. simpl. rewrite length_baseColumns. lia.
      + apply Forall_lookup. intros j d Hj Ha.
        rewrite list_lookup_imap in Hj.
        destruct (_ !! j) as [idx|]; [|discriminate].
        injection Hj as <-. discriminate.
    - change (length (@nil idxptr)) with 0 in Hb.
      rewrite Hb. cbn [mbind result_bind].
      pose proof (buildIndexes_indexesBuilt next desc (baseColumns (obj desc))
                    (baseColumns_nonempty _) (baseColumns_typed _)
                    tz (indexDescs desc) [] ot0 (S next) ot1 next1 Hinv0 Hb)
        as (_ & Hd1 & _ & _ & Ht1 & _).
      destruct (finishTable_returns next ot1 stats) as [ot2 ->];
        [by rewrite Hd1|done|].
      by eexists. }
  destruct Hret as [[t next'] Hr].
  exists t, next'. split; [done|].
  pose proof (newOptTable_next _ _ _ _ _ _ _ Hr).
  apply newOptTable_Ok in Hr as (_ & _ & Hl & _). done.
Qed.

Lemma newOptTable_outcome_witness :
  exists t next',
    newOptTable Sample.docs 0%Z Sample.docsSnapshot (Some Sample.zoned) 30
    = Ok (t, next')
    /\ loc t = 30 /\ 30 < next'.
Proof.
  apply (proj2 (proj2 (proj2
           (newOptTable_outcome Sample.docs 0%Z Sample.docsSnapshot
              (Some Sample.zoned) 30)))).
  - discriminate.
  - discriminate.
  - discriminate.
  - vm_compute. lia.
  - repeat constructor; vm_compute; congruence.
Defined.

(** ** Virtual tables *)

Lemma buildVirtualIndexes_lookup self n idxDescs :
  forall i indexes,
    buildVirtualIndexes self n i idxDescs = Ok indexes ->
    forall k idx,
      idxDescs !! k = Some idx ->
      indexes !! k = Some (optVirtualIndex.mk self false idx n (i + k + 1))
      /\ length (descpb.IndexDescriptor.ColumnIDs idx) <= 1.
Proof.
  induction idxDescs as [|d l IH]; intros i indexes; simpl; [done|].
  case_decide as Hlen; [discriminate|].
  destruct (buildVirtualIndexes self n (S i) l) as [rest| |] eqn:Hr; simpl;
    try discriminate.
  intros [= <-] k idx Hk. destruct k as [|k]; simpl in *.
  - injection Hk as <-. rewrite Nat.add_0_r. split; [done|lia].
  - destruct (IH _ _ Hr k idx Hk) as [-> Hle]. split; [|done].
    do 2 f_equal. lia.
Qed.

Lemma newOptVirtualTable_inv oc desc name next vt next' :
  newOptVirtualTable oc desc name next = Ok (vt, next') ->
  exists id indexes,
    virtualTableID (planner.LookupSchema oc) (obj desc) name = Ok id
    /\ buildVirtualIndexes next (S (length (tabledesc.Columns (obj desc)))) 0
         (tabledesc.Indexes (obj desc)) = Ok indexes
    /\ loc vt = next /\ next' = S next
    /\ obj vt
       = optVirtualTable.mk desc
           (vtablePKColumn :: imap vtableColumn (tabledesc.Columns (obj desc)))
           id
           (tree.mkTableName (tree.CatalogName name) (tree.SchemaName name)
                             (tree.ObjectName name) true true)
           (optVirtualIndex.mk next true
              (descpb.IndexDescriptor.mk 0 "primary" false
                 descpb.IndexDescriptor_FORWARD [] [] [] [] "")
              (S (length (tabledesc.Columns (obj desc)))) 0
            :: indexes)
           (buildColMap
              (vtablePKColumn
               :: imap vtableColumn (tabledesc.Columns (obj desc)))).
Proof.
  unfold newOptVirtualTable.
  destruct (virtualTableID _ _ _) as [id| |]; simpl; try discriminate.
  rewrite length_imap.
  destruct (buildVirtualIndexes _ _ _ _) as [indexes| |]; simpl;
    try discriminate.
  intros [= <- <-]. by exists id, indexes.
Qed.

(** X13.  The columns of a built virtual table: the dummy primary key
    column at ordinal 0, hidden and not nullable, then one ordinary column
    per column of the descriptor, in its order, with its ID, name,
    nullability and visibility.  [Column(i)] returns for exactly the [i]
    below [ColumnCount()], and the column holds its position;
    [getColDesc(i)] is the descriptor the column was made from, and nil for
    the dummy column and past the last one.  The column map is keyed by
    the low 32 bits of the column IDs: a column ID that
    [lookupColumnOrdinal] finds is the low 32 bits of the ID of the column
    at the ordinal it returns, and need not be that ID.  The dummy column,
    whose ID is [MaxInt64], is found at ordinal 0 under the column ID
    [MaxUint32], when no column of the descriptor has this ID. *)
Theorem virtual_table_columns :
  forall (oc : planner.t) (desc : ptr tabledesc.Immutable)
         (name : tree.TableName) (next : nat) vt next',
    newOptVirtualTable oc desc name next = Ok (vt, next') ->
    optVirtualTable_ColumnCount (obj vt)
    = S (length (tabledesc.Columns (obj desc)))
    /\ (exists pk,
          optVirtualTable_Column (obj vt) 0 = Ok pk
          /\ cat.ColName pk = "crdb_internal_vtable_pk"
          /\ cat.ColID pk = MaxInt64
          /\ cat.IsHidden pk = true
          /\ cat.IsNullable pk = false
          /\ optVirtualTable_getColDesc (obj vt) 0 = Ok None)
    /\ (forall i d,
          tabledesc.Columns (obj desc) !! i = Some d ->
          exists c,
            optVirtualTable_Column (obj vt) (S i) = Ok c
            /\ cat.ColID c = cat.StableID (descpb.ColumnDescriptor.ID d)
            /\ cat.ColName c = descpb.ColumnDescriptor.Name d
            /\ cat.Kind c = cat.Ordinary
            /\ cat.IsNullable c = descpb.ColumnDescriptor.Nullable d
            /\ cat.IsHidden c = descpb.ColumnDescriptor.Hidden d
            /\ optVirtualTable_getColDesc (obj vt) (S i)
               = Ok (Some (ColumnOfDescriptor d)))
    /\ (forall i c,
          optVirtualTable_Column (obj vt) i = Ok c -> cat.Ordinal c = i)
    /\ (forall i,
          optVirtualTable_ColumnCount (obj vt) <= i ->
          optVirtualTable_Column (obj vt) i
          = Panic (PanicRuntime "index out of range")
          /\ optVirtualTable_getColDesc (obj vt) i = Ok None)
    /\ (forall colID ord,
          optVirtualTable_lookupColumnOrdinal (obj vt) colID = (ord, None) ->
          exists c, optVirtualTable_Column (obj vt) ord = Ok c
                    /\ uint32 (cat.ColID c) = colID)
    /\ ((forall d, d ∈ tabledesc.Columns (obj desc) ->
                   uint32 (cat.StableID (descpb.ColumnDescriptor.ID d))
                   <> MaxUint32) ->
        exists pk,
          optVirtualTable_lookupColumnOrdinal (obj vt) MaxUint32 = (0, None)
          /\ optVirtualTable_Column (obj vt) 0 = Ok pk
          /\ cat.ColID pk <> MaxUint32).
Proof.
  intros oc desc name next vt next' H.
  apply newOptVirtualTable_inv in H as (id & indexes & _ & _ & _ & _ & Hobj).
  unfold optVirtualTable_ColumnCount, optVirtualTable_Column,
    optVirtualTable_getColDesc, optVirtualTable_lookupColumnOrdinal.
  rewrite Hobj. cbn [optVirtualTable.columns optVirtualTable.desc
                     optVirtualTable.colMap].
  split; [simpl; by rewrite length_imap|].
  split; [by exists vtablePKColumn|].
  split.
  { intros i d Hd. exists (vtableColumn i d). split.
    { apply index_Ok. simpl. by rewrite list_lookup_imap, Hd. }
    repeat (split; [done|]).
    apply lookup_lt_Some in Hd as Hlt.
    replace (0 <? S i) with true by done.
    replace (S i <=? length (tabledesc.Columns (obj desc))) with true
      by (symmetry; apply Nat.leb_le; lia).
    simpl. rewrite Nat.sub_0_r. by rewrite (index_Ok _ _ _ Hd). }
  split.
  { intros i c Hc. apply index_Ok_inv in Hc. destruct i as [|i]; simpl in Hc.
    - by injection Hc as <-.
    - rewrite list_lookup_imap in Hc.
      destruct (_ !! i) as [d|]; [|discriminate]. injection Hc as <-.
      simpl. lia. }
  split.
  { intros i Hi. simpl in Hi. rewrite length_imap in Hi. split.
    - apply index_ge. simpl. rewrite length_imap. lia.
    - replace (i <=? length (tabledesc.Columns (obj desc))) with false
        by (symmetry; apply Nat.leb_gt; lia).
      by rewrite andb_false_r. }
  split.
  { intros colID ord Hl.
    destruct (buildColMap _ !! colID) as [o|] eqn:Ho; [|discriminate].
    injection Hl as <-. apply buildColMap_sound in Ho as (c & Hc & Hk).
    exists c. split; [by apply index_Ok|done]. }
  intros Hne. exists vtablePKColumn. split; [|split; [done|discriminate]].
  destruct (buildColMap _ !! MaxUint32) as [o|] eqn:Ho.
  - apply buildColMap_sound in Ho as (c & Hc & Hk).
    destruct o as [|o]; [done|]. simpl in Hc.
    rewrite list_lookup_imap in Hc.
    destruct (tabledesc.Columns (obj desc) !! o) as [d|] eqn:Hd;
      [|discriminate].
    injection Hc as <-. destruct (Hne d); [|exact Hk].
    by eapply list_elem_of_lookup_2.
  - apply buildColMap_None in Ho. destruct Ho. rewrite fmap_cons.
    apply elem_of_cons. by left.
Qed.

Lemma pgSequenceInDb1_built :
  newOptVirtualTable Sample.thePlanner Sample.vtable Sample.inDb1 10
  = Ok (Sample.pgSequenceInDb1, 11).
Proof. vm_compute. reflexivity. Qed.

Lemma virtual_table_columns_witness :
  optVirtualTable_ColumnCount (obj Sample.pgSequenceInDb1) = 3
  /\ (exists c,
        optVirtualTable_Column (obj Sample.pgSequenceInDb1) 2 = Ok c
        /\ cat.ColName c = "b"
        /\ optVirtualTable_getColDesc (obj Sample.pgSequenceInDb1) 2
           = Ok (Some (ColumnOfDescriptor Sample.colB)))
  /\ optVirtualTable_getColDesc (obj Sample.pgSequenceInDb1) 0 = Ok None
  /\ optVirtualTable_lookupColumnOrdinal (obj Sample.pgSequenceInDb1)
       MaxUint32 = (0, None).
Proof.
  destruct (virtual_table_columns Sample.thePlanner Sample.vtable Sample.inDb1
              10 Sample.pgSequenceInDb1 11 pgSequenceInDb1_built)
    as (Hn & (pk & _ & _ & _ & _ & _ & Hpk) & Hc & _ & _ & _ & Hl).
  split; [exact Hn|]. split; [|split; [exact Hpk|]].
  - destruct (Hc 1 Sample.colB ltac:(reflexivity))
      as (c & Hcol & _ & Hname & _ & _ & _ & Hd).
    exists c. split; [exact Hcol|]. split; [exact Hname|exact Hd].
  - destruct Hl as (pk' & Hl & _); [|exact Hl].
    intros d Hd. apply list_elem_of_In in Hd. simpl in Hd.
    destruct Hd as [<-|[<-|[]]]; vm_compute; discriminate.
Defined.

(** X14.  The indexes of a built virtual table, by position: the primary
    index, whose [Column(i)] is the column [i] of the table, for every [i]
    below its [ColumnCount()]; then one index per index of the descriptor,
    each with at most one key column.  For such an index on one column,
    [Column(0)] is the column of the table that [lookupColumnOrdinal] gives
    for the ID of the key column, and [Column(1)] is the dummy primary key
    column: the two key columns that [KeyColumnCount()] counts.  All
    indexes span the columns of the table, know their ordinal and point
    back to the table. *)
Theorem virtual_index_columns :
  forall (oc : planner.t) (desc : ptr tabledesc.Immutable)
         (name : tree.TableName) (next : nat) vt next',
    newOptVirtualTable oc desc name next = Ok (vt, next') ->
    (exists primary,
       optVirtualTable_Index (obj vt) 0 = Ok primary
       /\ optVirtualIndex.isPrimary primary = true
       /\ optVirtualIndex_ColumnCount primary
          = optVirtualTable_ColumnCount (obj vt)
       /\ forall i c,
            optVirtualTable_Column (obj vt) i = Ok c ->
            optVirtualIndex_Column (obj vt) primary i
            = Ok (cat_IndexColumn.mk c false))
    /\ (forall j idx,
          tabledesc.Indexes (obj desc) !! j = Some idx ->
          exists oi pk,
            optVirtualTable_Index (obj vt) (S j) = Ok oi
            /\ optVirtualIndex.desc oi = idx
            /\ optVirtualIndex.isPrimary oi = false
            /\ optVirtualIndex_Ordinal oi = S j
            /\ optVirtualIndex_Table oi = loc vt
            /\ optVirtualIndex_ColumnCount oi
               = optVirtualTable_ColumnCount (obj vt)
            /\ length (descpb.IndexDescriptor.ColumnIDs idx) <= 1
            /\ optVirtualTable_Column (obj vt) 0 = Ok pk
            /\ cat.ColName pk = "crdb_internal_vtable_pk"
            /\ (forall colID,
                  descpb.IndexDescriptor.ColumnIDs idx = [colID] ->
                  (exists c,
                     optVirtualTable_Column (obj vt)
                       (optVirtualTable_lookupColumnOrdinal (obj vt) colID).1
                     = Ok c
                     /\ optVirtualIndex_Column (obj vt) oi 0
                        = Ok (cat_IndexColumn.mk c false))
                  /\ optVirtualIndex_Column (obj vt) oi 1
                     = Ok (cat_IndexColumn.mk pk false)))
    /\ (forall j,
          S (length (tabledesc.Indexes (obj desc))) <= j ->
          optVirtualTable_Index (obj vt) j
          = Panic (PanicRuntime "index out of range")).
Proof.
  intros oc desc name next vt next' H.
  apply newOptVirtualTable_inv in H
    as (id & indexes & _ & Hidx & Hloc & _ & Hobj).
  pose proof (buildVirtualIndexes_length _ _ _ _ _ Hidx) as Hlen.
  unfold optVirtualTable_Index, optVirtualTable_ColumnCount,
    optVirtualIndex_ColumnCount, optVirtualIndex_Column,
    optVirtualTable_Column, optVirtualTable_lookupColumnOrdinal,
    optVirtualIndex_Ordinal, optVirtualIndex_Table.
  rewrite Hobj. cbn [optVirtualTable.columns optVirtualTable.indexes
                     optVirtualTable.colMap].
  split; [|split].
  - eexists. split; [done|]. simpl. split; [done|].
    split; [by rewrite length_imap|].
    intros i c ->. done.
  - intros j idx Hj.
    destruct (buildVirtualIndexes_lookup _ _ _ _ _ Hidx j idx Hj) as [Hoi Hle].
    eexists _, vtablePKColumn. split; [by apply index_Ok|]. simpl.
    split; [done|]. split; [done|]. split; [lia|]. split; [done|].
    split; [by rewrite length_imap|]. split; [done|]. split; [done|].
    split; [done|].
    intros colID Hids. rewrite Hids. simpl.
    set (cols := vtablePKColumn
                 :: imap vtableColumn (tabledesc.Columns (obj desc))).
    assert (Hc : exists c,
               index cols (match buildColMap cols !! colID with
                           | Some col => (col, None)
                           | None => (0, Some (UndefinedColumn colID))
                           end).1 = Ok c).
    { destruct (buildColMap cols !! colID) as [o|] eqn:Ho; simpl.
      - apply buildColMap_sound in Ho as (c & Hc & _).
        exists c. by apply index_Ok.
      - by exists vtablePKColumn. }
    destruct Hc as (c & Hc). split; [|done].
    exists c. split; [done|]. by rewrite Hc.
  - intros j Hj. apply index_ge. simpl. lia.
Qed.

Lemma virtual_index_columns_witness :
  exists oi pk c,
    optVirtualTable_Index (obj Sample.pgSequenceInDb1) 1 = Ok oi
    /\ optVirtualIndex.desc oi = Sample.vtableIdx
    /\ optVirtualIndex_Column (obj Sample.pgSequenceInDb1) oi 0
       = Ok (cat_IndexColumn.mk c false)
    /\ cat.ColName c = "a"
    /\ optVirtualIndex_Column (obj Sample.pgSequenceInDb1) oi 1
       = Ok (cat_IndexColumn.mk pk false)
    /\ cat.ColName pk = "crdb_internal_vtable_pk".
Proof.
  destruct (virtual_index_columns Sample.thePlanner Sample.vtable Sample.inDb1
              10 Sample.pgSequenceInDb1 11 pgSequenceInDb1_built)
    as (_ & Hsec & _).
  destruct (Hsec 0 Sample.vtableIdx ltac:(reflexivity))
    as (oi & pk & Hoi & Hd & _ & _ & _ & _ & _ & _ & Hpk & Hcols).
  destruct (Hcols 1%Z ltac:(reflexivity)) as ((c & Hc & Hc0) & Hc1).
  exists oi, pk, c. split; [exact Hoi|]. split; [exact Hd|].
  split; [exact Hc0|]. split; [|split; [exact Hc1|exact Hpk]].
  vm_compute in Hc. injection Hc as <-. reflexivity.
Defined.

(** ** Equality of objects *)

(** X15.  The same virtual table descriptor resolved twice under the same
    catalog and schema names gives two tables that are equal, although
    they are different objects; resolved under two different databases, or
    under a database and under no database, it gives tables that are not
    equal, either way round. *)
Theorem virtual_table_Equals :
  forall (oc : planner.t) (desc : ptr tabledesc.Immutable)
         (name1 name2 : tree.TableName) (next1 next2 : nat) vt1 vt2 n1' n2',
    newOptVirtualTable oc desc name1 next1 = Ok (vt1, n1') ->
    newOptVirtualTable oc desc name2 next2 = Ok (vt2, n2') ->
    (tree.Catalog name1 = tree.Catalog name2 ->
     tree.Schema name1 = tree.Schema name2 ->
     optVirtualTable_Equals vt1 (ObjDataSource (DSTable (OptVirtualTable vt2)))
     = true)
    /\ (next1 <> next2 ->
        isUint32 (tabledesc.ID (obj desc)) ->
        tree.Catalog name1 <> "" ->
        forall prefix1,
          planner.LookupSchema oc (tree.Catalog name1) (tree.Schema name1)
          = Ok (Some prefix1) ->
          isUint32 (catalog.GetID (catalog.Database_ prefix1)) ->
          (tree.Catalog name2 = ""
           /\ catalog.GetID (catalog.Database_ prefix1) <> 0%Z)
          \/ (tree.Catalog name2 <> ""
              /\ exists prefix2,
                   planner.LookupSchema oc (tree.Catalog name2)
                                        (tree.Schema name2)
                   = Ok (Some prefix2)
                   /\ isUint32 (catalog.GetID (catalog.Database_ prefix2))
                   /\ catalog.GetID (catalog.Database_ prefix1)
                      <> catalog.GetID (catalog.Database_ prefix2)) ->
          optVirtualTable_Equals vt1
            (ObjDataSource (DSTable (OptVirtualTable vt2))) = false
          /\ optVirtualTable_Equals vt2
               (ObjDataSource (DSTable (OptVirtualTable vt1))) = false).
Proof.
  intros oc desc name1 name2 next1 next2 vt1 vt2 n1' n2' H1 H2.
  apply newOptVirtualTable_inv in H1 as (id1 & ix1 & Hid1 & _ & Hl1 & _ & Ho1).
  apply newOptVirtualTable_inv in H2 as (id2 & ix2 & Hid2 & _ & Hl2 & _ & Ho2).
  unfold optVirtualTable_Equals, ptr_eqb. rewrite Ho1, Ho2, Hl1, Hl2.
  cbn [optVirtualTable.id optVirtualTable.desc].
  rewrite !Z.eqb_refl. cbn [negb orb].
  split.
  - intros Hc Hs. unfold virtualTableID in Hid1, Hid2.
    rewrite Hc, Hs, Hid2 in Hid1. injection Hid1 as <-.
    rewrite Z.eqb_refl. by destruct (next1 =? next2).
  - intros Hne Hd Hc1 prefix1 Hp1 Hu1 Hcase.
    pose proof (virtualTableID_halves _ _ _ _ Hid1 Hd) as (_ & _ & Hh1 & _).
    pose proof (virtualTableID_halves _ _ _ _ Hid2 Hd) as (_ & Hz2 & Hh2 & _).
    specialize (Hh1 Hc1 prefix1 Hp1 Hu1).
    assert (Hids : id1 <> id2).
    { intros <-. destruct Hcase as [[Hc2 Hnz]|(Hc2 & prefix2 & Hp2 & Hu2 & Hdb)].
      - rewrite (Hz2 Hc2) in Hh1. congruence.
      - rewrite (Hh2 Hc2 prefix2 Hp2 Hu2) in Hh1. congruence. }
    replace (next1 =? next2) with false by (symmetry; by apply Nat.eqb_neq).
    replace (next2 =? next1) with false
      by (symmetry; apply Nat.eqb_neq; congruence).
    replace (id1 =? id2)%Z with false by (symmetry; by apply Z.eqb_neq).
    replace (id2 =? id1)%Z with false
      by (symmetry; apply Z.eqb_neq; congruence).
    done.
Qed.

Lemma pgSequenceInDb2_built :
  newOptVirtualTable Sample.thePlanner Sample.vtable Sample.inDb2 11
  = Ok (Sample.pgSequenceInDb2, 12).
Proof. vm_compute. reflexivity. Qed.

Lemma virtual_table_Equals_witness :
  optVirtualTable_Equals Sample.pgSequenceInDb1
    (ObjDataSource (DSTable (OptVirtualTable Sample.pgSequenceInDb1))) = true
  /\ optVirtualTable_Equals Sample.pgSequenceInDb1
       (ObjDataSource (DSTable (OptVirtualTable Sample.pgSequenceInDb2)))
     = false
  /\ optVirtualTable_Equals Sample.pgSequenceInDb2
       (ObjDataSource (DSTable (OptVirtualTable Sample.pgSequenceInDb1)))
     = false.
Proof.
  split.
  - apply (proj1 (virtual_table_Equals Sample.thePlanner Sample.vtable
                    Sample.inDb1 Sample.inDb1 10 10 Sample.pgSequenceInDb1
                    Sample.pgSequenceInDb1 11 11 pgSequenceInDb1_built
                    pgSequenceInDb1_built)); reflexivity.
  - apply (proj2 (virtual_table_Equals Sample.thePlanner Sample.vtable
                    Sample.inDb1 Sample.inDb2 10 11 Sample.pgSequenceInDb1
                    Sample.pgSequenceInDb2 11 12 pgSequenceInDb1_built
                    pgSequenceInDb2_built))
      with (prefix1 := catalog.mkResolvedObjectPrefix Sample.db52
                         (catalog.mkResolvedSchema catalog.SchemaVirtual 0
                            "pg_catalog")).
    + lia.
    + vm_compute. split; congruence.
    + discriminate.
    + reflexivity.
    + vm_compute. split; congruence.
    + right. split; [discriminate|].
      exists (catalog.mkResolvedObjectPrefix Sample.db53
                (catalog.mkResolvedSchema catalog.SchemaVirtual 0 "pg_catalog")).
      split; [reflexivity|]. split; [vm_compute; split; congruence|].
      discriminate.
Defined.

(** X16.  Objects behind different wrappers are never equal: [Equals]
    returns false, without a panic, when the other object is not of the
    kind of the receiver, also when both wrap the same descriptor.  Objects
    that are equal have the same stable ID. *)
Theorem Equals_same_kind_same_ID :
  forall o other : Object,
    (objectKind o <> objectKind other -> Object_Equals o other = Ok false)
    /\ (Object_Equals o other = Ok true ->
        sameHeap o other ->
        objectKind o = objectKind other /\ Object_ID o = Object_ID other).
Proof.
  intros o other. split.
  - destruct o as [os|[[a|a]|ov|os]], other as [os'|[[b|b]|ov'|os']];
      simpl; intros Hk; done.
  - destruct o as [os|[[a|a]|ov|os]], other as [os'|[[b|b]|ov'|os']];
      simpl; try discriminate; intros He Hh; (split; [done|]).
    + injection He as He. by apply Z.eqb_eq in He.
    + unfold ptr_eqb in He. destruct (loc a =? loc b) eqn:Hl.
      * apply Nat.eqb_eq in Hl. by rewrite (Hh Hl).
      * unfold optTable_ID.
        destruct (tabledesc.ID _ =? tabledesc.ID _)%Z eqn:Hid;
          [|discriminate].
        apply Z.eqb_eq in Hid. by rewrite Hid.
    + injection He as He. unfold ptr_eqb in He.
      destruct (loc a =? loc b) eqn:Hl.
      * apply Nat.eqb_eq in Hl. by rewrite (Hh Hl).
      * destruct (optVirtualTable.id _ =? optVirtualTable.id _)%Z eqn:Hid;
          [|discriminate].
        by apply Z.eqb_eq in Hid.
    + injection He as He. apply andb_true_iff in He as [He _].
      apply Z.eqb_eq in He. unfold optView_ID. by rewrite He.
    + injection He as He. apply andb_true_iff in He as [He _].
      apply Z.eqb_eq in He. unfold optSequence_ID. by rewrite He.
Qed.

Lemma Equals_same_kind_same_ID_witness :
  Object_Equals (ObjDataSource (DSView (newOptView Sample.seq)))
                (ObjDataSource (DSSequence (newOptSequence Sample.seq)))
  = Ok false
  /\ Object_ID (ObjSchema Sample.publicOf52)
     = Object_ID (ObjSchema Sample.pgCatalogOf52).
Proof.
  split.
  - apply (proj1 (Equals_same_kind_same_ID
                    (ObjDataSource (DSView (newOptView Sample.seq)))
                    (ObjDataSource (DSSequence (newOptSequence Sample.seq))))).
    discriminate.
  - apply (proj2 (Equals_same_kind_same_ID (ObjSchema Sample.publicOf52)
                    (ObjSchema Sample.pgCatalogOf52))); [reflexivity|exact I].
Defined.

(** ** The cache of data sources *)

Lemma built_not_stale desc codec stats tz next t next' rawDesc zone :
  newOptTable desc codec stats (Some tz) next = Ok (t, next') ->
  zonepb.Equal zone (Some tz) = true ->
  ~ typeVersionDiffers (obj desc) (obj rawDesc) ->
  optTable_isStale (obj t) rawDesc stats zone = false.
Proof.
  intros H Hz Hv.
  apply newOptTable_Ok in H as (_ & _ & _ & Hd & _ & _ & Hr & Hzone & _).
  unfold optTable_isStale. rewrite Hr, Hzone, Hd, Hz, Nat.eqb_refl.
  rewrite bool_decide_eq_true_2 by done.
  apply UserDefinedTypeColsHaveSameVersion_true in Hv. rewrite Hv.
  by rewrite andb_false_r.
Qed.

(** X17.  A table is not stale with respect to what it was built from:
    [isStale] returns false for the statistics snapshot the table was built
    with, a zone configuration that is equal to the one it was built with
    and a descriptor with the same versions of the user-defined types, and
    so for the very descriptor and zone configuration of the build. *)
Theorem built_table_not_stale :
  forall (desc : ptr tabledesc.Immutable) (codec : SQLCodec)
         (stats : option (slice stats.TableStatistic))
         (tz : ptr zonepb.ZoneConfig) (next : nat) t next',
    newOptTable desc codec stats (Some tz) next = Ok (t, next') ->
    optTable_isStale (obj t) desc stats (Some tz) = false
    /\ forall rawDesc zone,
         zonepb.Equal zone (Some tz) = true ->
         ~ typeVersionDiffers (obj desc) (obj rawDesc) ->
         optTable_isStale (obj t) rawDesc stats zone = false.
Proof.
  intros desc codec stats tz next t next' H. split.
  - eapply built_not_stale; [exact H|apply Equal_refl|].
    by apply typeVersionDiffers_same.
  - intros rawDesc zone. by eapply built_not_stale.
Qed.

Lemma built_table_not_stale_witness :
  optTable_isStale (obj Sample.docsTable) Sample.docs Sample.docsSnapshot
                   (Some Sample.zoned) = false.
Proof.
  apply (proj1 (built_table_not_stale Sample.docs 0%Z Sample.docsSnapshot
                  Sample.zoned 30 Sample.docsTable 32 docsTable_built)).
Defined.

Lemma withDataSources_same oc :
  optCatalog.withDataSources oc (optCatalog.dataSources oc) = oc.
Proof. by destruct oc. Qed.

(** X18.  What a call of [dataSourceForDesc] changes: never the planner or
    the system configuration of the catalog, and in the cache at most the
    entry of the descriptor it was called for.  A call that does not
    return a data source, because it returns an error or panics, leaves
    the catalog as it is, and a call that returns an error has allocated
    nothing.  A call for a virtual table leaves the catalog as it is:
    virtual tables are not cached.  After a call that returns a data
    source for a descriptor that is not the one of a virtual table, the
    cache holds this data source for the descriptor. *)
Theorem dataSourceForDesc_frame :
  forall (oc : optCatalog.t) (flags : cat_Flags.t)
         (desc : ptr tabledesc.Immutable) (name : tree.TableName)
         (next : nat) r oc' next',
    dataSourceForDesc oc flags desc name next = (r, oc', next') ->
    optCatalog.planner_ oc' = optCatalog.planner_ oc
    /\ optCatalog.cfg oc' = optCatalog.cfg oc
    /\ (forall k, k <> loc desc ->
                  optCatalog.dataSources oc' !! k
                  = optCatalog.dataSources oc !! k)
    /\ (isOk r = false -> oc' = oc)
    /\ (forall e, r = Err e -> next' = next)
    /\ ((desc_IsTable (obj desc) || desc_MaterializedView (obj desc))
        && tabledesc.IsVirtualTable (obj desc) = true -> oc' = oc)
    /\ (forall ds,
          r = Ok ds ->
          (desc_IsTable (obj desc) || desc_MaterializedView (obj desc))
          && tabledesc.IsVirtualTable (obj desc) = false ->
          optCatalog.dataSources oc' !! loc desc = Some ds).
Proof.
  intros oc flags desc name next r oc' next'.
  unfold dataSourceForDesc, dataSourceForTable.
  destruct (desc_IsTable (obj desc) || desc_MaterializedView (obj desc)).
  - destruct (tabledesc.IsVirtualTable (obj desc)).
    + destruct (newOptVirtualTable _ _ _ _) as [[vt n]| |];
        intros [= <- <- <-]; repeat split; try done; try discriminate.
    + destruct (_ ≫= _) as [[tableStats zoneConfig]| |];
        [|intros [= <- <- <-]; repeat split; try done; try discriminate
         |intros [= <- <- <-]; repeat split; try done; try discriminate].
      assert (Hnew :
        match newOptTable desc (optCatalog_codec oc) tableStats
                          (Some zoneConfig) next with
        | Ok (t, next'0) =>
            (Ok (DSTable (OptTable t)),
             optCatalog.withDataSources oc
               (<[loc desc:=DSTable (OptTable t)]> (optCatalog.dataSources oc)),
             next'0)
        | Err e => (Err e, oc, next)
        | Panic p => (Panic p, oc, next)
        end = (r, oc', next') ->
        optCatalog.planner_ oc' = optCatalog.planner_ oc
        /\ optCatalog.cfg oc' = optCatalog.cfg oc
        /\ (forall k, k <> loc desc ->
                      optCatalog.dataSources oc' !! k
                      = optCatalog.dataSources oc !! k)
        /\ (isOk r = false -> oc' = oc)
        /\ (forall e, r = Err e -> next' = next)
        /\ (true && false = true -> oc' = oc)
        /\ (forall ds, r = Ok ds -> true && false = false ->
                       optCatalog.dataSources oc' !! loc desc = Some ds)).
      { destruct (newOptTable _ _ _ _ _) as [[t n]| |];
          intros [= <- <- <-]; repeat split; try done; try discriminate.
        - intros k Hk. simpl. by rewrite lookup_insert_ne.
        - intros ds [= <-] _. simpl. by rewrite lookup_insert_eq. }
      destruct (optCatalog.dataSources oc !! loc desc) as [ds0|] eqn:Hc;
        [|exact Hnew].
      destruct ds0 as [[t0|vt0]|v0|s0];
        try (intros [= <- <- <-]; repeat split; try done; discriminate).
      destruct (negb (optTable_isStale _ _ _ _)); [|exact Hnew].
      intros [= <- <- <-]. repeat split; try done.
      intros ds [= <-] _. done.
  - destruct (optCatalog.dataSources oc !! loc desc) as [ds0|] eqn:Hc.
    + intros [= <- <- <-]. repeat split; try done.
      intros ds [= <-] _. done.
    + destruct (desc_IsView (obj desc)); [|destruct (desc_IsSequence (obj desc))];
        intros [= <- <- <-]; repeat split; try done; try discriminate;
        try (intros k Hk; simpl; by rewrite lookup_insert_ne);
        intros ds [= <-] _; simpl; by rewrite lookup_insert_eq.
Qed.

Lemma dataSourceForDesc_frame_witness :
  optCatalog.planner_
    (dataSourceForDesc Sample.theCatalog cat_Flags.zero Sample.docs
                       tree.emptyTableName 30).1.2
  = optCatalog.planner_ Sample.theCatalog
  /\ optCatalog.dataSources
       (dataSourceForDesc Sample.theCatalog cat_Flags.zero Sample.docs
                          tree.emptyTableName 30).1.2 !! loc Sample.docs
     = Some (DSTable (OptTable
                (Sample.tableOf
                   (newOptTable Sample.docs 0%Z None (Some emptyZoneConfig)
                                30)))).
Proof.
  destruct (dataSourceForDesc_frame Sample.theCatalog cat_Flags.zero
              Sample.docs tree.emptyTableName 30
              (dataSourceForDesc Sample.theCatalog cat_Flags.zero Sample.docs
                                 tree.emptyTableName 30).1.1
              (dataSourceForDesc Sample.theCatalog cat_Flags.zero Sample.docs
                                 tree.emptyTableName 30).1.2
              (dataSourceForDesc Sample.theCatalog cat_Flags.zero Sample.docs
                                 tree.emptyTableName 30).2)
    as (Hp & _ & _ & _ & _ & _ & Hc).
  - by destruct (dataSourceForDesc _ _ _ _ _) as [[? ?] ?].
  - split; [exact Hp|]. apply Hc; vm_compute; reflexivity.
Defined.

Lemma getZoneConfig_withDataSources oc m desc :
  optCatalog_getZoneConfig (optCatalog.withDataSources oc m) desc
  = optCatalog_getZoneConfig oc desc.
Proof. reflexivity. Qed.

(** X19.  The cache answers a later call with the same object.  After a
    call of [dataSourceForDesc] that returned a data source for a
    descriptor that is not the one of a virtual table, take a later call
    for the same descriptor with the same flags, at a time when the cache
    still has the entry the first call left for the descriptor, the
    statistics cache answers with the same snapshot as it did for the
    first call, and the lookup of the zone configuration gives the same
    answer as it did then.  This call returns the same data source again,
    builds nothing and leaves the catalog as it is.  The planner, the
    other entries of the cache, the name and the allocator may have
    changed in between. *)
Theorem dataSourceForDesc_again :
  forall (oc : optCatalog.t) (flags : cat_Flags.t)
         (desc : ptr tabledesc.Immutable) (name : tree.TableName)
         (next : nat) ds oc' next'
         (later : optCatalog.t) (name2 : tree.TableName) (next2 : nat),
    (desc_IsTable (obj desc) || desc_MaterializedView (obj desc))
    && tabledesc.IsVirtualTable (obj desc) = false ->
    dataSourceForDesc oc flags desc name next = (Ok ds, oc', next') ->
    optCatalog.dataSources later !! loc desc
    = optCatalog.dataSources oc' !! loc desc ->
    planner.GetTableStats (optCatalog.planner_ later)
                          (tabledesc.ID (obj desc))
    = planner.GetTableStats (optCatalog.planner_ oc)
                            (tabledesc.ID (obj desc)) ->
    optCatalog_getZoneConfig later desc = optCatalog_getZoneConfig oc desc ->
    dataSourceForDesc later flags desc name2 next2 = (Ok ds, later, next2).
Proof.
  intros oc flags desc name next ds oc' next' later name2 next2 Hv.
  unfold dataSourceForDesc, dataSourceForTable.
  destruct (desc_IsTable (obj desc) || desc_MaterializedView (obj desc)).
  - simpl in Hv. rewrite Hv.
    intros Hfirst Hcache Hstats Hzone. rewrite Hstats, Hzone, Hcache.
    revert Hfirst.
    destruct (if negb (cat_Flags.NoTableStats flags)
              then match planner.GetTableStats (optCatalog.planner_ oc)
                           (tabledesc.ID (obj desc)) with
                   | Ok tableStats => Ok tableStats
                   | Err _ => Ok None
                   | Panic p => Panic p
                   end
              else Ok None) as [tableStats| |] eqn:Hs; simpl;
      try discriminate.
    destruct (optCatalog_getZoneConfig oc desc) as [zoneConfig| |] eqn:Hz;
      simpl; try discriminate.
    assert (Hnew :
      match newOptTable desc (optCatalog_codec oc) tableStats
                        (Some zoneConfig) next with
      | Ok (t, next'0) =>
          (Ok (DSTable (OptTable t)),
           optCatalog.withDataSources oc
             (<[loc desc:=DSTable (OptTable t)]> (optCatalog.dataSources oc)),
           next'0)
      | Err e => (Err e, oc, next)
      | Panic p => (Panic p, oc, next)
      end = (Ok ds, oc', next') ->
      exists t,
        optCatalog.dataSources oc' !! loc desc = Some (DSTable (OptTable t))
        /\ ds = DSTable (OptTable t)
        /\ optTable_isStale (obj t) desc tableStats (Some zoneConfig) = false).
    { destruct (newOptTable desc (optCatalog_codec oc) tableStats
                            (Some zoneConfig) next) as [[t n]| |] eqn:Hb;
        try discriminate.
      intros [= <- <- <-]. exists t.
      cbn [optCatalog.withDataSources optCatalog.dataSources].
      rewrite lookup_insert_eq. split; [done|]. split; [done|].
      eapply built_not_stale; [exact Hb|apply Equal_refl|].
      by apply typeVersionDiffers_same. }
    assert (Hhit :
      (exists t,
         optCatalog.dataSources oc' !! loc desc = Some (DSTable (OptTable t))
         /\ ds = DSTable (OptTable t)
         /\ optTable_isStale (obj t) desc tableStats (Some zoneConfig)
            = false) ->
      match
        match optCatalog.dataSources oc' !! loc desc with
        | Some (DSTable (OptTable t) as ds) =>
            if negb (optTable_isStale (obj t) desc tableStats
                                      (Some zoneConfig))
            then Ok (Some ds) else Ok None
        | None => Ok None
        | _ => Panic (PanicRuntime "interface conversion")
        end
      with
      | Ok (Some ds) => (Ok ds, later, next2)
      | Ok None =>
          match newOptTable desc (optCatalog_codec later) tableStats
                            (Some zoneConfig) next2 with
          | Ok (t, next'0) =>
              (Ok (DSTable (OptTable t)),
               optCatalog.withDataSources later
                 (<[loc desc:=DSTable (OptTable t)]>
                    (optCatalog.dataSources later)),
               next'0)
          | Err e => (Err e, later, next2)
          | Panic p => (Panic p, later, next2)
          end
      | Err e => (Err e, later, next2)
      | Panic p => (Panic p, later, next2)
      end = (Ok ds, later, next2)).
    { intros (t & -> & -> & ->). done. }
    intros Hfirst. apply Hhit. revert Hfirst.
    destruct (optCatalog.dataSources oc !! loc desc) as [ds0|] eqn:Hc;
      [|exact Hnew].
    destruct ds0 as [[t0|vt0]|v0|s0]; try discriminate.
    destruct (optTable_isStale (obj t0) desc tableStats (Some zoneConfig))
      eqn:Hst; simpl; [exact Hnew|].
    intros [= <- <- <-]. by exists t0.
  - clear Hv. intros Hfirst Hcache _ _. rewrite Hcache. revert Hfirst.
    destruct (optCatalog.dataSources oc !! loc desc) as [ds0|] eqn:Hc.
    + intros [= <- <- <-]. by rewrite Hc.
    + destruct (desc_IsView (obj desc)); [|destruct (desc_IsSequence (obj desc))];
        try discriminate;
        intros [= <- <- <-]; simpl; by rewrite lookup_insert_eq.
Qed.

Lemma dataSourceForDesc_again_witness :
  dataSourceForDesc Sample.docsCatalogLater cat_Flags.zero Sample.docs
                    Sample.inDb1 40
  = (Ok (DSTable (OptTable
           (Sample.tableOf
              (newOptTable Sample.docs 0%Z Sample.docsSnapshot
                           (Some emptyZoneConfig) 30)))),
     Sample.docsCatalogLater, 40).
Proof.
  apply (dataSourceForDesc_again Sample.docsCatalog cat_Flags.zero Sample.docs
           tree.emptyTableName 30 _
           (dataSourceForDesc Sample.docsCatalog cat_Flags.zero Sample.docs
                              tree.emptyTableName 30).1.2
           31).
  - reflexivity.
  - vm_compute. reflexivity.
  - vm_compute. reflexivity.
  - vm_compute. reflexivity.
  - vm_compute. reflexivity.
Defined.

Lemma dataSourceForDesc_planner oc flags desc name next r oc' next' :
  dataSourceForDesc oc flags desc name next = (r, oc', next') ->
  optCatalog.planner_ oc' = optCatalog.planner_ oc
  /\ optCatalog.cfg oc' = optCatalog.cfg oc
  /\ (isOk r = false -> oc' = oc)
  /\ (forall e, r = Err e -> next' = next).
Proof.
  unfold dataSourceForDesc, dataSourceForTable.
  destruct (desc_IsTable (obj desc) || desc_MaterializedView (obj desc)).
  - destruct (tabledesc.IsVirtualTable (obj desc)).
    + destruct (newOptVirtualTable _ _ _ _) as [[vt n]| |];
        intros [= <- <- <-]; repeat split; try done; try discriminate.
    + destruct (_ ≫= _) as [[tableStats zoneConfig]| |];
        [|intros [= <- <- <-]; repeat split; try done; try discriminate
         |intros [= <- <- <-]; repeat split; try done; try discriminate].
      destruct (optCatalog.dataSources oc !! loc desc) as [[[t0|vt0]|v0|s0]|];
        try (intros [= <- <- <-]; repeat split; try done; discriminate);
        try destruct (negb (optTable_isStale _ _ _ _));
        try (intros [= <- <- <-]; repeat split; try done; discriminate);
        destruct (newOptTable _ _ _ _ _) as [[t n]| |];
        intros [= <- <- <-]; repeat split; try done; try discriminate.
  - destruct (optCatalog.dataSources oc !! loc desc) as [ds0|].
    + intros [= <- <- <-]. repeat split; try done.
    + destruct (desc_IsView (obj desc)); [|destruct (desc_IsSequence (obj desc))];
        intros [= <- <- <-]; repeat split; try done; try discriminate.
Qed.

Lemma resolveDataSourceByID_planner oc dataSourceID next r oc' next' :
  resolveDataSourceByID oc dataSourceID next = (r, oc', next') ->
  optCatalog.planner_ oc' = optCatalog.planner_ oc
  /\ optCatalog.cfg oc' = optCatalog.cfg oc
  /\ ((forall ds, r <> Returned (Some ds) false None) ->
      optCatalog.dataSources oc' = optCatalog.dataSources oc)
  /\ (forall ds isAdding err,
        r = Returned ds isAdding (Some err) -> next' = next).
Proof.
  unfold resolveDataSourceByID.
  destruct (planner.LookupTableByID _ _ _) as [desc|e|v].
  - destruct (dataSourceForDesc _ _ _ _ _) as [[rd oc1] n1] eqn:Hd.
    apply dataSourceForDesc_planner in Hd as (Hp & Hc & Hf & He).
    destruct rd as [ds|e|v]; intros [= <- <- <-];
      (split; [done|]); (split; [done|]); (split; [|try done]).
    + intros Hn. by destruct (Hn ds).
    + intros _. by rewrite (Hf eq_refl).
    + intros _ _ _ _. by apply (He e).
    + intros _. by rewrite (Hf eq_refl).
  - destruct (_ || _); intros [= <- <- <-]; done.
  - intros [= <- <- <-]; done.
Qed.

(** X20.  [ResolveDataSourceByID] leaves the planner as it found it: the
    flag [avoidCachedDescriptors], which is set for the time of a call
    whose flags ask to avoid the descriptor caches, has its previous value
    again when the call returns or panics, whatever the outcome; the system
    configuration is not touched; a call that does not return a data
    source, because it returns an error or panics, leaves the cache as it
    is; and a call that returns an error has allocated nothing. *)
Theorem ResolveDataSourceByID_restores :
  forall (oc : optCatalog.t) (flags : cat_Flags.t) (dataSourceID : Z)
         (next : nat) r oc' next',
    optCatalog_ResolveDataSourceByID oc flags dataSourceID next
    = (r, oc', next') ->
    optCatalog.planner_ oc' = optCatalog.planner_ oc
    /\ optCatalog.cfg oc' = optCatalog.cfg oc
    /\ planner.avoidCachedDescriptors
         (optCatalog.planner_ (duringCall oc flags))
       = cat_Flags.AvoidDescriptorCaches flags
         || planner.avoidCachedDescriptors (optCatalog.planner_ oc)
    /\ ((forall ds, r <> Returned (Some ds) false None) ->
        optCatalog.dataSources oc' = optCatalog.dataSources oc)
    /\ (forall ds isAdding err,
          r = Returned ds isAdding (Some err) -> next' = next).
Proof.
  intros oc flags dataSourceID next r oc' next'.
  unfold optCatalog_ResolveDataSourceByID, duringCall.
  destruct (cat_Flags.AvoidDescriptorCaches flags).
  - destruct (resolveDataSourceByID _ _ _) as [[r1 oc1] n1] eqn:Hr.
    apply resolveDataSourceByID_planner in Hr as (Hp & Hc & Hf & He).
    intros [= <- <- <-]. simpl in *. rewrite Hp. simpl.
    split; [by destruct (optCatalog.planner_ oc)|].
    split; [done|]. split; [done|]. done.
  - intros Hr.
    apply resolveDataSourceByID_planner in Hr as (Hp & Hc & Hf & He).
    done.
Qed.

Lemma ResolveDataSourceByID_restores_witness :
  optCatalog.planner_
    (optCatalog_ResolveDataSourceByID Sample.theCatalog Sample.avoidCaches
       71 10).1.2
  = optCatalog.planner_ Sample.theCatalog
  /\ planner.avoidCachedDescriptors
       (optCatalog.planner_ (duringCall Sample.theCatalog Sample.avoidCaches))
     = true
  /\ optCatalog.dataSources
       (optCatalog_ResolveDataSourceByID Sample.theCatalog Sample.avoidCaches
          71 10).1.2
     = optCatalog.dataSources Sample.theCatalog
  /\ (optCatalog_ResolveDataSourceByID Sample.theCatalog Sample.avoidCaches
        71 10).2
     = 10.
Proof.
  destruct (ResolveDataSourceByID_restores Sample.theCatalog Sample.avoidCaches
              71 10
              (optCatalog_ResolveDataSourceByID Sample.theCatalog
                 Sample.avoidCaches 71 10).1.1
              (optCatalog_ResolveDataSourceByID Sample.theCatalog
                 Sample.avoidCaches 71 10).1.2
              (optCatalog_ResolveDataSourceByID Sample.theCatalog
                 Sample.avoidCaches 71 10).2)
    as (Hp & _ & Ha & Hf & He).
  - by destruct (optCatalog_ResolveDataSourceByID _ _ _ _) as [[? ?] ?].
  - split; [exact Hp|]. split; [exact Ha|]. split.
    + apply Hf. intros ds. vm_compute. discriminate.
    + apply (He None true (UndefinedRelationError (int64 71))).
      vm_compute. reflexivity.
Defined.

(** ** The descriptors behind the columns *)

(** X21.  [getColDesc(i)] of a built table is the column descriptor behind
    the column [i]: for a column of the table descriptor, public or in a
    mutation, it is that column of the descriptor, from which the column
    has its ID, name, nullability and visibility, and by whose position the
    column is ordinary, write-only or delete-only; for the system column it
    is the descriptor of the MVCC timestamp column; for the virtual column
    of an inverted index it is nil; past the last column it panics. *)
Theorem getColDesc_built :
  forall (desc : ptr tabledesc.Immutable) (codec : SQLCodec)
         (stats : option (slice stats.TableStatistic))
         (tblZone : option (ptr zonepb.ZoneConfig)) (next : nat) t next' i,
    newOptTable desc codec stats tblZone next = Ok (t, next') ->
    (forall c,
       optTable_Column (obj t) i = Ok c ->
       (i < length (tabledesc.DeletableColumns (obj desc)) ->
        exists cd,
          tabledesc.DeletableColumns (obj desc) !! i = Some cd
          /\ optTable_getColDesc (obj t) i = Ok (Some (ColumnOfDescriptor cd))
          /\ cat.ColID c = cat.StableID (descpb.ColumnDescriptor.ID cd)
          /\ cat.ColName c = descpb.ColumnDescriptor.Name cd
          /\ cat.IsNullable c = descpb.ColumnDescriptor.Nullable cd
          /\ cat.IsHidden c = descpb.ColumnDescriptor.Hidden cd
          /\ cat.Kind c
             = (if decide (i < length (tabledesc.Columns (obj desc)))
                then cat.Ordinary
                else if decide (i < length (tabledesc.WritableColumns
                                              (obj desc)))
                     then cat.WriteOnly else cat.DeleteOnly))
       /\ (length (tabledesc.DeletableColumns (obj desc)) <= i ->
           (cat.Kind c = cat.System
            /\ optTable_getColDesc (obj t) i = Ok (Some MVCCTimestampColumnDesc))
           \/ (cat.Kind c = cat.Virtual
               /\ optTable_getColDesc (obj t) i = Ok None)))
    /\ (optTable_ColumnCount (obj t) <= i ->
        optTable_getColDesc (obj t) i
        = Panic (PanicRuntime "index out of range")).
Proof.
  intros desc codec stats tblZone next t next' i H.
  pose proof (newOptTable_Ok _ _ _ _ _ _ _ H) as (_ & _ & _ & Hdesc & _).
  apply built_columns in H as (_ & _ & extra & Hc & Hv & _).
  unfold optTable_getColDesc, optTable_Column, optTable_ColumnCount.
  rewrite Hdesc, Hc.
  assert (Hlen : length (tabledesc.DeletableColumns (obj desc))
                 <= length (baseColumns (obj desc))).
  { rewrite length_baseColumns. lia. }
  split.
  - intros c Hi. apply index_Ok_inv in Hi. split.
    + intros Hlt. rewrite decide_True by done.
      destruct (lookup_lt_is_Some_2 _ _ Hlt) as [cd Hcd].
      exists cd. split; [done|]. rewrite (index_Ok _ _ _ Hcd). simpl.
      split; [done|].
      assert (Hci : descColumns (obj desc) !! i = Some c).
      { rewrite lookup_app_l in Hi by lia.
        destruct (baseColumns_cases (obj desc)) as [[_ Hb]|[_ Hb]];
          rewrite Hb in Hi; [done|].
        by rewrite lookup_app_l in Hi by (by rewrite length_descColumns). }
      apply descColumns_lookup_inv in Hci as (cd' & Hcd' & ->).
      assert (cd' = cd) as -> by congruence. done.
    + intros Hge. rewrite decide_False by lia.
      rewrite (index_Ok _ _ _ Hi). simpl.
      apply lookup_app_Some in Hi as [Hi|[_ Hi]].
      * left.
        destruct (baseColumns_cases (obj desc)) as [[_ Hb]|[_ Hb]];
          rewrite Hb in Hi.
        { apply lookup_lt_Some in Hi. rewrite length_descColumns in Hi. lia. }
        apply lookup_app_Some in Hi as [Hi|[_ Hi]].
        { apply lookup_lt_Some in Hi. rewrite length_descColumns in Hi. lia. }
        apply list_lookup_singleton_Some in Hi as [_ <-]. done.
      * right. eapply Forall_lookup_1 in Hi; [|exact Hv].
        destruct Hi as [Hk Hid]. split; [done|]. by rewrite Hid.
  - intros Hge. rewrite length_app in Hge.
    rewrite decide_False by lia. rewrite index_ge by (rewrite length_app; lia).
    done.
Qed.

Lemma getColDesc_built_witness :
  optTable_getColDesc (obj Sample.docsTable) 3
  = Ok (Some (ColumnOfDescriptor Sample.colNew))
  /\ optTable_getColDesc (obj Sample.docsTable) 4
     = Ok (Some MVCCTimestampColumnDesc)
  /\ optTable_getColDesc (obj Sample.docsTable) 5 = Ok None
  /\ optTable_getColDesc (obj Sample.docsTable) 6
     = Panic (PanicRuntime "index out of range").
Proof.
  pose proof (fun i => getColDesc_built Sample.docs 0%Z Sample.docsSnapshot
                (Some Sample.zoned) 30 Sample.docsTable 32 i docsTable_built)
    as H.
  assert (H3 : optTable_Column (obj Sample.docsTable) 3
               = Ok (initColumnFromDesc 3 4 3 Sample.colNew))
    by (vm_compute; reflexivity).
  assert (H4 : optTable_Column (obj Sample.docsTable) 4
               = Ok (mvccTimestampColumn 4))
    by (vm_compute; reflexivity).
  assert (H5 : optTable_Column (obj Sample.docsTable) 5
               = Ok (cat.InitVirtual 5 "doc_inverted_key"
                       (Some Sample.jsonType) false 1))
    by (vm_compute; reflexivity).
  split; [|split; [|split]].
  - destruct (proj1 (proj1 (H 3) _ H3) ltac:(vm_compute; lia))
      as (cd & Hcd & Hg & _).
    vm_compute in Hcd. injection Hcd as <-. exact Hg.
  - destruct (proj2 (proj1 (H 4) _ H4) ltac:(vm_compute; lia))
      as [[_ Hg]|[Hk _]]; [exact Hg|discriminate Hk].
  - destruct (proj2 (proj1 (H 5) _ H5) ltac:(vm_compute; lia))
      as [[Hk _]|[_ Hg]]; [discriminate Hk|exact Hg].
  - apply (proj2 (H 6)). vm_compute. lia.
Defined.

(** ** The column map, conversely *)

(** X22.  The column map of a built table is complete: when the column IDs
    of the descriptor are distinct 32-bit values below the system column's
    ID, [lookupColumnOrdinal] of the ID of the [i]-th column of the
    descriptor (mutation columns included) returns [i] and no error, and
    [Column] at this ordinal is the column with this ID; when the table has
    no column with the name of the MVCC timestamp column, the ID of this
    system column is found at the ordinal after the last descriptor
    column. *)
Theorem lookupColumnOrdinal_complete :
  forall (desc : ptr tabledesc.Immutable) (codec : SQLCodec)
         (stats : option (slice stats.TableStatistic))
         (tblZone : option (ptr zonepb.ZoneConfig)) (next : nat) t next',
    newOptTable desc codec stats tblZone next = Ok (t, next') ->
    validColumns (obj desc) ->
    (forall i cd,
       tabledesc.DeletableColumns (obj desc) !! i = Some cd ->
       optTable_lookupColumnOrdinal (obj t) (descpb.ColumnDescriptor.ID cd)
       = (i, None)
       /\ exists c, optTable_Column (obj t) i = Ok c
                    /\ cat.ColID c = descpb.ColumnDescriptor.ID cd
                    /\ cat.ColName c = descpb.ColumnDescriptor.Name cd)
    /\ ((forall c, tabledesc.FindColumnByName (obj desc)
                     colinfo.MVCCTimestampColumnName <> Ok c) ->
        optTable_lookupColumnOrdinal (obj t) colinfo.MVCCTimestampColumnID
        = (length (tabledesc.DeletableColumns (obj desc)), None)).
Proof.
  intros desc codec stats tblZone next t next' H Hv.
  apply built_columns in H as (Hm & _ & extra & Hc & _).
  pose proof (baseColumns_keys_NoDup _ Hv) as Hnd.
  unfold optTable_lookupColumnOrdinal, optTable_Column. rewrite Hm, Hc.
  split.
  - intros i cd Hi.
    destruct (baseColumns_lookup _ i cd Hi) as (c & Hci & Hid & _).
    pose proof (buildColMap_lookup _ _ _ Hnd Hci) as Hl.
    destruct Hv as [_ Hr]. rewrite Forall_lookup in Hr.
    specialize (Hr i cd Hi). simpl in Hr.
    unfold colKey in Hl. rewrite Hid, colKey_of_ID in Hl by lia.
    rewrite Hl. split; [done|].
    exists c. split; [apply index_Ok; by apply lookup_app_l_Some|].
    split.
    + rewrite Hid. apply StableID_small. lia.
    + assert (descColumns (obj desc) !! i = Some c) as Hd.
      { destruct (baseColumns_cases (obj desc)) as [[_ Hb]|[_ Hb]];
          rewrite Hb in Hci;
          [done|].
        apply lookup_app_Some in Hci as [Hci|[Hge _]]; [done|].
        apply lookup_lt_Some in Hi. rewrite length_descColumns in Hge. lia. }
      unfold descColumns in Hd. rewrite list_lookup_imap, Hi in Hd.
      simpl in Hd. by injection Hd as <-.
  - intros Hno.
    assert (baseColumns (obj desc)
            = descColumns (obj desc)
              ++ [mvccTimestampColumn (length (descColumns (obj desc)))])
      as Hb.
    { unfold baseColumns.
      destruct (tabledesc.FindColumnByName _ _) eqn:Hf; [|done|done].
      by destruct (Hno a). }
    assert (baseColumns (obj desc) !! length (descColumns (obj desc))
            = Some (mvccTimestampColumn (length (descColumns (obj desc)))))
      as Hl.
    { rewrite Hb. rewrite lookup_app_r by lia.
      by rewrite Nat.sub_diag. }
    pose proof (buildColMap_lookup _ _ _ Hnd Hl) as Hk.
    change (colKey (mvccTimestampColumn _))
      with colinfo.MVCCTimestampColumnID in Hk.
    rewrite Hk. by rewrite length_descColumns.
Qed.

Lemma docs_validColumns : validColumns Sample.docsDesc.
Proof.
  split.
  - apply (bool_decide_unpack _). vm_compute. reflexivity.
  - repeat constructor; simpl; unfold MaxUint32; lia.
Qed.

Lemma lookupColumnOrdinal_complete_witness :
  optTable_lookupColumnOrdinal (obj Sample.docsTable) 4%Z = (3, None)
  /\ optTable_lookupColumnOrdinal (obj Sample.docsTable)
       colinfo.MVCCTimestampColumnID = (4, None).
Proof.
  destruct (lookupColumnOrdinal_complete Sample.docs 0%Z Sample.docsSnapshot
              (Some Sample.zoned) 30 Sample.docsTable 32 docsTable_built
              docs_validColumns)
    as [H1 H2].
  split.
  - by destruct (H1 3 Sample.colNew eq_refl) as [? _].
  - apply H2. intros c. vm_compute. discriminate.
Defined.
